(* ===== verification/_CoqProject ===== *)
-Q . S2P
Prelude.v
Bytes.v
Checksum.v
TimeUtils.v
Log.v
Interface.v
Os.v
SocketIO.v
State.v
Spec.v
DeviceNode.v
NodeStates.v
NodeSim.v
PhysicalMedium.v
Acceptor.v
Main.v
X6losim.v
Threads.v
Invariant.v
Preserve.v
Follow.v
Fuel.v
MediumSafe.v
Total.v
Examples.v
Safety.v
Messages.v
TxLife.v
Wire.v
Accounts.v
Collisions.v
Registration.v
Protocol.v
Session.v
Accepting.v
Interleaving.v
Process.v
