(* ===== verification/Prelude.v ===== *)
(** * x6losim: a verification development

    x6losim simulates the physical medium between virtual 802.15.4 nodes (QEMU
    machines).  A node connects over TCP, is given an id, confirms its
    registration, asks whether the channel is clear (CCA), hands in frames to
    transmit and is told how each transmission ended; a frame that did not
    collide is multicast to the other nodes.  There are two media, powerline and
    wireless, each run by a thread of its own; the main thread makes them, turns
    connections into nodes of one medium or the other, and on a signal stops the
    threads and deletes everything.

    ** The program and the files that model it

    - Prelude: outcomes of C++ code ([res], [fault]), the state and fault monad
      [M], exceptions ([try_catch]), weakest preconditions [wp], loops and the
      tactics of the library.
    - Bytes: buffers, loads and stores, [htons] and its relatives.
    - Checksum: [generate_checksum] (src/src/sim/DeviceNode.cpp).
    - TimeUtils: src/src/utils/time.cpp.  Log: src/src/log/log.cpp.
    - Interface: src/src/x6losim_interface.h, byte for byte.
    - Os: the system calls.  SocketIO: src/src/socket/Socket.cpp (Modules
      [Socket], [SocketUnblocker] and [ServerSocket]).
    - State: the objects of src/src/sim/Simulator.hpp and the private classes of
      DeviceNode.cpp and PhysicalMedium.cpp, as records; a [world] is one medium
      with its heap.
    - Spec: the abstract specification, a map from nodes to phases and the events
      that change it.
    - DeviceNode: packets ([NetSimPkt]), timers ([NodeTimer]), the messages a
      node is sent, and the lists and maps of the medium a node's handlers
      change.  NodeStates: the state classes ([Registering], [Active], [Tx]), the
      handlers and [readMsg] (src/src/sim/DeviceNode.cpp).
    - PhysicalMedium: src/src/sim/PhysicalMedium.cpp, from the constructor to the
      destructor; the subclasses are instances of the class [CollisionCheck].
    - Acceptor: src/src/sim/Simulator.cpp.  Main: src/src/main.cpp.
    - Threads: the three threads and the signals as one transition system,
      [act] and [reachable] on [system]; [main_step] is main, the constructor and
      destructor of the simulator and the acceptor's loop, [thread_step] is
      PhysicalMedium::run, both cut in pieces.
    - NodeSim: the other end of a connection, the class the repository tests the
      simulator with (src/test/nodesim/common.cpp and TxOnePacket.cpp).
    - X6losim: src/src/x6losim.c, the older server in one file, from main to exit.
      No build target names it, and it uses three fields the header of a message
      no longer has: where they are is up to the class [OldHeader].

    A method is the Definition of the same name; a constructor is [make] or the
    name of its class.  A loop whose bound is not a list is a Fixpoint with fuel.

    ** How C++ is read

    - An assertion is enabled and its failure stops the process ([AssertFail]); a
      thrown string is [Throw].  main catches what its own thread throws; nothing
      on the media's threads does.  The state a fault is raised in is kept.
    - A use of a deleted object, an access outside a buffer, a NULL pointer, an
      overflow of a signed type and a mutex locked twice by its owner are faults
      ([Undef]).  An object is a key of a heap map; keys are not used again.  A
      node's id is the address of its Socket, which is unique among the sockets
      alive and no more ([Inv] says so); where the heap puts it is up to the class
      [Allocator].  A node no pointer leads to, because the constructor's caller
      threw, leaves its medium's heap.
    - The host is little-endian x86-64 Linux.  malloc and new do not fail.
    - What the calls of the log print is left out, but for the memory they read:
      the two names printed with %s in handleRegistrationConfirm, the frame dumped
      by txPacket.  (sendMsg prints a message it could not send with %s; every
      message sent is shorter than 256 bytes, so its first byte is zero.)  The log
      itself is Log.
    - The system is a script of answers, one for each thread, quantified over in
      every theorem.  An answer is read as a result the call can have: [send] and
      [recv] do not report more than they were given, epoll_wait reports a
      descriptor that is open, once each ([deliverable]).  A script that has run
      out is a call that never returns ([Blocked]).
    - The iteration order of an unordered_map is any permutation of its entries
      (class [HashOrder]).
    - Threads interleave between pieces.  A piece of a medium's thread ends where
      the thread waits, and where it looks at or writes the state that stop
      writes; a piece of the main thread is a line of main, one of the starts or
      stops of a thread, or a round of the acceptor.  A signal is handled between
      two pieces.  Within a piece the only race known to matter, the two halves of
      addNode against readMsg, is [addNode_race].

    ** Fuel

    [run], [tx_loop], [interval_loop], [sendMsg], the acceptor's loop, the loop over
    the options and the loop of the older server take one more than the answers
    left as fuel.  Each round waits for at least one answer, so this is enough:
    Fuel counts the answers every operation takes, and [run_terminates], [run_safe], [start_safe],
    [process_safe] and [sendMsg_spec] state that [NoFuel] does not happen.  The
    loop of removeNodeFromTxList, which the program never calls, does run out of
    any fuel: [removeNodeFromTxList_ends] says exactly when.

    ** The theorems

    - Invariant states what a medium keeps ([Inv]) and how it moves with changes
      of the maps and lists; Preserve shows that every operation on a node keeps
      it with benign faults only; Follow that what a medium does to its nodes are
      events of the specification; Fuel bounds the loops; MediumSafe puts them
      together for the medium's thread, against the class [CollisionCheckOk] that
      both subclasses implement.
    - Safety: the thread of a medium is safe, terminates and refines the
      specification; which registrations time out; and the one way the thread goes
      wrong, a node that leaves while it transmits.
    - Messages: the round trip of a sealed message, corrupted messages, and what
      readMsg does with lengths that are too short.  Wire: all the simulator sends
      are messages of the interface.
    - TxLife: the start of a transmission, collisions, its end, CCA answers.
    - Collisions: several transmissions at once, to the call: all collide on the
      powerline, all go out on the wireless medium ([transmissions_meet]).
    - Accounts: what a medium counts and captures is what it multicasts
      ([run_statistics]).
    - Registration: joining, registering, the medium's states, the destructor.
    - Protocol: both ends of a connection together: a client of NodeSim registers,
      asks for the channel, and its frame reaches the other clients.  Session: the
      client program TxOnePacket and its node, from the connection to the frame.
    - Accepting: the acceptor's descriptors, errors and loop.
    - Interleaving: the pieces of a medium's thread are run; what an order to stop
      does at each of them, and where it is lost.
    - Process: under every interleaving of the threads and the signals the process
      is safe from the first line of main to exit ([process_safe], by the
      invariant [sys_inv]); a signal ends it ([signal_ends_process]); and when a
      signal is lost or comes too late ([signal_windows]).
    - X6losim: the older server relays every datagram ([x6losim_relays]), its hex
      dump is that of Log ([hexdump_as_log]), and where it reads outside its
      buffer ([relay_overruns]).
    - Checksum, TimeUtils, Log and SocketIO hold their own theorems.
    - Total and Examples: runs that return, and the concrete media on which every
      theorem with hypotheses is applied.

    ** Not modelled

    - Of the tests, connect_no_reg_con.cpp, which is not built, the stubs of
      another logger and the empty suites.
    - Interleavings inside a piece, and what the C++ memory model says of the data
      races; signals inside a piece, and those a handler is not installed for.
    - The contents of the pcap file and of the log's text, the multicast group's
      address, and the struct sigevent.
*)

From Stdlib Require Import ZArith Lia.
From stdpp Require Import base tactics list gmap numbers option strings.

#[global] Open Scope Z_scope.
#[global] Coercion Z.of_nat : nat >-> Z.

Declare Scope x6_scope.
Delimit Scope x6_scope with x6.

(** ** Outcomes of C++ code

    A C++ call returns a value, throws an exception, stops the process with a
    failed [assert], runs into undefined behaviour, waits for an answer of the
    operating system that never comes, or (an artefact of the model, shown not
    to happen wherever fuel is used) runs out of fuel. *)

Inductive ub : Type :=
  | UseAfterFree      (* an object of the heap that was deleted *)
  | OutOfBounds       (* a read or write outside a buffer *)
  | NullDeref         (* a NULL pointer used as an object *)
  | SignedOverflow    (* an int computation outside its range *)
  | Deadlock.         (* std::mutex locked again by its owner *)

Inductive fault : Type :=
  | Throw (msg : string)
  | AssertFail (msg : string)
  | Undef (k : ub)
  | Blocked
  | NoFuel.

Inductive res (A : Type) : Type :=
  | Ok (a : A)
  | Fail (f : fault).
Arguments Ok {A} a.
Arguments Fail {A} f.

(** The faults that are exceptions. *)
Definition throws (f : fault) : bool := match f with Throw _ => true | _ => false end.

#[export] Instance ub_eq_dec : EqDecision ub.
Proof. solve_decision. Defined.
#[export] Instance fault_eq_dec : EqDecision fault.
Proof. solve_decision. Defined.

(** ** The state and fault monad

    [M S A]: a computation over the state [S]; the state reached is kept when
    the computation fails, as the effects made before a throw are. *)

Definition M (S A : Type) : Type := S → res A * S.

#[export] Instance M_ret S : MRet (M S) := λ A a s, (Ok a, s).
#[export] Instance M_bind S : MBind (M S) := λ A B f m s,
  match m s with
  | (Ok a, s') => f a s'
  | (Fail e, s') => (Fail e, s')
  end.

Section Monad.
Context {S : Type}.

Definition failw {A} (f : fault) : M S A := λ s, (Fail f, s).
Definition gets {A} (f : S → A) : M S A := λ s, (Ok (f s), s).
Definition modify (f : S → S) : M S unit := λ s, (Ok tt, f s).

(** [assert(b)] of a build with assertions enabled. *)
Definition cassert (b : bool) (msg : string) : M S unit :=
  if b then mret tt else failw (AssertFail msg).

(** The value of a partial operation, or undefined behaviour [k]. *)
Definition some_or {A} (k : ub) (o : option A) : M S A :=
  match o with Some a => mret a | None => failw (Undef k) end.

Definition whenb (b : bool) (m : M S unit) : M S unit :=
  if b then m else mret tt.

(** [try { m } catch (const char * msg) { h msg }]: the handler runs in the state
    the exception was thrown in; the other faults are no exceptions. *)
Definition try_catch {A} (m : M S A) (h : string → M S A) : M S A := λ s,
  match m s with
  | (Fail (Throw msg), s') => h msg s'
  | r => r
  end.
End Monad.

(** A computation on a part of the state. *)
Definition zoom {S T A} (get : T → S) (set : S → T → T) (m : M S A) : M T A :=
  λ t, let '(r, s') := m (get t) in (r, set s' t).

(** ** Weakest preconditions

    [wp E m Q s]: run from [s], [m] either returns a value and a state in [Q],
    or fails with a fault and a state in [E]. *)

Definition wp {S A} (E : fault → S → Prop) (m : M S A) (Q : A → S → Prop) (s : S) : Prop :=
  match m s with
  | (Ok a, s') => Q a s'
  | (Fail f, s') => E f s'
  end.

Section Wp.
Context {S : Type} (E : fault → S → Prop).

Lemma wp_ret {A} (a : A) Q s : wp E (mret a) Q s ↔ Q a s.
Proof. done. Qed.

Lemma wp_bind {A B} (m : M S A) (f : A → M S B) Q s :
  wp E (m ≫= f) Q s ↔ wp E m (λ a, wp E (f a) Q) s.
Proof. unfold wp, mbind, M_bind. by destruct (m s) as [[a|e] s']. Qed.

Lemma wp_fail {A} f (Q : A → S → Prop) s : wp E (failw f) Q s ↔ E f s.
Proof. done. Qed.

Lemma wp_gets {A} (g : S → A) Q s : wp E (gets g) Q s ↔ Q (g s) s.
Proof. done. Qed.

Lemma wp_modify g Q s : wp E (modify g) Q s ↔ Q tt (g s).
Proof. done. Qed.

Lemma wp_assert b msg Q s :
  wp E (cassert b msg) Q s ↔ if b then Q tt s else E (AssertFail msg) s.
Proof. by destruct b. Qed.

Lemma wp_some_or {A} k (o : option A) Q s :
  wp E (some_or k o) Q s ↔
  match o with Some a => Q a s | None => E (Undef k) s end.
Proof. by destruct o. Qed.

Lemma wp_whenb b m Q s :
  wp E (whenb b m) Q s ↔ if b then wp E m Q s else Q tt s.
Proof. by destruct b. Qed.

Lemma wp_try_catch {A} (m : M S A) (h : string → M S A) (Q : A → S → Prop) s :
  wp E (try_catch m h) Q s ↔
  wp (λ f s', match f with Throw msg => wp E (h msg) Q s' | _ => E f s' end) m Q s.
Proof. unfold wp, try_catch. by destruct (m s) as [[a|[]] s']. Qed.

Lemma wp_mono {A} (m : M S A) (Q Q' : A → S → Prop) s :
  wp E m Q s → (∀ a s', Q a s' → Q' a s') → wp E m Q' s.
Proof. unfold wp. destruct (m s) as [[a|e] s']; auto. Qed.

Lemma wp_conj {A} (m : M S A) (Q Q' : A → S → Prop) s :
  wp E m Q s → wp E m Q' s → wp E m (λ a s', Q a s' ∧ Q' a s') s.
Proof. unfold wp. destruct (m s) as [[a|e] s']; auto. Qed.
End Wp.

(** What is shown of a run with other faults in mind. *)
Lemma wp_and {S A} E E' (m : M S A) (Q Q' : A → S → Prop) s :
  wp E m Q s → wp E' m Q' s → wp E m (λ a s', Q a s' ∧ Q' a s') s.
Proof. unfold wp. by destruct (m s) as [[a|f] s']. Qed.

Lemma wp_both {S A} E E' (m : M S A) (Q Q' : A → S → Prop) s :
  wp E m Q s → wp E' m Q' s →
  wp (λ f s', E f s' ∧ E' f s') m (λ a s', Q a s' ∧ Q' a s') s.
Proof. unfold wp. destruct (m s) as [[a|f] s']; auto. Qed.

(** Reading a [wp] back as a statement on the run. *)
Lemma wp_run {S A} E (m : M S A) Q s r s' :
  m s = (r, s') → wp E m Q s →
  match r with Ok a => Q a s' | Fail f => E f s' end.
Proof. unfold wp. intros ->. by destruct r. Qed.

Lemma wp_mono_E {S A} (E E' : fault → S → Prop) (m : M S A) Q s :
  wp E m Q s → (∀ f s', E f s' → E' f s') → wp E' m Q s.
Proof. unfold wp. destruct (m s) as [[a|e] s']; auto. Qed.

Lemma wp_zoom {S T A} (get : T → S) (set : S → T → T) (m : M S A) E Q t :
  wp E (zoom get set m) Q t ↔
  wp (λ f s, E f (set s t)) m (λ a s, Q a (set s t)) (get t).
Proof. unfold wp, zoom. by destruct (m (get t)) as [[a|e] s']. Qed.

(** The rewriting base that computes a [wp] through the monad. *)
Create Rewrite HintDb wpdb.
#[export] Hint Rewrite @wp_ret @wp_bind @wp_fail @wp_gets @wp_modify
  @wp_assert @wp_some_or @wp_whenb : wpdb.

Ltac wp_simpl := repeat (progress (autorewrite with wpdb; cbn beta iota)).

(** ** Running the monad: equations for a known head *)

Lemma bind_ok {S A B} (m : M S A) (f : A → M S B) s a s' :
  m s = (Ok a, s') → (m ≫= f) s = f a s'.
Proof. unfold mbind, M_bind. by intros ->. Qed.

Lemma bind_fail {S A B} (m : M S A) (f : A → M S B) s e s' :
  m s = (Fail e, s') → (m ≫= f) s = (Fail e, s').
Proof. unfold mbind, M_bind. by intros ->. Qed.

(** What is known of a run of two calls is known of it in a longer one. *)
Lemma bind_then {S A B C} (m : M S A) (n : M S B) (k : B → M S C) s b s' :
  (m;; n) s = (Ok b, s') → (m;; (n ≫= k)) s = k b s'.
Proof.
  unfold mbind, M_bind. destruct (m s) as [[a|f] s1]; [|done]. by intros ->.
Qed.

(** ** Options and lists *)

Lemma elem_of_snoc {A} (x y : A) l : x ∈ l ++ [y] ↔ x ∈ l ∨ x = y.
Proof. rewrite elem_of_app, list_elem_of_singleton. done. Qed.

Lemma NoDup_snoc {A} (x : A) l : NoDup (l ++ [x]) ↔ NoDup l ∧ x ∉ l.
Proof.
  rewrite NoDup_app. split.
  - intros (? & Hd & ?). split; [done|]. intros Hx. apply (Hd x Hx). set_solver.
  - intros [? Hx]. split_and!; [done| |apply NoDup_singleton].
    intros y Hy ->%list_elem_of_singleton. done.
Qed.

(** Either all the elements are [x], or there is a first one that is not. *)
Lemma first_other {A} `{EqDecision A} (x : A) l :
  Forall (λ y, y = x) l ∨ ∃ l1 y l2, l = l1 ++ y :: l2 ∧ Forall (λ y, y = x) l1 ∧ y ≠ x.
Proof.
  induction l as [|y l IH]; [by left|]. destruct (decide (y = x)) as [->|Hne].
  - destruct IH as [IH|(l1 & z & l2 & -> & H1 & Hz)]; [left; by constructor|].
    right. exists (x :: l1), z, l2. split; [done|]. split; [by constructor|done].
  - right. exists [], y, l. done.
Qed.

(** ** Machine integers *)

Definition INT_MIN : Z := - 2 ^ 31.
Definition INT_MAX : Z := 2 ^ 31 - 1.

(** The result of an [int] operation, [None] for a signed overflow. *)
Definition checked_int (z : Z) : option Z :=
  if bool_decide (INT_MIN ≤ z ≤ INT_MAX) then Some z else None.

(** The same for [long], which is 64 bits wide. *)
Definition LONG_MIN : Z := - 2 ^ 63.
Definition LONG_MAX : Z := 2 ^ 63 - 1.

Definition checked_long (z : Z) : option Z :=
  if bool_decide (LONG_MIN ≤ z ≤ LONG_MAX) then Some z else None.

(** Conversion to an unsigned type of [n] bits, and to a signed 64-bit one. *)
Definition to_unsigned (n z : Z) : Z := z mod 2 ^ n.
Definition to_s64 (z : Z) : Z := (z + 2 ^ 63) mod 2 ^ 64 - 2 ^ 63.

Lemma checked_int_Some z : INT_MIN ≤ z ≤ INT_MAX → checked_int z = Some z.
Proof. intros H. unfold checked_int. by rewrite bool_decide_eq_true_2. Qed.

Lemma checked_long_Some z : LONG_MIN ≤ z ≤ LONG_MAX → checked_long z = Some z.
Proof. intros H. unfold checked_long. by rewrite bool_decide_eq_true_2. Qed.

Lemma to_s64_small z : - 2 ^ 63 ≤ z < 2 ^ 63 → to_s64 z = z.
Proof. intros H. unfold to_s64. rewrite Z.mod_small; lia. Qed.

Lemma to_unsigned_range n z : 0 ≤ n → 0 ≤ to_unsigned n z < 2 ^ n.
Proof. intros H. unfold to_unsigned. apply Z.mod_pos_bound. lia. Qed.

Lemma to_unsigned_small n z : 0 ≤ z < 2 ^ n → to_unsigned n z = z.
Proof. apply Z.mod_small. Qed.
