(* ===== verification/Bytes.v ===== *)
(** Bytes, buffers and byte order.

    A buffer is the list of its bytes, as [Z] between 0 and 255.  Loads and
    stores of an n-byte integer are little endian, as on the x86-64 hosts the
    simulator is built for, and are [None] outside the buffer.  [htons] and its
    relatives reverse the bytes of their argument. *)

From Stdlib Require Import ZArith Lia.
From stdpp Require Import base tactics list numbers option.
From S2P Require Import Prelude.

Definition byte_ok (b : Z) : Prop := 0 ≤ b < 256.
Definition bytes_ok (l : list Z) : Prop := Forall byte_ok l.

#[export] Instance byte_ok_dec b : Decision (byte_ok b).
Proof. unfold byte_ok. apply _. Defined.
#[export] Instance bytes_ok_dec l : Decision (bytes_ok l).
Proof. unfold bytes_ok. apply _. Defined.

(** ** Little-endian encoding *)

Fixpoint le_bytes (n : nat) (x : Z) : list Z :=
  match n with
  | O => []
  | S n => x mod 256 :: le_bytes n (x / 256)
  end.

Fixpoint le_val (l : list Z) : Z :=
  match l with
  | [] => 0
  | b :: l => b + 256 * le_val l
  end.

(** The unsigned integers of [n] bytes. *)
Definition fits (n : nat) (x : Z) : Prop := 0 ≤ x < 256 ^ n.

Lemma pow256_S (n : nat) : 256 ^ S n = 256 * 256 ^ n.
Proof. rewrite Nat2Z.inj_succ, Z.pow_succ_r; lia. Qed.

Lemma pow256_pos (n : nat) : 0 < 256 ^ n.
Proof. apply Z.pow_pos_nonneg; lia. Qed.

Lemma length_le_bytes n x : length (le_bytes n x) = n.
Proof. revert x. induction n; simpl; auto. Qed.

Lemma le_bytes_ok n x : bytes_ok (le_bytes n x).
Proof.
  revert x. induction n; intros x; constructor; [|apply IHn].
  unfold byte_ok. apply Z.mod_pos_bound. lia.
Qed.

Lemma le_val_le_bytes n x : fits n x → le_val (le_bytes n x) = x.
Proof.
  unfold fits. revert x. induction n as [|n IH]; intros x Hx; simpl.
  - change (256 ^ 0%nat) with 1 in Hx. lia.
  - rewrite pow256_S in Hx. rewrite IH.
    + pose proof (Z.div_mod x 256). lia.
    + split; [apply Z.div_pos; lia | apply Z.div_lt_upper_bound; lia].
Qed.

Lemma le_val_range l : bytes_ok l → fits (length l) (le_val l).
Proof.
  unfold fits. induction 1 as [|b l Hb Hl IH]; simpl; [lia|].
  rewrite pow256_S. unfold byte_ok in Hb. lia.
Qed.

Lemma le_bytes_le_val l : bytes_ok l → le_bytes (length l) (le_val l) = l.
Proof.
  induction 1 as [|b l Hb Hl IH]; simpl; [done|].
  unfold byte_ok in Hb.
  replace ((b + 256 * le_val l) mod 256) with b.
  2: { rewrite Z.mul_comm, Z.mod_add, Z.mod_small; lia. }
  replace ((b + 256 * le_val l) / 256) with (le_val l); [by rewrite IH|].
  rewrite Z.mul_comm, Z.div_add, Z.div_small; lia.
Qed.

Lemma le_val_inj l1 l2 :
  bytes_ok l1 → bytes_ok l2 → length l1 = length l2 →
  le_val l1 = le_val l2 → l1 = l2.
Proof.
  intros H1 H2 Hlen Hv.
  rewrite <-(le_bytes_le_val l1), <-(le_bytes_le_val l2) by done. by rewrite Hv, Hlen.
Qed.

(** ** Byte order conversion *)

Definition bswap (n : nat) (x : Z) : Z := le_val (reverse (le_bytes n x)).

Definition htons (x : Z) : Z := bswap 2 x.
Definition ntohs (x : Z) : Z := bswap 2 x.
Definition htonl (x : Z) : Z := bswap 4 x.
Definition ntohl (x : Z) : Z := bswap 4 x.

Lemma bytes_ok_reverse l : bytes_ok l → bytes_ok (reverse l).
Proof. unfold bytes_ok. by rewrite Forall_reverse. Qed.

Lemma bswap_fits n x : fits n (bswap n x).
Proof.
  unfold bswap. pose proof (le_val_range (reverse (le_bytes n x))) as H.
  rewrite length_reverse, length_le_bytes in H. apply H, bytes_ok_reverse, le_bytes_ok.
Qed.

Lemma le_bytes_bswap n x : le_bytes n (bswap n x) = reverse (le_bytes n x).
Proof.
  unfold bswap. pose proof (le_bytes_le_val (reverse (le_bytes n x))) as H.
  rewrite length_reverse, length_le_bytes in H. apply H, bytes_ok_reverse, le_bytes_ok.
Qed.

Lemma bswap_involutive n x : fits n x → bswap n (bswap n x) = x.
Proof.
  intros Hx. unfold bswap at 1.
  rewrite le_bytes_bswap, reverse_involutive. by apply le_val_le_bytes.
Qed.

(** The raw value of a length field, as it is stored. *)
Lemma htons_value x : fits 2 x → htons x = 256 * (x mod 256) + x / 256.
Proof.
  unfold fits. change (256 ^ 2%nat) with 65536. intros Hx. unfold htons, bswap, le_bytes.
  cbn [reverse rev_append le_val]. unfold le_val. rewrite (Z.mod_small (x / 256)); [lia|].
  split; [apply Z.div_pos; lia|apply Z.div_lt_upper_bound; lia].
Qed.

(** ** Loads and stores *)

Definition load (b : list Z) (off n : nat) : option Z :=
  if decide (off + n ≤ length b)%nat then Some (le_val (take n (drop off b))) else None.

Definition store (b : list Z) (off : nat) (bs : list Z) : option (list Z) :=
  if decide (off + length bs ≤ length b)%nat
  then Some (take off b ++ bs ++ drop (off + length bs) b)
  else None.

Lemma load_Some b off n :
  (off + n ≤ length b)%nat → load b off n = Some (le_val (take n (drop off b))).
Proof. intros H. unfold load. by rewrite decide_True. Qed.

Lemma load_None b off n : (length b < off + n)%nat → load b off n = None.
Proof. intros H. unfold load. rewrite decide_False by lia. done. Qed.

Lemma store_Some b off bs :
  (off + length bs ≤ length b)%nat →
  store b off bs = Some (take off b ++ bs ++ drop (off + length bs) b).
Proof. intros H. unfold store. by rewrite decide_True. Qed.

Lemma store_length b off bs b' : store b off bs = Some b' → length b' = length b.
Proof.
  unfold store. case_decide; [|done]. intros [= <-].
  rewrite !length_app, length_take, length_drop. lia.
Qed.

Lemma store_bytes_ok b off bs b' :
  bytes_ok b → bytes_ok bs → store b off bs = Some b' → bytes_ok b'.
Proof.
  intros Hb Hbs. unfold store. case_decide; [|done]. intros [= <-].
  apply Forall_app; split; [by apply Forall_take|].
  apply Forall_app; split; [done|by apply Forall_drop].
Qed.

(** Reading a field back from a buffer laid out as [pre ++ field ++ post]. *)
Lemma load_app pre f post n :
  length f = n → load (pre ++ f ++ post) (length pre) n = Some (le_val f).
Proof.
  intros <-. rewrite load_Some by (rewrite !length_app; lia).
  by rewrite drop_app_length, take_app_length.
Qed.

Lemma load_at b pre f post off n :
  b = pre ++ f ++ post → off = length pre → n = length f → load b off n = Some (le_val f).
Proof. intros -> -> ->. by apply load_app. Qed.

Lemma store_at b pre f f' post off b' :
  b = pre ++ f ++ post → off = length pre → length f = length f' →
  b' = pre ++ f' ++ post → store b off f' = Some b'.
Proof.
  intros -> -> Hl ->. rewrite store_Some by (rewrite !length_app; lia).
  rewrite take_app_length. do 3 f_equal.
  rewrite drop_app_add, <-Hl. apply drop_app_length.
Qed.

Lemma store_app pre f f' post :
  length f = length f' →
  store (pre ++ f ++ post) (length pre) f' = Some (pre ++ f' ++ post).
Proof.
  intros Hl. by eapply store_at.
Qed.

Arguments le_bytes : simpl never.
Arguments le_val : simpl never.
Arguments load : simpl never.
Arguments store : simpl never.
Arguments bswap : simpl never.
