(* ===== verification/Checksum.v ===== *)
(** generate_checksum of src/sim/DeviceNode.cpp.

    The message is the list of its bytes and [msglen] its length, which is how
    every caller uses it.  [cksum] is an [int]: a sum outside its range is
    undefined behaviour, [None] here, and is shown not to happen for any message
    whose length fits the 16-bit length field of the protocol. *)

From Stdlib Require Import ZArith Lia.
From stdpp Require Import base tactics list numbers option.
From S2P Require Import Prelude Bytes.

#[local] Arguments le_bytes : simpl nomatch.
#[local] Arguments le_val : simpl nomatch.

(** ** The code *)

(** [while (msglen > 1)] and the odd byte after it. *)
Fixpoint cksum_loop (msg : list Z) (cksum : Z) : option Z :=
  match msg with
  | lo :: hi :: p =>
      match checked_int (cksum + le_val [lo; hi]) with
      | Some cksum => cksum_loop p cksum
      | None => None
      end
  | [b] => checked_int (cksum + htons (to_unsigned 16 (Z.shiftl b 8)))
  | [] => Some cksum
  end.

(** Folding the carries back: [cksum = (cksum >> 16) + (cksum & 0xffff);
    cksum += (cksum >> 16)]. *)
Definition cksum_fold (cksum : Z) : Z :=
  let cksum := Z.shiftr cksum 16 + Z.land cksum 65535 in
  cksum + Z.shiftr cksum 16.

Definition generate_checksum (msg : list Z) : option Z :=
  match cksum_loop msg 0 with
  | Some cksum => Some (to_unsigned 16 (Z.lnot (to_unsigned 16 (cksum_fold cksum))))
  | None => None
  end.

(** ** The reference: a ones' complement sum of 16-bit words

    [ones_add] adds two 16-bit words with the carry brought round at once. *)

Fixpoint words16 (msg : list Z) : list Z :=
  match msg with
  | lo :: hi :: p => lo + 256 * hi :: words16 p
  | [b] => [b]
  | [] => []
  end.

Definition ones_add (a b : Z) : Z := (a + b) mod 65536 + (a + b) / 65536.

Definition ones_sum (ws : list Z) : Z := foldl ones_add 0 ws.

Definition sumw (msg : list Z) : Z := foldr Z.add 0 (words16 msg).

(** The representative in 0..65535 of a sum modulo 65535, 0 only for 0. *)
Definition ones_repr (s : Z) : Z := if decide (s = 0) then 0 else (s - 1) mod 65535 + 1.

(** Induction two bytes at a time, as the loop goes. *)
Lemma pairs_ind (P : list Z → Prop) :
  P [] → (∀ b, P [b]) → (∀ a b l, P l → P (a :: b :: l)) → ∀ l, P l.
Proof.
  intros H0 H1 H2. fix IH 1. intros [|a [|b l]]; [done|apply H1|apply H2, IH].
Qed.

Lemma bytes_ok_cons b l : bytes_ok (b :: l) ↔ 0 ≤ b < 256 ∧ bytes_ok l.
Proof. change (bytes_ok (b :: l) ↔ byte_ok b ∧ bytes_ok l). apply list.Forall_cons. Qed.

Lemma words16_range msg : bytes_ok msg → Forall (λ w, 0 ≤ w < 65536) (words16 msg).
Proof.
  revert msg. refine (pairs_ind _ _ _ _); simpl.
  - constructor.
  - intros b [Hb _]%bytes_ok_cons. repeat constructor; lia.
  - intros a b l IH [Ha [Hb Hl]%bytes_ok_cons]%bytes_ok_cons.
    constructor; [lia|auto].
Qed.

Lemma sumw_range msg : bytes_ok msg → 0 ≤ sumw msg ∧ 2 * sumw msg ≤ 65535 * length msg.
Proof.
  unfold sumw. revert msg. refine (pairs_ind _ _ _ _); simpl.
  - lia.
  - intros b [Hb _]%bytes_ok_cons. lia.
  - intros a b l IH [Ha [Hb Hl]%bytes_ok_cons]%bytes_ok_cons.
    specialize (IH Hl). lia.
Qed.

Lemma htons_high_byte b : 0 ≤ b < 256 → htons (to_unsigned 16 (Z.shiftl b 8)) = b.
Proof.
  intros Hb. rewrite Z.shiftl_mul_pow2 by lia. change (2 ^ 8) with 256.
  rewrite to_unsigned_small by (change (2 ^ 16) with 65536; lia).
  unfold htons, bswap. cbn [le_bytes reverse rev_append le_val].
  rewrite Z.mod_mul, Z.div_mul, Z.mod_small by lia. lia.
Qed.

(** The accumulator never leaves [int], and ends as the sum of the words. *)
Lemma cksum_loop_sum msg acc :
  bytes_ok msg → 0 ≤ acc → acc + sumw msg ≤ INT_MAX →
  cksum_loop msg acc = Some (acc + sumw msg).
Proof.
  unfold sumw. revert msg acc. refine (pairs_ind _ _ _ _); simpl.
  - intros acc _ _ _. by rewrite Z.add_0_r.
  - intros b acc [Hb _]%bytes_ok_cons Ha Hs. rewrite htons_high_byte by done.
    rewrite Z.add_0_r in *. apply checked_int_Some. unfold INT_MIN. lia.
  - intros a b l IH acc [Ha [Hb Hl]%bytes_ok_cons]%bytes_ok_cons Hacc Hs.
    pose proof (sumw_range l Hl) as Hr. unfold sumw in Hr.
    rewrite checked_int_Some by (unfold INT_MIN; lia).
    rewrite IH by (done || lia). f_equal. lia.
Qed.

Lemma div_mod_unique_65535 s :
  0 < s → (s - 1) mod 65535 + 1 = s - 65535 * ((s - 1) / 65535).
Proof. intros Hs. pose proof (Z.div_mod (s - 1) 65535). lia. Qed.

Lemma ones_repr_unique s r k :
  0 ≤ s → 0 ≤ r < 65536 → s = r + 65535 * k → (r = 0 ↔ s = 0) → ones_repr s = r.
Proof.
  intros Hs Hr Heq H0. unfold ones_repr. case_decide as Hd; [lia|].
  assert (1 ≤ r) by lia.
  rewrite <-(Z.mod_unique (s - 1) 65535 k (r - 1)); lia.
Qed.

Lemma cksum_fold_repr s :
  0 ≤ s ≤ INT_MAX → to_unsigned 16 (cksum_fold s) = ones_repr s.
Proof.
  intros Hs. change INT_MAX with 2147483647 in Hs.
  unfold cksum_fold, to_unsigned. change 65535 with (Z.ones 16).
  rewrite Z.land_ones, !Z.shiftr_div_pow2 by lia. change (2 ^ 16) with 65536.
  pose proof (Z.div_mod s 65536) as Hdm. pose proof (Z.mod_pos_bound s 65536) as Hm.
  assert (0 ≤ s / 65536 < 32768) as Hh
    by (split; [apply Z.div_pos | apply Z.div_lt_upper_bound]; lia).
  set (h := s / 65536) in *. set (l := s mod 65536) in *.
  symmetry. destruct (decide (h + l < 65536)) as [Hlt|Hge].
  - rewrite (Z.div_small (h + l)), Z.add_0_r, Z.mod_small by lia.
    apply (ones_repr_unique _ _ h); lia.
  - replace ((h + l) / 65536) with 1 by (apply Z.div_unique with (h + l - 65536); lia).
    rewrite <-(Z.mod_unique (h + l + 1) 65536 1 (h + l - 65535)) by lia.
    apply (ones_repr_unique _ _ (h + 1)); lia.
Qed.

Lemma ones_add_repr s w :
  0 ≤ s → 0 ≤ w < 65536 → ones_add (ones_repr s) w = ones_repr (s + w).
Proof.
  intros Hs Hw. assert (∃ r k, ones_repr s = r ∧ s = r + 65535 * k ∧ 0 ≤ r < 65536 ∧ 0 ≤ k ∧ (r = 0 ↔ s = 0))
    as (r & k & -> & Hrk & Hr & Hk & H0).
  { unfold ones_repr. case_decide as Hd; [exists 0, 0; lia|].
    pose proof (div_mod_unique_65535 s). pose proof (Z.mod_pos_bound (s - 1) 65535).
    pose proof (Z.div_pos (s - 1) 65535).
    eexists _, ((s - 1) / 65535). split; [done|]. lia. }
  unfold ones_add. symmetry. destruct (decide (r + w < 65536)).
  - rewrite Z.mod_small, Z.div_small by lia. apply (ones_repr_unique _ _ k); lia.
  - replace ((r + w) / 65536) with 1 by (apply Z.div_unique with (r + w - 65536); lia).
    rewrite <-(Z.mod_unique (r + w) 65536 1 (r + w - 65536)) by lia.
    apply (ones_repr_unique _ _ (k + 1)); lia.
Qed.

Lemma foldl_ones_add ws s :
  0 ≤ s → Forall (λ w, 0 ≤ w < 65536) ws →
  foldl ones_add (ones_repr s) ws = ones_repr (s + foldr Z.add 0 ws).
Proof.
  intros Hs Hws. revert s Hs. induction Hws as [|w ws Hw Hws IH]; intros s Hs; simpl.
  - by rewrite Z.add_0_r.
  - rewrite ones_add_repr, IH by lia. f_equal. lia.
Qed.

Lemma lnot_u16 x : 0 ≤ x < 65536 → to_unsigned 16 (Z.lnot x) = 65535 - x.
Proof.
  intros Hx. unfold to_unsigned. change (2 ^ 16) with 65536.
  unfold Z.lnot.
  symmetry. apply (Z.mod_unique _ _ (-1)); lia.
Qed.

Lemma ones_repr_range s : 0 ≤ ones_repr s < 65536.
Proof.
  unfold ones_repr. case_decide; [lia|].
  pose proof (Z.mod_pos_bound (s - 1) 65535). lia.
Qed.

(** What every caller relies on: a value, given by the sum of the words. *)
Lemma generate_checksum_value msg :
  bytes_ok msg → length msg ≤ 65535 →
  generate_checksum msg = Some (65535 - ones_repr (sumw msg)).
Proof.
  intros Hok Hlen. pose proof (sumw_range msg Hok) as Hr.
  assert (sumw msg ≤ INT_MAX) by (change INT_MAX with 2147483647; lia).
  unfold generate_checksum. rewrite cksum_loop_sum by (done || lia).
  rewrite Z.add_0_l, cksum_fold_repr by lia.
  by rewrite lnot_u16 by apply ones_repr_range.
Qed.

Lemma ones_repr_inj_close s t :
  0 ≤ s → 0 ≤ t → Z.abs (s - t) < 65535 → ones_repr s = ones_repr t → s = t.
Proof.
  unfold ones_repr. intros Hs Ht Hd.
  pose proof (Z.mod_pos_bound (s - 1) 65535). pose proof (Z.mod_pos_bound (t - 1) 65535).
  repeat case_decide; [lia..|]. intros Heq.
  pose proof (div_mod_unique_65535 s). pose proof (div_mod_unique_65535 t).
  assert ((s - 1) / 65535 = (t - 1) / 65535) by lia. lia.
Qed.

Lemma sumw_app_byte pre b b' post :
  ∃ k, (k = 1 ∨ k = 256) ∧
    sumw (pre ++ b :: post) - sumw (pre ++ b' :: post) = k * (b - b').
Proof.
  unfold sumw. revert pre. refine (pairs_ind _ _ _ _); simpl.
  - exists 1. split; [by left|]. destruct post; simpl; lia.
  - intros a. exists 256. split; [by right|]. lia.
  - intros a c l (k & Hk & IH). exists k. split; [done|]. lia.
Qed.

Lemma generate_checksum_range msg c :
  bytes_ok msg → length msg ≤ 65535 → generate_checksum msg = Some c → fits 2 c.
Proof.
  intros Hok Hl. rewrite generate_checksum_value by done. intros [= <-].
  pose proof (ones_repr_range (sumw msg)). unfold fits. change (256 ^ 2%nat) with 65536. lia.
Qed.

(** ** Properties *)

(** C29: for every message of at most 65535 bytes (all the 16-bit length field
    can announce) generate_checksum overflows no [int], returns a 16-bit value,
    and that value is the complement of the ones' complement sum of the
    message's 16-bit words, an odd last byte counting as a low byte: adding
    first and folding the carries at the end is the same as bringing every
    carry round at once. *)
Theorem generate_checksum_ones_complement (msg : list Z) :
  bytes_ok msg → length msg ≤ 65535 →
  generate_checksum msg = Some (65535 - ones_sum (words16 msg)) ∧
  0 ≤ 65535 - ones_sum (words16 msg) ≤ 65535.
Proof.
  intros Hok Hlen. rewrite generate_checksum_value by done.
  assert (ones_sum (words16 msg) = ones_repr (sumw msg)) as ->.
  { unfold ones_sum. change 0 with (ones_repr 0) at 1.
    rewrite foldl_ones_add by (lia || by apply words16_range). done. }
  pose proof (ones_repr_range (sumw msg)). split; [done|lia].
Qed.

Lemma generate_checksum_ones_complement_witness :
  generate_checksum [1; 2; 255; 255; 7] = Some (65535 - ones_sum (words16 [1; 2; 255; 255; 7])) ∧
  0 ≤ 65535 - ones_sum (words16 [1; 2; 255; 255; 7]) ≤ 65535.
Proof.
  apply (generate_checksum_ones_complement [1; 2; 255; 255; 7]).
  - apply (bool_decide_unpack _). vm_compute. exact I.
  - vm_compute. discriminate.
Defined.

(** Two messages that differ in one byte. *)
Lemma generate_checksum_byte_neq (pre post : list Z) (b b' : Z) :
  bytes_ok (pre ++ b :: post) → byte_ok b' →
  length (pre ++ b :: post) ≤ 65535 → b ≠ b' →
  generate_checksum (pre ++ b :: post) ≠ generate_checksum (pre ++ b' :: post).
Proof.
  intros Hok Hb' Hlen Hne.
  pose proof Hok as [Hpre [Hb Hpost]%list.Forall_cons]%Forall_app.
  assert (bytes_ok (pre ++ b' :: post)) as Hok' by (apply Forall_app; split; [|constructor]; done).
  rewrite length_app in Hlen. simpl in Hlen.
  rewrite !generate_checksum_value by (done || rewrite length_app; simpl; lia).
  intros [= Heq]. destruct (sumw_app_byte pre b b' post) as (k & Hk & Hd).
  unfold byte_ok in Hb, Hb'.
  pose proof (sumw_range _ Hok). pose proof (sumw_range _ Hok').
  assert (sumw (pre ++ b :: post) = sumw (pre ++ b' :: post)); [|nia].
  apply ones_repr_inj_close; [lia..| |lia]. rewrite Hd. nia.
Qed.

Lemma generate_checksum_insert_neq (l : list Z) (i : nat) (x b : Z) :
  bytes_ok l → byte_ok b → length l ≤ 65535 → l !! i = Some x → x ≠ b →
  generate_checksum l ≠ generate_checksum (<[i := b]> l).
Proof.
  intros Hl Hb Hlen Hi Hne. pose proof (lookup_lt_Some _ _ _ Hi) as Hlt.
  rewrite insert_take_drop by done. rewrite <-(take_drop_middle l i x Hi) in Hl, Hlen |- * at 1.
  by apply generate_checksum_byte_neq.
Qed.

(** The checksum detects every corruption of a single byte: two messages
    that differ in one byte have different checksums, wherever the byte is. *)
Theorem generate_checksum_detects_byte (pre post : list Z) (b b' : Z) :
  bytes_ok (pre ++ b :: post) → byte_ok b' →
  length (pre ++ b :: post) ≤ 65535 → b ≠ b' →
  generate_checksum (pre ++ b :: post) ≠ generate_checksum (pre ++ b' :: post).
Proof. apply generate_checksum_byte_neq. Qed.

Lemma generate_checksum_detects_byte_witness :
  generate_checksum ([0; 18] ++ 0 :: [3]) ≠ generate_checksum ([0; 18] ++ 255 :: [3]).
Proof.
  apply (generate_checksum_detects_byte [0; 18] [3] 0 255).
  - apply (bool_decide_unpack _). vm_compute. exact I.
  - apply (bool_decide_unpack _). vm_compute. exact I.
  - vm_compute. discriminate.
  - discriminate.
Defined.
