(* ===== verification/TimeUtils.v ===== *)
(** src/utils/time.cpp: the clock chosen for the timers and the arithmetic on
    [struct timespec].

    [tv_sec] and [tv_nsec] are [long]: an operation outside its range is
    undefined behaviour ([None]).  The arguments the code mutates through
    pointers are returned beside the results. *)

From Stdlib Require Import ZArith Lia.
From stdpp Require Import base tactics list numbers option.
From S2P Require Import Prelude.

Record timespec := Timespec { tv_sec : Z; tv_nsec : Z }.

#[export] Instance timespec_eq_dec : EqDecision timespec.
Proof. solve_decision. Defined.

Definition NSEC_PER_SEC : Z := 1000000000.

(** The time a timespec stands for, in nanoseconds, and the normal form the
    POSIX calls require. *)
Definition total_ns (t : timespec) : Z := tv_sec t * NSEC_PER_SEC + tv_nsec t.
Definition normalised (t : timespec) : Prop := 0 ≤ tv_nsec t < NSEC_PER_SEC.

#[export] Instance normalised_dec t : Decision (normalised t).
Proof. unfold normalised. apply _. Defined.

(** ** The code *)

Definition CLOCK_REALTIME : Z := 0.
Definition CLOCK_MONOTONIC : Z := 1.
Definition CLOCK_PROCESS_CPUTIME_ID : Z := 2.

Section Clock.
(** clock_getres: [None] when it returns -1. *)
Variable clock_getres : Z → option timespec.

(** [resolution == 1] for a clock whose resolution could be read. *)
Definition clock_is_1ns (clk : Z) : bool :=
  match clock_getres clk with
  | Some res => bool_decide (checked_long (tv_sec res * 1000000000 + tv_nsec res) = Some 1)
  | None => false
  end.

Definition get_highres_clock : Z :=
  if clock_is_1ns CLOCK_REALTIME then CLOCK_REALTIME
  else if clock_is_1ns CLOCK_MONOTONIC then CLOCK_MONOTONIC
  else if clock_is_1ns CLOCK_PROCESS_CPUTIME_ID then CLOCK_PROCESS_CPUTIME_ID
  else -1.
End Clock.

Definition compare_timespecs (t1 t2 : timespec) : Z :=
  if tv_sec t1 <? tv_sec t2 then -1
  else if tv_sec t1 =? tv_sec t2 then
    if tv_nsec t1 <? tv_nsec t2 then -1
    else if tv_nsec t1 =? tv_nsec t2 then 0
    else 1
  else 1.

(** Conversion of a [long] to [int], as gcc defines it. *)
Definition to_int (z : Z) : Z := (z + 2 ^ 31) mod 2 ^ 32 - 2 ^ 31.

(** Performing the carry: the value [y] has after the first [if]. *)
Definition subtract_carry (x y : timespec) : option timespec :=
  if tv_nsec x <? tv_nsec y then
    d ← checked_long (tv_nsec y - tv_nsec x);
    let nsec := to_int (Z.quot d 1000000000 + 1) in
    borrow ← checked_int (1000000000 * nsec);
    n ← checked_long (tv_nsec y - borrow);
    s ← checked_long (tv_sec y + nsec);
    Some (Timespec s n)
  else Some y.

(** The value [y] has after the second [if]. *)
Definition subtract_uncarry (x y : timespec) : option timespec :=
  d ← checked_long (tv_nsec x - tv_nsec y);
  if 1000000000 <? d then
    let nsec := to_int (Z.quot d 1000000000) in
    borrow ← checked_int (1000000000 * nsec);
    n ← checked_long (tv_nsec y + borrow);
    s ← checked_long (tv_sec y - nsec);
    Some (Timespec s n)
  else Some y.

(** The result, the value [y] is left with, and the value returned. *)
Definition timespec_subtract (x y : timespec) : option (timespec * timespec * Z) :=
  y ← subtract_carry x y;
  y ← subtract_uncarry x y;
  s ← checked_long (tv_sec x - tv_sec y);
  n ← checked_long (tv_nsec x - tv_nsec y);
  Some (Timespec s n, y, if tv_sec x <? tv_sec y then 1 else 0).

(** [ms] is an [unsigned long]: the sum is computed modulo 2^64 and read back
    as a [long]. *)
Definition timespec_add_ms (x : timespec) (ms : Z) : option timespec :=
  let nsec := to_s64 (to_unsigned 64 (tv_nsec x + to_unsigned 64 (ms * 1000000))) in
  if 1000000000 <=? nsec then
    s ← checked_long (tv_sec x + Z.quot nsec 1000000000);
    Some (Timespec s (Z.rem nsec 1000000000))
  else Some (Timespec (tv_sec x) nsec).

(** ** Properties *)

Lemma total_ns_inj t1 t2 :
  normalised t1 → normalised t2 → total_ns t1 = total_ns t2 → t1 = t2.
Proof.
  destruct t1 as [s1 n1], t2 as [s2 n2].
  unfold normalised, total_ns, NSEC_PER_SEC. simpl. intros.
  assert (s1 = s2) by lia. f_equal; lia.
Qed.

(** Get_highres_clock only returns a clock whose resolution was read and is
    one nanosecond, preferring CLOCK_REALTIME, then CLOCK_MONOTONIC; it returns
    -1 exactly when none of its three clocks has that resolution. *)
Theorem get_highres_clock_spec (clock_getres : Z → option timespec) :
  let clk := get_highres_clock clock_getres in
  (clk = -1 ↔ ∀ c, c ∈ [CLOCK_REALTIME; CLOCK_MONOTONIC; CLOCK_PROCESS_CPUTIME_ID] →
                   clock_is_1ns clock_getres c = false) ∧
  (clk ≠ -1 → ∃ res, clock_getres clk = Some res ∧ total_ns res = 1 ∧
     ∀ c, c ∈ [CLOCK_REALTIME; CLOCK_MONOTONIC; CLOCK_PROCESS_CPUTIME_ID] →
          clock_is_1ns clock_getres c = true → clk ≤ c).
Proof.
  assert (∀ c, clock_is_1ns clock_getres c = true →
               ∃ res, clock_getres c = Some res ∧ total_ns res = 1) as Hres.
  { intros c. unfold clock_is_1ns. destruct (clock_getres c) as [res|]; [|done].
    intros H%bool_decide_eq_true. exists res. split; [done|].
    unfold checked_long in H. case_bool_decide; [|done]. injection H as H.
    unfold total_ns, NSEC_PER_SEC. lia. }
  simpl. unfold get_highres_clock.
  assert (∀ P : Z → Prop, (∀ c, c ∈ [CLOCK_REALTIME; CLOCK_MONOTONIC; CLOCK_PROCESS_CPUTIME_ID] → P c)
          ↔ P 0 ∧ P 1 ∧ P 2) as Hall.
  { intros P. unfold CLOCK_REALTIME, CLOCK_MONOTONIC, CLOCK_PROCESS_CPUTIME_ID.
    rewrite <-list.Forall_forall, !list.Forall_cons, list.Forall_nil. tauto. }
  assert (∀ c, c ∈ [CLOCK_REALTIME; CLOCK_MONOTONIC; CLOCK_PROCESS_CPUTIME_ID] → c = 0 ∨ c = 1 ∨ c = 2)
    as Hin by (apply Hall; lia).
  rewrite !Hall. unfold CLOCK_REALTIME, CLOCK_MONOTONIC, CLOCK_PROCESS_CPUTIME_ID.
  destruct (clock_is_1ns clock_getres 0) eqn:E0;
    [|destruct (clock_is_1ns clock_getres 1) eqn:E1;
      [|destruct (clock_is_1ns clock_getres 2) eqn:E2]]; cbn beta; (split; [split; [done|intros (? & ? & ?); congruence]|]);
    intros Hne; try done; (edestruct Hres as (res & ? & ?); [eassumption|]);
    exists res; do 2 (split; [done|]);
    intros c [->|[->| ->]]%Hin ?; (lia || congruence).
Qed.

(** Compare_timespecs orders normalised times as the times they stand for:
    it returns -1, 0 or 1 as the first is earlier, equal or later. *)
Theorem compare_timespecs_spec (t1 t2 : timespec) :
  normalised t1 → normalised t2 →
  compare_timespecs t1 t2 =
    match total_ns t1 ?= total_ns t2 with Lt => -1 | Eq => 0 | Gt => 1 end.
Proof.
  unfold normalised, total_ns, compare_timespecs, NSEC_PER_SEC. intros H1 H2.
  destruct (Z.compare_spec (tv_sec t1 * 1000000000 + tv_nsec t1) (tv_sec t2 * 1000000000 + tv_nsec t2));
  destruct (Z.ltb_spec (tv_sec t1) (tv_sec t2)); try lia;
  destruct (Z.eqb_spec (tv_sec t1) (tv_sec t2)); try lia;
  destruct (Z.ltb_spec (tv_nsec t1) (tv_nsec t2)); try lia;
  destruct (Z.eqb_spec (tv_nsec t1) (tv_nsec t2)); lia.
Qed.

Lemma compare_timespecs_spec_witness :
  compare_timespecs (Timespec 3 999999999) (Timespec 4 0) = -1.
Proof.
  apply (compare_timespecs_spec (Timespec 3 999999999) (Timespec 4 0));
    apply (bool_decide_unpack _); vm_compute; exact I.
Defined.

(** What timespec_subtract asks of its arguments to stay inside [long]. *)
Definition sec_in_range (t : timespec) : Prop := - 2 ^ 61 ≤ tv_sec t ≤ 2 ^ 61.
#[export] Instance sec_in_range_dec t : Decision (sec_in_range t).
Proof. unfold sec_in_range. apply _. Defined.

(** On normalised times timespec_subtract has no overflow, its result is
    normalised and is exactly the difference, [y] is left standing for the same
    time, and the value returned is 1 exactly when the difference is negative. *)
Theorem timespec_subtract_spec (x y : timespec) :
  normalised x → normalised y → sec_in_range x → sec_in_range y →
  ∃ r y', timespec_subtract x y = Some (r, y', if decide (total_ns x < total_ns y) then 1 else 0) ∧
    normalised r ∧ total_ns r = total_ns x - total_ns y ∧ total_ns y' = total_ns y.
Proof.
  destruct x as [xs xn], y as [ys yn].
  unfold normalised, sec_in_range, total_ns, NSEC_PER_SEC. simpl. intros Hx Hy Hxs Hys.
  change (2 ^ 61) with 2305843009213693952 in *.
  unfold timespec_subtract, subtract_carry, subtract_uncarry. simpl.
  destruct (Z.ltb_spec xn yn) as [Hlt|Hge].
  - rewrite (checked_long_Some (yn - xn)) by (unfold LONG_MIN, LONG_MAX; lia). simpl.
    rewrite Z.quot_small by lia. change (to_int (0 + 1)) with 1.
    rewrite (checked_int_Some (1000000000 * 1)) by (unfold INT_MIN, INT_MAX; lia). simpl.
    rewrite !checked_long_Some by (unfold LONG_MIN, LONG_MAX; lia). simpl.
    rewrite !checked_long_Some by (unfold LONG_MIN, LONG_MAX; lia). simpl.
    rewrite Z.mul_1_r. destruct (Z.ltb_spec 1000000000 (xn - (yn - 1000000000))); [lia|]. simpl.
    rewrite !checked_long_Some by (unfold LONG_MIN, LONG_MAX; lia). simpl.
    replace (if xs <? ys + 1 then 1 else 0)
      with (if decide (xs * 1000000000 + xn < ys * 1000000000 + yn) then 1 else 0)
      by (destruct (Z.ltb_spec xs (ys + 1)); case_decide; (done || lia)).
    eexists _, _. split; [done|simpl; lia].
  - simpl. rewrite (checked_long_Some (xn - yn)) by (unfold LONG_MIN, LONG_MAX; lia). simpl.
    destruct (Z.ltb_spec 1000000000 (xn - yn)); [lia|]. simpl.
    rewrite !checked_long_Some by (unfold LONG_MIN, LONG_MAX; lia). simpl.
    replace (if xs <? ys then 1 else 0)
      with (if decide (xs * 1000000000 + xn < ys * 1000000000 + yn) then 1 else 0)
      by (destruct (Z.ltb_spec xs ys); case_decide; (done || lia)).
    eexists _, _. split; [done|simpl; lia].
Qed.

Lemma timespec_subtract_spec_witness :
  ∃ r y', timespec_subtract (Timespec 5 1) (Timespec 4 2) =
    Some (r, y', if decide (total_ns (Timespec 5 1) < total_ns (Timespec 4 2)) then 1 else 0) ∧
    normalised r ∧ total_ns r = total_ns (Timespec 5 1) - total_ns (Timespec 4 2) ∧
    total_ns y' = total_ns (Timespec 4 2).
Proof.
  apply (timespec_subtract_spec (Timespec 5 1) (Timespec 4 2));
    apply (bool_decide_unpack _); vm_compute; exact I.
Defined.

(** The largest argument timespec_add_ms takes without wrapping. *)
Definition max_add_ms : Z := 9223372035854.

(** C30: for a normalised time and up to [max_add_ms] milliseconds (292 years)
    timespec_add_ms adds exactly that many milliseconds, leaves the time
    normalised and overflows nothing. *)
Theorem timespec_add_ms_spec (x : timespec) (ms : Z) :
  normalised x → sec_in_range x → 0 ≤ ms ≤ max_add_ms →
  ∃ x', timespec_add_ms x ms = Some x' ∧ normalised x' ∧ total_ns x' = total_ns x + ms * 1000000.
Proof.
  destruct x as [xs xn].
  unfold normalised, sec_in_range, total_ns, NSEC_PER_SEC, timespec_add_ms, max_add_ms. simpl.
  intros Hx Hxs Hms. change (2 ^ 61) with 2305843009213693952 in *.
  rewrite (to_unsigned_small 64 (ms * 1000000)) by lia.
  rewrite to_unsigned_small by lia. rewrite to_s64_small by lia.
  destruct (Z.leb_spec 1000000000 (xn + ms * 1000000)).
  - pose proof (Z.quot_rem (xn + ms * 1000000) 1000000000).
    pose proof (Z.rem_bound_pos (xn + ms * 1000000) 1000000000).
    assert (0 ≤ Z.quot (xn + ms * 1000000) 1000000000 ≤ 9223372036) by lia.
    rewrite checked_long_Some by (unfold LONG_MIN, LONG_MAX; lia). simpl.
    eexists. split; [done|]. simpl. lia.
  - eexists. split; [done|]. simpl. lia.
Qed.

Lemma timespec_add_ms_spec_witness :
  ∃ x', timespec_add_ms (Timespec 7 999500000) 1000 = Some x' ∧ normalised x' ∧
    total_ns x' = total_ns (Timespec 7 999500000) + 1000 * 1000000.
Proof.
  apply (timespec_add_ms_spec (Timespec 7 999500000) 1000).
  - apply (bool_decide_unpack _). vm_compute. exact I.
  - apply (bool_decide_unpack _). vm_compute. exact I.
  - split; discriminate.
Defined.
