(* ===== verification/Log.v ===== *)
(** src/log/log.cpp: log lines and hex dumps.

    What printf makes of a format and its arguments is the library's; a line is
    the pieces that are printed, a row of a dump its address and the two strings
    it is given.  The lock is recursive: [log_depth] counts its holds. *)

From Stdlib Require Import ZArith Lia.
From stdpp Require Import base tactics list numbers option strings.
From S2P Require Import Prelude Bytes.

(** ** _xlog *)

(** The text of a line: a message, or a row of a dump. *)
Inductive text : Type :=
  | Message (s : string)
  | Row (addr : Z) (hex chars : list Z).

Inductive out : Type :=
  | Colour (code : string)              (* "\033[" and the code *)
  | Head (function : string) (line : Z)
  | Body (t : text)
  | Newline
  | Syslog (level : Z) (t : text).

Record log_state := Log {
  log_to_syslog : bool;
  loglevel : Z;
  log_depth : nat;
  log_out : list out
}.

Definition LOG_ERR : Z := 3.
Definition LOG_NOTICE : Z := 5.
Definition LOG_DEBUG : Z := 7.

Definition print (o : out) : M log_state unit :=
  modify (λ s, Log (log_to_syslog s) (loglevel s) (log_depth s) (log_out s ++ [o])).
Definition log_lock : M log_state unit :=
  modify (λ s, Log (log_to_syslog s) (loglevel s) (S (log_depth s)) (log_out s)).
Definition log_unlock : M log_state unit :=
  modify (λ s, Log (log_to_syslog s) (loglevel s) (pred (log_depth s)) (log_out s)).

(** Whether the scan of the format ends at its NUL: no '\r' or '\n' in it. *)
Fixpoint no_line_end (fmt : list Z) : bool :=
  match fmt with
  | [] => true
  | c :: fmt => if (c =? 13) || (c =? 10) then false else no_line_end fmt
  end.

Definition xlog (function : string) (line level : Z) (fmt : list Z) (t : text) : M log_state unit :=
  log_lock;;
  syslog ← gets log_to_syslog;
  (if (syslog : bool) then print (Syslog level t)
   else
     (if level =? LOG_ERR then print (Colour "1;31m")
      else if level =? LOG_NOTICE then print (Colour "1;32m")
      else print (Colour "0;0m"));;
     print (Head function line);;
     print (Body t);;
     whenb (no_line_end fmt) (print Newline);;
     print (Colour "0;0m"));;
  log_unlock.

(** ** _xlog_log_hexdump *)

Definition HEXDUMP_BYTES_PER_LINE : nat := 16.
Definition HEXDUMP_MAX_HEX_LENGTH : nat := 80.

(** The two buffers, the position [hex_wr_p] and the column. *)
Record dump := Dump {
  hex_buff : list Z;
  char_buff : list Z;
  hex_wr : nat;
  column : nat
}.

(** "%p: %s  [%s]\n" *)
Definition row_fmt : list Z := [37; 112; 58; 32; 37; 115; 32; 32; 91; 37; 115; 93; 10].

(** The string at the start of a buffer. *)
Fixpoint c_string (l : list Z) : option (list Z) :=
  match l with
  | [] => None
  | c :: l => if c =? 0 then Some [] else cons c <$> c_string l
  end.

Definition hex_digit (d : Z) : Z := if d <? 10 then 48 + d else 55 + d.

(** "%02X " of a byte, and ".. ". *)
Definition hex_cell (b : Z) : list Z := [hex_digit (b / 16); hex_digit (b mod 16); 32].
Definition dot_cell : list Z := [46; 46; 32].

(** What is shown of a byte: [char] is signed, so 128 and above are not. *)
Definition shown (b : Z) : Z := if (32 <=? b) && (b <=? 126) then b else 46.

(** sprintf at [hex_wr_p] of a cell, with its NUL, and the character beside it. *)
Definition put_cell (cell : list Z) (c : Z) (d : dump) : option dump :=
  h ← store (hex_buff d) (hex_wr d) (cell ++ [0]);
  s ← store (char_buff d) (column d) [c];
  Some (Dump h s (hex_wr d + length cell) (column d + 1)).

(** for (i = 0; i < first_row_start_column; i++): [n] columns of lead in; and the
    lead out, whose [column] is the loop's [i]. *)
Fixpoint lead (n : nat) (d : dump) : option dump :=
  match n with
  | O => Some d
  | S n => d ← put_cell dot_cell 32 d; lead n d
  end.

(** Print the row: the two NULs, the line, and back to the start. *)
Definition print_row (function : string) (line pri row : Z) (d : dump) : M log_state dump :=
  h ← some_or OutOfBounds (store (hex_buff d) HEXDUMP_MAX_HEX_LENGTH [0]);
  c ← some_or OutOfBounds (store (char_buff d) HEXDUMP_BYTES_PER_LINE [0]);
  hex ← some_or OutOfBounds (c_string h);
  chars ← some_or OutOfBounds (c_string c);
  xlog function line pri row_fmt (Row row hex chars);;
  mret (Dump h c 0 0).

(** while (bytes_left): the bytes from [dump_p] on. *)
Fixpoint dump_loop (function : string) (line pri : Z) (bytes_left : nat) (dump_p : list Z)
    (row : Z) (d : dump) : M log_state (Z * dump) :=
  match bytes_left with
  | O => mret (row, d)
  | S bytes_left =>
      match dump_p with
      | [] => failw (Undef OutOfBounds)
      | b :: dump_p =>
          d ← some_or OutOfBounds (put_cell (hex_cell b) (shown b) d);
          if decide (HEXDUMP_BYTES_PER_LINE ≤ column d)%nat then
            d ← print_row function line pri row d;
            dump_loop function line pri bytes_left dump_p (row + HEXDUMP_BYTES_PER_LINE) d
          else dump_loop function line pri bytes_left dump_p row d
      end
  end.

(** [mem]: the bytes at [start_addr]; [hex0] and [char0]: what malloc leaves in
    the buffers. *)
Definition hexdump (function : string) (line pri : Z) (mem : list Z) (dump_byte_len : nat)
    (print_address : Z) (hex0 char0 : list Z) : M log_state unit :=
  let row_start_addr := Z.land print_address (Z.lnot (HEXDUMP_BYTES_PER_LINE - 1)) in
  let first_row_start_column := print_address mod HEXDUMP_BYTES_PER_LINE in
  log_lock;;
  level ← gets loglevel;
  whenb (pri <=? level)
    (d ← some_or OutOfBounds (lead (Z.to_nat first_row_start_column) (Dump hex0 char0 0 0));
     '(row, d) ← dump_loop function line pri dump_byte_len mem row_start_addr d;
     whenb (negb (bool_decide (column d = 0%nat)))
       (d ← some_or OutOfBounds (lead (HEXDUMP_BYTES_PER_LINE - column d) d);
        print_row function line pri row d;; mret tt));;
  log_unlock.

(** ** What a dump looks like

    A dump is a list of cells, a byte or a filler, cut into rows of 16: fillers up
    to the column of the first byte, the bytes, fillers up to the end of the last
    row. *)
Notation cell := (option Z).

Definition cell_hex (c : cell) : list Z := match c with Some b => hex_cell b | None => dot_cell end.
Definition cell_char (c : cell) : Z := match c with Some b => shown b | None => 32 end.
Definition hexes (cs : list cell) : list Z := cs ≫= cell_hex.
Definition chars (cs : list cell) : list Z := cell_char <$> cs.

Definition rows {A} (l : list A) : list (list A) := reshape (replicate (length l / 16) 16%nat) l.
Definition leftover {A} (l : list A) : list A := drop (16 * (length l / 16)) l.

Definition first_column (addr : Z) : nat := Z.to_nat (addr mod 16).
Definition fillers (n : nat) : nat := (16 - n mod 16) mod 16.

(** All the cells, for the bytes [l] at [addr]. *)
Definition dump_cells (addr : Z) (l : list Z) : list cell :=
  replicate (first_column addr) None ++ (Some <$> l) ++
  replicate (fillers (first_column addr + length l)) None.

(** What xlog prints of one row, and of the rows from address [row] on. *)
Definition xlog_out (syslog : bool) (function : string) (line level : Z) (fmt : list Z) (t : text)
    : list out :=
  if syslog then [Syslog level t]
  else [if level =? LOG_ERR then Colour "1;31m" else if level =? LOG_NOTICE then Colour "1;32m"
        else Colour "0;0m"; Head function line; Body t] ++
       (if no_line_end fmt then [Newline] else []) ++ [Colour "0;0m"].

Fixpoint rows_out (syslog : bool) (function : string) (line pri row : Z) (rs : list (list cell))
    : list out :=
  match rs with
  | [] => []
  | r :: rs => xlog_out syslog function line pri row_fmt (Row row (hexes r) (chars r)) ++
               rows_out syslog function line pri (row + 16) rs
  end.

(** ** Rows *)

Lemma rows_short {A} (l : list A) : (length l < 16)%nat → rows l = [] ∧ leftover l = l.
Proof. intros H. unfold rows, leftover. by rewrite Nat.div_small. Qed.

Lemma rows_cons {A} (r l : list A) :
  length r = 16%nat → rows (r ++ l) = r :: rows l ∧ leftover (r ++ l) = leftover l.
Proof.
  intros H. unfold rows, leftover. rewrite length_app, H.
  replace ((16 + length l) / 16)%nat with (S (length l / 16)).
  2: { pose proof (Nat.div_add_l 1 16 (length l) ltac:(done)) as E. simpl (1 * 16)%nat in E. lia. }
  cbn [replicate reshape].
  assert (take 16 (r ++ l) = r) as -> by (rewrite <-H; apply take_app_length).
  assert (drop 16 (r ++ l) = l) as -> by (rewrite <-H; apply drop_app_length).
  split; [done|].
  replace (16 * S (length l / 16))%nat with (length r + 16 * (length l / 16))%nat by lia.
  apply drop_app_add.
Qed.

Lemma length_leftover {A} (l : list A) : (length (leftover l) < 16)%nat.
Proof.
  unfold leftover. rewrite length_drop. pose proof (Nat.div_mod_eq (length l) 16).
  pose proof (Nat.mod_upper_bound (length l) 16). lia.
Qed.

Lemma rows_out_app sl f ln pri row rs1 rs2 :
  rows_out sl f ln pri row (rs1 ++ rs2) =
  rows_out sl f ln pri row rs1 ++ rows_out sl f ln pri (row + 16 * length rs1) rs2.
Proof.
  revert row. induction rs1 as [|r rs1 IH]; intros row; simpl.
  - f_equal. lia.
  - rewrite IH, <-app_assoc. do 3 f_equal. lia.
Qed.

(** [rows] cuts a list of whole rows without loss. *)
Lemma rows_join {A} (l : list A) : (length l mod 16)%nat = 0%nat → mjoin (rows l) = l.
Proof.
  intros H. unfold rows. apply join_reshape.
  pose proof (Nat.div_mod_eq (length l) 16) as E. rewrite H in E.
  rewrite E at 2. generalize (length l / 16)%nat as k. intros k. induction k; simpl in *; lia.
Qed.

(** ** The buffers *)

Lemma length_hexes cs : length (hexes cs) = (3 * length cs)%nat.
Proof.
  unfold hexes. induction cs as [|c cs IH]; [done|]. rewrite bind_cons, length_app, IH.
  destruct c; simpl; lia.
Qed.

Lemma hexes_app cs1 cs2 : hexes (cs1 ++ cs2) = hexes cs1 ++ hexes cs2.
Proof. apply bind_app. Qed.

(** No character of a cell is NUL. *)
Lemma hexes_no_NUL cs :
  Forall (λ c, match c with Some b => byte_ok b | None => True end) cs → Forall (λ c, c ≠ 0) (hexes cs).
Proof.
  intros H. unfold hexes. apply Forall_bind. eapply Forall_impl; [exact H|].
  intros [b|]; [|by repeat constructor]. unfold byte_ok, cell_hex, hex_cell, hex_digit. intros Hb.
  pose proof (Z.div_pos b 16 ltac:(lia) ltac:(lia)). pose proof (Z.mod_pos_bound b 16 ltac:(lia)).
  constructor; [case_match; lia|]. constructor; [case_match; lia|]. by repeat constructor.
Qed.
Lemma chars_no_NUL cs : Forall (λ c, c ≠ 0) (chars cs).
Proof.
  apply Forall_fmap, Forall_true. intros [b|]; simpl; [|done]. unfold shown.
  destruct (Z.leb_spec 32 b); simpl; [|lia]. by destruct (b <=? 126); lia.
Qed.

Lemma c_string_app s tl : Forall (λ c, c ≠ 0) s → c_string (s ++ 0 :: tl) = Some s.
Proof.
  induction 1 as [|c s Hc _ IH]; [done|]. simpl. rewrite (proj2 (Z.eqb_neq _ _) Hc), IH. done.
Qed.

(** The buffers hold the cells [cs] of the row being made; sprintf has left a NUL
    behind the last. *)
Record holds (cs : list cell) (d : dump) : Prop := {
  h_len : length (hex_buff d) = 81%nat;
  c_len : length (char_buff d) = 17%nat;
  h_wr : hex_wr d = (3 * length cs)%nat;
  h_col : column d = length cs;
  h_buff : ∃ tl, hex_buff d = hexes cs ++ tl ∧ (cs = [] ∨ ∃ tl', tl = 0 :: tl');
  c_buff : ∃ tl, char_buff d = chars cs ++ tl
}.

Lemma put_cell_holds cs c d :
  holds cs d → (length cs < 16)%nat →
  ∃ d', put_cell (cell_hex c) (cell_char c) d = Some d' ∧ holds (cs ++ [c]) d'.
Proof.
  intros [Hl Cl Hw Hc (ht & Hh & _) (ct & Hch)] Hcs. unfold put_cell.
  assert (Hlc : length (cell_hex c) = 3%nat) by by destruct c.
  rewrite Hh in Hl. rewrite Hch in Cl. rewrite length_app, length_hexes in Hl.
  rewrite length_app in Cl. unfold chars in Cl. rewrite length_fmap in Cl.
  rewrite (store_at _ (hexes cs) (take 4 ht) (cell_hex c ++ [0]) (drop 4 ht) _
    (hexes cs ++ (cell_hex c ++ [0]) ++ drop 4 ht));
    [|by rewrite take_drop|by rewrite length_hexes, Hw|rewrite length_take, length_app, Hlc; cbn [length]; lia|done].
  simpl.
  rewrite (store_at _ (chars cs) (take 1 ct) [cell_char c] (drop 1 ct) _
    (chars cs ++ [cell_char c] ++ drop 1 ct));
    [|by rewrite take_drop|by unfold chars; rewrite length_fmap, Hc|rewrite length_take; cbn [length]; lia|done].
  simpl. eexists. split; [done|]. split; simpl.
  - rewrite !length_app, length_hexes, length_drop, Hlc. simpl. lia.
  - unfold chars. rewrite length_app, length_fmap. simpl. rewrite length_drop. lia.
  - rewrite length_app, Hlc, Hw. simpl. lia.
  - rewrite length_app, Hc. simpl. lia.
  - exists (0 :: drop 4 ht). rewrite hexes_app, <-!app_assoc. split; [|by eauto].
    unfold hexes at 3. simpl. by rewrite app_nil_r.
  - exists (drop 1 ct). unfold chars. by rewrite fmap_app, <-app_assoc.
Qed.

Lemma lead_holds n cs d :
  holds cs d → (length cs + n ≤ 16)%nat → ∃ d', lead n d = Some d' ∧ holds (cs ++ replicate n None) d'.
Proof.
  revert cs d. induction n as [|n IH]; intros cs d H Hn; simpl.
  - exists d. by rewrite app_nil_r.
  - destruct (put_cell_holds cs None d H) as (d1 & E & H1); [lia|].
    simpl in E. rewrite E. simpl. destruct (IH _ _ H1) as (d' & E' & H').
    { rewrite length_app. simpl. lia. }
    exists d'. split; [done|]. by rewrite <-app_assoc in H'.
Qed.

(** ** The rows *)

Definition logged (s : log_state) (l : list out) : log_state :=
  Log (log_to_syslog s) (loglevel s) (log_depth s) (log_out s ++ l).

Lemma logged_app s l1 l2 : logged (logged s l1) l2 = logged s (l1 ++ l2).
Proof. unfold logged. simpl. by rewrite app_assoc. Qed.
Lemma logged_nil s : logged s [] = s.
Proof. destruct s. unfold logged. simpl. by rewrite app_nil_r. Qed.

Lemma xlog_run f ln level fmt t s :
  xlog f ln level fmt t s = (Ok tt, logged s (xlog_out (log_to_syslog s) f ln level fmt t)).
Proof.
  destruct s as [sl lv dp o]. unfold xlog, xlog_out, logged. unfold mbind, M_bind. simpl.
  destruct sl; [done|]. simpl. destruct (level =? LOG_ERR), (level =? LOG_NOTICE);
    simpl; destruct (no_line_end fmt); simpl; by rewrite <-!app_assoc.
Qed.

(** The cells of a dump come from bytes. *)
Definition cells_ok (cs : list cell) : Prop :=
  Forall (λ c, match c with Some b => byte_ok b | None => True end) cs.

Lemma print_row_run f ln pri row cs d s :
  holds cs d → cells_ok cs → length cs = 16%nat →
  ∃ d', print_row f ln pri row d s
    = (Ok d', logged s (rows_out (log_to_syslog s) f ln pri row [cs])) ∧ holds [] d'.
Proof.
  intros [Hl Cl Hw Hc (ht & Hh & [->|(tl & ->)]) (ct & Hch)] Hok H16; [done|]. unfold print_row.
  rewrite Hh, length_app, length_hexes, H16 in Hl. simpl in Hl.
  rewrite Hch, length_app in Cl. unfold chars in Cl. rewrite length_fmap, H16 in Cl.
  rewrite (store_at (hex_buff d) (hexes cs ++ 0 :: take 31 tl) (drop 31 tl) [0] [] _
    (hexes cs ++ 0 :: take 31 tl ++ [0])).
  2: { rewrite Hh, app_nil_r, <-app_assoc. simpl. by rewrite take_drop. }
  2: { rewrite length_app, length_hexes, H16. cbn [length]. rewrite length_take. unfold HEXDUMP_MAX_HEX_LENGTH. lia. }
  2: { rewrite length_drop. cbn [length]. lia. }
  2: { by rewrite app_nil_r, <-app_assoc. }
  rewrite (store_at (char_buff d) (chars cs) ct [0] [] _ (chars cs ++ [0])).
  2: { by rewrite app_nil_r. }
  2: { unfold chars, HEXDUMP_BYTES_PER_LINE. by rewrite length_fmap. }
  2: { cbn [length]. lia. }
  2: { by rewrite app_nil_r. }
  simpl. unfold some_or at 1 2. do 2 erewrite bind_ok by reflexivity.
  rewrite (c_string_app (hexes cs)) by (by apply hexes_no_NUL).
  rewrite (c_string_app (chars cs)) by apply chars_no_NUL.
  unfold some_or. do 2 erewrite bind_ok by reflexivity.
  rewrite (bind_ok _ _ _ _ _ (xlog_run _ _ _ _ _ _)). rewrite app_nil_r.
  eexists. split; [reflexivity|]. split; simpl; try done.
  - rewrite length_app, length_hexes, H16. cbn [length]. rewrite length_app, length_take. cbn [length]. lia.
  - unfold chars. rewrite length_app, length_fmap, H16. done.
  - eexists. split; [done|by left].
  - by eexists.
Qed.

(** The loop prints the whole rows of what it is given and keeps the rest. *)
Lemma dump_loop_run f ln pri n mem row cs d s :
  holds cs d → cells_ok cs → (length cs < 16)%nat → (n ≤ length mem)%nat → bytes_ok mem →
  let all := cs ++ (Some <$> take n mem) in
  ∃ d', dump_loop f ln pri n mem row d s
    = (Ok (row + 16 * length (rows all), d'),
       logged s (rows_out (log_to_syslog s) f ln pri row (rows all))) ∧
    holds (leftover all) d'.
Proof.
  revert mem row cs d s. induction n as [|n IH]; intros mem row cs d s Hh Hok Hcs Hn Hm; cbv zeta.
  - simpl. rewrite app_nil_r. destruct (rows_short cs Hcs) as [-> ->]. exists d. simpl.
    by rewrite Z.add_0_r, logged_nil.
  - destruct mem as [|b mem]; [simpl in Hn; lia|]. simpl in Hn.
    apply Forall_cons in Hm as [Hb Hm].
    destruct (put_cell_holds cs (Some b) d Hh Hcs) as (d1 & E1 & H1).
    assert (Hok1 : cells_ok (cs ++ [Some b])).
    { apply Forall_app. split; [done|by apply Forall_singleton]. }
    simpl dump_loop. simpl in E1. rewrite E1. erewrite bind_ok by reflexivity.
    replace (cs ++ (Some <$> take (S n) (b :: mem))) with ((cs ++ [Some b]) ++ (Some <$> take n mem))
      by (by rewrite <-app_assoc).
    pose proof (h_col _ _ H1) as Hcol. rewrite length_app in Hcol. simpl in Hcol.
    unfold HEXDUMP_BYTES_PER_LINE. case_decide as Hfull.
    + assert (H16 : length (cs ++ [Some b]) = 16%nat) by (rewrite length_app; simpl; lia).
      destruct (print_row_run f ln pri row _ _ s H1 Hok1 H16) as (d2 & E2 & H2).
      rewrite (bind_ok _ _ _ _ _ E2).
      destruct (rows_cons _ (Some <$> take n mem) H16) as [-> ->].
      destruct (IH mem (row + 16%nat) [] d2 (logged s (rows_out (log_to_syslog s) f ln pri row [cs ++ [Some b]])))
        as (d' & E & H'); [done|constructor|simpl; lia|lia|done|].
      exists d'. split; [|exact H']. rewrite E. rewrite logged_app. simpl. rewrite app_nil_r.
      do 2 f_equal. f_equal. lia.
    + apply (IH mem row (cs ++ [Some b]) d1 s); [done|done| |lia|done].
      rewrite length_app. simpl. lia.
Qed.

(** ** The whole dump *)

Lemma length_leftover_mod {A} (l : list A) : length (leftover l) = (length l mod 16)%nat.
Proof.
  unfold leftover. rewrite length_drop. pose proof (Nat.div_mod_eq (length l) 16). lia.
Qed.

(** Filling the last row up. *)
Lemma rows_fill {A} (x : A) l :
  rows (l ++ replicate (fillers (length l)) x) =
  rows l ++ match leftover l with
            | [] => []
            | _ => [leftover l ++ replicate (16 - length (leftover l)) x]
            end.
Proof.
  remember (length l / 16)%nat as k eqn:Hk. revert l Hk. induction k as [|k IH]; intros l Hk.
  - assert (Hl : (length l < 16)%nat) by (symmetry in Hk; apply Nat.div_small_iff in Hk; lia).
    destruct (rows_short l Hl) as [-> ->]. unfold fillers. rewrite (Nat.mod_small (length l) 16) by done.
    destruct l as [|y l]; [done|]. set (r := y :: l) in *.
    assert (length r ≠ 0)%nat by done. rewrite (Nat.mod_small (16 - length r) 16) by lia.
    assert (H16 : length (r ++ replicate (16 - length r) x) = 16%nat)
      by (rewrite length_app, length_replicate; lia).
    rewrite <-(app_nil_r (r ++ _)). destruct (rows_cons _ [] H16) as [-> _].
    destruct (rows_short (@nil A)) as [-> _]; [simpl; lia|]. by rewrite app_nil_r.
  - assert (Hl : (16 ≤ length l)%nat).
    { destruct (decide (length l < 16)%nat) as [H|H]; [|lia]. rewrite Nat.div_small in Hk by done. lia. }
    assert (H16 : length (take 16 l) = 16%nat) by (rewrite length_take; lia).
    rewrite <-(take_drop 16 l). set (r := take 16 l) in *. set (l' := drop 16 l) in *.
    assert (Hll : length l = (16 + length l')%nat) by (unfold l'; rewrite length_drop; lia).
    destruct (rows_cons r l' H16) as [-> ->].
    assert (fillers (length (r ++ l')) = fillers (length l')) as ->.
    { unfold fillers. rewrite length_app, H16.
      replace (16 + length l')%nat with (length l' + 1 * 16)%nat by lia. by rewrite Nat.Div0.mod_add. }
    rewrite <-app_assoc. destruct (rows_cons r (l' ++ replicate (fillers (length l')) x) H16) as [-> _].
    rewrite IH; [done|]. rewrite Hll in Hk.
    pose proof (Nat.div_add_l 1 16 (length l') ltac:(done)) as E. simpl (1 * 16)%nat in E. lia.
Qed.

Lemma row_start addr : Z.land addr (Z.lnot (HEXDUMP_BYTES_PER_LINE - 1)) = addr - addr mod 16.
Proof.
  change (HEXDUMP_BYTES_PER_LINE - 1) with (Z.ones 4). rewrite <-Z.ldiff_land.
  rewrite Z.ldiff_ones_r, Z.shiftl_mul_pow2, Z.shiftr_div_pow2 by lia.
  change (2 ^ 4) with 16. pose proof (Z.div_mod addr 16). lia.
Qed.

(** The last row, when there is one. *)
Lemma last_row f ln pri row cs d s :
  holds cs d → cells_ok cs → (length cs < 16)%nat →
  whenb (negb (bool_decide (column d = 0%nat)))
    (d ← some_or OutOfBounds (lead (HEXDUMP_BYTES_PER_LINE - column d) d);
     print_row f ln pri row d;; mret tt) s
  = (Ok tt, logged s (rows_out (log_to_syslog s) f ln pri row
      match cs with [] => [] | _ => [cs ++ replicate (16 - length cs) None] end)).
Proof.
  intros Hh Hok Hl. rewrite (h_col _ _ Hh). destruct cs as [|c cs]; [by rewrite logged_nil|].
  set (r := c :: cs) in *. rewrite bool_decide_false by done. simpl negb. unfold whenb.
  unfold HEXDUMP_BYTES_PER_LINE.
  destruct (lead_holds (16 - length r) r d Hh) as (d1 & -> & H1); [lia|].
  unfold some_or. erewrite bind_ok by reflexivity.
  destruct (print_row_run f ln pri row _ d1 s H1) as (d2 & E2 & _).
  - apply Forall_app. split; [done|by apply Forall_replicate].
  - rewrite length_app, length_replicate. lia.
  - by rewrite (bind_ok _ _ _ _ _ E2).
Qed.

Lemma hexdump_run (f : string) (ln pri addr : Z) (mem hex0 char0 : list Z) (len : nat)
    (s : log_state) :
  bytes_ok mem → (len ≤ length mem)%nat → length hex0 = 81%nat → length char0 = 17%nat →
  hexdump f ln pri mem len addr hex0 char0 s =
  (Ok tt, if pri <=? loglevel s
          then logged s (rows_out (log_to_syslog s) f ln pri (addr - addr mod 16)
                 (rows (dump_cells addr (take len mem))))
          else s).
Proof.
  intros Hm Hlen Hh Hc. unfold hexdump. rewrite row_start.
  change (Z.to_nat (addr mod HEXDUMP_BYTES_PER_LINE)) with (first_column addr).
  destruct s as [sl lv dp o].
  set (s1 := Log sl lv (S dp) o).
  rewrite (bind_ok _ _ _ tt s1), (bind_ok _ _ _ lv s1) by done. simpl (loglevel _).
  destruct (pri <=? lv); [|done]. unfold whenb at 1.
  assert (Hcol : (first_column addr < 16)%nat).
  { unfold first_column. pose proof (Z.mod_pos_bound addr 16). lia. }
  assert (H0 : holds [] (Dump hex0 char0 0 0)).
  { split; try done; [exists hex0|exists char0]; [by split; [|left]|done]. }
  destruct (lead_holds (first_column addr) [] _ H0) as (d1 & E1 & H1); [simpl; lia|].
  destruct (dump_loop_run f ln pri len mem (addr - addr mod 16) (replicate (first_column addr) None)
    d1 s1) as (d2 & E2 & H2); try done.
  { by apply Forall_replicate. }
  { by rewrite length_replicate. }
  assert (Hok : cells_ok (replicate (first_column addr) None ++ (Some <$> take len mem))).
  { apply Forall_app. split; [by apply Forall_replicate|]. apply Forall_fmap. by apply Forall_take. }
  unfold dump_cells. rewrite app_assoc. set (all := _ ++ (Some <$> take len mem)) in *.
  replace (first_column addr + length (take len mem))%nat with (length all).
  2: { unfold all. by rewrite length_app, length_replicate, length_fmap. }
  rewrite rows_fill, rows_out_app.
  rewrite E1. unfold some_or at 1. erewrite bind_ok.
  2: { erewrite bind_ok by reflexivity. rewrite (bind_ok _ _ _ _ _ E2). cbn beta iota.
       exact (last_row f ln pri _ (leftover all) d2 _ H2 (Forall_drop _ _ _ Hok) (length_leftover all)). }
  rewrite logged_app. unfold logged. simpl. by rewrite Z.add_comm.
Qed.

(** A dump of more bytes than there are reads beyond the last. *)
Lemma dump_loop_over f ln pri n mem row cs d s :
  holds cs d → cells_ok cs → (length cs < 16)%nat → bytes_ok mem → (length mem < n)%nat →
  (dump_loop f ln pri n mem row d s).1 = Fail (Undef OutOfBounds).
Proof.
  revert mem row cs d s. induction n as [|n IH]; intros mem row cs d s Hh Hok Hcs Hm Hn; [lia|].
  destruct mem as [|b mem]; [done|]. apply Forall_cons in Hm as [Hb Hm]. simpl in Hn.
  destruct (put_cell_holds cs (Some b) d Hh Hcs) as (d1 & E1 & H1).
  assert (Hok1 : cells_ok (cs ++ [Some b])).
  { apply Forall_app. split; [done|by apply Forall_singleton]. }
  simpl dump_loop. simpl in E1. rewrite E1. erewrite bind_ok by reflexivity.
  pose proof (h_col _ _ H1) as Hcol. rewrite length_app in Hcol. simpl in Hcol.
  unfold HEXDUMP_BYTES_PER_LINE. case_decide.
  - destruct (print_row_run f ln pri row _ _ s H1 Hok1) as (d2 & E2 & H2); [rewrite length_app; simpl; lia|].
    rewrite (bind_ok _ _ _ _ _ E2). apply (IH _ _ [] d2); [done|constructor|simpl; lia|done|lia].
  - apply (IH _ _ (cs ++ [Some b]) d1); [done|done|rewrite length_app; simpl; lia|done|lia].
Qed.

Lemma hexdump_over f ln pri addr mem hex0 char0 len s :
  bytes_ok mem → (length mem < len)%nat → length hex0 = 81%nat → length char0 = 17%nat →
  pri ≤ loglevel s → (hexdump f ln pri mem len addr hex0 char0 s).1 = Fail (Undef OutOfBounds).
Proof.
  intros Hm Hlen Hh Hc Hp. unfold hexdump.
  change (Z.to_nat (addr mod HEXDUMP_BYTES_PER_LINE)) with (first_column addr).
  destruct s as [sl lv dp o]. set (s1 := Log sl lv (S dp) o).
  rewrite (bind_ok _ _ _ tt s1), (bind_ok _ _ _ lv s1) by done.
  simpl in Hp. rewrite (proj2 (Z.leb_le _ _) Hp). unfold whenb at 1.
  assert (Hcol : (first_column addr < 16)%nat).
  { unfold first_column. pose proof (Z.mod_pos_bound addr 16). lia. }
  assert (H0 : holds [] (Dump hex0 char0 0 0)).
  { split; try done; [exists hex0|exists char0]; [by split; [|left]|done]. }
  destruct (lead_holds (first_column addr) [] _ H0) as (d1 & E1 & H1); [simpl; lia|].
  pose proof (dump_loop_over f ln pri len mem (Z.land addr (Z.lnot (HEXDUMP_BYTES_PER_LINE - 1)))
    (replicate (first_column addr) None) d1 s1 H1) as Hover.
  destruct (dump_loop f ln pri len mem (Z.land addr (Z.lnot (HEXDUMP_BYTES_PER_LINE - 1))) d1 s1)
    as [r' s2] eqn:E2. simpl in Hover.
  rewrite Hover in E2; [|by apply Forall_replicate|by rewrite length_replicate|done|done].
  rewrite E1. unfold some_or at 1. erewrite bind_fail; [done|].
  erewrite bind_ok by reflexivity. by erewrite bind_fail by exact E2.
Qed.

(** C32: a hex dump prints every byte once, in rows of sixteen aligned on the
    address, with fillers before the first and after the last, and nothing when
    the level is not logged; it writes its two buffers of 81 and 17 bytes only
    inside, whatever they held, reads only the bytes it is given, and gives the
    lock back as often as it takes it. *)
Theorem hexdump_rows (f : string) (ln pri addr : Z) (mem hex0 char0 : list Z) (len : nat)
    (s : log_state) :
  bytes_ok mem → (len ≤ length mem)%nat → length hex0 = 81%nat → length char0 = 17%nat →
  hexdump f ln pri mem len addr hex0 char0 s =
  (Ok tt, if pri <=? loglevel s
          then logged s (rows_out (log_to_syslog s) f ln pri (addr - addr mod 16)
                 (rows (dump_cells addr (take len mem))))
          else s).
Proof. apply hexdump_run. Qed.

Lemma hexdump_rows_witness :
  let mem := [72; 101; 108; 108; 111; 0; 200] in
  hexdump "f" 1 7 mem 7 (4096 + 13) (replicate 81 170) (replicate 17 170) (Log false 7 0 [])
  = (Ok tt, Log false 7 0
      (rows_out false "f" 1 7 4096 [replicate 13 None ++ [Some 72; Some 101; Some 108];
         [Some 108; Some 111; Some 0; Some 200] ++ replicate 12 None])).
Proof.
  cbv zeta. rewrite (hexdump_rows "f" 1 7 (4096 + 13) [72; 101; 108; 108; 111; 0; 200]);
    [vm_compute; reflexivity|repeat (constructor; [unfold byte_ok; lia|]); constructor|simpl; lia|reflexivity|reflexivity].
Defined.

(** ** Reading a dump back *)

Definition digit_of (c : Z) : Z := if c <? 58 then c - 48 else c - 55.

Fixpoint parse_cells (hex : list Z) : list cell :=
  match hex with
  | a :: b :: _ :: hex =>
      (if a =? 46 then None else Some (16 * digit_of a + digit_of b)) :: parse_cells hex
  | _ => []
  end.

(** The bytes shown in what was logged. *)
Definition out_cells (o : out) : list cell :=
  match o with Body (Row _ hex _) | Syslog _ (Row _ hex _) => parse_cells hex | _ => [] end.
Definition undump (l : list out) : list Z := omap id (l ≫= out_cells).

Lemma digit_of_hex d : 0 ≤ d < 16 → digit_of (hex_digit d) = d.
Proof.
  intros Hd. unfold digit_of, hex_digit. destruct (Z.ltb_spec d 10);
    [destruct (Z.ltb_spec (48 + d) 58)|destruct (Z.ltb_spec (55 + d) 58)]; lia.
Qed.

Lemma parse_hexes cs : cells_ok cs → parse_cells (hexes cs) = cs.
Proof.
  induction 1 as [|c cs Hc _ IH]; [done|]. unfold hexes in *. rewrite bind_cons.
  destruct c as [b|]; simpl; rewrite IH; [|done]. f_equal. unfold byte_ok in Hc.
  pose proof (Z.div_pos b 16 ltac:(lia) ltac:(lia)) as H1.
  pose proof (Z.div_lt_upper_bound b 16 16 ltac:(lia) ltac:(lia)) as H2.
  pose proof (Z.mod_pos_bound b 16 ltac:(lia)) as H3. rewrite !digit_of_hex by lia.
  assert (hex_digit (b / 16) ≠ 46) by (unfold hex_digit; case_match; lia).
  rewrite (proj2 (Z.eqb_neq _ _)) by done. f_equal. pose proof (Z.div_mod b 16). lia.
Qed.

Lemma out_cells_xlog sl f ln pri row cs :
  cells_ok cs →
  xlog_out sl f ln pri row_fmt (Row row (hexes cs) (chars cs)) ≫= out_cells = cs.
Proof.
  intros H. unfold xlog_out.
  destruct sl, (pri =? LOG_ERR), (pri =? LOG_NOTICE); simpl; by rewrite app_nil_r, parse_hexes.
Qed.

Lemma rows_out_cells sl f ln pri row rs :
  Forall cells_ok rs → rows_out sl f ln pri row rs ≫= out_cells = mjoin rs.
Proof.
  intros H. revert row. induction H as [|r rs Hr _ IH]; intros row; [done|].
  simpl rows_out. by rewrite bind_app, IH, out_cells_xlog.
Qed.

Lemma dump_cells_mod addr l : (length (dump_cells addr l) mod 16)%nat = 0%nat.
Proof.
  unfold dump_cells. rewrite !length_app, !length_replicate, length_fmap.
  rewrite Nat.add_assoc. set (n := (first_column addr + length l)%nat). unfold fillers.
  pose proof (Nat.div_mod_eq n 16) as E. pose proof (Nat.mod_upper_bound n 16 ltac:(done)) as Hb.
  destruct (decide (n mod 16 = 0)%nat) as [E0|E0].
  - rewrite E0. simpl (_ mod _)%nat at 2. by rewrite Nat.add_0_r.
  - rewrite (Nat.mod_small (16 - n mod 16)) by lia.
    replace (n + (16 - n mod 16))%nat with (S (n / 16) * 16)%nat by lia. apply Nat.Div0.mod_mul.
Qed.

(** A hex dump loses nothing: the bytes read back from what was logged are
    the bytes dumped, in order, wherever they were and to whichever log they
    went. *)
Theorem hexdump_roundtrip (f : string) (ln pri addr : Z) (mem hex0 char0 : list Z) (len : nat)
    (s : log_state) :
  bytes_ok mem → (len ≤ length mem)%nat → length hex0 = 81%nat → length char0 = 17%nat →
  pri ≤ loglevel s → log_out s = [] →
  ∃ s', hexdump f ln pri mem len addr hex0 char0 s = (Ok tt, s') ∧
    undump (log_out s') = take len mem.
Proof.
  intros Hm Hlen Hh Hc Hp Ho. rewrite hexdump_run by done.
  rewrite (proj2 (Z.leb_le _ _) Hp). eexists. split; [done|]. unfold undump, logged. simpl.
  assert (Hok : cells_ok (dump_cells addr (take len mem))).
  { unfold cells_ok, dump_cells. rewrite !Forall_app.
    split; [by apply Forall_replicate|split; [|by apply Forall_replicate]].
    apply Forall_fmap. by apply Forall_take. }
  rewrite Ho. simpl. rewrite rows_out_cells by by apply Forall_reshape.
  rewrite rows_join by apply dump_cells_mod. unfold dump_cells.
  rewrite !omap_app. assert (Hn : ∀ n, omap id (replicate n (@None Z)) = []) by (by induction n).
  rewrite !Hn, app_nil_r. simpl. clear. induction (take len mem) as [|b l IH]; [done|].
  rewrite fmap_cons. simpl. by f_equal.
Qed.

Lemma hexdump_roundtrip_witness :
  let mem := [72; 101; 108; 108; 111; 0; 200] in
  ∃ s', hexdump "f" 1 7 mem 5 (4096 + 13) (replicate 81 170) (replicate 17 170) (Log true 7 0 [])
      = (Ok tt, s') ∧ undump (log_out s') = [72; 101; 108; 108; 111].
Proof.
  apply (hexdump_roundtrip "f" 1 7 (4096 + 13) [72; 101; 108; 108; 111; 0; 200]);
    [repeat (constructor; [unfold byte_ok; lia|]); constructor|simpl; lia|reflexivity|reflexivity|simpl; lia|reflexivity].
Defined.
