(* ===== verification/Interface.v ===== *)
(** src/x6losim_interface.h: the messages exchanged with the nodes.

    A packed structure is the list of its bytes; a field holds the value that is
    stored, so a host value [v] is stored as [htons v] and read as [ntohs]. *)

From Stdlib Require Import ZArith Lia.
From stdpp Require Import base tactics list numbers option.
From S2P Require Import Prelude Bytes.

Definition NETSIM_PKT_HDR_SZ : Z := 128.
Definition NETSIM_PKT_DATA_SZ : Z := 128.
Definition NETSIM_PKT_MAX_SZ : Z := 256.
Definition NETSIM_INTERFACE_VERSION : Z := 1.
Definition HANADU_NODE_PORT : Z := 11555.
Definition WIRELESS_NODE_PORT : Z := 11556.
Definition HANADU_MCAST_TX_PORT : Z := 22411.
Definition WIRELESS_MCAST_TX_PORT : Z := 22412.

Inductive msg_type : Type :=
  | MSG_TYPE_REG_REQ
  | MSG_TYPE_REG_CON
  | MSG_TYPE_DEREG_REQ
  | MSG_TYPE_DEREG_CON
  | MSG_TYPE_CCA_REQ
  | MSG_TYPE_CCA_CON
  | MSG_TYPE_TX_DATA_IND
  | MSG_TYPE_TX_DONE_IND.

#[export] Instance msg_type_eq_dec : EqDecision msg_type.
Proof. solve_decision. Defined.

(** The value of the enumerator, and the enumerator of a value. *)
Definition msg_type_val (t : msg_type) : Z :=
  match t with
  | MSG_TYPE_REG_REQ => 0
  | MSG_TYPE_REG_CON => 1
  | MSG_TYPE_DEREG_REQ => 2
  | MSG_TYPE_DEREG_CON => 3
  | MSG_TYPE_CCA_REQ => 4
  | MSG_TYPE_CCA_CON => 5
  | MSG_TYPE_TX_DATA_IND => 6
  | MSG_TYPE_TX_DONE_IND => 7
  end.

Definition msg_type_of (v : Z) : option msg_type :=
  match v with
  | 0 => Some MSG_TYPE_REG_REQ
  | 1 => Some MSG_TYPE_REG_CON
  | 2 => Some MSG_TYPE_DEREG_REQ
  | 3 => Some MSG_TYPE_DEREG_CON
  | 4 => Some MSG_TYPE_CCA_REQ
  | 5 => Some MSG_TYPE_CCA_CON
  | 6 => Some MSG_TYPE_TX_DATA_IND
  | 7 => Some MSG_TYPE_TX_DONE_IND
  | _ => None
  end.

Definition TX_DONE_OK : Z := 0.
Definition TX_DONE_COLLIDED : Z := 1.
Definition TX_DONE_FAILURE : Z := 2.

(** ** struct netsim_pkt_hdr *)

Record netsim_pkt_hdr := Hdr {
  hdr_len : Z;
  hdr_msg_type : Z;
  hdr_interface_version : Z;
  hdr_node_id : Z;
  hdr_cksum : Z
}.

Definition HDR_SIZE : nat := 18.
Definition OFF_len : nat := 0.
Definition OFF_msg_type : nat := 2.
Definition OFF_interface_version : nat := 4.
Definition OFF_node_id : nat := 8.
Definition OFF_cksum : nat := 16.

Definition hdr_bytes (h : netsim_pkt_hdr) : list Z :=
  le_bytes 2 (hdr_len h) ++ le_bytes 2 (hdr_msg_type h) ++
  le_bytes 4 (hdr_interface_version h) ++ le_bytes 8 (hdr_node_id h) ++
  le_bytes 2 (hdr_cksum h).

Definition hdr_of_bytes (b : list Z) : option netsim_pkt_hdr :=
  len ← load b OFF_len 2;
  ty ← load b OFF_msg_type 2;
  ver ← load b OFF_interface_version 4;
  id ← load b OFF_node_id 8;
  ck ← load b OFF_cksum 2;
  Some (Hdr len ty ver id ck).

Definition hdr_fits (h : netsim_pkt_hdr) : Prop :=
  fits 2 (hdr_len h) ∧ fits 2 (hdr_msg_type h) ∧ fits 4 (hdr_interface_version h) ∧
  fits 8 (hdr_node_id h) ∧ fits 2 (hdr_cksum h).

(** ** The messages' bodies *)

(** [char os\[32\]; char os_version\[32\]] of the registration confirm. *)
Definition OFF_os : nat := 18.
Definition OFF_os_version : nat := 50.
Definition REG_CON_SIZE : nat := 82.

(** The byte [result] of the CCA confirm and of the Tx done indication. *)
Definition CCA_CON_SIZE : nat := 19.
Definition TX_DONE_IND_SIZE : nat := 19.

(** struct netsim_data_ind_pkt. *)
Definition OFF_source_addr : nat := 18.
Definition OFF_psdu_len : nat := 26.
Definition OFF_extra_hdr : nat := 28.
Definition OFF_rep_code : nat := 30.
Definition OFF_tx_power : nat := 31.
Definition OFF_cca_mode : nat := 32.
Definition OFF_rssi : nat := 33.
Definition OFF_pktData : nat := 34.
Definition DATA_IND_SIZE : nat := 35.

(** ** Lemmas *)

Lemma length_hdr_bytes h : length (hdr_bytes h) = HDR_SIZE.
Proof. unfold hdr_bytes. by rewrite !length_app, !length_le_bytes. Qed.

Lemma hdr_bytes_ok h : bytes_ok (hdr_bytes h).
Proof. unfold hdr_bytes, bytes_ok. rewrite !Forall_app. split_and!; apply le_bytes_ok. Qed.

(** Reading a header back, whatever follows it. *)
Lemma hdr_of_bytes_bytes h rest : hdr_fits h → hdr_of_bytes (hdr_bytes h ++ rest) = Some h.
Proof.
  intros (H1 & H2 & H3 & H4 & H5). unfold hdr_of_bytes, hdr_bytes.
  set (f1 := le_bytes 2 (hdr_len h)). set (f2 := le_bytes 2 (hdr_msg_type h)).
  set (f3 := le_bytes 4 (hdr_interface_version h)). set (f4 := le_bytes 8 (hdr_node_id h)).
  set (f5 := le_bytes 2 (hdr_cksum h)).
  erewrite (load_at _ [] f1 _ OFF_len), (load_at _ f1 f2 _ OFF_msg_type),
    (load_at _ (f1 ++ f2) f3 _ OFF_interface_version),
    (load_at _ (f1 ++ f2 ++ f3) f4 _ OFF_node_id),
    (load_at _ (f1 ++ f2 ++ f3 ++ f4) f5 _ OFF_cksum)
    by (rewrite <-?app_assoc; reflexivity).
  subst f1 f2 f3 f4 f5. cbn [mbind option_bind].
  rewrite !le_val_le_bytes by done. by destruct h.
Qed.

Lemma msg_type_of_val t : msg_type_of (msg_type_val t) = Some t.
Proof. by destruct t. Qed.

Lemma msg_type_of_Some v t : msg_type_of v = Some t → v = msg_type_val t.
Proof.
  destruct v as [|p|p]; [by intros [= <-]| |done].
  do 4 (try destruct p as [p|p|]); intros [= <-]; done.
Qed.
