(* ===== verification/Os.v ===== *)
(** The boundary with the operating system.

    What the system answers is not the program's to decide: the state holds the
    answers to come ([os_script], arbitrary) and records what the program asked
    for ([os_trace]).  A call takes one answer; with none left it is [Blocked].
    An answer is read as a result the call can have: [send] and [recv] never
    report more bytes than they were given, and a received byte is a byte. *)

From Stdlib Require Import ZArith Lia.
From stdpp Require Import base tactics list numbers option strings.
From S2P Require Import Prelude Bytes TimeUtils.

(** [evp->data.ptr]: the unblocker, a DeviceNode, or NULL. *)
Inductive event_ptr : Type :=
  | PtrUnblocker
  | PtrNode (p : nat)
  | PtrNull.

Record epoll_event := EpollEvent { ev_events : Z; ev_ptr : event_ptr }.

Definition EPOLLIN : Z := 1.
Definition EPOLLERR : Z := 8.
Definition EPOLLHUP : Z := 16.
Definition EPOLLRDHUP : Z := 8192.

Definition EINTR : Z := 4.
Definition EAGAIN : Z := 11.
Definition EEXIST : Z := 17.

Record answer := Answer {
  a_rv : Z;                      (* the value returned *)
  a_errno : Z;                   (* errno after a failure *)
  a_data : list Z;               (* bytes received, or found in fresh memory *)
  a_time : timespec;             (* a time read *)
  a_events : list epoll_event;   (* epoll_wait *)
  a_fds : list Z                 (* the descriptors select leaves in the set *)
}.

Inductive sysev : Type :=
  | SysSend (fd : Z) (data : list Z)
  | SysRecv (fd len : Z)
  | SysClose (fd : Z)
  | SysTimerCreate
  | SysTimerSet (abstime : bool) (value : timespec)
  | SysTimerGet
  | SysTimerDelete
  | SysEpollAdd (fd events : Z)
  | SysEpollWait (timeout : Z)
  | SysSendTo (data : list Z)
  | SysPcapDump (data : list Z)
  | SysSetFl (fd flags : Z)
  | SysSetFd (fd flags : Z)
  | SysSetSockOpt (fd opt val : Z)
  | SysSelect (nfds : Z) (fds : list Z)
  | SysAccept (fd client : Z)
  | SysRead (fd len : Z)
  | SysWrite (fd : Z) (data : list Z)
  | SysGetTime
  | SysSocket (fd : Z)
  | SysBind (fd port : Z)
  | SysListen (fd backlog : Z)
  | SysPipe (fd_read fd_write : Z)
  | SysEpollCreate (fd : Z)
  | SysPcapOpen (path : string)
  | SysPcapClose
  | SysThreadCreate
  | SysThreadJoin
  | SysPrctl (option signum : Z)
  | SysUnblockSignals (signums : list Z)
  | SysSignal (signum : Z) (handler : bool)
  | SysConnect (fd port : Z)
  | SysRecvFrom (fd len : Z)
  | SysFork
  | SysUmask (mask : Z)
  | SysSetsid
  | SysOpenLog.

Record os := Os { os_script : list answer; os_trace : list sysev }.

(** The bytes put on descriptor [fd]. *)
Fixpoint sent_on (fd : Z) (tr : list sysev) : list Z :=
  match tr with
  | SysSend fd' data :: tr => (if decide (fd' = fd) then data else []) ++ sent_on fd tr
  | _ :: tr => sent_on fd tr
  | [] => []
  end.

Lemma sent_on_app fd tr1 tr2 : sent_on fd (tr1 ++ tr2) = sent_on fd tr1 ++ sent_on fd tr2.
Proof.
  induction tr1 as [|e tr1 IH]; [done|].
  destruct e; simpl; rewrite IH; rewrite <-?app_assoc; done.
Qed.

Definition ask : M os answer := λ s,
  match os_script s with
  | a :: l => (Ok a, Os l (os_trace s))
  | [] => (Fail Blocked, s)
  end.

Definition emit (e : sysev) : M os unit :=
  modify (λ s, Os (os_script s) (os_trace s ++ [e])).

(** [n] bytes from what an answer offers, zero where it offers less. *)
Definition bytes_of (n : nat) (l : list Z) : list Z :=
  resize n 0 ((λ b, b mod 256) <$> l).

Lemma length_bytes_of n l : length (bytes_of n l) = n.
Proof. apply length_resize. Qed.

Lemma bytes_of_ok n l : bytes_ok (bytes_of n l).
Proof.
  unfold bytes_of, bytes_ok. apply Forall_resize; [done|].
  apply Forall_fmap, Forall_true. intros b. simpl. unfold byte_ok.
  apply Z.mod_pos_bound. lia.
Qed.

Lemma bytes_of_id l : bytes_ok l → bytes_of (length l) l = l.
Proof.
  intros Hl. unfold bytes_of.
  replace ((λ b, b mod 256) <$> l) with l; [by apply resize_all_alt|].
  induction Hl as [|b l Hb Hl IH]; [done|].
  rewrite fmap_cons, <-IH. f_equal. unfold byte_ok in Hb. by rewrite Z.mod_small.
Qed.

(** A count between -1 and [n]. *)
Definition clamp (n rv : Z) : Z := Z.max (-1) (Z.min rv n).

Lemma clamp_range n rv : 0 ≤ n → -1 ≤ clamp n rv ≤ n.
Proof. unfold clamp. lia. Qed.

Lemma clamp_id n rv : -1 ≤ rv ≤ n → clamp n rv = rv.
Proof. unfold clamp. lia. Qed.

(** send(fd, data, len(data), MSG_NOSIGNAL). *)
Definition sys_send (fd : Z) (data : list Z) : M os Z :=
  a ← ask;
  let n := clamp (length data) (a_rv a) in
  emit (SysSend fd (take (Z.to_nat n) data));;
  mret n.

(** recv(fd, buf, len, 0): the count and the bytes written to [buf]. *)
Definition sys_recv (fd len : Z) : M os (Z * list Z) :=
  emit (SysRecv fd len);;
  a ← ask;
  let n := clamp len (a_rv a) in
  mret (n, bytes_of (Z.to_nat n) (a_data a)).

(** malloc(len): what the fresh memory holds is up to the system. *)
Definition sys_malloc (len : Z) : M os (list Z) :=
  a ← ask;
  mret (bytes_of (Z.to_nat len) (a_data a)).

Definition timer_create : M os Z := emit SysTimerCreate;; a ← ask; mret (a_rv a).

Definition timer_settime (abstime : bool) (value : timespec) : M os Z :=
  emit (SysTimerSet abstime value);; a ← ask; mret (a_rv a).

(** timer_gettime: the value returned and the time left. *)
Definition timer_gettime : M os (Z * timespec) :=
  emit SysTimerGet;; a ← ask; mret (a_rv a, a_time a).

Definition timer_delete : M os unit := emit SysTimerDelete.

Definition sys_close (fd : Z) : M os unit := emit (SysClose fd).

Definition epoll_ctl_add (fd events : Z) : M os Z :=
  emit (SysEpollAdd fd events);; a ← ask; mret (a_rv a).

Definition clock_gettime : M os (Z * timespec) :=
  emit SysGetTime;; a ← ask; mret (a_rv a, a_time a).

Definition EPOLL_MAX_EVENTS : nat := 64.

(** epoll_wait with room for [EPOLL_MAX_EVENTS]: -1 and errno, or the number of
    events stored and the events.  [deliverable] is what the system makes of the
    events offered: events of the descriptors in the epoll set. *)
Definition epoll_wait (deliverable : list epoll_event → list epoll_event) (timeout : Z) :
    M os (Z * Z * list epoll_event) :=
  emit (SysEpollWait timeout);;
  a ← ask;
  let evs := take EPOLL_MAX_EVENTS (deliverable (a_events a)) in
  mret (if a_rv a <? 0 then -1 else length evs, a_errno a, evs).

Definition fcntl_get : M os Z := a ← ask; mret (a_rv a).
Definition fcntl_setfl (fd flags : Z) : M os Z :=
  emit (SysSetFl fd flags);; a ← ask; mret (a_rv a).
Definition fcntl_setfd (fd flags : Z) : M os Z :=
  emit (SysSetFd fd flags);; a ← ask; mret (a_rv a).
Definition sys_setsockopt (fd opt val : Z) : M os Z :=
  emit (SysSetSockOpt fd opt val);; a ← ask; mret (a_rv a).

(** FD_SET(fd, fds): a set is the list of its descriptors; FD_SETSIZE is the
    room an fd_set has. *)
Definition FD_SETSIZE : Z := 1024.
Definition FD_SET (fd : Z) (fds : list Z) : M os (list Z) :=
  if (0 <=? fd) && (fd <? FD_SETSIZE)
  then mret (if decide (fd ∈ fds) then fds else fds ++ [fd])
  else failw (Undef OutOfBounds).

(** select(nfds, fds, ...): the count, errno, and the set left behind: of the
    descriptors in the set and below [nfds], those the answer reports. *)
Definition sys_select (nfds : Z) (fds : list Z) : M os (Z * Z * list Z) :=
  emit (SysSelect nfds fds);;
  a ← ask;
  let ready := filter (λ fd, fd ∈ a_fds a ∧ fd < nfds) fds in
  mret (if a_rv a <? 0 then -1 else length ready, a_errno a, ready).

(** A new descriptor, or -1. *)
Definition sys_accept (fd : Z) : M os Z :=
  a ← ask;
  let client := Z.max (-1) (a_rv a) in
  emit (SysAccept fd client);; mret client.
Definition sys_socket : M os Z :=
  a ← ask;
  let fd := Z.max (-1) (a_rv a) in
  emit (SysSocket fd);; mret fd.
(** pipe(fds): the two descriptors are read from the answer's [a_fds]. *)
Definition sys_pipe : M os (Z * Z * Z) :=
  a ← ask;
  let fds := (Z.max 0 (nth 0 (a_fds a) 0), Z.max 0 (nth 1 (a_fds a) 0)) in
  emit (SysPipe fds.1 fds.2);; mret (a_rv a, fds.1, fds.2).
Definition sys_bind (fd port : Z) : M os Z := emit (SysBind fd port);; a ← ask; mret (a_rv a).
Definition sys_listen (fd backlog : Z) : M os Z :=
  emit (SysListen fd backlog);; a ← ask; mret (a_rv a).
Definition sys_read (fd len : Z) : M os Z := emit (SysRead fd len);; a ← ask; mret (a_rv a).
Definition sys_write (fd : Z) (data : list Z) : M os Z :=
  emit (SysWrite fd data);; a ← ask; mret (a_rv a).


(** *** What starts and ends the process *)

Definition epoll_create1 : M os Z :=
  a ← ask;
  let fd := Z.max (-1) (a_rv a) in
  emit (SysEpollCreate fd);; mret fd.

(** pcap_open_dead and pcap_dump_open: [false] for NULL. *)
Definition pcap_open_dead : M os bool := a ← ask; mret (negb (a_rv a =? 0)).
Definition pcap_dump_open (path : string) : M os bool :=
  emit (SysPcapOpen path);; a ← ask; mret (negb (a_rv a =? 0)).
(** pcap_dump_flush, pcap_dump_close and pcap_close. *)
Definition pcap_close : M os unit := emit SysPcapClose.

Definition pthread_create : M os Z := emit SysThreadCreate;; a ← ask; mret (a_rv a).
Definition pthread_join : M os unit := emit SysThreadJoin.

(** What clock_getres says of each clock, [None] for a failure. *)
Definition clock_getres : M os (Z → option timespec) :=
  a0 ← ask; a1 ← ask; a2 ← ask;
  mret (λ c,
    let a := if c =? CLOCK_REALTIME then a0 else if c =? CLOCK_MONOTONIC then a1 else a2 in
    if a_rv a =? -1 then None else Some (a_time a)).

(** getopt(argc, argv, "x"): the next option, -1 after the last. *)
Definition getopt : M os Z := a ← ask; mret (a_rv a).

Definition SIGHUP : Z := 1.
Definition SIGINT : Z := 2.
Definition SIGTERM : Z := 15.
Definition PR_SET_PDEATHSIG : Z := 1.

Definition prctl (option signum : Z) : M os unit :=
  emit (SysPrctl option signum);; a ← ask; mret tt.
Definition sigprocmask_unblock (signums : list Z) : M os unit :=
  emit (SysUnblockSignals signums);; a ← ask; mret tt.
(** signal(signum, handler), with SIG_IGN for [false]: whether the signal was
    ignored before. *)
Definition SIG_IGN : Z := 1.
Definition signal (signum : Z) (handler : bool) : M os bool :=
  emit (SysSignal signum handler);; a ← ask; mret (a_rv a =? SIG_IGN).

(** *** What a client calls *)

Definition sys_connect (fd port : Z) : M os Z := emit (SysConnect fd port);; a ← ask; mret (a_rv a).

(** recv into fresh memory of [len] bytes: the count, errno, and the memory. *)
Definition sys_recv_fresh (fd len : Z) : M os (Z * Z * list Z) :=
  fresh ← sys_malloc len;
  emit (SysRecv fd len);;
  a ← ask;
  let n := clamp len (a_rv a) in
  mret (n, a_errno a, bytes_of (Z.to_nat n) (a_data a) ++ drop (Z.to_nat n) fresh).

(** *** What a daemon calls *)

(** fork: negative, or the child's pid in the parent and 0 in the child. *)
Definition fork : M os Z := emit SysFork;; a ← ask; mret (a_rv a).
Definition umask (mask : Z) : M os unit := emit (SysUmask mask).
Definition setsid : M os Z := emit SysSetsid;; a ← ask; mret (a_rv a).
Definition openlog : M os unit := emit SysOpenLog.

(** recvfrom(fd, buf, len, MSG_DONTWAIT, ...): the count, errno, and the bytes
    written to [buf]. *)
Definition sys_recvfrom (fd len : Z) : M os (Z * Z * list Z) :=
  emit (SysRecvFrom fd len);;
  a ← ask;
  let n := clamp len (a_rv a) in
  mret (n, a_errno a, bytes_of (Z.to_nat n) (a_data a)).

(** ** Weakest preconditions of the primitives *)

Lemma wp_ask E Q s :
  wp E ask Q s ↔
  match os_script s with
  | a :: l => Q a (Os l (os_trace s))
  | [] => E Blocked s
  end.
Proof. unfold wp, ask. by destruct (os_script s). Qed.

Lemma wp_emit E e Q s :
  wp E (emit e) Q s ↔ Q tt (Os (os_script s) (os_trace s ++ [e])).
Proof. done. Qed.

#[export] Hint Rewrite wp_ask wp_emit : wpdb.
