(* ===== verification/SocketIO.v ===== *)
(** src/socket/Socket.cpp: sockets, and the pipe that unblocks waiting calls.

    The operations run over the state of the system boundary.  A socket is its
    descriptor ([pimpl->fd]); logging is left out, it changes nothing. *)

From Stdlib Require Import ZArith Lia.
From stdpp Require Import base tactics list numbers option strings sets.
From S2P Require Import Prelude Bytes TimeUtils Os.

(** ** Socket::sendMsg *)

Module Socket.

(** The do-while loop: [m] is what is left to send, [left] its length. *)
Fixpoint sendMsg_loop (fuel : nat) (fd : Z) (m : list Z) (left bytes_sent : Z) : M os Z :=
  match fuel with
  | O => failw NoFuel
  | S fuel =>
      n ← sys_send fd m;
      if n <? 0 then mret n
      else
        let left := left - n in
        let m := drop (Z.to_nat n) m in
        let bytes_sent := bytes_sent + n in
        if 0 <? left then sendMsg_loop fuel fd m left bytes_sent
        else mret bytes_sent
  end.

(** Every round takes an answer of the system, so the answers to come bound
    the rounds: see [sendMsg_spec]. *)
Definition sendMsg (fd : Z) (msg : list Z) : M os Z := λ s,
  sendMsg_loop (S (length (os_script s))) fd msg (length msg) 0 s.

(** *** setBlocking, setCloseOnExec, setReuseAddress *)

Definition O_NONBLOCK : Z := 2048.
Definition FD_CLOEXEC : Z := 1.
Definition SO_REUSEADDR : Z := 2.

Definition setBlocking (fd : Z) (blocking : bool) : M os Z :=
  if fd <? 0 then mret (-1)
  else
    flags ← fcntl_get;
    if flags =? -1 then mret (-1)
    else
      let flags := if blocking then Z.land flags (Z.lnot O_NONBLOCK) else Z.lor flags O_NONBLOCK in
      rv ← fcntl_setfl fd flags;
      mret (if rv =? -1 then -1 else 0).

Definition setCloseOnExec (fd : Z) (closeOnExec : bool) : M os Z :=
  if fd <? 0 then mret (-1)
  else
    flags ← fcntl_get;
    if flags =? -1 then mret (-1)
    else
      let flags := if closeOnExec then Z.lor flags FD_CLOEXEC else Z.land flags (Z.lnot FD_CLOEXEC) in
      rv ← fcntl_setfd fd flags;
      mret (if rv =? -1 then -1 else 0).

Definition setReuseAddress (fd : Z) (reuse : bool) : M os Z :=
  if fd <? 0 then failw (Throw "setReuseAddress: Invalid socket fd")
  else sys_setsockopt fd SO_REUSEADDR (if reuse then 1 else 0).

(** *** recvReply *)

Inductive SocketReadStatus :=
  | SOCK_READ_CONN_CLOSED
  | SOCK_READ_UNBLOCKED
  | SOCK_READ_OK
  | SOCK_READ_TIMEOUT
  | SOCK_READ_ERROR.

#[export] Instance status_eq_dec : EqDecision SocketReadStatus.
Proof. solve_decision. Defined.

(** The set and its largest descriptor.  [unblocker]: the read end of the
    pipe, [None] for a NULL unblocker. *)
Definition setupReadFdSet (fd : Z) (unblocker : option Z) : M os (Z * list Z) :=
  if fd <? 0 then failw (Throw "Invalid Socket")
  else
    fds ← FD_SET fd [];
    match unblocker with
    | None => mret (fd, fds)
    | Some ufd =>
        if ufd <? 0 then failw (Throw "Invalid Unblocker")
        else
          fds ← FD_SET ufd fds;
          mret (if fd <? ufd then ufd else fd, fds)
    end.

(** [None] for a timeout of 0, which waits for ever; [msTimeout * 1000] is an
    [int] product. *)
Definition recv_timeout (msTimeout : Z) : M os (option (Z * Z)) :=
  if msTimeout =? 0 then mret None
  else
    usec ← some_or SignedOverflow (checked_int (msTimeout * 1000));
    mret (Some (Z.quot msTimeout 1000, Z.rem usec 1000000)).

(** The socket is in the set left by select: receive. *)
Definition recv_ready (fd replyMsgLen : Z) (rv : SocketReadStatus) (count : Z)
    : M os (SocketReadStatus * Z * option (Z * list Z)) :=
  '(n, data) ← sys_recv fd replyMsgLen;
  cassert (n <? replyMsgLen) "*bytesReadOut < replyMsgLen";;
  let rv := if 0 <? n then rv
            else if n =? 0 then SOCK_READ_CONN_CLOSED
            else SOCK_READ_ERROR in
  mret (rv, count - 1, Some (n, data)).

(** The pipe is in the set left by select: read its byte. *)
Definition recv_unblock (unblocker : option Z) (ready : list Z) (rv : SocketReadStatus) (count : Z)
    : M os (SocketReadStatus * Z) :=
  match unblocker with
  | Some ufd =>
      if bool_decide (ufd ∈ ready)
      then sys_read ufd 1;; mret (SOCK_READ_UNBLOCKED, count - 1)
      else mret (rv, count)
  | None => mret (rv, count)
  end.

(** The status, and what was stored through [bytesReadOut] and the buffer:
    [None] when neither was written.  [continue] in a do-while(0) leaves the
    loop, so an interrupted select returns [SOCK_READ_OK]. *)
Definition recvReply (fd replyMsgLen msTimeout : Z) (bytesReadOut_NULL : bool)
    (unblocker : option Z) : M os (SocketReadStatus * option (Z * list Z)) :=
  if bytesReadOut_NULL then failw (Throw "recvReply given NULL bytesReadOut")
  else
    '(fdmax, fds) ← setupReadFdSet fd unblocker;
    if 0 <? fdmax then
      timeout ← recv_timeout msTimeout;
      '(count, errno, ready) ← sys_select (fdmax + 1) fds;
      if count =? -1 then
        if errno =? EINTR then mret (SOCK_READ_OK, None)
        else mret (SOCK_READ_ERROR, None)
      else if count =? 0 then mret (SOCK_READ_TIMEOUT, None)
      else
        '(rv, count, out) ←
          (if bool_decide (fd ∈ ready) then recv_ready fd replyMsgLen SOCK_READ_OK count
           else mret (SOCK_READ_OK, count, None));
        '(rv, count) ← recv_unblock unblocker ready rv count;
        if count =? 0 then mret (rv, out)
        else mret (if bool_decide (rv = SOCK_READ_OK) then SOCK_READ_ERROR else rv, out)
    else mret (SOCK_READ_ERROR, None).

(** The destructor. *)
Definition destroy (fd : Z) : M os unit := whenb (negb (fd =? -1)) (sys_close fd).

End Socket.

(** ** SocketUnblocker *)

Module SocketUnblocker.

(** [pimpl->unblockPipes]. *)
Record pipes := Pipes { UBP_READ : Z; UBP_WRITE : Z }.

Definition getReadPipe (p : pipes) : Z := UBP_READ p.

(** Writes one byte, "1"; a failed write is only logged. *)
Definition unblock (p : pipes) : M os unit :=
  if 0 <=? UBP_WRITE p then sys_write (UBP_WRITE p) [49];; mret tt
  else mret tt.

(** Set one flag of a pipe's end, reading the others first; [setfl] or [setfd]
    writes them. *)
Definition pipe_flag (set : Z → Z → M os Z) (fd flag : Z) : M os unit :=
  flags ← fcntl_get;
  if flags =? -1 then failw (Throw "ERROR: SocketUnblocker")
  else
    ret ← set fd (Z.lor flags flag);
    if ret =? -1 then failw (Throw "ERROR: SocketUnblocker") else mret tt.

Definition openPipes : M os pipes :=
  '(ret, r, w) ← sys_pipe;
  if negb (ret =? 0) then failw (Throw "ERROR: SocketUnblocker")
  else
    pipe_flag fcntl_setfl w Socket.O_NONBLOCK;;
    pipe_flag fcntl_setfd w Socket.FD_CLOEXEC;;
    pipe_flag fcntl_setfl r Socket.O_NONBLOCK;;
    pipe_flag fcntl_setfd r Socket.FD_CLOEXEC;;
    mret (Pipes r w).

(** Both ends are closed and forgotten, whatever close answers. *)
Definition closePipes (p : pipes) : M os pipes :=
  sys_close (UBP_READ p);;
  sys_close (UBP_WRITE p);;
  mret (Pipes (-1) (-1)).
End SocketUnblocker.

(** ** ServerSocket *)

Module ServerSocket.

(** The constructor: the descriptor, a member of the Socket it is. *)
Definition make : M os Z :=
  fd ← sys_socket;
  if fd =? -1 then failw (Throw "ERROR opening socket") else mret fd.

(** [port]: the member of ServerSocket_pimpl. *)
Definition bindAnyAddress (fd port : Z) : M os unit :=
  rc ← sys_bind fd port;
  if rc <? 0 then failw (Throw "ERROR on binding") else mret tt.

Definition setPassive (fd backlog : Z) : M os unit :=
  rc ← sys_listen fd backlog;
  if negb (rc =? 0) then failw (Throw "ERROR on listen") else mret tt.
End ServerSocket.

(** ** Properties *)

Import Socket.

(** What a run of sendMsg leaves behind: it only waits, sends on [fd], and
    takes answers. *)
Definition sends (fd : Z) (s s' : os) (data : list Z) : Prop :=
  ∃ chunks, os_trace s' = os_trace s ++ (SysSend fd <$> chunks) ∧ concat chunks = data.

Lemma sent_on_chunks fd chunks : sent_on fd (SysSend fd <$> chunks) = concat chunks.
Proof.
  induction chunks as [|c l IH]; [done|]. rewrite fmap_cons. simpl.
  rewrite decide_True by done. by f_equal.
Qed.

Lemma sends_sent_on fd s s' data :
  sends fd s s' data → sent_on fd (os_trace s') = sent_on fd (os_trace s) ++ data.
Proof. intros (chunks & -> & <-). by rewrite sent_on_app, sent_on_chunks. Qed.

Lemma sends_nil fd s l : sends fd s (Os l (os_trace s)) [].
Proof. exists []. by rewrite app_nil_r. Qed.

Lemma sends_step fd s s1 s2 d1 d2 :
  sends fd s s1 d1 → sends fd s1 s2 d2 → sends fd s s2 (d1 ++ d2).
Proof.
  intros (c1 & H1 & <-) (c2 & H2 & <-). exists (c1 ++ c2).
  rewrite H2, H1, fmap_app, app_assoc, concat_app. done.
Qed.

(** The loop invariant, over the fuel. *)
Lemma sendMsg_loop_spec fuel fd m bytes_sent s :
  (length (os_script s) < fuel)%nat →
  wp (λ f s', f = Blocked ∧ ∃ sent, sent `prefix_of` m ∧ sends fd s s' sent)
     (sendMsg_loop fuel fd m (length m) bytes_sent)
     (λ r s', (r = bytes_sent + length m ∧ sends fd s s' m) ∨
              (r = -1 ∧ ∃ sent, sent `prefix_of` m ∧ sends fd s s' sent)) s.
Proof.
  revert m bytes_sent s. induction fuel as [|fuel IH]; intros m bs s Hf; [lia|].
  simpl sendMsg_loop. unfold sys_send. wp_simpl.
  destruct (os_script s) as [|a l] eqn:Hs.
  { cbn beta iota. split; [done|]. exists []. split; [apply prefix_nil|]. exists []. by rewrite app_nil_r. }
  wp_simpl. cbn [os_script os_trace].
  pose proof (clamp_range (length m) (a_rv a)) as Hc.
  set (n := clamp (length m) (a_rv a)) in *.
  assert (∀ k, sends fd s (Os k (os_trace s ++ [SysSend fd (take (Z.to_nat n) m)])) (take (Z.to_nat n) m)) as Hst.
  { intros k. exists [take (Z.to_nat n) m]. simpl. by rewrite app_nil_r. }
  destruct (Z.ltb_spec n 0) as [Hneg|Hpos].
  { right. split; [lia|]. eexists. split; [|apply Hst]. apply prefix_take. }
  destruct (Z.ltb_spec 0 (length m - n)) as [Hmore|Hend].
  - replace (length m - n) with (Z.of_nat (length (drop (Z.to_nat n) m))) by (rewrite length_drop; lia).
    assert (∀ sent, sent `prefix_of` drop (Z.to_nat n) m → take (Z.to_nat n) m ++ sent `prefix_of` m) as Hpre.
    { intros sent [k Hk]. exists k. by rewrite <-app_assoc, <-Hk, take_drop. }
    eapply wp_mono_E; [eapply wp_mono; [apply IH; simpl in *; lia|]|].
    + intros r s' [[-> Hsend]|[-> (sent & Hp & Hsend)]]; [left|right].
      * split; [rewrite length_drop; lia|].
        rewrite <-(take_drop (Z.to_nat n) m) at 1. by eapply sends_step.
      * split; [done|]. eexists. split; [by apply Hpre|]. by eapply sends_step.
    + intros f s' [-> (sent & Hp & Hsend)]. split; [done|].
      eexists. split; [by apply Hpre|]. by eapply sends_step.
  - left. split; [lia|]. specialize (Hst l). rewrite !take_ge in Hst |- * by lia. done.
Qed.


(** The flags written ([mk flags']) are those just read from the system, except
    that bit [b] is now [v]. *)
Definition flag_written (mk : Z → sysev) (b : Z) (v : bool) (s s' : os) : Prop :=
  ∃ a l flags', os_script s = a :: l ∧ os_trace s' = os_trace s ++ [mk flags'] ∧
    ∀ bit, 0 ≤ bit →
      Z.testbit flags' bit = if decide (bit = b) then v else Z.testbit (a_rv a) bit.

Lemma testbit_set_clear flags n v bit :
  0 ≤ n → 0 ≤ bit →
  Z.testbit (if (v : bool) then Z.lor flags (2 ^ n) else Z.land flags (Z.lnot (2 ^ n))) bit
  = if decide (bit = n) then v else Z.testbit flags bit.
Proof.
  intros Hn Hb. destruct v; case_decide as Hd; subst;
    rewrite ?Z.lor_spec, ?Z.land_spec, ?Z.lnot_spec by lia.
  - rewrite Z.pow2_bits_true by lia. apply orb_true_r.
  - rewrite Z.pow2_bits_false by lia. apply orb_false_r.
  - rewrite Z.pow2_bits_true by lia. apply andb_false_r.
  - rewrite Z.pow2_bits_false by lia. apply andb_true_r.
Qed.

(** SetBlocking and setCloseOnExec change one flag bit and no other: the
    flags written are those read from the descriptor with O_NONBLOCK cleared or
    set (FD_CLOEXEC set or cleared); nothing is written for an invalid
    descriptor or when the flags could not be read, and then -1 is returned. *)
Theorem set_flag_spec (fd : Z) (on : bool) (s : os) :
  wp (λ f _, f = Blocked) (setBlocking fd on)
     (λ r s', (os_trace s' = os_trace s ∧ r = -1) ∨
              (0 ≤ fd ∧ flag_written (SysSetFl fd) 11 (negb on) s s')) s ∧
  wp (λ f _, f = Blocked) (setCloseOnExec fd on)
     (λ r s', (os_trace s' = os_trace s ∧ r = -1) ∨
              (0 ≤ fd ∧ flag_written (SysSetFd fd) 0 on s s')) s.
Proof.
  split; unfold setBlocking, setCloseOnExec, fcntl_get, fcntl_setfl, fcntl_setfd;
    (destruct (Z.ltb_spec fd 0); [wp_simpl; auto|]);
    wp_simpl; (destruct (os_script s) as [|a l] eqn:Hs; [done|]); wp_simpl;
    (destruct (a_rv a =? -1); wp_simpl; [by left|]); simpl;
    (destruct l as [|a' l]; [done|]); simpl;
    right; (split; [done|]); exists a; do 2 eexists; (split; [done|]); (split; [done|]);
    intros bit Hbit.
  - rewrite <-(testbit_set_clear _ 11) by lia. by destruct on.
  - rewrite <-(testbit_set_clear _ 0) by lia. by destruct on.
Qed.

(** ** The receiving side *)

(** Every way recvReply can end: the status, what it stored, and the calls it
    made after select. *)
Inductive reply (fd len : Z) (unblocker : option Z) :
    SocketReadStatus → option (Z * list Z) → list sysev → Prop :=
  | reply_interrupted : reply fd len unblocker SOCK_READ_OK None []
  | reply_data n data : 0 < n < len → length data = Z.to_nat n →
      reply fd len unblocker SOCK_READ_OK (Some (n, data)) [SysRecv fd len]
  | reply_closed : reply fd len unblocker SOCK_READ_CONN_CLOSED (Some (0, [])) [SysRecv fd len]
  | reply_timeout : reply fd len unblocker SOCK_READ_TIMEOUT None []
  | reply_unblocked ufd : unblocker = Some ufd →
      reply fd len unblocker SOCK_READ_UNBLOCKED None [SysRead ufd 1]
  | reply_both ufd n data : unblocker = Some ufd → n < len →
      reply fd len unblocker SOCK_READ_UNBLOCKED (Some (n, data)) [SysRecv fd len; SysRead ufd 1]
  | reply_select_failed : reply fd len unblocker SOCK_READ_ERROR None []
  | reply_recv_failed :
      reply fd len unblocker SOCK_READ_ERROR (Some (-1, [])) [SysRecv fd len].

(** The descriptors of the set, in the order they were added. *)
Definition read_set (fd : Z) (unblocker : option Z) : list Z :=
  fd :: match unblocker with Some ufd => [ufd] | None => [] end.

(** Descriptors that fit an fd_set, and are not the same. *)
Definition good_fds (fd : Z) (unblocker : option Z) : Prop :=
  0 < fd < FD_SETSIZE ∧ ∀ ufd, unblocker = Some ufd → 0 < ufd < FD_SETSIZE ∧ ufd ≠ fd.

Lemma FD_SET_new fd fds s :
  0 ≤ fd < FD_SETSIZE → fd ∉ fds → FD_SET fd fds s = (Ok (fds ++ [fd]), s).
Proof.
  intros Hr Hn. unfold FD_SET. destruct (Z.leb_spec 0 fd); [|lia].
  destruct (Z.ltb_spec fd FD_SETSIZE); [|lia]. simpl. by rewrite decide_False.
Qed.

Lemma setupReadFdSet_run fd unblocker s :
  good_fds fd unblocker →
  ∃ fdmax, setupReadFdSet fd unblocker s = (Ok (fdmax, read_set fd unblocker), s) ∧
    0 < fdmax ∧ Forall (λ f, f < fdmax + 1) (read_set fd unblocker).
Proof.
  intros [Hfd Hu]. unfold setupReadFdSet.
  destruct (Z.ltb_spec fd 0); [lia|].
  erewrite bind_ok by (apply FD_SET_new; [lia|apply not_elem_of_nil]).
  destruct unblocker as [ufd|]; simpl.
  - destruct (Hu ufd eq_refl) as [Hr Hne]. destruct (Z.ltb_spec ufd 0); [lia|].
    erewrite bind_ok by (apply FD_SET_new; [lia|by rewrite list_elem_of_singleton]).
    simpl. destruct (Z.ltb_spec fd ufd); eexists; (split; [done|]); repeat constructor; lia.
  - eexists. split; [done|]. repeat constructor; lia.
Qed.

Lemma recv_timeout_run ms s :
  -2147483 ≤ ms ≤ 2147483 → ∃ t, recv_timeout ms s = (Ok t, s).
Proof.
  intros Hms. unfold recv_timeout. destruct (ms =? 0); [by eexists|].
  rewrite checked_int_Some by (unfold INT_MIN, INT_MAX; lia). by eexists.
Qed.

(** The events a call adds to the trace. *)
Definition adds (s s' : os) (l : list sysev) : Prop := os_trace s' = os_trace s ++ l.

Lemma wp_recv_ready fd len rv count Q s :
  0 < len →
  (∀ s' n data, adds s s' [SysRecv fd len] → 0 ≤ n < len → length data = Z.to_nat n →
     Q (if 0 <? n then rv else SOCK_READ_CONN_CLOSED, count - 1, Some (n, data)) s') →
  (∀ s', adds s s' [SysRecv fd len] → Q (SOCK_READ_ERROR, count - 1, Some (-1, [])) s') →
  wp (λ f _, f = Blocked ∨ f = AssertFail "*bytesReadOut < replyMsgLen")
    (recv_ready fd len rv count) Q s.
Proof.
  intros Hl HQ HE. unfold recv_ready, sys_recv. wp_simpl. cbn [os_script os_trace].
  destruct (os_script s) as [|a sc]; [by left|]. wp_simpl. cbn [os_script os_trace].
  pose proof (clamp_range len (a_rv a) ltac:(lia)) as Hc.
  destruct (Z.ltb_spec (clamp len (a_rv a)) len) as [Hlt|]; [|by right].
  destruct (decide (clamp len (a_rv a) = -1)) as [E|Hne].
  - rewrite E. unfold bytes_of. rewrite resize_0. by apply HE.
  - replace (if 0 <? _ then rv else _) with
      (if 0 <? clamp len (a_rv a) then rv else SOCK_READ_CONN_CLOSED).
    { apply HQ; [done|lia|apply length_bytes_of]. }
    destruct (Z.ltb_spec 0 (clamp len (a_rv a))); [done|].
    by rewrite (proj2 (Z.eqb_eq (clamp len (a_rv a)) 0)) by lia.
Qed.

Lemma wp_recv_unblock unblocker ready rv count (Q : _ → os → Prop) s :
  (∀ ufd, unblocker = Some ufd → ufd ∈ ready →
     ∀ s', adds s s' [SysRead ufd 1] → Q (SOCK_READ_UNBLOCKED, count - 1) s') →
  ((∀ ufd, unblocker = Some ufd → ufd ∉ ready) → Q (rv, count) s) →
  wp (λ f _, f = Blocked ∨ f = AssertFail "*bytesReadOut < replyMsgLen")
    (recv_unblock unblocker ready rv count) Q s.
Proof.
  intros Hin Hout. unfold recv_unblock, sys_read. destruct unblocker as [ufd|]; [|by apply Hout].
  case_bool_decide; wp_simpl; [|by apply Hout; intros ? [= <-]].
  cbn [os_script os_trace]. destruct (os_script s); [by left|]. wp_simpl. by apply (Hin ufd).
Qed.

(** What select counts is the socket and the pipe. *)
Lemma ready_count fd unblocker (P : Z → Prop) `{!∀ x, Decision (P x)} :
  good_fds fd unblocker → let ready := filter P (read_set fd unblocker) in
  length ready - (if bool_decide (fd ∈ ready) then 1 else 0)
  = match unblocker with Some ufd => if bool_decide (ufd ∈ ready) then 1 else 0 | None => 0 end.
Proof.
  intros [_ Hu]. unfold read_set. destruct unblocker as [ufd|]; simpl.
  - destruct (Hu ufd eq_refl) as [_ Hne]. rewrite !filter_cons, filter_nil.
    repeat case_decide; simpl; repeat case_bool_decide; try lia; set_solver.
  - rewrite filter_cons, filter_nil. case_decide; simpl; repeat case_bool_decide; try lia; set_solver.
Qed.

(** What recvReply does once the socket has been looked at, [l] being what it
    did for it. *)
Lemma wp_recv_end fd len unblocker ready rv (count : Z) out l s s0 Q :
  adds s0 s l →
  count = match unblocker with
          | Some ufd => if bool_decide (ufd ∈ ready) then 1 else 0 | None => 0 end →
  (∀ ufd, unblocker = Some ufd → reply fd len unblocker SOCK_READ_UNBLOCKED out (l ++ [SysRead ufd 1])) →
  (count = 0 → reply fd len unblocker rv out l) →
  (∀ rv s' l, adds s0 s' l → reply fd len unblocker rv out l → Q (rv, out) s') →
  wp (λ f _, f = Blocked ∨ f = AssertFail "*bytesReadOut < replyMsgLen")
    ('(rv, count) ← recv_unblock unblocker ready rv count;
     if count =? 0 then mret (rv, out)
     else mret (if bool_decide (rv = SOCK_READ_OK) then SOCK_READ_ERROR else rv, out))
    Q s.
Proof.
  intros Hs -> Hun Hdone HQ. wp_simpl. apply wp_recv_unblock.
  - intros ufd -> Hin s3 Hs3. rewrite bool_decide_true by done. simpl. wp_simpl.
    apply (HQ _ _ (l ++ [SysRead ufd 1])); [|by apply Hun].
    unfold adds in *. by rewrite Hs3, Hs, app_assoc.
  - intros Hnot. assert (match unblocker with
      | Some ufd => if bool_decide (ufd ∈ ready) then 1 else 0 | None => 0 end = 0) as E.
    { destruct unblocker; [|done]. rewrite bool_decide_false; [done|by apply Hnot]. }
    rewrite E in *. simpl. wp_simpl. by apply (HQ _ _ l); [|apply Hdone].
Qed.


