(* ===== verification/State.v ===== *)
(** The state of one physical medium: the classes of src/sim/Simulator.hpp and
    the private data of DeviceNode.cpp and PhysicalMedium.cpp.

    A [world] is one medium with the DeviceNode and NetSimPacket objects of its
    heap.  A pointer to an object is its key in the heap; a key is never used
    again, so an access through a key that is gone is a use after free.  A node's
    id is the address of its Socket object ([dn_socket]), which is only unique
    among the sockets alive. *)

From Stdlib Require Import ZArith Lia.
From stdpp Require Import base tactics list gmap numbers option strings.
From S2P Require Import Prelude Bytes TimeUtils Interface Os.

(** ** Objects *)

(** class NetSimPacket. *)
Record NetSimPacket := Packet {
  pktBuffer : list Z;
  pktBufferLen : Z;
  fromNode : nat;
  collision : bool;
  txDoneResult : Z
}.

(** class DeviceNodeTimer: the value it is armed with and the flag. *)
Record DeviceNodeTimer := Timer {
  it_interval : timespec;
  it_value : timespec;
  started : bool
}.

(** The subclasses of IDeviceNodeState; [pimpl->curState] is one of them. *)
Inductive node_state : Type := RegisteringState | ActiveState | TxState.

#[export] Instance node_state_eq_dec : EqDecision node_state.
Proof. solve_decision. Defined.

(** class DeviceNode_pimpl. *)
Record device_node := Node {
  dn_socket : Z;
  dn_sockfd : Z;
  dn_medium : bool;             (* whether medium is set; NULL otherwise *)
  dn_os : list Z;
  dn_osVersion : list Z;
  dn_curState : node_state;
  dn_regTimer : DeviceNodeTimer;
  dn_txTimer : DeviceNodeTimer;
  dn_txPkt : option nat;        (* NULL or a NetSimPacket *)
  dn_failedReads : Z
}.

Inductive PhysicalMediumState : Type := STOPPED | IDLE | TX_802514_FRAME | STOPPING.

#[export] Instance medium_state_eq_dec : EqDecision PhysicalMediumState.
Proof. solve_decision. Defined.

(** class PhysicalMedium_pimpl. *)
Record medium := Medium {
  pm_state : PhysicalMediumState;
  pm_curTime : timespec;
  pm_nodeHashMap : gmap Z nat;
  pm_regListMap : gmap Z nat;
  pm_regListMapMutex : bool;    (* held *)
  pm_ccaList : list nat;
  pm_txList : list nat;
  pm_tx_pkts_ok : Z;
  pm_tx_pkts_collided : Z;
  pm_tx_pkts_failed : Z
}.

Record world := World {
  w_os : os;
  w_nodes : gmap nat device_node;
  w_pkts : gmap nat NetSimPacket;
  w_next_pkt : nat;
  w_medium : medium
}.

(** ** Updates, one per field that changes *)

Definition set_os (o : os) (w : world) : world :=
  World o (w_nodes w) (w_pkts w) (w_next_pkt w) (w_medium w).
Definition on_nodes (f : gmap nat device_node → gmap nat device_node) (w : world) : world :=
  World (w_os w) (f (w_nodes w)) (w_pkts w) (w_next_pkt w) (w_medium w).
Definition on_pkts (f : gmap nat NetSimPacket → gmap nat NetSimPacket) (w : world) : world :=
  World (w_os w) (w_nodes w) (f (w_pkts w)) (w_next_pkt w) (w_medium w).
Definition on_medium (f : medium → medium) (w : world) : world :=
  World (w_os w) (w_nodes w) (w_pkts w) (w_next_pkt w) (f (w_medium w)).

Definition set_collision (b : bool) (k : NetSimPacket) : NetSimPacket :=
  Packet (pktBuffer k) (pktBufferLen k) (fromNode k) b (txDoneResult k).
Definition set_txDoneResult (r : Z) (k : NetSimPacket) : NetSimPacket :=
  Packet (pktBuffer k) (pktBufferLen k) (fromNode k) (collision k) r.
Definition set_pktBuffer (b : list Z) (k : NetSimPacket) : NetSimPacket :=
  Packet b (pktBufferLen k) (fromNode k) (collision k) (txDoneResult k).

Definition set_started (b : bool) (t : DeviceNodeTimer) : DeviceNodeTimer :=
  Timer (it_interval t) (it_value t) b.
Definition set_it_value (v : timespec) (t : DeviceNodeTimer) : DeviceNodeTimer :=
  Timer (it_interval t) v (started t).

Definition set_dn_medium (b : bool) (n : device_node) : device_node :=
  Node (dn_socket n) (dn_sockfd n) b (dn_os n) (dn_osVersion n) (dn_curState n)
    (dn_regTimer n) (dn_txTimer n) (dn_txPkt n) (dn_failedReads n).
Definition set_dn_os (o v : list Z) (n : device_node) : device_node :=
  Node (dn_socket n) (dn_sockfd n) (dn_medium n) o v (dn_curState n)
    (dn_regTimer n) (dn_txTimer n) (dn_txPkt n) (dn_failedReads n).
Definition set_dn_curState (s : node_state) (n : device_node) : device_node :=
  Node (dn_socket n) (dn_sockfd n) (dn_medium n) (dn_os n) (dn_osVersion n) s
    (dn_regTimer n) (dn_txTimer n) (dn_txPkt n) (dn_failedReads n).
Definition set_dn_regTimer (t : DeviceNodeTimer) (n : device_node) : device_node :=
  Node (dn_socket n) (dn_sockfd n) (dn_medium n) (dn_os n) (dn_osVersion n) (dn_curState n)
    t (dn_txTimer n) (dn_txPkt n) (dn_failedReads n).
Definition set_dn_txTimer (t : DeviceNodeTimer) (n : device_node) : device_node :=
  Node (dn_socket n) (dn_sockfd n) (dn_medium n) (dn_os n) (dn_osVersion n) (dn_curState n)
    (dn_regTimer n) t (dn_txPkt n) (dn_failedReads n).
Definition set_dn_txPkt (k : option nat) (n : device_node) : device_node :=
  Node (dn_socket n) (dn_sockfd n) (dn_medium n) (dn_os n) (dn_osVersion n) (dn_curState n)
    (dn_regTimer n) (dn_txTimer n) k (dn_failedReads n).
Definition set_dn_failedReads (z : Z) (n : device_node) : device_node :=
  Node (dn_socket n) (dn_sockfd n) (dn_medium n) (dn_os n) (dn_osVersion n) (dn_curState n)
    (dn_regTimer n) (dn_txTimer n) (dn_txPkt n) z.

Definition set_pm_state (s : PhysicalMediumState) (m : medium) : medium :=
  Medium s (pm_curTime m) (pm_nodeHashMap m) (pm_regListMap m) (pm_regListMapMutex m)
    (pm_ccaList m) (pm_txList m) (pm_tx_pkts_ok m) (pm_tx_pkts_collided m) (pm_tx_pkts_failed m).
Definition set_pm_curTime (t : timespec) (m : medium) : medium :=
  Medium (pm_state m) t (pm_nodeHashMap m) (pm_regListMap m) (pm_regListMapMutex m)
    (pm_ccaList m) (pm_txList m) (pm_tx_pkts_ok m) (pm_tx_pkts_collided m) (pm_tx_pkts_failed m).
Definition on_pm_nodeHashMap (f : gmap Z nat → gmap Z nat) (m : medium) : medium :=
  Medium (pm_state m) (pm_curTime m) (f (pm_nodeHashMap m)) (pm_regListMap m) (pm_regListMapMutex m)
    (pm_ccaList m) (pm_txList m) (pm_tx_pkts_ok m) (pm_tx_pkts_collided m) (pm_tx_pkts_failed m).
Definition on_pm_regListMap (f : gmap Z nat → gmap Z nat) (m : medium) : medium :=
  Medium (pm_state m) (pm_curTime m) (pm_nodeHashMap m) (f (pm_regListMap m)) (pm_regListMapMutex m)
    (pm_ccaList m) (pm_txList m) (pm_tx_pkts_ok m) (pm_tx_pkts_collided m) (pm_tx_pkts_failed m).
Definition set_pm_mutex (b : bool) (m : medium) : medium :=
  Medium (pm_state m) (pm_curTime m) (pm_nodeHashMap m) (pm_regListMap m) b
    (pm_ccaList m) (pm_txList m) (pm_tx_pkts_ok m) (pm_tx_pkts_collided m) (pm_tx_pkts_failed m).
Definition set_pm_ccaList (l : list nat) (m : medium) : medium :=
  Medium (pm_state m) (pm_curTime m) (pm_nodeHashMap m) (pm_regListMap m) (pm_regListMapMutex m)
    l (pm_txList m) (pm_tx_pkts_ok m) (pm_tx_pkts_collided m) (pm_tx_pkts_failed m).
Definition set_pm_txList (l : list nat) (m : medium) : medium :=
  Medium (pm_state m) (pm_curTime m) (pm_nodeHashMap m) (pm_regListMap m) (pm_regListMapMutex m)
    (pm_ccaList m) l (pm_tx_pkts_ok m) (pm_tx_pkts_collided m) (pm_tx_pkts_failed m).
Definition set_pm_stats (ok col fl : Z) (m : medium) : medium :=
  Medium (pm_state m) (pm_curTime m) (pm_nodeHashMap m) (pm_regListMap m) (pm_regListMapMutex m)
    (pm_ccaList m) (pm_txList m) ok col fl.

(** ** Access through pointers *)

(** A call on the system. *)
Definition lift_os {A} (m : M os A) : M world A := zoom w_os set_os m.

Definition get_node (p : nat) : M world device_node :=
  ns ← gets w_nodes; some_or UseAfterFree (ns !! p).

Definition upd_node (p : nat) (f : device_node → device_node) : M world unit :=
  nd ← get_node p; modify (on_nodes (<[p := f nd]>)).

Definition get_pkt (k : nat) : M world NetSimPacket :=
  ps ← gets w_pkts; some_or UseAfterFree (ps !! k).

Definition upd_pkt (k : nat) (f : NetSimPacket → NetSimPacket) : M world unit :=
  pk ← get_pkt k; modify (on_pkts (<[k := f pk]>)).

(** new NetSimPacket: a key not used before. *)
Definition new_pkt (pk : NetSimPacket) : M world nat :=
  k ← gets w_next_pkt;
  modify (λ w, World (w_os w) (w_nodes w) (<[k := pk]> (w_pkts w)) (S k) (w_medium w));;
  mret k.

Definition delete_pkt (k : nat) : M world unit :=
  get_pkt k;; modify (on_pkts (delete k)).

(** [unordered_map::insert] keeps a value already there. *)
Definition insert_new (k : Z) (p : nat) (m : gmap Z nat) : gmap Z nat :=
  match m !! k with Some _ => m | None => <[k := p]> m end.

Definition get_medium {A} (f : medium → A) : M world A := gets (λ w, f (w_medium w)).
Definition upd_medium (f : medium → medium) : M world unit := modify (on_medium f).

(** std::mutex: locking it again in the thread that holds it is a deadlock. *)
Definition mutex_lock : M world unit :=
  held ← get_medium pm_regListMapMutex;
  if (held : bool) then failw (Undef Deadlock) else upd_medium (set_pm_mutex true).
Definition mutex_unlock : M world unit := upd_medium (set_pm_mutex false).

(** ** Weakest preconditions *)

Section Wp.
Context (E : fault → world → Prop).

Lemma wp_get_node p Q w :
  wp E (get_node p) Q w ↔
  match w_nodes w !! p with Some nd => Q nd w | None => E (Undef UseAfterFree) w end.
Proof. unfold get_node. wp_simpl. by destruct (w_nodes w !! p). Qed.

Lemma wp_upd_node p f Q w :
  wp E (upd_node p f) Q w ↔
  match w_nodes w !! p with
  | Some nd => Q tt (on_nodes (<[p := f nd]>) w)
  | None => E (Undef UseAfterFree) w
  end.
Proof. unfold upd_node. wp_simpl. rewrite wp_get_node. by destruct (w_nodes w !! p). Qed.

Lemma wp_get_pkt k Q w :
  wp E (get_pkt k) Q w ↔
  match w_pkts w !! k with Some pk => Q pk w | None => E (Undef UseAfterFree) w end.
Proof. unfold get_pkt. wp_simpl. by destruct (w_pkts w !! k). Qed.

Lemma wp_upd_pkt k f Q w :
  wp E (upd_pkt k f) Q w ↔
  match w_pkts w !! k with
  | Some pk => Q tt (on_pkts (<[k := f pk]>) w)
  | None => E (Undef UseAfterFree) w
  end.
Proof. unfold upd_pkt. wp_simpl. rewrite wp_get_pkt. by destruct (w_pkts w !! k). Qed.

Lemma wp_delete_pkt k Q w :
  wp E (delete_pkt k) Q w ↔
  match w_pkts w !! k with
  | Some _ => Q tt (on_pkts (delete k) w)
  | None => E (Undef UseAfterFree) w
  end.
Proof. unfold delete_pkt. wp_simpl. rewrite wp_get_pkt. by destruct (w_pkts w !! k). Qed.

Lemma wp_new_pkt pk Q w :
  wp E (new_pkt pk) Q w ↔
  Q (w_next_pkt w)
    (World (w_os w) (w_nodes w) (<[w_next_pkt w := pk]> (w_pkts w)) (S (w_next_pkt w)) (w_medium w)).
Proof. done. Qed.

Lemma wp_get_medium {A} (f : medium → A) Q w :
  wp E (get_medium f) Q w ↔ Q (f (w_medium w)) w.
Proof. done. Qed.

Lemma wp_upd_medium f Q w : wp E (upd_medium f) Q w ↔ Q tt (on_medium f w).
Proof. done. Qed.

Lemma wp_mutex_lock Q w :
  wp E mutex_lock Q w ↔
  if pm_regListMapMutex (w_medium w) then E (Undef Deadlock) w
  else Q tt (on_medium (set_pm_mutex true) w).
Proof.
  unfold mutex_lock. wp_simpl. rewrite wp_get_medium.
  by destruct (pm_regListMapMutex (w_medium w)).
Qed.

Lemma wp_mutex_unlock Q w :
  wp E mutex_unlock Q w ↔ Q tt (on_medium (set_pm_mutex false) w).
Proof. done. Qed.

Lemma wp_lift_os {A} (m : M os A) Q w :
  wp E (lift_os m) Q w ↔
  wp (λ f o, E f (set_os o w)) m (λ a o, Q a (set_os o w)) (w_os w).
Proof. apply wp_zoom. Qed.
End Wp.

#[export] Hint Rewrite @wp_get_medium wp_upd_medium wp_mutex_unlock wp_new_pkt : wpdb.
