(* ===== verification/Spec.v ===== *)
(** What the nodes of a medium go through, without how: the specification that
    the state classes of src/sim/DeviceNode.cpp and the lists of
    src/sim/PhysicalMedium.cpp implement (the state diagram of src/model.uml).

    The abstract state says which nodes there are and the phase each is in; the
    events are the ones that change it. *)

From Stdlib Require Import ZArith Lia.
From stdpp Require Import base tactics list gmap numbers option relations.
From S2P Require Import Prelude State.

Notation phase_map := (gmap nat node_state).

Inductive node_event : Type :=
  | EvRegister (p : nat)    (* the registration is confirmed *)
  | EvTimeout (p : nat)     (* it is not confirmed in time *)
  | EvLeave (p : nat)       (* the node deregisters or hangs up *)
  | EvStartTx (p : nat)     (* a frame is put on the wire *)
  | EvEndTx (p : nat).      (* its time on the wire is over *)

Inductive spec_step : node_event → phase_map → phase_map → Prop :=
  | step_register p s :
      s !! p = Some RegisteringState → spec_step (EvRegister p) s (<[p := ActiveState]> s)
  | step_timeout p s :
      s !! p = Some RegisteringState → spec_step (EvTimeout p) s (delete p s)
  | step_leave p s :
      is_Some (s !! p) → spec_step (EvLeave p) s (delete p s)
  | step_start_tx p s :
      s !! p = Some ActiveState → spec_step (EvStartTx p) s (<[p := TxState]> s)
  | step_end_tx p s :
      s !! p = Some TxState → spec_step (EvEndTx p) s (<[p := ActiveState]> s).

(** Any number of events in [P], and at most one. *)
Definition spec_steps (P : node_event → Prop) : phase_map → phase_map → Prop :=
  rtc (λ s s', ∃ e, P e ∧ spec_step e s s').
Definition spec_step1 (P : node_event → Prop) (s s' : phase_map) : Prop :=
  s' = s ∨ ∃ e, P e ∧ spec_step e s s'.

(** The events a message or a hang-up of [p] can make. *)
Definition by_node (p : nat) (e : node_event) : Prop :=
  e = EvRegister p ∨ e = EvLeave p ∨ e = EvStartTx p.
Definition any_event (e : node_event) : Prop := True.
Definition is_end_tx (e : node_event) : Prop := ∃ p, e = EvEndTx p.
Definition is_timeout (e : node_event) : Prop := ∃ p, e = EvTimeout p.

(** The abstract state of a world. *)
Definition phases (w : world) : phase_map := dn_curState <$> w_nodes w.

Lemma phases_insert p nd w w' :
  w_nodes w' = <[p := nd]> (w_nodes w) → phases w' = <[p := dn_curState nd]> (phases w).
Proof. unfold phases. intros ->. by rewrite fmap_insert. Qed.

Lemma phases_delete p w w' :
  w_nodes w' = delete p (w_nodes w) → phases w' = delete p (phases w).
Proof. unfold phases. intros ->. by rewrite fmap_delete. Qed.

Lemma lookup_phases w p nd : w_nodes w !! p = Some nd → phases w !! p = Some (dn_curState nd).
Proof. unfold phases. intros Hp. rewrite lookup_fmap. by rewrite Hp. Qed.

Lemma phases_same p nd nd' w w' :
  w_nodes w !! p = Some nd → w_nodes w' = <[p := nd']> (w_nodes w) →
  dn_curState nd' = dn_curState nd → phases w' = phases w.
Proof.
  intros Hp Hn Hs. rewrite (phases_insert p nd' w w') by done. apply insert_id.
  rewrite Hs. by apply lookup_phases.
Qed.

Lemma phases_timeout p nd w w' :
  w_nodes w !! p = Some nd → dn_curState nd = RegisteringState →
  w_nodes w' = delete p (w_nodes w) → spec_step (EvTimeout p) (phases w) (phases w').
Proof.
  intros Hp Hs Hn. rewrite (phases_delete p w w') by done. constructor.
  by rewrite (lookup_phases w p nd Hp), Hs.
Qed.

Lemma spec_step1_steps (P Q : node_event → Prop) s s' :
  (∀ e, P e → Q e) → spec_step1 P s s' → spec_steps Q s s'.
Proof. intros HPQ [-> | (e & He & Hs)]; [constructor|]. apply rtc_once. eauto. Qed.

Lemma spec_steps_mono (P Q : node_event → Prop) s s' :
  (∀ e, P e → Q e) → spec_steps P s s' → spec_steps Q s s'.
Proof. intros HPQ. apply rtc_subrel. intros ? ? (e & ? & ?). eauto. Qed.

Lemma spec_steps_trans P s1 s2 s3 : spec_steps P s1 s2 → spec_steps P s2 s3 → spec_steps P s1 s3.
Proof. unfold spec_steps. intros. by etrans. Qed.
