(* ===== verification/DeviceNode.v ===== *)
(** src/sim/DeviceNode.cpp: packets, timers, the messages sent to a node, the
    destructor, and the lists of src/sim/PhysicalMedium.cpp that a node's state
    handlers change.

    The state handlers and readMsg, which use all of these, are in NodeStates. *)

From Stdlib Require Import ZArith Lia.
From stdpp Require Import base tactics list gmap numbers option strings.
From S2P Require Import Prelude Bytes TimeUtils Checksum Interface Os SocketIO State.

(** ntohll and htonll of a little-endian host. *)
Definition ntohll (x : Z) : Z := bswap 8 x.
Definition htonll (x : Z) : Z := ntohll x.

(** ** class NetSimPacket *)

Module NetSimPkt.
(** The constructor: the length is the one in the header, and that many bytes
    are copied from [dataInd]. *)
Definition make (dataInd : list Z) (from : nat) : option NetSimPacket :=
  len ← load dataInd OFF_len 2;
  let pktBufferLen := ntohs len in
  if decide (pktBufferLen ≤ length dataInd)
  then Some (Packet (take (Z.to_nat pktBufferLen) dataInd) pktBufferLen from false 0)
  else None.

(** The offset of the frame in the buffer, and its length field. *)
Definition pktbuf (pk : NetSimPacket) : list Z := drop OFF_pktData (pktBuffer pk).
Definition pktbufSize (pk : NetSimPacket) : option Z :=
  len ← load (pktBuffer pk) OFF_psdu_len 2;
  Some (ntohs len).

Definition getTimeOnWire (pk : NetSimPacket) : Z := 4.

(** [((uint8_t * )pktBuffer)\[0\] & 0x07 == 0x02]. *)
Definition isAck (pk : NetSimPacket) : option bool :=
  b ← load (pktBuffer pk) 0 1;
  Some (Z.land b 7 =? 2).

Definition setRSSI (rssi : Z) (pk : NetSimPacket) : option NetSimPacket :=
  b ← store (pktBuffer pk) OFF_rssi [to_unsigned 8 rssi];
  Some (set_pktBuffer b pk).

(** [None]: an access outside the buffer, or a signed overflow. *)
Definition generateChecksum (pk : NetSimPacket) : option NetSimPacket :=
  cksum ← generate_checksum (pktBuffer pk);
  b ← store (pktBuffer pk) OFF_cksum (le_bytes 2 (htons cksum));
  Some (set_pktBuffer b pk).
End NetSimPkt.

(** ** class DeviceNodeTimer *)

Module NodeTimer.
Definition make (iSec iNSec tSec tNSec : Z) : DeviceNodeTimer :=
  Timer (Timespec iSec iNSec) (Timespec tSec tNSec) false.

(** What both start methods do after setting the value. *)
Definition arm (t : DeviceNodeTimer) : M os DeviceNodeTimer :=
  rv ← timer_create;
  if rv =? -1 then failw (Throw "DeviceNodeTimer::start: failed to create timer")
  else
    rv ← timer_settime false (it_value t);
    if rv =? -1 then failw (Throw "DeviceNodeTimer::start: failed to arm timer")
    else mret (set_started true t).

Definition start (t : DeviceNodeTimer) : M os DeviceNodeTimer :=
  cassert (negb (started t)) "!started";; arm t.

Definition ms_value (ms : Z) : timespec :=
  if ms =? 0 then Timespec 0 1
  else Timespec (Z.quot ms 1000) (Z.rem ms 1000 * 1000000).

Definition start_ms (t : DeviceNodeTimer) (ms : Z) : M os DeviceNodeTimer :=
  cassert (negb (started t)) "!started";; arm (set_it_value (ms_value ms) t).

Definition stop (t : DeviceNodeTimer) : M os DeviceNodeTimer :=
  if started t then timer_delete;; mret (set_started false t)
  else mret t.

Definition expired (t : DeviceNodeTimer) : M os bool :=
  cassert (started t) "started";;
  '(rv, ts_left) ← timer_gettime;
  if rv =? -1 then failw (Throw "DeviceNodeTimer: failed to get time")
  else mret ((tv_sec ts_left =? 0) && (tv_nsec ts_left =? 0)).
End NodeTimer.

(** ** class DeviceNode: fields and timers *)

Definition REGISTRATION_TIME : Z := 120.

(** DeviceNode_pimpl's constructor. *)
Definition DeviceNode_pimpl (socket sockfd : Z) : device_node :=
  Node socket sockfd false (replicate 32 0) (replicate 32 0) RegisteringState
    (NodeTimer.make 0 0 REGISTRATION_TIME 0) (NodeTimer.make 0 0 0 0) None 0.

Definition getNodeId (p : nat) : M world Z := nd ← get_node p; mret (dn_socket nd).
Definition getSocketFd (p : nat) : M world Z := nd ← get_node p; mret (dn_sockfd nd).

(** getMedium()->: the medium, through a pointer that may be NULL. *)
Definition getMedium (p : nat) : M world unit :=
  nd ← get_node p;
  if dn_medium nd then mret tt else failw (Undef NullDeref).
Definition setMedium (p : nat) : M world unit := upd_node p (set_dn_medium true).

Definition getTxPacket (p : nat) : M world (option nat) :=
  nd ← get_node p; mret (dn_txPkt nd).

(** setTxPacket(NULL) deletes the packet and clears the member; [delete NULL]
    does nothing. *)
Definition setTxPacket (p : nat) (k : option nat) : M world unit :=
  nd ← get_node p;
  match k, dn_txPkt nd with
  | None, Some old => delete_pkt old
  | _, _ => mret tt
  end;;
  upd_node p (set_dn_txPkt k).

Definition startRegistrationTimer (p : nat) : M world unit :=
  nd ← get_node p;
  t ← lift_os (NodeTimer.start (dn_regTimer nd));
  upd_node p (set_dn_regTimer t).
Definition stopRegistrationTimer (p : nat) : M world unit :=
  nd ← get_node p;
  t ← lift_os (NodeTimer.stop (dn_regTimer nd));
  upd_node p (set_dn_regTimer t).
Definition startTxTimer (p : nat) (msTimeout : Z) : M world unit :=
  nd ← get_node p;
  t ← lift_os (NodeTimer.start_ms (dn_txTimer nd) msTimeout);
  upd_node p (set_dn_txTimer t).
Definition stopTxTimer (p : nat) : M world unit :=
  nd ← get_node p;
  t ← lift_os (NodeTimer.stop (dn_txTimer nd));
  upd_node p (set_dn_txTimer t).
Definition hasRegTimerExpired (p : nat) : M world bool :=
  nd ← get_node p; lift_os (NodeTimer.expired (dn_regTimer nd)).
Definition hasTxTimerExpired (p : nat) : M world bool :=
  nd ← get_node p; lift_os (NodeTimer.expired (dn_txTimer nd)).

(** ~DeviceNode: stops the registration timer, deletes the Socket, which closes
    its descriptor, and frees the object.  The Tx timer and the Tx packet are
    left. *)
Definition delete_node (p : nat) : M world unit :=
  stopRegistrationTimer p;;
  nd ← get_node p;
  lift_os (Socket.destroy (dn_sockfd nd));;
  modify (on_nodes (delete p)).

(** ** Messages to the node *)

(** The header the four senders fill in, with the checksum blanked out. *)
Definition out_hdr (len : Z) (ty : msg_type) (id : Z) : netsim_pkt_hdr :=
  Hdr (htons len) (htons (msg_type_val ty)) (htonl NETSIM_INTERFACE_VERSION) (htonll id) 0.

Definition set_cksum (c : Z) (h : netsim_pkt_hdr) : netsim_pkt_hdr :=
  Hdr (hdr_len h) (hdr_msg_type h) (hdr_interface_version h) (hdr_node_id h) c.

(** The message: header and body, with the checksum of both filled in. *)
Definition seal (h : netsim_pkt_hdr) (body : list Z) : option (list Z) :=
  c ← generate_checksum (hdr_bytes h ++ body);
  Some (hdr_bytes (set_cksum (htons c) h) ++ body).

(** Fill in, seal and send a message of [len] bytes; the value of sendMsg. *)
Definition send_message (p : nat) (len : Z) (ty : msg_type) (body : list Z) : M world Z :=
  nd ← get_node p;
  cassert (negb (dn_socket nd =? 0)) "pimpl->socket != NULL";;
  msg ← some_or SignedOverflow (seal (out_hdr len ty (dn_socket nd)) body);
  lift_os (Socket.sendMsg (dn_sockfd nd) msg).

Definition sendRegistrationRequest (p : nat) : M world unit :=
  n ← send_message p HDR_SIZE MSG_TYPE_REG_REQ [];
  cassert (n =? HDR_SIZE) "n == msglen".

Definition sendDeregistrationConfirm (p : nat) : M world unit :=
  send_message p HDR_SIZE MSG_TYPE_DEREG_CON [];; mret tt.

Definition sendCcaConfirm (p : nat) (result : bool) : M world unit :=
  send_message p CCA_CON_SIZE MSG_TYPE_CCA_CON [if result then 1 else 0];; mret tt.

Definition sendTxDoneIndication (p : nat) (result : Z) : M world unit :=
  send_message p TX_DONE_IND_SIZE MSG_TYPE_TX_DONE_IND [to_unsigned 8 result];; mret tt.

(** ** The medium's operations on its lists (PhysicalMedium.cpp) *)

Definition isIdle : M world bool :=
  st ← get_medium pm_state; mret (bool_decide (st = IDLE)).

Definition addNodeToCcaList (p : nat) : M world unit :=
  upd_medium (λ m, set_pm_ccaList (pm_ccaList m ++ [p]) m).

Definition addNodeToTxList (p : nat) : M world unit :=
  getNodeId p;;
  upd_medium (λ m, set_pm_txList (pm_txList m ++ [p]) m).

(** unordered_map::erase(key): the number of entries removed. *)
Definition erase_regList (id : Z) : M world bool :=
  m ← get_medium pm_regListMap;
  upd_medium (on_pm_regListMap (delete id));;
  mret (bool_decide (is_Some (m !! id))).

Definition erase_nodeHash (id : Z) : M world bool :=
  m ← get_medium pm_nodeHashMap;
  upd_medium (on_pm_nodeHashMap (delete id));;
  mret (bool_decide (is_Some (m !! id))).

Definition registerNode (p : nat) : M world unit :=
  id ← getNodeId p;
  mutex_lock;;
  n ← erase_regList id;
  mutex_unlock;;
  cassert n "n == 1";;
  upd_medium (on_pm_nodeHashMap (insert_new id p)).

Definition deregisterNode (p : nat) : M world unit :=
  mutex_lock;;
  id ← getNodeId p;
  n ← erase_regList id;
  whenb n (delete_node p);;
  mutex_unlock;;
  if (n : bool) then mret tt
  else
    id ← getNodeId p;
    n ← erase_nodeHash id;
    cassert n "n == 1";;
    delete_node p.

(** addNode up to epoll_ctl: from there on the medium's thread hears of the node. *)
Definition addNode_announce (p : nat) : M world unit :=
  getNodeId p;;
  setMedium p;;
  fd ← getSocketFd p;
  rv ← lift_os (epoll_ctl_add fd (Z.lor EPOLLIN EPOLLRDHUP));
  if rv <? 0 then
    if rv =? EEXIST then failw (Throw "epoll_ctl: Already registered")
    else failw (Throw "epoll_ctl: Error")
  else mret tt.

(** And from there to the end. *)
Definition addNode_insert (p : nat) : M world unit :=
  mutex_lock;;
  id ← getNodeId p;
  upd_medium (on_pm_regListMap (insert_new id p));;
  mutex_unlock.

Definition addNode (p : nat) : M world unit := addNode_announce p;; addNode_insert p.

(** The loop of removeNodeFromTxList.  [iter] starts at the first element and is
    only ever assigned by erase, so it is always at the first element left; at a
    node other than [nodeIn] nothing changes and the loop goes round for ever
    ([NoFuel] for every fuel). *)
Fixpoint removeNodeFromTxList_loop (fuel : nat) (nodeIn : nat) (found : bool) : M world bool :=
  match fuel with
  | O => failw NoFuel
  | S fuel =>
      l ← get_medium pm_txList;
      match l with
      | [] => mret found
      | node :: rest =>
          if decide (node = nodeIn) then
            upd_medium (set_pm_txList rest);;
            removeNodeFromTxList_loop fuel nodeIn true
          else removeNodeFromTxList_loop fuel nodeIn found
      end
  end.

Definition removeNodeFromTxList (fuel : nat) (nodeIn : nat) : M world unit :=
  found ← removeNodeFromTxList_loop fuel nodeIn false;
  st ← get_medium pm_state;
  cassert (bool_decide (st = TX_802514_FRAME)) "pimpl->state == TX_802514_FRAME";;
  cassert found "found".
