(* ===== verification/NodeStates.v ===== *)
(** src/sim/DeviceNode.cpp: the state classes of a node, the handlers that drive
    them, and readMsg.

    A state method returns the new state, or [None] for NULL; a virtual call
    selects the method by [curState].  enter and exit are empty in every class,
    and an object of a state class holds nothing but the node, so replacing
    [curState] is an assignment. *)

From Stdlib Require Import ZArith Lia.
From stdpp Require Import base tactics list gmap numbers option strings.
From S2P Require Import Prelude Bytes TimeUtils Checksum Interface Os SocketIO State DeviceNode.

(** ** The state classes *)

(** The methods a class does not override. *)
Module IDeviceNodeState.
Definition handleCcaRequest (p : nat) : M world (option node_state) := mret None.
End IDeviceNodeState.

Module Registering.
(** The constructor. *)
Definition make (p : nat) : M world node_state :=
  sendRegistrationRequest p;;
  startRegistrationTimer p;;
  mret RegisteringState.

Definition handleRegTimerExpired (p : nat) : M world (option node_state) :=
  delete_node p;; mret None.
Definition handleTxTimerExpired (p : nat) : M world (option node_state) :=
  failw (Throw "RegisteringState: handleTxTimerExpired").
Definition handleRegistrationConfirm (p : nat) : M world (option node_state) :=
  stopRegistrationTimer p;;
  getMedium p;;
  registerNode p;;
  mret (Some ActiveState).
Definition handleDeregistrationRequest (p : nat) : M world (option node_state) :=
  getMedium p;;
  deregisterNode p;;
  mret None.
Definition handleCcaRequest (p : nat) : M world (option node_state) :=
  failw (Throw "RegisteringState: handleCcaRequest").
Definition handleTxRequest (p : nat) (dataPkt : nat) : M world (option node_state) :=
  failw (Throw "RegisteringState: handleTxRequest").
End Registering.

Module Active.
Definition handleRegTimerExpired (p : nat) : M world (option node_state) :=
  failw (Throw "ActiveState: handleCheckRegTimer").
Definition handleTxTimerExpired (p : nat) : M world (option node_state) :=
  failw (Throw "ActiveState: handleTxTimerExpired").
Definition handleRegistrationConfirm (p : nat) : M world (option node_state) :=
  failw (Throw "ActiveState: handleRegistrationConfirm").
Definition handleDeregistrationRequest (p : nat) : M world (option node_state) :=
  getMedium p;;
  deregisterNode p;;
  mret None.
Definition handleCcaRequest (p : nat) : M world (option node_state) := mret None.
Definition handleTxRequest (p : nat) (dataPkt : nat) : M world (option node_state) :=
  pk ← get_pkt dataPkt;
  ack ← some_or OutOfBounds (NetSimPkt.isAck pk);
  (if (ack : bool) then startTxTimer p 0
   else startTxTimer p (NetSimPkt.getTimeOnWire pk));;
  setTxPacket p (Some dataPkt);;
  getMedium p;;
  addNodeToTxList p;;
  mret (Some TxState).
End Active.

Module Tx.
Definition handleRegTimerExpired (p : nat) : M world (option node_state) :=
  failw (Throw "TxState: handleCheckRegTimer").
Definition handleTxTimerExpired (p : nat) : M world (option node_state) :=
  opkt ← getTxPacket p;
  match opkt with
  | None => failw (AssertFail "pkt")
  | Some pkt =>
      upd_pkt pkt (set_txDoneResult TX_DONE_OK);;
      stopTxTimer p;;
      pk ← get_pkt pkt;
      whenb (collision pk) (upd_pkt pkt (set_txDoneResult TX_DONE_COLLIDED));;
      mret (Some ActiveState)
  end.
Definition handleRegistrationConfirm (p : nat) : M world (option node_state) :=
  failw (Throw "TxState: handleRegistrationConfirm").
Definition handleDeregistrationRequest (p : nat) : M world (option node_state) :=
  getMedium p;;
  deregisterNode p;;
  mret None.
(** [handleCcaRequest(DeviceNode &node)] has another signature than the virtual
    method and does not override it. *)
Definition handleCcaRequest (p : nat) : M world (option node_state) :=
  IDeviceNodeState.handleCcaRequest p.
Definition handleTxRequest (p : nat) (dataPkt : nat) : M world (option node_state) :=
  failw (Throw "TxState: handleCcaRequest").
End Tx.

(** ** The handlers of DeviceNode *)

(** A virtual call on [curState], and the change of state that follows it. *)
Definition on_curState (p : nat) (reg act tx : M world (option node_state)) : M world unit :=
  nd ← get_node p;
  newState ← match dn_curState nd with
             | RegisteringState => reg
             | ActiveState => act
             | TxState => tx
             end;
  match (newState : option node_state) with
  | Some s => upd_node p (set_dn_curState s)
  | None => mret tt
  end.

Definition handleRegTimerExpired (p : nat) : M world unit :=
  on_curState p (Registering.handleRegTimerExpired p) (Active.handleRegTimerExpired p)
    (Tx.handleRegTimerExpired p).

Definition handleTxTimerExpired (p : nat) : M world unit :=
  on_curState p (Registering.handleTxTimerExpired p) (Active.handleTxTimerExpired p)
    (Tx.handleTxTimerExpired p).

(** strncpy(dst, src, n): [None] when the source ends before a NUL or [n]
    characters. *)
Fixpoint strncpy (n : nat) (src : list Z) : option (list Z) :=
  match n with
  | O => Some []
  | S n' =>
      match src with
      | [] => None
      | c :: src => if c =? 0 then Some (replicate n 0) else cons c <$> strncpy n' src
      end
  end.

Arguments strncpy : simpl never.

(** A member printed with %s must hold a NUL. *)
Definition print_string (l : list Z) : M world unit :=
  some_or OutOfBounds (if bool_decide (0 ∈ l) then Some tt else None).

Definition handleRegistrationConfirm (p : nat) (regCon : list Z) : M world unit :=
  get_node p;;
  o ← some_or OutOfBounds (strncpy 32 (drop OFF_os regCon));
  v ← some_or OutOfBounds (strncpy 32 (drop OFF_os_version regCon));
  upd_node p (set_dn_os o v);;
  print_string o;;
  print_string v;;
  on_curState p (Registering.handleRegistrationConfirm p) (Active.handleRegistrationConfirm p)
    (Tx.handleRegistrationConfirm p).

Definition handleDeregistrationRequest (p : nat) : M world unit :=
  sendDeregistrationConfirm p;;
  on_curState p (Registering.handleDeregistrationRequest p) (Active.handleDeregistrationRequest p)
    (Tx.handleDeregistrationRequest p).

Definition handleCcaRequest (p : nat) : M world unit :=
  getMedium p;;
  addNodeToCcaList p;;
  on_curState p (Registering.handleCcaRequest p) (Active.handleCcaRequest p)
    (Tx.handleCcaRequest p).

Definition handleDataIndication (p : nat) (dataInd : list Z) : M world unit :=
  pk ← some_or OutOfBounds (NetSimPkt.make dataInd p);
  dataPkt ← new_pkt pk;
  on_curState p (Registering.handleTxRequest p dataPkt) (Active.handleTxRequest p dataPkt)
    (Tx.handleTxRequest p dataPkt).

(** ** The constructor of DeviceNode *)

(** [new DeviceNode(sockfd)] at heap key [p] with its Socket at [socket]. *)
Definition new_node (p : nat) (socket sockfd : Z) : M world unit :=
  modify (on_nodes (<[p := DeviceNode_pimpl socket sockfd]>));;
  lift_os (Socket.setCloseOnExec sockfd true);;
  st ← Registering.make p;
  upd_node p (set_dn_curState st).

(** ** readMsg *)

(** The switch on the message type. *)
Definition dispatch (p : nat) (msgType : Z) (msgData : list Z) : M world unit :=
  match msg_type_of msgType with
  | Some MSG_TYPE_REG_CON => handleRegistrationConfirm p msgData
  | Some MSG_TYPE_DEREG_REQ => handleDeregistrationRequest p
  | Some MSG_TYPE_CCA_REQ => handleCcaRequest p
  | Some MSG_TYPE_TX_DATA_IND => handleDataIndication p msgData
  | _ => mret tt
  end.

(** From [hdr = (struct netsim_pkt_hdr * )msgData] to the end of the switch:
    [msgData] as received, [len] in host order. *)
Definition process_msg (p : nat) (len : Z) (msgData : list Z) : M world unit :=
  rxCksum ← some_or OutOfBounds (load msgData OFF_cksum 2);
  msgData ← some_or OutOfBounds (store msgData OFF_cksum (le_bytes 2 0));
  msgData ← some_or OutOfBounds (store msgData OFF_len (le_bytes 2 (htons len)));
  calculatedCksum ← some_or SignedOverflow (generate_checksum msgData);
  if negb (calculatedCksum =? ntohs rxCksum) then mret tt
  else
    hdr ← some_or OutOfBounds (hdr_of_bytes msgData);
    nd ← get_node p;
    cassert (ntohll (hdr_node_id hdr) =? dn_socket nd) "nodeId == (uint64_t)pimpl->socket";;
    if negb (ntohl (hdr_interface_version hdr) =? NETSIM_INTERFACE_VERSION) then mret tt
    else dispatch p (ntohs (hdr_msg_type hdr)) msgData.

(** stats.failedReads++. *)
Definition count_failed_read (p : nat) : M world unit :=
  nd ← get_node p;
  n ← some_or SignedOverflow (checked_int (dn_failedReads nd + 1));
  upd_node p (set_dn_failedReads n).

(** recv into [msgData + 2] of [len - 2] bytes, a size_t; the bytes land in the
    buffer or outside it. *)
Definition recv_body (fd len : Z) : M world (Z * list Z) :=
  msgData ← lift_os (sys_malloc len);
  '(rv, data) ← lift_os (sys_recv fd (to_unsigned 64 (len - 2)));
  msgData ← some_or OutOfBounds (if data is [] then Some msgData else store msgData 2 data);
  mret (rv, msgData).

(** The descriptor is the Socket's.  [rv == EAGAIN] compares the value recv
    returns; the length is checked against the size of a pointer before it is
    converted from network order. *)
Definition readMsg (p : nat) : M world unit :=
  nd ← get_node p;
  '(rv, lenb) ← lift_os (sys_recv (dn_sockfd nd) 2);
  if rv =? EAGAIN then count_failed_read p
  else
    cassert (rv =? 2) "rv == sizeof(len)";;
    let len := le_val lenb in
    cassert (8 <=? len) "len >= sizeof(hdr)";;
    let len := ntohs len in
    '(rv, msgData) ← recv_body (dn_sockfd nd) len;
    if rv =? EAGAIN then count_failed_read p
    else process_msg p len msgData.
