(* ===== verification/NodeSim.v ===== *)
(** src/test/nodesim: the client the repository tests the simulator with.

    The class NodeSim of common.cpp is one end of a connection: it reads one
    message per call, checks it, and sends its own.  Its [generate_checksum] is
    line for line that of DeviceNode.cpp.  What it prints is the value returned. *)

From Stdlib Require Import ZArith Lia.
From stdpp Require Import base tactics list numbers option strings.
From S2P Require Import Prelude Bytes TimeUtils Checksum Interface Os State DeviceNode.

(** ** class NodeSim_pimpl *)

Record NodeSim_pimpl := Client {
  cl_os : os;
  cl_sockfd : Z;
  cl_nodeId : Z;
  cl_replyBuffer : list Z;      (* 256 bytes *)
  cl_mcastfd : Z
}.

Definition set_cl_os (o : os) (c : NodeSim_pimpl) : NodeSim_pimpl :=
  Client o (cl_sockfd c) (cl_nodeId c) (cl_replyBuffer c) (cl_mcastfd c).
Definition set_cl_sockfd (fd : Z) (c : NodeSim_pimpl) : NodeSim_pimpl :=
  Client (cl_os c) fd (cl_nodeId c) (cl_replyBuffer c) (cl_mcastfd c).
Definition set_cl_nodeId (id : Z) (c : NodeSim_pimpl) : NodeSim_pimpl :=
  Client (cl_os c) (cl_sockfd c) id (cl_replyBuffer c) (cl_mcastfd c).
Definition set_cl_replyBuffer (b : list Z) (c : NodeSim_pimpl) : NodeSim_pimpl :=
  Client (cl_os c) (cl_sockfd c) (cl_nodeId c) b (cl_mcastfd c).
Definition set_cl_mcastfd (fd : Z) (c : NodeSim_pimpl) : NodeSim_pimpl :=
  Client (cl_os c) (cl_sockfd c) (cl_nodeId c) (cl_replyBuffer c) fd.

Definition cl_call {A} (m : M os A) : M NodeSim_pimpl A := zoom cl_os set_cl_os m.

Definition SO_REUSEADDR : Z := 2.
Definition IP_ADD_MEMBERSHIP : Z := 35.

Definition mcastInit : M NodeSim_pimpl unit :=
  fd ← cl_call sys_socket;
  modify (set_cl_mcastfd fd);;
  rv ← cl_call (sys_setsockopt fd SO_REUSEADDR 1);
  if rv <? 0 then failw (Throw "Setting SO_REUSEADDR error")
  else
    rv ← cl_call (sys_bind fd HANADU_MCAST_TX_PORT);
    if rv <? 0 then failw (Throw "Error binding rx multicast socket")
    else
      rv ← cl_call (sys_setsockopt fd IP_ADD_MEMBERSHIP 1);
      if rv <? 0 then failw (Throw "Setting IP_ADD_MEMBERSHIP error") else mret tt.

(** The constructor; [nodeId = -1] of a uint64_t.  The buffer is not cleared. *)
Definition make : M NodeSim_pimpl unit :=
  modify (set_cl_sockfd (-1));;
  modify (set_cl_nodeId (2 ^ 64 - 1));;
  mcastInit.

(** The destructor closes the multicast socket alone. *)
Definition destroy : M NodeSim_pimpl unit :=
  fd ← gets cl_mcastfd; cl_call (sys_close fd).

Definition connectNetSim : M NodeSim_pimpl unit :=
  fd ← cl_call sys_socket;
  modify (set_cl_sockfd fd);;
  if fd <? 0 then failw (Throw "socket() failed")
  else
    rv ← cl_call (sys_connect fd HANADU_NODE_PORT);
    if rv <? 0 then failw (Throw "connect failed. Error") else mret tt.

(** ** The messages it sends *)

(** Fill in the header, seal the message and send it, once: what send returns is
    not looked at. *)
Definition send_msg (len : Z) (ty : msg_type) (body : list Z) : M NodeSim_pimpl unit :=
  c ← gets id;
  msg ← some_or SignedOverflow (seal (out_hdr len ty (cl_nodeId c)) body);
  cl_call (sys_send (cl_sockfd c) msg);;
  mret tt.

(** memset to 0 and strcpy. *)
Definition name_field (l : list Z) : list Z := l ++ replicate (32 - length l) 0.
(** "linux" and "4.1.0 rc4". *)
Definition os_name : list Z := [108; 105; 110; 117; 120].
Definition os_version : list Z := [52; 46; 49; 46; 48; 32; 114; 99; 52].

Definition sendRegCon : M NodeSim_pimpl unit :=
  send_msg REG_CON_SIZE MSG_TYPE_REG_CON (name_field os_name ++ name_field os_version).
Definition sendDeregReq : M NodeSim_pimpl unit := send_msg HDR_SIZE MSG_TYPE_DEREG_REQ [].
Definition sendCcaReq : M NodeSim_pimpl unit := send_msg HDR_SIZE MSG_TYPE_CCA_REQ [].

(** [pktData\[i\] = i] for [i < psduLen]. *)
Definition psdu_data (psduLen : nat) : list Z := (λ i : nat, i mod 256) <$> seq 0 psduLen.

(** The body of the data indication; [extra_hdr] is what malloc found. *)
Definition data_body (extra_hdr : list Z) (sourceAddr psduLen repCode txPower ccaMode : Z) : list Z :=
  le_bytes 8 (htonll sourceAddr) ++ le_bytes 2 (htons psduLen) ++ extra_hdr ++
  [to_unsigned 8 repCode; to_unsigned 8 (- txPower); to_unsigned 8 ccaMode; 0] ++
  psdu_data (Z.to_nat psduLen).

Definition sendTxDataInd (sourceAddr psduLen repCode txPower ccaMode : Z) : M NodeSim_pimpl unit :=
  let txDataIndLen := DATA_IND_SIZE - 1 + psduLen in
  fresh ← cl_call (sys_malloc txDataIndLen);
  let extra_hdr := take 2 (drop OFF_extra_hdr fresh) in
  send_msg txDataIndLen MSG_TYPE_TX_DATA_IND
    (data_body extra_hdr sourceAddr psduLen repCode txPower ccaMode).

(** ** The messages it reads *)

(** The switch of readMsg: the result of a confirm, if there is one. *)
Definition on_type (hdr : netsim_pkt_hdr) (buf : list Z) : M NodeSim_pimpl (option Z) :=
  match msg_type_of (ntohs (hdr_msg_type hdr)) with
  | Some MSG_TYPE_REG_REQ =>
      modify (set_cl_nodeId (ntohll (hdr_node_id hdr)));; mret None
  | Some MSG_TYPE_DEREG_REQ | Some MSG_TYPE_DEREG_CON | Some MSG_TYPE_TX_DATA_IND => mret None
  | Some MSG_TYPE_CCA_CON | Some MSG_TYPE_TX_DONE_IND =>
      result ← some_or OutOfBounds (load buf 18 1); mret (Some result)
  | _ => failw (Throw "Invalid received msg type")
  end.

(** One recv of up to 128 bytes is taken for one message: [n], and not the length
    of the header, is what the checksum is computed over. *)
Definition readMsg : M NodeSim_pimpl (option Z) :=
  c ← gets id;
  '(n, data) ← cl_call (sys_recv (cl_sockfd c) 128);
  if n <? 0 then failw (Throw "recv failed")
  else
    let buf := data ++ drop (length data) (cl_replyBuffer c) in
    cksum ← some_or OutOfBounds (load buf OFF_cksum 2);
    buf ← some_or OutOfBounds (store buf OFF_cksum (le_bytes 2 0));
    modify (set_cl_replyBuffer buf);;
    calculated_cksum ← some_or SignedOverflow (generate_checksum (take (Z.to_nat n) buf));
    cassert (calculated_cksum =? ntohs cksum) "calculated_cksum == cksum";;
    hdr ← some_or OutOfBounds (hdr_of_bytes buf);
    on_type hdr buf.

(** The bytes of the frame it prints, [None] when there is none: a recv that fails
    for another reason than EAGAIN is taken for a frame. *)
Definition mcastRxDataPacket : M NodeSim_pimpl (option (list Z)) :=
  fd ← gets cl_mcastfd;
  '(n, errno, rxbuf) ← cl_call (sys_recv_fresh fd 256);
  if (n =? -1) && (errno =? EAGAIN) then mret None
  else if n =? 0 then mret None
  else
    psdu_len ← some_or OutOfBounds (load rxbuf OFF_psdu_len 2);
    let len := Z.to_nat (ntohs psdu_len) in
    if decide (OFF_pktData + len ≤ 256)%nat
    then mret (Some (take len (drop OFF_pktData rxbuf)))
    else failw (Undef OutOfBounds).

(** ** TxOnePacket.cpp *)

(** The results of the two confirms and the frame received. *)
Definition TxOnePacket : M NodeSim_pimpl (option Z * option Z * option (list Z)) :=
  make;;
  connectNetSim;;
  readMsg;;
  sendRegCon;;
  sendCcaReq;;
  cca ← readMsg;
  sendTxDataInd 0x0102030405060708 32 48 (-10) 4;;
  done ← readMsg;
  frame ← mcastRxDataPacket;
  mret (cca, done, frame).
