(* ===== verification/PhysicalMedium.v ===== *)
(** src/sim/PhysicalMedium.cpp: the thread of a medium.

    The two subclasses differ in txCollisionCheck, which is the method of a
    class here, with an instance for each.  The order in which an unordered_map
    is iterated is up to the library: a parameter, of which only that it visits
    every entry once is assumed. *)

From Stdlib Require Import ZArith Lia.
From stdpp Require Import base tactics list gmap numbers option strings.
From S2P Require Import Prelude Bytes TimeUtils Checksum Interface Os SocketIO State DeviceNode NodeStates.

(** The iteration order of the medium's unordered_maps. *)
Class HashOrder := {
  hash_order : gmap Z nat → list (Z * nat);
  hash_order_perm m : hash_order m ≡ₚ map_to_list m
}.

(** ** The subclasses *)

Class CollisionCheck := txCollisionCheck : M world unit.

Module PowerlineMedium.
(** node->getTxPacket()->setCollided(true) for every node. *)
Fixpoint collide_all (l : list nat) : M world unit :=
  match l with
  | [] => mret tt
  | node :: l =>
      opkt ← getTxPacket node;
      pkt ← some_or NullDeref opkt;
      upd_pkt pkt (set_collision true);;
      collide_all l
  end.

Definition txCollisionCheck : M world unit :=
  l ← get_medium pm_txList;
  whenb (bool_decide (1 < length l)) (collide_all l).
End PowerlineMedium.

Module WirelessMedium.
Definition txCollisionCheck : M world unit := mret tt.
End WirelessMedium.

Definition powerline : CollisionCheck := PowerlineMedium.txCollisionCheck.
Definition wireless : CollisionCheck := WirelessMedium.txCollisionCheck.

(** ** processCcaList

    sendCcaConfirm does not change the list, so the loop runs over the list it
    started with, taking each node off before answering it. *)
Fixpoint processCcaList_loop (l : list nat) : M world unit :=
  match l with
  | [] => mret tt
  | node :: rest =>
      getNodeId node;;
      upd_medium (set_pm_ccaList rest);;
      idle ← isIdle;
      sendCcaConfirm node idle;;
      processCcaList_loop rest
  end.

Definition processCcaList : M world unit :=
  l ← get_medium pm_ccaList; processCcaList_loop l.

(** ** processPollerEvents *)

Definition has_flag (events flag : Z) : bool := negb (Z.land events flag =? 0).

Fixpoint poll_loop (evs : list epoll_event) : M world unit :=
  match evs with
  | [] => mret tt
  | ev :: evs =>
      if has_flag (ev_events ev) EPOLLRDHUP then
        match ev_ptr ev with
        | PtrUnblocker => upd_medium (set_pm_state STOPPING)
        | PtrNode node => getSocketFd node;; deregisterNode node;; poll_loop evs
        | PtrNull => failw (Throw "Poller EPOLLRDHUP: Not a Device node")
        end
      else if has_flag (ev_events ev) EPOLLIN then
        match ev_ptr ev with
        | PtrUnblocker => upd_medium (set_pm_state STOPPING)
        | PtrNode node => readMsg node;; poll_loop evs
        | PtrNull => failw (Throw "Poller EPOLLIN: Not a Device node")
        end
      else poll_loop evs
  end.

Definition processPollerEvents (numEvents : Z) (events : list epoll_event) : M world unit :=
  cassert (numEvents <=? EPOLL_MAX_EVENTS) "numEvents <= EPOLL_MAX_EVENTS";;
  poll_loop (take (Z.to_nat numEvents) events).

(** ** txPacket, processTxList *)

(** The [psdu_len] bytes of the frame, read by xlog_hexdump and pcap_dump. *)
Definition frame_of (pk : NetSimPacket) : option (list Z) :=
  n ← NetSimPkt.pktbufSize pk;
  if decide (n ≤ length (NetSimPkt.pktbuf pk))
  then Some (take (Z.to_nat n) (NetSimPkt.pktbuf pk))
  else None.

Definition txPacket (pkt : nat) : M world unit :=
  pk ← get_pkt pkt;
  pk ← some_or OutOfBounds (NetSimPkt.setRSSI 127 pk);
  pk ← some_or OutOfBounds (NetSimPkt.generateChecksum pk);
  upd_pkt pkt (λ _, pk);;
  lift_os (emit (SysSendTo (pktBuffer pk)));;
  frame ← some_or OutOfBounds (frame_of pk);
  lift_os (emit (SysPcapDump frame)).

Definition count_ok : M world unit :=
  m ← get_medium id;
  n ← some_or SignedOverflow (checked_int (pm_tx_pkts_ok m + 1));
  upd_medium (set_pm_stats n (pm_tx_pkts_collided m) (pm_tx_pkts_failed m)).
Definition count_collided : M world unit :=
  m ← get_medium id;
  n ← some_or SignedOverflow (checked_int (pm_tx_pkts_collided m + 1));
  upd_medium (set_pm_stats (pm_tx_pkts_ok m) n (pm_tx_pkts_failed m)).
Definition count_failed : M world unit :=
  m ← get_medium id;
  n ← some_or SignedOverflow (checked_int (pm_tx_pkts_failed m + 1));
  upd_medium (set_pm_stats (pm_tx_pkts_ok m) (pm_tx_pkts_collided m) n).

(** What is done with the result of a transmission. *)
Definition tx_result (pkt : nat) (txDoneResult : Z) : M world unit :=
  if txDoneResult =? TX_DONE_OK then txPacket pkt;; count_ok
  else if txDoneResult =? TX_DONE_COLLIDED then count_collided
  else if txDoneResult =? TX_DONE_FAILURE then count_failed
  else failw (Throw "Invalid TX Done Result").

(** One node whose timer has expired, up to its erasure from the list. *)
Definition tx_done (node : nat) : M world unit :=
  opkt ← getTxPacket node;
  match opkt with
  | None => failw (AssertFail "pkt")
  | Some pkt =>
      handleTxTimerExpired node;;
      pk ← get_pkt pkt;
      sendTxDoneIndication node (txDoneResult pk);;
      tx_result pkt (txDoneResult pk);;
      setTxPacket node None
  end.

(** The nodes of the list before the iterator ([kept]) and from it on. *)
Fixpoint processTxList_loop (kept l : list nat) : M world unit :=
  match l with
  | [] => mret tt
  | node :: rest =>
      expired ← hasTxTimerExpired node;
      if (expired : bool) then
        tx_done node;;
        getNodeId node;;
        upd_medium (set_pm_txList (kept ++ rest));;
        processTxList_loop kept rest
      else processTxList_loop (kept ++ [node]) rest
  end.

Definition processTxList : M world unit :=
  l ← get_medium pm_txList; processTxList_loop [] l.

(** ** interval *)

(** A descriptor leaves the epoll set when it is closed, and epoll_wait reports
    it once: of the events offered, those of the nodes alive, one for each. *)
Fixpoint deliverable (ns : gmap nat device_node) (evs : list epoll_event) : list epoll_event :=
  match evs with
  | [] => []
  | ev :: evs =>
      match ev_ptr ev with
      | PtrNode p =>
          match ns !! p with
          | Some _ => ev :: deliverable (delete p ns) evs
          | None => deliverable ns evs
          end
      | _ => ev :: deliverable ns evs
      end
  end.

(** The do-while loop.  [continue]d only while [rv > 0], but a positive [rv]
    breaks out of the loop: see [interval_waits_once]. *)
Fixpoint interval_loop (fuel : nat) (waitms : Z) : M world unit :=
  match fuel with
  | O => failw NoFuel
  | S fuel =>
      ns ← gets w_nodes;
      '(rv, errno, events) ← lift_os (epoll_wait (deliverable ns) waitms);
      if (rv =? -1) && negb (errno =? EINTR)
      then failw (Throw "PhysicalMedium::interval: epoll failure")
      else if negb (rv =? -1) && negb (rv =? 0) then processPollerEvents rv events
      else
        '(rv2, ts_left) ← lift_os timer_gettime;
        if rv2 =? -1 then failw (Throw "PhysicalMedium::interval: failed to get timer")
        else
          let waitms := to_int (tv_sec ts_left * 1000 + Z.quot (tv_nsec ts_left) 1000000) in
          if (0 <? rv) && (0 <? waitms) then interval_loop fuel waitms else mret tt
  end.

Definition interval (waitms : Z) : M world unit :=
  t ← get_medium pm_curTime;
  t ← some_or SignedOverflow (timespec_add_ms t (to_unsigned 64 waitms));
  upd_medium (set_pm_curTime t);;
  rv ← lift_os (timer_settime true t);
  if rv =? -1 then failw (Throw "PhysicalMedium::interval: failed to arm timer")
  else λ w, interval_loop (S (length (os_script (w_os w)))) waitms w.

(** ** checkNodeRegistrationTimeout, run *)

Fixpoint regTimeout_loop (l : list (Z * nat)) : M world unit :=
  match l with
  | [] => mret tt
  | (key, node) :: l =>
      id ← getNodeId node;
      cassert (id =? key) "node->getNodeId() == iter->first";;
      expired ← hasRegTimerExpired node;
      whenb expired
        (upd_medium (on_pm_regListMap (delete key));; handleRegTimerExpired node);;
      regTimeout_loop l
  end.

Section Run.
Context `{HashOrder} `{CollisionCheck}.

Definition checkNodeRegistrationTimeout : M world unit :=
  mutex_lock;;
  m ← get_medium pm_regListMap;
  regTimeout_loop (hash_order m);;
  mutex_unlock.

Definition stopping : M world bool :=
  st ← get_medium pm_state; mret (bool_decide (st = STOPPING)).

(** One round of the loop that waits for the Tx list to become empty; [true]
    to go on. *)
Definition tx_round : M world bool :=
  interval 1;;
  stop ← stopping;
  if (stop : bool) then mret false
  else
    processCcaList;;
    txCollisionCheck;;
    processTxList;;
    mret true.

(** [while (!pimpl->txList.empty())]. *)
Fixpoint tx_loop (fuel : nat) : M world unit :=
  match fuel with
  | O => failw NoFuel
  | S fuel =>
      l ← get_medium pm_txList;
      match l with
      | [] => mret tt
      | _ :: _ =>
          go ← tx_round;
          if (go : bool) then tx_loop fuel else mret tt
      end
  end.

(** The block run in state IDLE; [false] for its [break]. *)
Definition idle_block : M world bool :=
  interval 1000;;
  stop ← stopping;
  if (stop : bool) then mret false
  else
    l ← get_medium pm_txList;
    whenb (bool_decide (l ≠ [])) (upd_medium (set_pm_state TX_802514_FRAME));;
    processCcaList;;
    mret true.

(** The body of the do-while loop of run; [false] for its [break]. *)
Definition run_body : M world bool :=
  idle ← isIdle;
  go ← (if (idle : bool) then idle_block else mret true);
  if (go : bool) then
    (λ w, tx_loop (S (length (os_script (w_os w)))) w);;
    stop ← stopping;
    (if (stop : bool) then mret tt
     else upd_medium (set_pm_state IDLE);; checkNodeRegistrationTimeout);;
    mret true
  else mret false.

Fixpoint run_loop (fuel : nat) : M world unit :=
  match fuel with
  | O => failw NoFuel
  | S fuel =>
      go ← run_body;
      if (go : bool) then
        stop ← stopping;
        if (stop : bool) then mret tt else run_loop fuel
      else mret tt
  end.

Definition run : M world unit :=
  upd_medium (set_pm_state IDLE);;
  '(rv, t) ← lift_os clock_gettime;
  if rv =? -1 then failw (Throw "clock_gettime: unrecoverable error")
  else
    upd_medium (set_pm_curTime t);;
    (λ w, run_loop (S (length (os_script (w_os w)))) w);;
    upd_medium (set_pm_state STOPPED).
End Run.

Definition stop : M world unit := upd_medium (set_pm_state STOPPING).

(** ** PhysicalMedium_pimpl, start and waitForExit

    What the object holds of the system, which does not change once it is made.
    The timer, the address of the multicast group and the capture have one value
    each and are left implicit. *)
Record handles := Handles {
  ph_clockidToUse : Z;
  ph_name : string;
  ph_epfd : Z;
  ph_mcastsockfd : Z;
  ph_mcastport : Z
}.

Definition IP_MULTICAST_LOOP : Z := 34.

(** The constructor, for the unblocker's pipe [p]: [curTime] is what new finds. *)
Definition PhysicalMedium_pimpl (p : SocketUnblocker.pipes) (clockidToUse : Z)
    (nameIn : string) (mcastPort : Z) : M os (handles * medium) :=
  fresh ← ask;
  epfd ← epoll_create1;
  if epfd <? 0 then failw (Throw "epoll_create error")
  else
    rv ← epoll_ctl_add (SocketUnblocker.getReadPipe p) EPOLLIN;
    if rv <? 0 then failw (Throw "PhysicalMedium_pimpl: failed to add unblocker to poller")
    else
      rv ← timer_create;
      if rv =? -1 then failw (Throw "PhysicalMedium_pimpl: failed to create timer")
      else
        mcastsockfd ← sys_socket;
        sys_setsockopt mcastsockfd IP_MULTICAST_LOOP 1;;
        fake ← pcap_open_dead;
        cassert fake "pcap.fake";;
        dumper ← pcap_dump_open "./packets.pcap";
        cassert dumper "pcap.dumper";;
        mret (Handles clockidToUse nameIn epfd mcastsockfd mcastPort,
              Medium STOPPED (a_time fresh) ∅ ∅ false [] [] 0 0 0).

(** The constructors of the two subclasses. *)
Definition make_PowerlineMedium (p : SocketUnblocker.pipes) (clockidToUse : Z) :
    M os (handles * medium) :=
  PhysicalMedium_pimpl p clockidToUse "PLC" HANADU_MCAST_TX_PORT.
Definition make_WirelessMedium (p : SocketUnblocker.pipes) (clockidToUse : Z) :
    M os (handles * medium) :=
  PhysicalMedium_pimpl p clockidToUse "AIR" WIRELESS_MCAST_TX_PORT.

Definition start_thread : M os unit :=
  rc ← pthread_create;
  if negb (rc =? 0) then failw (Throw "PacketArbitrator failed to start") else mret tt.

(** Where the caller waits is up to the scheduler: see [Threads.enabled]. *)
Definition waitForExit : M os unit := pthread_join.

(** ** The destructor of PhysicalMedium_pimpl *)

(** The nodes of both maps. *)

Fixpoint destroy_regList (l : list (Z * nat)) : M world unit :=
  match l with
  | [] => mret tt
  | (key, node) :: l =>
      id ← getNodeId node;
      cassert (key =? id) "iter->first == node->getNodeId()";;
      upd_medium (on_pm_regListMap (delete key));;
      delete_node node;;
      destroy_regList l
  end.

Fixpoint destroy_nodeHash (l : list (Z * nat)) : M world unit :=
  match l with
  | [] => mret tt
  | (key, node) :: l =>
      id ← getNodeId node;
      cassert (key =? id) "iterMap->first == node->getNodeId()";;
      upd_medium (on_pm_nodeHashMap (delete key));;
      delete_node node;;
      destroy_nodeHash l
  end.

Definition destroy `{HashOrder} : M world unit :=
  mutex_lock;;
  m ← get_medium pm_regListMap;
  destroy_regList (hash_order m);;
  mutex_unlock;;
  m ← get_medium pm_nodeHashMap;
  destroy_nodeHash (hash_order m).

(** The whole of it. *)
Definition destroy_pimpl `{HashOrder} (h : handles) : M world unit :=
  lift_os (sys_close (ph_epfd h));;
  lift_os timer_delete;;
  destroy;;
  whenb (negb (ph_mcastsockfd h =? -1)) (lift_os (sys_close (ph_mcastsockfd h)));;
  lift_os pcap_close.
