(* ===== verification/Acceptor.v ===== *)
(** src/sim/Simulator.cpp: the thread that accepts connections and turns them into
    nodes of the two media.

    The simulator holds both media.  A call on a medium runs on that medium's
    objects, with the answers and the trace of the acceptor's thread.  Where the
    heap puts a new Socket is up to the allocator: a parameter, of which only that
    it gives an address that is in use by no other socket and not NULL is
    assumed. *)

From Stdlib Require Import ZArith Lia.
From stdpp Require Import base tactics list gmap numbers option strings.
From S2P Require Import Prelude Bytes TimeUtils Checksum Interface Os SocketIO State.
From S2P Require Import DeviceNode NodeStates PhysicalMedium.

(** [alloc n used]: the address of the [n]-th node's Socket. *)
Class Allocator := {
  alloc : nat → list Z → Z;
  alloc_fresh n used : alloc n used ∉ used;
  alloc_not_NULL n used : alloc n used ≠ 0
}.

(** ** class NetworkSimulator_pimpl *)

Record simulator := Sim {
  ns_os : os;
  ns_debug : bool;
  ns_stop : bool;
  ns_hanServer : Z;               (* the descriptors of the two server sockets *)
  ns_airServer : Z;
  ns_made : bool;                 (* the static object in getUnblocker *)
  ns_unblocker : SocketUnblocker.pipes;
  ns_plcMedium : world;
  ns_plcHandles : handles;
  ns_wlMedium : world;
  ns_wlHandles : handles;
  ns_next_node : nat              (* heap keys used so far *)
}.

Definition set_ns_os (o : os) (s : simulator) : simulator :=
  Sim o (ns_debug s) (ns_stop s) (ns_hanServer s) (ns_airServer s) (ns_made s)
    (ns_unblocker s) (ns_plcMedium s) (ns_plcHandles s) (ns_wlMedium s) (ns_wlHandles s) (ns_next_node s).
Definition set_ns_control (debug stop : bool) (s : simulator) : simulator :=
  Sim (ns_os s) debug stop (ns_hanServer s) (ns_airServer s) (ns_made s)
    (ns_unblocker s) (ns_plcMedium s) (ns_plcHandles s) (ns_wlMedium s) (ns_wlHandles s) (ns_next_node s).
Definition set_ns_stop (b : bool) (s : simulator) : simulator :=
  set_ns_control (ns_debug s) b s.
Definition set_ns_servers (han air : Z) (s : simulator) : simulator :=
  Sim (ns_os s) (ns_debug s) (ns_stop s) han air (ns_made s)
    (ns_unblocker s) (ns_plcMedium s) (ns_plcHandles s) (ns_wlMedium s) (ns_wlHandles s) (ns_next_node s).
Definition set_ns_unblocker (p : SocketUnblocker.pipes) (s : simulator) : simulator :=
  Sim (ns_os s) (ns_debug s) (ns_stop s) (ns_hanServer s) (ns_airServer s) true
    p (ns_plcMedium s) (ns_plcHandles s) (ns_wlMedium s) (ns_wlHandles s) (ns_next_node s).
Definition set_ns_media (plc wl : world) (s : simulator) : simulator :=
  Sim (ns_os s) (ns_debug s) (ns_stop s) (ns_hanServer s) (ns_airServer s) (ns_made s)
    (ns_unblocker s) plc (ns_plcHandles s) wl (ns_wlHandles s) (ns_next_node s).
Definition set_ns_handles (plc wl : handles) (s : simulator) : simulator :=
  Sim (ns_os s) (ns_debug s) (ns_stop s) (ns_hanServer s) (ns_airServer s) (ns_made s)
    (ns_unblocker s) (ns_plcMedium s) plc (ns_wlMedium s) wl (ns_next_node s).
Definition set_ns_next_node (n : nat) (s : simulator) : simulator :=
  Sim (ns_os s) (ns_debug s) (ns_stop s) (ns_hanServer s) (ns_airServer s) (ns_made s)
    (ns_unblocker s) (ns_plcMedium s) (ns_plcHandles s) (ns_wlMedium s) (ns_wlHandles s) n.

(** A call on the system, and a call on one of the media, by the acceptor's
    thread: the medium keeps the answers and the trace of its own thread. *)
Definition sim_os {A} (m : M os A) : M simulator A := zoom ns_os set_ns_os m.

Definition borrow (s : simulator) (w : world) : world := set_os (ns_os s) w.
Definition on_plc {A} (m : M world A) : M simulator A :=
  zoom (λ s, borrow s (ns_plcMedium s))
    (λ w s, set_ns_os (w_os w)
      (set_ns_media (set_os (w_os (ns_plcMedium s)) w) (ns_wlMedium s) s)) m.
Definition on_wl {A} (m : M world A) : M simulator A :=
  zoom (λ s, borrow s (ns_wlMedium s))
    (λ w s, set_ns_os (w_os w)
      (set_ns_media (ns_plcMedium s) (set_os (w_os (ns_wlMedium s)) w) s)) m.

(** ** The constructor and the destructor *)

(** getUnblocker: its static object is made at the first use, and what uses it
    after the constructor reads it directly. *)
Definition getUnblocker : M simulator SocketUnblocker.pipes :=
  made ← gets ns_made;
  if (made : bool) then gets ns_unblocker
  else
    p ← sim_os SocketUnblocker.openPipes;
    modify (set_ns_unblocker p);;
    mret p.

(** A medium as its constructor leaves it: no node is on its heap. *)
Definition born (w : world) (m : medium) : world := World (w_os w) ∅ ∅ 0 m.

(** The servers are NULL, which has no descriptor. *)
Definition NetworkSimulator_pimpl (debugIn : bool) (clockidToUse : Z) : M simulator unit :=
  modify (set_ns_control debugIn false);;
  modify (set_ns_servers (-1) (-1));;
  p ← getUnblocker;
  '(h, m) ← sim_os (make_PowerlineMedium p clockidToUse);
  modify (λ s, set_ns_handles h (ns_wlHandles s)
    (set_ns_media (born (ns_plcMedium s) m) (ns_wlMedium s) s));;
  p ← getUnblocker;
  '(h, m) ← sim_os (make_WirelessMedium p clockidToUse);
  modify (λ s, set_ns_handles (ns_plcHandles s) h
    (set_ns_media (ns_plcMedium s) (born (ns_wlMedium s) m) s)).

(** The constructor of NetworkSimulator up to the start of the threads: the clock
    is looked at after it has been used. *)
Definition make_NetworkSimulator (debug : bool) : M simulator unit :=
  res ← sim_os clock_getres;
  let clockidToUse := get_highres_clock res in
  NetworkSimulator_pimpl debug clockidToUse;;
  if clockidToUse =? -1 then failw (Throw "Failed to get high resolution clock")
  else mret tt.

(** The end of the destructor, after both media have been told to stop. *)
Definition destroy_simulator `{HashOrder} : M simulator unit :=
  sim_os waitForExit;;
  sim_os waitForExit;;
  plc ← gets ns_plcHandles;
  on_plc (destroy_pimpl plc);;
  wl ← gets ns_wlHandles;
  on_wl (destroy_pimpl wl).

(** ** acceptConnections *)

Inductive AcceptStatus := ACCEPT_UNBLOCK | ACCEPT_OK | ACCEPT_TIMEOUT | ACCEPT_ERROR.

#[export] Instance accept_status_eq_dec : EqDecision AcceptStatus.
Proof. solve_decision. Defined.

Definition EWOULDBLOCK : Z := EAGAIN.

(** The set of the three descriptors and the largest of them. *)
Definition setupAcceptFdSet (han air ufd : Z) : M os (Z * list Z) :=
  if han <? 0 then failw (Throw "Invalid Hanadu Socket")
  else
    let fd_max := han in
    fds ← FD_SET han [];
    if air <? 0 then failw (Throw "Invalid Wireless Socket")
    else
      let fd_max := if fd_max <? air then air else fd_max in
      fds ← FD_SET air fds;
      if ufd <? 0 then failw (Throw "Invalid Unblocker")
      else
        fds ← FD_SET ufd fds;
        let fd_max := if fd_max <? ufd then ufd else fd_max in
        mret (fd_max, fds).

(** The Hanadu server is in the set: its client, the status and the count. *)
Definition accept_han (han : Z) (ready : list Z) (rv : AcceptStatus) (count : Z)
    : M os (Z * AcceptStatus * Z) :=
  if bool_decide (han ∈ ready) then
    hanClient ← sys_accept han;
    rv ← (if hanClient <? 0
          then cassert (negb (hanClient =? EWOULDBLOCK)) "*hanClient != EWOULDBLOCK";;
               mret ACCEPT_ERROR
          else mret rv);
    mret (hanClient, rv, count - 1)
  else mret (-1, rv, count).

(** The wireless server; its assertion looks at [*hanClient]. *)
Definition accept_air (air hanClient : Z) (ready : list Z) (rv : AcceptStatus) (count : Z)
    : M os (Z * AcceptStatus * Z) :=
  if bool_decide (air ∈ ready) then
    airClient ← sys_accept air;
    rv ← (if airClient <? 0
          then cassert (negb (hanClient =? EWOULDBLOCK)) "*hanClient != EWOULDBLOCK";;
               mret ACCEPT_ERROR
          else mret rv);
    mret (airClient, rv, count - 1)
  else mret (-1, rv, count).

(** Both clients are closed and forgotten. *)
Definition drop_clients (hanClient airClient : Z) : M os unit :=
  whenb (negb (hanClient =? -1)) (sys_close hanClient);;
  whenb (negb (airClient =? -1)) (sys_close airClient).

(** The unblocker is in the set; "Unblocking trumps previous status codes". *)
Definition accept_unblock (ufd : Z) (ready : list Z) (hanClient airClient : Z)
    (rv : AcceptStatus) (count : Z) : M os (Z * Z * AcceptStatus * Z) :=
  if bool_decide (ufd ∈ ready) then
    sys_read ufd 1;;
    drop_clients hanClient airClient;;
    mret (-1, -1, ACCEPT_UNBLOCK, count - 1)
  else mret (hanClient, airClient, rv, count).

(** The status and the clients.  [continue] in a do-while(0) leaves the loop. *)
Definition acceptConnections (han air ufd : Z) : M os (AcceptStatus * Z * Z) :=
  '(fdmax, fds) ← setupAcceptFdSet han air ufd;
  if 0 <? fdmax then
    '(count, errno, ready) ← sys_select (fdmax + 1) fds;
    if count =? -1 then
      if errno =? EINTR then mret (ACCEPT_OK, -1, -1)
      else mret (ACCEPT_ERROR, -1, -1)
    else if count =? 0 then mret (ACCEPT_TIMEOUT, -1, -1)
    else
      '(hanClient, rv, count) ← accept_han han ready ACCEPT_OK count;
      '(airClient, rv, count) ← accept_air air hanClient ready rv count;
      '(hanClient, airClient, rv, count) ← accept_unblock ufd ready hanClient airClient rv count;
      if negb (count =? 0) then
        drop_clients hanClient airClient;;
        mret (if bool_decide (rv = ACCEPT_OK) then ACCEPT_ERROR else rv, -1, -1)
      else mret (rv, hanClient, airClient)
  else mret (ACCEPT_ERROR, -1, -1).

(** ** start, stop *)

(** NetworkSimulator::stop, which the signal handler of main.cpp calls. *)
Definition stop_simulator : M simulator unit :=
  modify (set_ns_stop true);;
  p ← gets ns_unblocker;
  sim_os (SocketUnblocker.unblock p).

(** A signal may have come since the last look at [pimpl->stop]: the system says
    whether. *)
Definition deliver_signals : M simulator unit :=
  a ← sim_os ask;
  whenb (negb (a_rv a =? 0)) stop_simulator.

(** [new HanaduDeviceNode(fd)] or [new WirelessDeviceNode(fd)], and addNode: for
    the node at heap key [p] with its Socket at [socket]. *)
Definition join (p : nat) (socket fd : Z) : M world unit :=
  new_node p socket fd;; addNode p.

(** When one of the two throws, no pointer to the node is left: the object is
    leaked, with its open descriptor, and no longer one of the medium's. *)
Definition join_or_leak (p : nat) (socket fd : Z) : M world unit :=
  try_catch (join p socket fd) (λ msg,
    modify (on_nodes (delete p));; failw (Throw msg)).

Section Start.
Context `{Allocator}.

Definition sockets (w : world) : list Z := (λ x, dn_socket x.2) <$> map_to_list (w_nodes w).

(** A heap key, and the address of the node's Socket. *)
Definition new_address : M simulator (nat * Z) :=
  n ← gets ns_next_node;
  modify (set_ns_next_node (S n));;
  used ← gets (λ s, sockets (ns_plcMedium s) ++ sockets (ns_wlMedium s));
  mret (n, alloc n used).

Definition add_han (hanClient : Z) : M simulator unit :=
  '(p, socket) ← new_address; on_plc (join_or_leak p socket hanClient).
Definition add_air (airClient : Z) : M simulator unit :=
  '(p, socket) ← new_address; on_wl (join_or_leak p socket airClient).

Definition delete_servers : M simulator unit :=
  han ← gets ns_hanServer;
  sim_os (Socket.destroy han);;
  air ← gets ns_airServer;
  sim_os (Socket.destroy air).

(** What start does with the result of acceptConnections: the new errCount. *)
Definition accepted (rv : AcceptStatus) (hanClient airClient errCount : Z) : M simulator Z :=
  match rv with
  | ACCEPT_OK =>
      whenb (negb (hanClient =? -1)) (add_han hanClient);;
      whenb (negb (airClient =? -1)) (add_air airClient);;
      mret 0
  | ACCEPT_TIMEOUT => mret 0
  | ACCEPT_ERROR =>
      let errCount := errCount + 1 in
      if 5 <? errCount then
        delete_servers;;
        failw (Throw "Fatal error in acceptConnections")
      else mret errCount
  | ACCEPT_UNBLOCK => mret errCount
  end.

(** The body of the loop: the status and the new errCount. *)
Definition accept_round (errCount : Z) : M simulator (AcceptStatus * Z) :=
  han ← gets ns_hanServer;
  air ← gets ns_airServer;
  p ← gets ns_unblocker;
  '(rv, hanClient, airClient) ←
    sim_os (acceptConnections han air (SocketUnblocker.getReadPipe p));
  errCount ← accepted rv hanClient airClient errCount;
  mret (rv, errCount).

Fixpoint accept_loop (fuel : nat) (errCount : Z) : M simulator unit :=
  match fuel with
  | O => failw NoFuel
  | S fuel =>
      '(rv, errCount) ← accept_round errCount;
      deliver_signals;;
      stop ← gets ns_stop;
      if negb stop && negb (bool_decide (rv = ACCEPT_UNBLOCK))
      then accept_loop fuel errCount
      else mret tt
  end.

(** One of the two server sockets, ready for connections. *)
Definition open_server (port : Z) (fd : Z) : M os unit :=
  Socket.setBlocking fd false;;
  Socket.setCloseOnExec fd true;;
  Socket.setReuseAddress fd true;;
  ServerSocket.bindAnyAddress fd port;;
  ServerSocket.setPassive fd 20.

Definition open_servers : M simulator unit :=
  han ← sim_os ServerSocket.make;
  modify (λ s, set_ns_servers han (ns_airServer s) s);;
  air ← sim_os ServerSocket.make;
  modify (λ s, set_ns_servers (ns_hanServer s) air s);;
  sim_os (open_server HANADU_NODE_PORT han);;
  sim_os (open_server WIRELESS_NODE_PORT air).

Definition start : M simulator unit :=
  open_servers;;
  (λ s, accept_loop (S (length (os_script (ns_os s)))) 0 s);;
  delete_servers.
End Start.
