(* ===== verification/Main.v ===== *)
(** src/main.cpp: the options, the signals, and the life of the simulator object. *)

From Stdlib Require Import ZArith Lia.
From stdpp Require Import base tactics list gmap numbers option strings.
From S2P Require Import Prelude Bytes TimeUtils Checksum Interface Os SocketIO State.
From S2P Require Import DeviceNode NodeStates PhysicalMedium Acceptor.

Definition EXIT_SUCCESS : Z := 0.
Definition EXIT_FAILURE : Z := 1.

(** What the static variable [sim] holds. *)
Inductive sim_ptr :=
  | SimNULL
  | SimObject
  | SimDeleted.    (* delete(sim) does not change the variable *)

#[export] Instance sim_ptr_eq_dec : EqDecision sim_ptr.
Proof. solve_decision. Defined.

(** [signal_handler(signum)], with [sim] as it is. *)
Definition signal_handler (sim : sim_ptr) (signum : Z) : M simulator unit :=
  whenb (bool_decide (signum ∈ [SIGINT; SIGTERM]))
    match sim with
    | SimNULL => mret tt
    | SimObject => stop_simulator
    | SimDeleted => failw (Undef UseAfterFree)
    end;;
  sim_os (signal signum true);;
  mret tt.

(** The loop over the options: [debug], or [None] for the usage message. *)
Fixpoint getopt_loop (fuel : nat) (debug : bool) : M os (option bool) :=
  match fuel with
  | O => failw NoFuel
  | S fuel =>
      opt ← getopt;
      if opt =? -1 then mret (Some debug)
      else if opt =? 120 then getopt_loop fuel true
      else mret None
  end.

Definition options : M os (option bool) := λ s,
  getopt_loop (S (length (os_script s))) false s.

(** A handler is not left in place of SIG_IGN: the signals that have it. *)
Definition install_handler (signum : Z) : M os (list Z) :=
  ignored ← signal signum true;
  if (ignored : bool) then signal signum false;; mret [] else mret [signum].

Definition install_handlers : M os (list Z) :=
  sigprocmask_unblock [SIGINT; SIGTERM; SIGHUP];;
  int ← install_handler SIGINT;
  hup ← install_handler SIGHUP;
  term ← install_handler SIGTERM;
  mret (int ++ hup ++ term).

(** main up to the try block: the option and the signals handled, or [None] when
    it has printed its usage. *)
Definition prepare : M os (option (bool * list Z)) :=
  opt ← options;
  match opt with
  | None => mret None
  | Some debug =>
      prctl PR_SET_PDEATHSIG SIGTERM;;
      handled ← install_handlers;
      mret (Some (debug, handled))
  end.

(** The destructors exit runs: the unblocker's, if it was made. *)
Definition exit_destructors : M simulator unit :=
  made ← gets ns_made;
  p ← gets ns_unblocker;
  whenb made (sim_os (SocketUnblocker.closePipes p);; mret tt).
