(* ===== verification/X6losim.v ===== *)
(** src/src/x6losim.c: the older server, in one file.

    It takes whole frames from one UDP port and multicasts them: no nodes, no
    registration, no media.  No target builds it any more; it uses three fields
    that [struct netsim_pkt_hdr] no longer has, so what it makes of the 128 bytes
    before a frame is a parameter, the class [OldHeader].  Its options and the
    installation of its handlers are line for line those of main.cpp, its hex dump
    is that of log.cpp without the lock ([hexdump_as_log]). *)

From Stdlib Require Import ZArith Lia.
From stdpp Require Import base tactics list numbers option strings.
From S2P Require Import Prelude Bytes TimeUtils Checksum Interface Os Log Main.

(** [hdr->psdu_len] and [hdr->rssi = v], in and of a buffer of at least a header. *)
Class OldHeader := {
  hdr_psdu_len : list Z → Z;
  hdr_set_rssi : Z → list Z → list Z;
  psdu_len_range l : 0 ≤ hdr_psdu_len l < 2 ^ 16;
  psdu_len_app h l : length h = Z.to_nat NETSIM_PKT_HDR_SZ → hdr_psdu_len (h ++ l) = hdr_psdu_len h;
  set_rssi_app v h l : length h = Z.to_nat NETSIM_PKT_HDR_SZ →
    hdr_set_rssi v (h ++ l) = hdr_set_rssi v h ++ l;
  length_set_rssi v l : length (hdr_set_rssi v l) = length l;
  set_rssi_ok v l : bytes_ok l → bytes_ok (hdr_set_rssi v l)
}.

Definition LOG_INFO : Z := 6.

(** ** struct x6lo

    [x_out] is what has gone to the terminal or the system log. *)
Record x6lo := X6lo {
  x_os : os;
  x_out : list out;
  x_loglevel : Z;
  x_rx_sockfd : Z;
  x_rx_port : Z;
  x_mcastsockfd : Z;
  x_pktbuf : list Z;
  x_debug : bool;
  x_running : bool;
  x_quit : bool
}.

Definition set_x_os (o : os) (s : x6lo) : x6lo :=
  X6lo o (x_out s) (x_loglevel s) (x_rx_sockfd s) (x_rx_port s) (x_mcastsockfd s) (x_pktbuf s)
    (x_debug s) (x_running s) (x_quit s).
Definition set_x_out (l : list out) (s : x6lo) : x6lo :=
  X6lo (x_os s) l (x_loglevel s) (x_rx_sockfd s) (x_rx_port s) (x_mcastsockfd s) (x_pktbuf s)
    (x_debug s) (x_running s) (x_quit s).
Definition set_x_rx (fd port : Z) (s : x6lo) : x6lo :=
  X6lo (x_os s) (x_out s) (x_loglevel s) fd port (x_mcastsockfd s) (x_pktbuf s)
    (x_debug s) (x_running s) (x_quit s).
Definition set_x_mcastsockfd (fd : Z) (s : x6lo) : x6lo :=
  X6lo (x_os s) (x_out s) (x_loglevel s) (x_rx_sockfd s) (x_rx_port s) fd (x_pktbuf s)
    (x_debug s) (x_running s) (x_quit s).
Definition set_x_pktbuf (l : list Z) (s : x6lo) : x6lo :=
  X6lo (x_os s) (x_out s) (x_loglevel s) (x_rx_sockfd s) (x_rx_port s) (x_mcastsockfd s) l
    (x_debug s) (x_running s) (x_quit s).
Definition set_x_level (level : Z) (debug : bool) (s : x6lo) : x6lo :=
  X6lo (x_os s) (x_out s) level (x_rx_sockfd s) (x_rx_port s) (x_mcastsockfd s) (x_pktbuf s)
    debug (x_running s) (x_quit s).
Definition set_x_flags (running quit : bool) (s : x6lo) : x6lo :=
  X6lo (x_os s) (x_out s) (x_loglevel s) (x_rx_sockfd s) (x_rx_port s) (x_mcastsockfd s) (x_pktbuf s)
    (x_debug s) running quit.

Definition x_call {A} (m : M os A) : M x6lo A := zoom x_os set_x_os m.

(** ** The log *)

Definition put (o : out) : M x6lo unit := modify (λ s, set_x_out (x_out s ++ [o]) s).

Definition xlog (function : string) (line level : Z) (fmt : list Z) (t : text) : M x6lo unit :=
  debug ← gets x_debug;
  if (debug : bool) then
    (if level =? LOG_ERR then put (Colour "1;31m")
     else if level =? LOG_NOTICE then put (Colour "1;32m")
     else put (Colour "0;0m"));;
    put (Head function line);;
    put (Body t);;
    whenb (no_line_end fmt) (put Newline);;
    put (Colour "0;0m")
  else put (Syslog level t).

(** A message: its format; the arguments are left out. *)
Definition characters (s : string) : list Z :=
  (λ a, Z.of_N (Ascii.N_of_ascii a)) <$> String.list_ascii_of_string s.
Definition xmsg (function : string) (line level : Z) (fmt : string) : M x6lo unit :=
  xlog function line level (characters fmt) (Message fmt).

(** "0x%08X: %s  [%s]\n" *)
Definition row_fmt : list Z := [48; 120; 37; 48; 56; 88; 58; 32; 37; 115; 32; 32; 91; 37; 115; 93; 10].

Definition print_row (function : string) (line pri row : Z) (d : dump) : M x6lo dump :=
  h ← some_or OutOfBounds (store (hex_buff d) HEXDUMP_MAX_HEX_LENGTH [0]);
  c ← some_or OutOfBounds (store (char_buff d) HEXDUMP_BYTES_PER_LINE [0]);
  hex ← some_or OutOfBounds (c_string h);
  chars ← some_or OutOfBounds (c_string c);
  xlog function line pri row_fmt (Row row hex chars);;
  mret (Dump h c 0 0).

Fixpoint dump_loop (function : string) (line pri : Z) (bytes_left : nat) (dump_p : list Z)
    (row : Z) (d : dump) : M x6lo (Z * dump) :=
  match bytes_left with
  | O => mret (row, d)
  | S bytes_left =>
      match dump_p with
      | [] => failw (Undef OutOfBounds)
      | b :: dump_p =>
          d ← some_or OutOfBounds (put_cell (hex_cell b) (shown b) d);
          if decide (HEXDUMP_BYTES_PER_LINE ≤ column d)%nat then
            d ← print_row function line pri row d;
            dump_loop function line pri bytes_left dump_p (row + HEXDUMP_BYTES_PER_LINE) d
          else dump_loop function line pri bytes_left dump_p row d
      end
  end.

(** The dump of the bytes [mem]; the two buffers are malloc's. *)
Definition hexdump (function : string) (line pri : Z) (mem : list Z) (dump_byte_len : nat)
    (print_address : Z) : M x6lo unit :=
  let row_start_addr := Z.land print_address (Z.lnot (HEXDUMP_BYTES_PER_LINE - 1)) in
  let first_row_start_column := print_address mod HEXDUMP_BYTES_PER_LINE in
  hex0 ← x_call (sys_malloc (HEXDUMP_MAX_HEX_LENGTH + 1));
  char0 ← x_call (sys_malloc (HEXDUMP_BYTES_PER_LINE + 1));
  level ← gets x_loglevel;
  whenb (pri <=? level)
    (d ← some_or OutOfBounds (lead (Z.to_nat first_row_start_column) (Dump hex0 char0 0 0));
     '(row, d) ← dump_loop function line pri dump_byte_len mem row_start_addr d;
     whenb (negb (bool_decide (column d = 0%nat)))
       (d ← some_or OutOfBounds (lead (HEXDUMP_BYTES_PER_LINE - column d) d);
        print_row function line pri row d;; mret tt)).

(** ** Signals and the daemon *)

Definition signal_handler (signum : Z) : M x6lo unit :=
  whenb (bool_decide (signum ∈ [SIGINT; SIGTERM]))
    (xmsg "signal_handler" 196 LOG_NOTICE "x6losim quit detected, attempting to stop";;
     modify (λ s, set_x_flags (x_running s) true s));;
  x_call (signal signum true);;
  mret tt.

(** The code the process exits with, or [None] in the child that goes on. *)
Definition daemonize : M x6lo (option Z) :=
  pid ← x_call fork;
  if pid <? 0 then mret (Some EXIT_FAILURE)
  else if 0 <? pid then mret (Some EXIT_SUCCESS)
  else
    x_call (umask 0);;
    sid ← x_call setsid;
    if sid <? 0 then mret (Some EXIT_FAILURE)
    else
      x_call (sys_close 0);;
      x_call (sys_close 1);;
      x_call (sys_close 2);;
      mret None.

(** ** Frames *)

(** [len] bytes from the start of [data]. *)
Definition x6losim_send (data : list Z) (len : Z) : M x6lo unit :=
  if decide (len ≤ length data)
  then x_call (emit (SysSendTo (take (Z.to_nat len) data)))
  else failw (Undef OutOfBounds).

Section Relay.
Context `{OldHeader}.

(** It is called with [sim.pktbuf]. *)
Definition x6losim_recv (len : Z) : M x6lo unit :=
  data ← gets x_pktbuf;
  let p := drop (Z.to_nat NETSIM_PKT_HDR_SZ) data in
  xmsg "x6losim_recv" 250 LOG_INFO "Rx Pkt: len:%d repcode:%d ";;
  hexdump "x6losim_recv" 251 LOG_INFO p (Z.to_nat (hdr_psdu_len data)) 0;;
  modify (set_x_pktbuf (hdr_set_rssi (-10) data));;
  hdr ← gets x_pktbuf;
  x6losim_send hdr len.

(** ** main *)

(** The body of the loop: the new [pkts_rx]. *)
Definition recv_round (pkts_rx : Z) : M x6lo Z :=
  s ← gets id;
  '(n, errno, data) ← x_call (sys_recvfrom (x_rx_sockfd s) (length (x_pktbuf s)));
  modify (set_x_pktbuf (data ++ drop (length data) (x_pktbuf s)));;
  if (n =? -1) && (errno =? EAGAIN) then mret pkts_rx
  else if n =? 0 then mret pkts_rx
  else
    x6losim_recv (to_unsigned 16 n);;
    xmsg "main" 348 LOG_INFO "%d: Received packet %d from %s";;
    some_or SignedOverflow (checked_int (pkts_rx + 1)).

(** A signal may have come since the last look at [sim.quit]: the system says
    which, of those that are handled. *)
Definition deliver_signals (handled : list Z) : M x6lo unit :=
  a ← x_call ask;
  whenb (bool_decide (a_rv a ∈ handled)) (signal_handler (a_rv a)).

Fixpoint recv_loop (fuel : nat) (handled : list Z) (pkts_rx : Z) : M x6lo unit :=
  match fuel with
  | O => failw NoFuel
  | S fuel =>
      deliver_signals handled;;
      s ← gets id;
      if x_running s && negb (x_quit s)
      then pkts_rx ← recv_round pkts_rx; recv_loop fuel handled pkts_rx
      else mret tt
  end.

(** From the installation of the handlers on. *)
Definition serve : M x6lo Z :=
  xmsg "main" 288 LOG_NOTICE "x6losim started v%s";;
  handled ← x_call install_handlers;
  sockfd ← x_call sys_socket;
  modify (λ s, set_x_rx sockfd (x_rx_port s) s);;
  if sockfd =? -1 then mret EXIT_FAILURE
  else
    port ← gets x_rx_port;
    rv ← x_call (sys_bind sockfd port);
    if negb (rv =? 0) then mret EXIT_FAILURE
    else
      mcastsockfd ← x_call sys_socket;
      modify (set_x_mcastsockfd mcastsockfd);;
      modify (λ s, set_x_flags true (x_quit s) s);;
      xmsg "main" 328 LOG_NOTICE "UDP Server started";;
      xmsg "main" 329 LOG_NOTICE "Port: %d";;
      (λ s, recv_loop (S (length (os_script (x_os s)))) handled 0 s);;
      xmsg "main" 353 LOG_NOTICE "Hasta la vista ....  baby!!!";;
      xmsg "main" 354 LOG_NOTICE "x6losim has finished";;
      mret EXIT_SUCCESS.

(** The code of exit. *)
Definition main : M x6lo Z :=
  modify (λ s, set_x_rx (x_rx_sockfd s) 11555 s);;
  modify (λ s, set_x_level LOG_DEBUG (x_debug s) s);;
  opt ← x_call options;
  match opt with
  | None => mret EXIT_FAILURE
  | Some debug =>
      modify (λ s, set_x_level (x_loglevel s) debug s);;
      code ← (if (debug : bool) then mret None
              else code ← daemonize;
                   match code with
                   | Some code => mret (Some code)
                   | None => x_call openlog;; mret None
                   end);
      match code with
      | Some code => mret code
      | None => serve
      end
  end.
End Relay.

(** ** The log is that of log.cpp *)

Definition logged_x (s : x6lo) (l : list out) : x6lo := set_x_out (x_out s ++ l) s.
Definition as_log (depth : nat) (s : x6lo) : log_state :=
  Log (negb (x_debug s)) (x_loglevel s) depth (x_out s).

Lemma logged_x_app s l1 l2 : logged_x (logged_x s l1) l2 = logged_x s (l1 ++ l2).
Proof. unfold logged_x. simpl. by rewrite app_assoc. Qed.
Lemma logged_x_nil s : logged_x s [] = s.
Proof. destruct s. unfold logged_x, set_x_out. simpl. by rewrite app_nil_r. Qed.
Lemma as_log_logged n s l : as_log n (logged_x s l) = logged (as_log n s) l.
Proof. done. Qed.

(** [m] and [l] have the same result and write the same. *)
Definition same_log {A} (m : M x6lo A) (l : M log_state A) : Prop :=
  ∀ n s, ∃ r o, m s = (r, logged_x s o) ∧ l (as_log n s) = (r, logged (as_log n s) o).

Lemma same_log_ret {A} (a : A) : same_log (mret a) (mret a).
Proof. intros n s. exists (Ok a), []. by rewrite logged_x_nil, logged_nil. Qed.
Lemma same_log_fail {A} f : same_log (failw f : M x6lo A) (failw f).
Proof. intros n s. exists (Fail f), []. by rewrite logged_x_nil, logged_nil. Qed.
Lemma same_log_some_or {A} k (o : option A) : same_log (some_or k o) (some_or k o).
Proof. destruct o; [apply same_log_ret|apply same_log_fail]. Qed.
Lemma same_log_bind {A B} (m : M x6lo A) l (f : A → M x6lo B) g :
  same_log m l → (∀ a, same_log (f a) (g a)) → same_log (m ≫= f) (l ≫= g).
Proof.
  intros Hm Hf n s. destruct (Hm n s) as ([a|e] & o & E1 & E2).
  - destruct (Hf a n (logged_x s o)) as (r & o' & E3 & E4).
    exists r, (o ++ o'). erewrite !bind_ok by done.
    by rewrite E3, <-as_log_logged, E4, as_log_logged, logged_app, logged_x_app.
  - exists (Fail e), o. by erewrite !bind_fail by done.
Qed.
Lemma same_log_whenb b m l : same_log m l → same_log (whenb b m) (whenb b l).
Proof. intros H. destruct b; [done|apply same_log_ret]. Qed.

Lemma xlog_out_x f ln lv fmt t s :
  xlog f ln lv fmt t s = (Ok tt, logged_x s (xlog_out (negb (x_debug s)) f ln lv fmt t)).
Proof.
  destruct s as [o l lv' fd port mc buf dbg run q]. unfold xlog, xlog_out, mbind, M_bind. simpl.
  destruct dbg, (lv =? LOG_ERR), (lv =? LOG_NOTICE); try done; destruct (no_line_end fmt);
    unfold logged_x, put, modify, set_x_out; simpl; by rewrite <-!app_assoc.
Qed.

Lemma same_log_row f ln lv t : same_log (xlog f ln lv row_fmt t) (Log.xlog f ln lv Log.row_fmt t).
Proof. intros n s. rewrite xlog_out_x, xlog_run. by eexists _, _. Qed.

Lemma same_log_print_row f ln pri row d :
  same_log (print_row f ln pri row d) (Log.print_row f ln pri row d).
Proof.
  unfold print_row, Log.print_row.
  repeat first [intros ? | apply same_log_bind | apply same_log_some_or | apply same_log_row
    | apply same_log_ret].
Qed.

Lemma same_log_dump_loop f ln pri k mem row d :
  same_log (dump_loop f ln pri k mem row d) (Log.dump_loop f ln pri k mem row d).
Proof.
  revert mem row d. induction k as [|k IH]; intros mem row d; simpl; [apply same_log_ret|].
  destruct mem as [|b mem]; [apply same_log_fail|].
  apply same_log_bind; [apply same_log_some_or|]. intros d1. case_decide; [|apply IH].
  apply same_log_bind; [apply same_log_print_row|]. intros d2. apply IH.
Qed.

(** What of the dump follows the two mallocs. *)
Lemma hexdump_log f ln pri mem len addr s h c sc n :
  os_script (x_os s) = h :: c :: sc →
  let hex0 := bytes_of 81 (a_data h) in let char0 := bytes_of 17 (a_data c) in
  ∃ r o, hexdump f ln pri mem len addr s =
      (r, logged_x (set_x_os (Os sc (os_trace (x_os s))) s) o) ∧
    (Log.hexdump f ln pri mem len addr hex0 char0 (as_log n s)).1 = r ∧
    log_out (Log.hexdump f ln pri mem len addr hex0 char0 (as_log n s)).2 = x_out s ++ o.
Proof.
  intros Hsc hex0 char0. unfold hexdump, Log.hexdump.
  set (s1 := set_x_os (Os sc (os_trace (x_os s))) s).
  erewrite bind_ok by (unfold x_call, zoom, sys_malloc, mbind, M_bind, ask; by rewrite Hsc).
  erewrite bind_ok by (unfold x_call, zoom, sys_malloc, mbind, M_bind, ask; reflexivity).
  erewrite bind_ok by reflexivity. fold s1.
  rewrite (bind_ok _ _ _ tt (as_log (S n) s1)) by done.
  rewrite (bind_ok _ _ _ (x_loglevel s) (as_log (S n) s1)) by done.
  match goal with |- ∃ r o, whenb ?b ?m _ = _ ∧ ((whenb ?b' ?l;; _) _).1 = _ ∧ _ =>
    assert (same_log (whenb b m) (whenb b' l)) as Hsame end.
  { apply same_log_whenb, same_log_bind; [apply same_log_some_or|]. intros d.
    apply same_log_bind; [apply same_log_dump_loop|]. intros [row d1].
    apply same_log_whenb, same_log_bind; [apply same_log_some_or|]. intros d2.
    apply same_log_bind; [apply same_log_print_row|]. intros d3. apply same_log_ret. }
  destruct (Hsame (S n) s1) as ([[]|e] & o & E1 & E2).
  - exists (Ok tt), o. split; [exact E1|]. by erewrite bind_ok by exact E2.
  - exists (Fail e), o. split; [exact E1|]. by erewrite bind_fail by exact E2.
Qed.

(** ** A round *)

(** The state after a round: the calls [l] made, the answers [sc] left. *)
Definition rounded (s : x6lo) (sc : list answer) (l : list sysev) (s' : x6lo) : Prop :=
  ∃ buf o, s' = set_x_out o (set_x_pktbuf buf (set_x_os (Os sc (os_trace (x_os s) ++ l)) s)) ∧
    length buf = 256%nat ∧ bytes_ok buf.

Definition good_buf (s : x6lo) : Prop := length (x_pktbuf s) = 256%nat ∧ bytes_ok (x_pktbuf s).

(** The buffer when [data] has arrived. *)
Definition filled (data : list Z) (s : x6lo) : list Z := data ++ drop (length data) (x_pktbuf s).

Lemma filled_good data s :
  good_buf s → bytes_ok data → (length data ≤ 256)%nat → length (filled data s) = 256%nat ∧ bytes_ok (filled data s).
Proof.
  intros [Hl Hok] Hd Hn. unfold filled. split; [rewrite length_app, length_drop; lia|].
  apply Forall_app. split; [done|by apply Forall_drop].
Qed.

Section Rounds.
Context `{OldHeader}.

Lemma recvfrom_run s a sc :
  os_script (x_os s) = a :: sc → good_buf s →
  let n := clamp 256 (a_rv a) in let data := bytes_of (Z.to_nat n) (a_data a) in
  ∃ s1, s1 = set_x_pktbuf (filled data s) (set_x_os (Os sc
      (os_trace (x_os s) ++ [SysRecvFrom (x_rx_sockfd s) 256])) s) ∧
    ∀ pkts, recv_round pkts s =
      (if (n =? -1) && (a_errno a =? EAGAIN) then mret pkts
       else if n =? 0 then mret pkts
       else x6losim_recv (to_unsigned 16 n);;
            xmsg "main" 348 LOG_INFO "%d: Received packet %d from %s";;
            some_or SignedOverflow (checked_int (pkts + 1))) s1.
Proof.
  intros Hsc [Hl Hok] n data. eexists. split; [done|]. intros pkts. unfold recv_round.
  erewrite bind_ok by reflexivity. unfold id. rewrite Hl.
  erewrite bind_ok.
  2: { unfold x_call, zoom, sys_recvfrom, emit, modify, ask, mbind, M_bind. simpl. rewrite Hsc. reflexivity. }
  cbn beta iota. erewrite bind_ok by reflexivity. done.
Qed.

(** The dump of a frame that is in the buffer, and of one that is not. *)
Lemma frame_dump s h c sc len :
  os_script (x_os s) = h :: c :: sc → good_buf s → LOG_INFO ≤ x_loglevel s →
  let mem := drop (Z.to_nat NETSIM_PKT_HDR_SZ) (x_pktbuf s) in
  ∃ o, hexdump "x6losim_recv" 251 LOG_INFO mem len 0 s =
    (if decide (len ≤ 128)%nat then Ok tt else Fail (Undef OutOfBounds),
     logged_x (set_x_os (Os sc (os_trace (x_os s))) s) o).
Proof.
  intros Hsc [Hl Hok] Hlv mem.
  destruct (hexdump_log "x6losim_recv" 251 LOG_INFO mem len 0 s h c sc 0 Hsc) as (r & o & E & Hr & _).
  exists o. rewrite E. f_equal. subst r.
  assert (Hm : length mem = 128%nat) by (unfold mem; rewrite length_drop, Hl; reflexivity).
  assert (bytes_ok mem) by (by apply Forall_drop).
  case_decide.
  - rewrite hexdump_run; [done|done|lia|apply length_bytes_of..].
  - apply hexdump_over; [done|lia|apply length_bytes_of..|done].
Qed.

(** What the class says of the buffer is what it says of the datagram. *)
Lemma filled_header data s :
  (128 ≤ length data)%nat →
  hdr_psdu_len (filled data s) = hdr_psdu_len data ∧
  hdr_set_rssi (-10) (filled data s) = hdr_set_rssi (-10) data ++ drop (length data) (x_pktbuf s).
Proof.
  intros Hn. unfold filled. generalize (drop (length data) (x_pktbuf s)). intros rest.
  assert (∃ h l, data = h ++ l ∧ length h = Z.to_nat NETSIM_PKT_HDR_SZ) as (h & l & -> & Hl).
  { exists (take 128 data), (drop 128 data). rewrite take_drop, length_take.
    split; [done|]. unfold NETSIM_PKT_HDR_SZ. lia. }
  by rewrite <-!app_assoc, !psdu_len_app, !set_rssi_app, <-app_assoc by done.
Qed.
End Rounds.

(** A datagram with its header that announces no more than a frame. *)
Definition frame_ok `{OldHeader} (d : list Z) : Prop :=
  bytes_ok d ∧ (128 ≤ length d ≤ 256)%nat ∧ hdr_psdu_len d ≤ 128.

(** What a round finds: nothing to read, or a datagram, and the memory of the two
    buffers of the dump. *)
Inductive arrival := Nothing (a : answer) | Datagram (d : list Z) (h c : answer).

Definition arrival_ok `{OldHeader} (x : arrival) : Prop :=
  match x with
  | Nothing a => a_rv a ≤ -1 ∧ a_errno a = EAGAIN ∨ a_rv a = 0
  | Datagram d _ _ => frame_ok d
  end.
Definition arrival_answers (x : arrival) : list answer :=
  match x with
  | Nothing a => [a]
  | Datagram d h c => [Answer (length d) 0 d (Timespec 0 0) [] []; h; c]
  end.

(** The reference: every datagram goes out again with its rssi set to -10. *)
Definition relay `{OldHeader} (x : arrival) : list (list Z) :=
  match x with Nothing _ => [] | Datagram d _ _ => [hdr_set_rssi (-10) d] end.
Definition relay_calls `{OldHeader} (fd : Z) (x : arrival) : list sysev :=
  SysRecvFrom fd 256 :: (SysSendTo <$> relay x).

Section Serving.
Context `{OldHeader}.

Lemma filled_rssi s :
  good_buf s → length (hdr_set_rssi (-10) (x_pktbuf s)) = 256%nat ∧ bytes_ok (hdr_set_rssi (-10) (x_pktbuf s)).
Proof. intros [Hl Hok]. rewrite length_set_rssi. split; [done|by apply set_rssi_ok]. Qed.

Lemma x6losim_recv_run s h c sc len :
  os_script (x_os s) = h :: c :: sc → good_buf s → LOG_INFO ≤ x_loglevel s →
  let n := hdr_psdu_len (x_pktbuf s) in
  (n ≤ 128 → len ≤ 256 → ∃ s', x6losim_recv len s = (Ok tt, s') ∧
     rounded s sc [SysSendTo (take (Z.to_nat len) (hdr_set_rssi (-10) (x_pktbuf s)))] s') ∧
  (128 < n ∨ 256 < len → (x6losim_recv len s).1 = Fail (Undef OutOfBounds)).
Proof.
  intros Hsc [Hl Hok] Hlv n. pose proof (psdu_len_range (x_pktbuf s)) as Hn.
  unfold x6losim_recv, xmsg. erewrite !bind_ok by reflexivity. erewrite !bind_ok by apply xlog_out_x.
  set (s1 := logged_x s _).
  destruct (frame_dump s1 h c sc (Z.to_nat n) Hsc (conj Hl Hok) Hlv) as (o & E).
  destruct (filled_rssi s (conj Hl Hok)) as [Hl' Hok'].
  split.
  - intros Hn1 Hlen. rewrite decide_True in E by lia. erewrite bind_ok by exact E.
    erewrite !bind_ok by reflexivity. unfold x6losim_send. rewrite decide_True by (cbn; lia).
    eexists. split; [done|]. eexists _, _. split; [|done]. done.
  - intros Hbig. case_decide; [|by erewrite bind_fail by exact E].
    erewrite bind_ok by exact E. erewrite !bind_ok by reflexivity. unfold x6losim_send.
    rewrite decide_False by (cbn; lia). done.
Qed.

Lemma recv_round_run x s sc pkts :
  arrival_ok x → os_script (x_os s) = arrival_answers x ++ sc → good_buf s →
  LOG_INFO ≤ x_loglevel s → 0 ≤ pkts < INT_MAX →
  ∃ s', recv_round pkts s = (Ok (pkts + length (relay x)), s') ∧
    rounded s sc (relay_calls (x_rx_sockfd s) x) s'.
Proof.
  intros Hx Hsc Hb Hlv Hp. destruct x as [a|d h c]; simpl in Hx, Hsc.
  - destruct (recvfrom_run s a sc Hsc Hb) as (s1 & Hs1 & E). exists s1. rewrite E, Z.add_0_r.
    assert (Hd : bytes_ok (bytes_of (Z.to_nat (clamp 256 (a_rv a))) (a_data a))) by apply bytes_of_ok.
    assert (length (bytes_of (Z.to_nat (clamp 256 (a_rv a))) (a_data a)) ≤ 256)%nat as Hl
      by (rewrite length_bytes_of; unfold clamp; lia).
    destruct (filled_good _ s Hb Hd Hl) as [Hl' Hok']. split.
    + destruct Hx as [[Hrv He]|Hrv]; rewrite ?He; unfold clamp; rewrite ?Hrv.
      * by replace (Z.max (-1) (Z.min (a_rv a) 256)) with (-1) by lia.
      * done.
    + subst s1. by exists (filled (bytes_of (Z.to_nat (clamp 256 (a_rv a))) (a_data a)) s), (x_out s).
  - destruct Hx as (Hd & Hl & Hn).
    destruct (recvfrom_run s _ _ Hsc Hb) as (s1 & Hs1 & E). rewrite E. clear E. cbn [a_rv a_errno a_data] in *.
    rewrite clamp_id, Nat2Z.id, bytes_of_id in * by (done || lia).
    destruct (Z.eqb_spec (length d) (-1)); [lia|]. destruct (Z.eqb_spec (length d) 0); [lia|]. cbn [andb].
    destruct (filled_good d s Hb Hd) as [Hl' Hok']; [lia|].
    destruct (filled_header d s) as [Hpl Hrs]; [lia|].
    assert (Hu : to_unsigned 16 (length d) = length d) by (unfold to_unsigned; rewrite Z.mod_small; lia).
    destruct (x6losim_recv_run s1 h c sc (length d)) as [Hgood _]; [by subst s1|by subst s1|by subst s1|].
    destruct Hgood as (s2 & E2 & buf & o & Hs2 & Hl2 & Hok2); [by subst s1; cbn; rewrite Hpl|lia|].
    rewrite Hu. erewrite bind_ok by exact E2. unfold xmsg. erewrite bind_ok by apply xlog_out_x.
    rewrite checked_int_Some by (unfold INT_MIN, INT_MAX in *; lia). eexists. split; [done|].
    exists buf. eexists. split; [|done]. rewrite Hs2, Hs1. cbn.
    rewrite Hrs, Nat2Z.id, take_app_length' by (symmetry; apply length_set_rssi). by rewrite <-app_assoc.
Qed.
End Serving.

(** ** The server *)

(** What a run of the loop finds: before each round a look for signals, of which
    none is there. *)
Definition rounds_answers (xs : list (answer * arrival)) : list answer :=
  xs ≫= λ '(a, x), a :: arrival_answers x.
Definition rounds_calls `{OldHeader} (fd : Z) (xs : list (answer * arrival)) : list sysev :=
  xs ≫= λ '(_, x), relay_calls fd x.

(** How the process starts: with -x, or as a daemon's child. *)
Definition start_answers (debug : bool) (x e pid sid : answer) : list answer :=
  if debug then [x; e] else [e; pid; sid].
Definition start_calls (debug : bool) : list sysev :=
  if debug then [] else [SysFork; SysUmask 0; SysSetsid; SysClose 0; SysClose 1; SysClose 2; SysOpenLog].

Section Server.
Context `{OldHeader}.

Lemma rounds_calls_cons fd a x xs :
  rounds_calls fd ((a, x) :: xs) = relay_calls fd x ++ rounds_calls fd xs.
Proof. reflexivity. Qed.

Lemma length_rounds xs : (length xs ≤ length (rounds_answers xs))%nat.
Proof.
  induction xs as [|[a x] xs IH]; [done|]. unfold rounds_answers in *. rewrite bind_cons, length_app. simpl. lia.
Qed.

Lemma deliver_none handled s a sc :
  os_script (x_os s) = a :: sc → a_rv a ∉ handled →
  deliver_signals handled s = (Ok tt, set_x_os (Os sc (os_trace (x_os s))) s).
Proof.
  intros Hsc Ha. unfold deliver_signals.
  erewrite bind_ok by (unfold x_call, zoom, ask; by rewrite Hsc). by rewrite bool_decide_false.
Qed.

Lemma deliver_stop handled s a b sc :
  os_script (x_os s) = a :: b :: sc → a_rv a ∈ handled → a_rv a ∈ [SIGINT; SIGTERM] →
  ∃ o, deliver_signals handled s = (Ok tt, set_x_out o (set_x_flags (x_running s) true
    (set_x_os (Os sc (os_trace (x_os s) ++ [SysSignal (a_rv a) true])) s))).
Proof.
  intros Hsc Hh Hs. eexists. unfold deliver_signals.
  erewrite bind_ok by (unfold x_call, zoom, ask; by rewrite Hsc).
  rewrite bool_decide_true by done. unfold whenb, signal_handler, xmsg.
  rewrite bool_decide_true by done. unfold whenb.
  erewrite bind_ok by (erewrite bind_ok by apply xlog_out_x; reflexivity).
  by erewrite bind_ok by reflexivity.
Qed.

Lemma recv_loop_run handled xs s stop rearm sc fuel pkts :
  Forall (λ '(a, x), a_rv a ∉ handled ∧ arrival_ok x) xs →
  os_script (x_os s) = rounds_answers xs ++ stop :: rearm :: sc →
  a_rv stop ∈ handled → a_rv stop ∈ [SIGINT; SIGTERM] →
  good_buf s → LOG_INFO ≤ x_loglevel s → x_running s = true → x_quit s = false →
  0 ≤ pkts → pkts + length xs < INT_MAX → (length xs < fuel)%nat →
  ∃ s', recv_loop fuel handled pkts s = (Ok tt, s') ∧
    x_os s' = Os sc (os_trace (x_os s) ++ rounds_calls (x_rx_sockfd s) xs ++ [SysSignal (a_rv stop) true]).
Proof.
  intros Hxs. revert s fuel pkts. induction Hxs as [|[a x] xs [Ha Hx] Hxs IH];
    intros s fuel pkts Hsc Hh Hs Hb Hlv Hrun Hq Hp Hmax Hf; destruct fuel as [|fuel]; [lia| |lia|]; cbn [recv_loop].
  - destruct (deliver_stop handled s stop rearm sc Hsc Hh Hs) as (o & E).
    erewrite bind_ok by exact E. erewrite bind_ok by reflexivity. unfold id. cbn. rewrite Hrun. cbn.
    by eexists.
  - unfold rounds_answers in Hsc. rewrite bind_cons in Hsc. simpl in Hsc. rewrite <-app_assoc in Hsc.
    erewrite bind_ok by (eapply deliver_none; done). set (s1 := set_x_os _ s).
    erewrite bind_ok by reflexivity. unfold id. cbn [x_running x_quit s1 set_x_os]. rewrite Hrun, Hq. cbn [negb andb].
    simpl in Hmax, Hf.
    destruct (recv_round_run x s1 (rounds_answers xs ++ stop :: rearm :: sc) pkts)
      as (s2 & E & buf & o & Hs2 & Hl & Hok); [done|done|done|done|lia|].
    erewrite bind_ok by exact E.
    assert (0 ≤ length (relay x) ≤ 1) by (destruct x; simpl; lia).
    destruct (IH s2 fuel (pkts + length (relay x))) as (s' & E' & Ho); subst s2; try done; [lia..|].
    exists s'. split; [exact E'|]. rewrite Ho, rounds_calls_cons. unfold s1.
    cbn [x_os x_rx_sockfd set_x_out set_x_pktbuf set_x_os os_trace]. by rewrite <-!app_assoc.
Qed.

(** Up to the installation of the handlers. *)
Lemma main_starts debug x e pid sid sc s :
  os_script (x_os s) = start_answers debug x e pid sid ++ sc →
  a_rv x = 120 → a_rv e = -1 → a_rv pid = 0 → 0 ≤ a_rv sid →
  ∃ s1, main s = serve s1 ∧ x_os s1 = Os sc (os_trace (x_os s) ++ start_calls debug) ∧
    x_pktbuf s1 = x_pktbuf s ∧ x_quit s1 = x_quit s ∧ x_loglevel s1 = LOG_DEBUG ∧ x_rx_port s1 = 11555.
Proof.
  intros Hsc Hx He Hp Hs. destruct s as [[sc0 tr] o lv fd port mc buf dbg run q]. cbn in Hsc. subst sc0.
  unfold main. do 2 erewrite bind_ok by reflexivity.
  assert (Hopt : ∀ sc' tr', options (Os (start_answers debug x e pid sid ++ sc') tr') =
    (Ok (Some debug), Os ((if debug then [] else [pid; sid]) ++ sc') tr')).
  { intros sc' tr'. unfold options, getopt_loop, getopt, mbind, M_bind, ask. destruct debug; simpl.
    - rewrite Hx. simpl. by rewrite He.
    - rewrite He. done. }
  erewrite bind_ok by (unfold x_call, zoom; cbn [x_os set_x_rx set_x_level]; by rewrite Hopt). cbn beta iota.
  erewrite bind_ok by reflexivity. destruct debug.
  - erewrite bind_ok by reflexivity. eexists. split; [done|]. cbn. by rewrite app_nil_r.
  - erewrite bind_ok.
    2: { unfold daemonize. erewrite bind_ok.
         2: { erewrite bind_ok by reflexivity. cbn. rewrite Hp. cbn.
              do 2 erewrite bind_ok by reflexivity. cbn. rewrite (proj2 (Z.ltb_ge _ _)) by lia.
              do 3 erewrite bind_ok by reflexivity. reflexivity. }
         cbn beta iota. by erewrite bind_ok by reflexivity. }
    eexists. split; [done|]. cbn. by rewrite <-!app_assoc.
Qed.

Lemma serve_run s u i1 h1 t1 fd b mc xs stop rearm :
  os_script (x_os s) = [u; i1; h1; t1; fd; b; mc] ++ rounds_answers xs ++ [stop; rearm] →
  Forall (λ a, a_rv a ≠ SIG_IGN) [i1; h1; t1] → 0 ≤ a_rv fd → a_rv b = 0 →
  Forall (λ '(a, x), a_rv a ∉ [SIGINT; SIGHUP; SIGTERM] ∧ arrival_ok x) xs →
  a_rv stop ∈ [SIGINT; SIGTERM] → length xs < INT_MAX → good_buf s → x_quit s = false →
  x_loglevel s = LOG_DEBUG →
  ∃ s', serve s = (Ok EXIT_SUCCESS, s') ∧
    x_os s' = Os [] (os_trace (x_os s) ++
      [SysUnblockSignals [SIGINT; SIGTERM; SIGHUP]; SysSignal SIGINT true; SysSignal SIGHUP true;
       SysSignal SIGTERM true; SysSocket (a_rv fd); SysBind (a_rv fd) (x_rx_port s);
       SysSocket (Z.max (-1) (a_rv mc))] ++
      rounds_calls (a_rv fd) xs ++ [SysSignal (a_rv stop) true]).
Proof.
  intros Hsc Hign Hfd Hb Hxs Hstop Hmax Hbuf Hq Hlv. decompose_Forall_hyps.
  unfold serve, xmsg. erewrite bind_ok by apply xlog_out_x. set (s1 := logged_x s _).
  assert (E1 : install_handlers (x_os s1) = (Ok [SIGINT; SIGHUP; SIGTERM],
    Os ([fd; b; mc] ++ rounds_answers xs ++ [stop; rearm]) (os_trace (x_os s) ++
      [SysUnblockSignals [SIGINT; SIGTERM; SIGHUP]; SysSignal SIGINT true; SysSignal SIGHUP true;
       SysSignal SIGTERM true]))).
  { destruct s as [[sc0 tr] o lv fd' port mc' buf dbg run q]. cbn in Hsc. subst sc0. unfold s1. cbn.
    unfold install_handlers, install_handler, sigprocmask_unblock, signal, emit, ask, modify, mbind, M_bind. cbn.
    repeat (rewrite (proj2 (Z.eqb_neq _ SIG_IGN)) by done; cbn). by rewrite <-!app_assoc. }
  erewrite bind_ok by (unfold x_call, zoom; by rewrite E1).
  erewrite bind_ok by (unfold x_call, zoom, sys_socket, mbind, M_bind; cbn; reflexivity).
  rewrite Z.max_r by lia. erewrite bind_ok by reflexivity. rewrite (proj2 (Z.eqb_neq _ _)) by lia.
  erewrite bind_ok by reflexivity.
  erewrite bind_ok by (unfold x_call, zoom, sys_bind, mbind, M_bind; cbn; reflexivity).
  rewrite Hb. cbn [negb Z.eqb].
  erewrite bind_ok by (unfold x_call, zoom, sys_socket, mbind, M_bind; cbn; reflexivity).
  do 2 erewrite bind_ok by reflexivity. do 2 erewrite bind_ok by apply xlog_out_x.
  match goal with |- ∃ s', ((λ _, recv_loop _ _ _ _);; _) ?s = _ ∧ _ => set (s2 := s) end.
  destruct (recv_loop_run [SIGINT; SIGHUP; SIGTERM] xs s2 stop rearm [] (S (length (os_script (x_os s2)))) 0)
    as (s3 & E3 & Ho); try done; try lia.
  - rewrite !elem_of_cons in *. tauto.
  - cbn. rewrite Hlv. done.
  - cbn [x_os os_script s2 logged_x set_x_out set_x_flags set_x_mcastsockfd set_x_rx set_x_os].
    pose proof (length_rounds xs). rewrite length_app. lia.
  - erewrite bind_ok by exact E3. do 2 erewrite bind_ok by apply xlog_out_x. eexists. split; [done|].
    cbn. cbn in Ho. rewrite Ho. by rewrite <-!app_assoc.
Qed.

(** C25: the older server is a relay: started with -x or as a daemon, it installs its
    handlers, binds its port, and then hands to the multicast every datagram that is
    a header and a frame, in order and once each, changed only in its rssi, which is
    set to -10; what is not there yet is asked for again; and at the first SIGINT or
    SIGTERM it leaves its loop and exits with EXIT_SUCCESS.  Whether the socket of
    the multicast could be made ([mc]) is never looked at. *)
Theorem x6losim_relays (debug : bool) (x e pid sid u i1 h1 t1 fd b mc stop rearm : answer)
    (xs : list (answer * arrival)) (s : x6lo) :
  os_script (x_os s) = start_answers debug x e pid sid ++ [u; i1; h1; t1; fd; b; mc] ++
    rounds_answers xs ++ [stop; rearm] →
  a_rv x = 120 → a_rv e = -1 → a_rv pid = 0 → 0 ≤ a_rv sid →
  Forall (λ a, a_rv a ≠ SIG_IGN) [i1; h1; t1] → 0 ≤ a_rv fd → a_rv b = 0 →
  Forall (λ '(a, x), a_rv a ∉ [SIGINT; SIGHUP; SIGTERM] ∧ arrival_ok x) xs →
  a_rv stop ∈ [SIGINT; SIGTERM] → length xs < INT_MAX →
  good_buf s → x_quit s = false →
  ∃ s', main s = (Ok EXIT_SUCCESS, s') ∧
    x_os s' = Os [] (os_trace (x_os s) ++ start_calls debug ++
      [SysUnblockSignals [SIGINT; SIGTERM; SIGHUP]; SysSignal SIGINT true; SysSignal SIGHUP true;
       SysSignal SIGTERM true; SysSocket (a_rv fd); SysBind (a_rv fd) 11555; SysSocket (Z.max (-1) (a_rv mc))] ++
      rounds_calls (a_rv fd) xs ++ [SysSignal (a_rv stop) true]).
Proof.
  intros Hsc Hx He Hpid Hsid Hign Hfd Hb Hxs Hstop Hmax Hbuf Hq.
  destruct (main_starts debug x e pid sid _ s Hsc Hx He Hpid Hsid) as (s1 & E1 & Ho1 & Hb1 & Hq1 & Hlv1 & Hport).
  rewrite E1. destruct (serve_run s1 u i1 h1 t1 fd b mc xs stop rearm) as (s' & E & Ho); try done.
  - by rewrite Ho1.
  - unfold good_buf. by rewrite Hb1.
  - by rewrite Hq1.
  - exists s'. split; [exact E|]. rewrite Ho, Ho1, Hport. cbn [os_trace]. by rewrite <-app_assoc.
Qed.
End Server.

(** ** The log, and what goes wrong *)


(** C34: the two ways the older server reads outside its packet buffer: a receive that
    fails for another reason than that there is nothing yet, which it takes for a
    datagram of 65535 bytes, and a datagram whose header announces a frame of more
    than 128 bytes. *)
Theorem relay_overruns `{OldHeader} (a h c : answer) (sc : list answer) (pkts : Z) (s : x6lo) :
  let n := clamp 256 (a_rv a) in
  let data := bytes_of (Z.to_nat n) (a_data a) in
  os_script (x_os s) = a :: h :: c :: sc → good_buf s → LOG_INFO ≤ x_loglevel s →
  n = -1 ∧ a_errno a ≠ EAGAIN ∨ 0 < n ∧ 128 < hdr_psdu_len (filled data s) →
  (recv_round pkts s).1 = Fail (Undef OutOfBounds).
Proof.
  intros n data Hsc Hb Hlv Hbad.
  destruct (recvfrom_run s a (h :: c :: sc) Hsc Hb) as (s1 & Hs1 & E). rewrite E.
  fold n. fold n data in Hs1.
  assert (Hl : (length data ≤ 256)%nat) by (unfold data, n; rewrite length_bytes_of; unfold clamp; lia).
  destruct (filled_good data s Hb (bytes_of_ok _ _) Hl) as [Hl' Hok'].
  destruct (x6losim_recv_run s1 h c sc (to_unsigned 16 n)) as [_ Hover]; [by subst s1..|].
  destruct (x6losim_recv (to_unsigned 16 n) s1) as [r s2] eqn:E2. simpl in Hover.
  assert (r = Fail (Undef OutOfBounds)) as ->.
  { apply Hover. destruct Hbad as [[-> _]|[_ Hn]]; [by right|left; by subst s1]. }
  destruct Hbad as [[Hn He]|[Hn _]].
  - rewrite Hn in *. rewrite (proj2 (Z.eqb_neq _ _) He).
    change (-1 =? -1) with true. change (-1 =? 0) with false. cbn [andb].
    by erewrite bind_fail by exact E2.
  - destruct (Z.eqb_spec n (-1)); [lia|]. destruct (Z.eqb_spec n 0); [lia|]. cbn [andb].
    by erewrite bind_fail by exact E2.
Qed.

(** ** Witnesses

    The three fields where [struct netsim_data_ind_pkt] has them. *)
#[local] Instance data_ind_header : OldHeader.
Proof.
  refine {| hdr_psdu_len l := le_val (take 2 (drop 26 l)) mod 2 ^ 16;
            hdr_set_rssi v l := <[33%nat := v mod 256]> l |}.
  - intros l. apply Z.mod_pos_bound. lia.
  - intros h l Hl. assert (length h = 128%nat) by done.
    rewrite drop_app_le by lia. by rewrite take_app_le by (rewrite length_drop; lia).
  - intros v h l Hl. assert (length h = 128%nat) by done. by rewrite insert_app_l by lia.
  - intros v l. apply length_insert.
  - intros v l Hl. apply Forall_insert; [done|]. unfold byte_ok. apply Z.mod_pos_bound. lia.
Defined.

(** A datagram with a frame of [n] bytes, and the server before main. *)
Definition datagram (n : Z) : list Z :=
  replicate 26 0 ++ le_bytes 2 n ++ replicate 100 0 ++ replicate (Z.to_nat n) 7.
Definition before_main (sc : list answer) : x6lo :=
  X6lo (Os sc []) [] 0 0 0 0 (replicate 256 0) false false false.
Definition rv (n : Z) : answer := Answer n 0 [] (Timespec 0 0) [] [].

Definition arrivals : list (answer * arrival) :=
  [(rv 0, Datagram (datagram 3) (rv 0) (rv 0)); (rv 0, Nothing (rv 0)); (rv 0, Datagram (datagram 2) (rv 0) (rv 0))].

Lemma x6losim_relays_witness :
  ∃ s', main (before_main (start_answers false (rv 120) (rv (-1)) (rv 0) (rv 5) ++
      [rv 0; rv 0; rv 0; rv 0; rv 3; rv 0; rv 4] ++ rounds_answers arrivals ++ [rv SIGTERM; rv 0]))
    = (Ok EXIT_SUCCESS, s') ∧
    omap (λ e, match e with SysSendTo d => Some d | _ => None end) (os_trace (x_os s')) =
      [<[33%nat := 246]> (datagram 3); <[33%nat := 246]> (datagram 2)].
Proof.
  destruct (x6losim_relays false (rv 120) (rv (-1)) (rv 0) (rv 5) (rv 0) (rv 0) (rv 0) (rv 0) (rv 3) (rv 0)
    (rv 4) (rv SIGTERM) (rv 0) arrivals (before_main (start_answers false (rv 120) (rv (-1)) (rv 0) (rv 5) ++
      [rv 0; rv 0; rv 0; rv 0; rv 3; rv 0; rv 4] ++ rounds_answers arrivals ++ [rv SIGTERM; rv 0])))
    as (s' & E & Ho).
  - reflexivity.
  - reflexivity.
  - reflexivity.
  - reflexivity.
  - vm_compute. discriminate.
  - repeat (constructor; [vm_compute; discriminate|]). constructor.
  - vm_compute. discriminate.
  - reflexivity.
  - assert (H0 : a_rv (rv 0) ∉ [SIGINT; SIGHUP; SIGTERM]) by (apply (bool_decide_unpack _); vm_compute; exact I).
    repeat (constructor; [split; [exact H0|]|]); [| | |constructor].
    + split; [apply (bool_decide_unpack _); vm_compute; exact I|]. split; [vm_compute; lia|vm_compute; discriminate].
    + right. reflexivity.
    + split; [apply (bool_decide_unpack _); vm_compute; exact I|]. split; [vm_compute; lia|vm_compute; discriminate].
  - right. left.
  - vm_compute. reflexivity.
  - split; [reflexivity|]. apply (bool_decide_unpack _). vm_compute. exact I.
  - reflexivity.
  - exists s'. split; [exact E|]. rewrite Ho. vm_compute. reflexivity.
Defined.


(** The receive fails with ENOBUFS. *)
Lemma relay_overruns_witness :
  let s := set_x_level LOG_DEBUG true (before_main [Answer (-1) 105 [] (Timespec 0 0) [] []; rv 0; rv 0]) in
  (recv_round 0 s).1 = Fail (Undef OutOfBounds).
Proof.
  cbv zeta. apply (relay_overruns (Answer (-1) 105 [] (Timespec 0 0) [] []) (rv 0) (rv 0) []).
  - reflexivity.
  - split; [reflexivity|]. apply (bool_decide_unpack _). vm_compute. exact I.
  - vm_compute. discriminate.
  - left. split; [reflexivity|vm_compute; discriminate].
Defined.
