(* ===== verification/Threads.v ===== *)
(** The three threads of the program and how they interleave: the thread of each
    medium (PhysicalMedium::run), cut where it looks at or writes the state of the
    medium and where it waits, and the main thread (src/main.cpp), cut at the
    starts of the other threads, at the rounds of the acceptor and at the calls of
    stop.  A signal is handled between two pieces.

    A piece runs without interruption.  What the acceptor does to a medium while
    its thread waits in epoll_wait is done before the piece that waits: up to the
    wait that piece only sets the timer and [curTime], which the acceptor does not
    use. *)

From Stdlib Require Import ZArith Lia.
From stdpp Require Import base tactics list gmap numbers option strings.
From S2P Require Import Prelude Bytes TimeUtils Checksum Interface Os SocketIO State.
From S2P Require Import DeviceNode NodeStates PhysicalMedium Acceptor Main.

(** ** The thread of a medium *)

(** What the thread does next. *)
Inductive thread_pc :=
  | PcStart      (* run begins *)
  | PcTop        (* the top of the do-while loop: if(state == IDLE) *)
  | PcIdleWait   (* interval(1000) *)
  | PcIdleLook   (* if(state == STOPPING) break *)
  | PcIdleWork   (* the rest of the block *)
  | PcWhile      (* while (!txList.empty()) *)
  | PcTxWait     (* interval(1) *)
  | PcTxLook     (* if(state == STOPPING) break *)
  | PcTxWork     (* the rest of the loop's body *)
  | PcLook       (* if(state != STOPPING) *)
  | PcTimeouts   (* state = IDLE; checkNodeRegistrationTimeout() *)
  | PcCond       (* while(state != STOPPING) *)
  | PcLast       (* state = STOPPED *)
  | PcExit.      (* the thread has ended *)

#[export] Instance thread_pc_eq_dec : EqDecision thread_pc.
Proof. solve_decision. Defined.

Section Thread.
Context `{HashOrder} `{CollisionCheck}.

Definition thread_step (pc : thread_pc) : M world thread_pc :=
  match pc with
  | PcStart =>
      upd_medium (set_pm_state IDLE);;
      '(rv, t) ← lift_os clock_gettime;
      if rv =? -1 then failw (Throw "clock_gettime: unrecoverable error")
      else upd_medium (set_pm_curTime t);; mret PcTop
  | PcTop => idle ← isIdle; mret (if idle : bool then PcIdleWait else PcWhile)
  | PcIdleWait => interval 1000;; mret PcIdleLook
  | PcIdleLook => stop ← stopping; mret (if stop : bool then PcLast else PcIdleWork)
  | PcIdleWork =>
      l ← get_medium pm_txList;
      whenb (bool_decide (l ≠ [])) (upd_medium (set_pm_state TX_802514_FRAME));;
      processCcaList;;
      mret PcWhile
  | PcWhile => l ← get_medium pm_txList; mret (if l is [] then PcLook else PcTxWait)
  | PcTxWait => interval 1;; mret PcTxLook
  | PcTxLook => stop ← stopping; mret (if stop : bool then PcLook else PcTxWork)
  | PcTxWork => processCcaList;; txCollisionCheck;; processTxList;; mret PcWhile
  | PcLook => stop ← stopping; mret (if stop : bool then PcCond else PcTimeouts)
  | PcTimeouts =>
      upd_medium (set_pm_state IDLE);; checkNodeRegistrationTimeout;; mret PcCond
  | PcCond => stop ← stopping; mret (if stop : bool then PcLast else PcTop)
  | PcLast => upd_medium (set_pm_state STOPPED);; mret PcExit
  | PcExit => mret PcExit
  end.

(** [n] pieces in a row. *)
Fixpoint thread_steps (n : nat) (pc : thread_pc) : M world thread_pc :=
  match n with
  | O => mret pc
  | S n => pc ← thread_step pc; thread_steps n pc
  end.
End Thread.

(** ** The process *)

(** What the main thread does next. *)
Inductive main_pc :=
  | MainPrepare                   (* main up to the try block *)
  | MainNew (debug : bool)        (* new NetworkSimulator: the two media *)
  | MainStartPlc                  (* plcMedium->start() *)
  | MainStartWl                   (* wlMedium->start(), and the assignment to sim *)
  | MainOpen                      (* sim->start(): the two servers *)
  | MainAccept (errCount : Z)     (* a round of its loop *)
  | MainLook (rv : AcceptStatus) (errCount : Z)   (* while (!stop && ...) *)
  | MainClose                     (* delete hanServer, airServer *)
  | MainStopPlc                   (* delete(sim): plcMedium->stop() *)
  | MainStopWl                    (* wlMedium->stop() *)
  | MainJoin                      (* waitForExit of both, then delete pimpl *)
  | MainExit (code : Z)           (* exit *)
  | MainEnd (code : Z).           (* the process has ended *)

#[export] Instance main_pc_eq_dec : EqDecision main_pc.
Proof. solve_decision. Defined.

(** The three threads, and what the signal handler looks at.  [None]: the thread
    has not been created. *)
Record system := Sys {
  sy_sim : simulator;
  sy_main : main_pc;
  sy_plc : option thread_pc;
  sy_wl : option thread_pc;
  sy_ptr : sim_ptr;
  sy_handled : list Z
}.

Definition set_sy_sim (sim : simulator) (s : system) : system :=
  Sys sim (sy_main s) (sy_plc s) (sy_wl s) (sy_ptr s) (sy_handled s).
Definition set_sy_main (pc : main_pc) (s : system) : system :=
  Sys (sy_sim s) pc (sy_plc s) (sy_wl s) (sy_ptr s) (sy_handled s).
Definition set_sy_plc (pc : option thread_pc) (s : system) : system :=
  Sys (sy_sim s) (sy_main s) pc (sy_wl s) (sy_ptr s) (sy_handled s).
Definition set_sy_wl (pc : option thread_pc) (s : system) : system :=
  Sys (sy_sim s) (sy_main s) (sy_plc s) pc (sy_ptr s) (sy_handled s).
Definition set_sy_ptr (p : sim_ptr) (s : system) : system :=
  Sys (sy_sim s) (sy_main s) (sy_plc s) (sy_wl s) p (sy_handled s).
Definition set_sy_handled (l : list Z) (s : system) : system :=
  Sys (sy_sim s) (sy_main s) (sy_plc s) (sy_wl s) (sy_ptr s) l.

Definition in_sim {A} (m : M simulator A) : M system A := zoom sy_sim set_sy_sim m.

(** The thread of a medium, on its own answers. *)
Definition of_plc {A} (m : M world A) : M simulator A :=
  zoom ns_plcMedium (λ w s, set_ns_media w (ns_wlMedium s) s) m.
Definition of_wl {A} (m : M world A) : M simulator A :=
  zoom ns_wlMedium (λ w s, set_ns_media (ns_plcMedium s) w s) m.

Inductive actor := Main | Plc | Wl | Signal (signum : Z).

(** After exit no thread runs; the main thread waits for the other two. *)
Definition enabled (a : actor) (s : system) : bool :=
  match sy_main s with
  | MainEnd _ => false
  | pc =>
      match a with
      | Main =>
          match pc with
          | MainJoin => bool_decide (sy_plc s = Some PcExit) && bool_decide (sy_wl s = Some PcExit)
          | _ => true
          end
      | Plc => match sy_plc s with None | Some PcExit => false | _ => true end
      | Wl => match sy_wl s with None | Some PcExit => false | _ => true end
      | Signal signum => bool_decide (signum ∈ sy_handled s)
      end
  end.

Section Process.
Context `{Allocator} `{HashOrder}.

(** main: an exception that leaves the constructor of the simulator leaves [sim]
    NULL, and delete(sim) does nothing; one that leaves start does not. *)
Definition caught (next : main_pc) (m : M system main_pc) : M system main_pc :=
  try_catch m (λ _, mret next).

Definition main_step (pc : main_pc) : M system main_pc :=
  match pc with
  | MainPrepare =>
      opt ← in_sim (sim_os prepare);
      match opt with
      | None => mret (MainExit EXIT_FAILURE)
      | Some (debug, handled) => modify (set_sy_handled handled);; mret (MainNew debug)
      end
  | MainNew debug =>
      caught (MainExit EXIT_SUCCESS)
        (in_sim (make_NetworkSimulator debug);; mret MainStartPlc)
  | MainStartPlc =>
      caught (MainExit EXIT_SUCCESS)
        (in_sim (sim_os start_thread);; modify (set_sy_plc (Some PcStart));; mret MainStartWl)
  | MainStartWl =>
      caught (MainExit EXIT_SUCCESS)
        (in_sim (sim_os start_thread);; modify (set_sy_wl (Some PcStart));;
         modify (set_sy_ptr SimObject);; mret MainOpen)
  | MainOpen => caught MainStopPlc (in_sim open_servers;; mret (MainAccept 0))
  | MainAccept errCount =>
      caught MainStopPlc
        ('(rv, errCount) ← in_sim (accept_round errCount); mret (MainLook rv errCount))
  | MainLook rv errCount =>
      stop ← gets (λ s, ns_stop (sy_sim s));
      mret (if negb stop && negb (bool_decide (rv = ACCEPT_UNBLOCK))
            then MainAccept errCount else MainClose)
  | MainClose => in_sim delete_servers;; mret MainStopPlc
  | MainStopPlc => in_sim (on_plc PhysicalMedium.stop);; mret MainStopWl
  | MainStopWl => in_sim (on_wl PhysicalMedium.stop);; mret MainJoin
  | MainJoin =>
      in_sim destroy_simulator;; modify (set_sy_ptr SimDeleted);; mret (MainExit EXIT_SUCCESS)
  | MainExit code => in_sim exit_destructors;; mret (MainEnd code)
  | MainEnd code => mret (MainEnd code)
  end.

Definition act (a : actor) : M system unit :=
  match a with
  | Main =>
      pc ← gets sy_main;
      pc ← main_step pc;
      modify (set_sy_main pc)
  | Plc =>
      opc ← gets sy_plc;
      match opc with
      | None => mret tt
      | Some pc =>
          pc ← in_sim (of_plc (thread_step (H0 := powerline) pc));
          modify (set_sy_plc (Some pc))
      end
  | Wl =>
      opc ← gets sy_wl;
      match opc with
      | None => mret tt
      | Some pc =>
          pc ← in_sim (of_wl (thread_step (H0 := wireless) pc));
          modify (set_sy_wl (Some pc))
      end
  | Signal signum =>
      ptr ← gets sy_ptr;
      in_sim (signal_handler ptr signum)
  end.

(** Every interleaving of the threads and the signals, up to a fault. *)
Inductive reachable (s0 : system) : system → Prop :=
  | reach_init : reachable s0 s0
  | reach_act s a s' :
      reachable s0 s → enabled a s = true → act a s = (Ok tt, s') → reachable s0 s'.

(** One of them. *)
Fixpoint schedule (l : list actor) : M system unit :=
  match l with
  | [] => mret tt
  | a :: l =>
      b ← gets (enabled a);
      if (b : bool) then act a;; schedule l else schedule l
  end.
End Process.
