(* ===== verification/Invariant.v ===== *)
(** The invariant of a medium, and how it moves with the changes the operations
    make to the maps and lists.

    [Inv]: the two maps are indexed by the ids of the live nodes they point to,
    each live node is in exactly one of them according to its state, its timers
    run exactly when its state says so, the nodes transmitting are on the Tx list
    and own a packet each, and the mutex is free.  An entry of the Tx list may
    point to a node that was deleted ([Clean] excludes it): deregisterNode leaves
    such entries behind. *)

From Stdlib Require Import ZArith Lia.
From stdpp Require Import base tactics list gmap numbers option strings.
From S2P Require Import Prelude Bytes TimeUtils Interface Os SocketIO State DeviceNode.

(** ** Definitions *)

Record node_ok (reg hash : gmap Z nat) (ps : gmap nat NetSimPacket) (tx : list nat)
    (p : nat) (nd : device_node) : Prop := {
  nk_sock : dn_socket nd ≠ 0;
  nk_medium : dn_medium nd = true;
  nk_regTimer : started (dn_regTimer nd) = bool_decide (dn_curState nd = RegisteringState);
  nk_txTimer : started (dn_txTimer nd) = bool_decide (dn_curState nd = TxState);
  nk_map : ((if decide (dn_curState nd = RegisteringState) then reg else hash)
             !! dn_socket nd) = Some p;
  nk_pkt : match dn_curState nd with
           | TxState => p ∈ tx ∧
               ∃ k pk, dn_txPkt nd = Some k ∧ ps !! k = Some pk ∧ fromNode pk = p
           | _ => p ∉ tx ∧ dn_txPkt nd = None
           end
}.

(** The invariant on the parts of a world it speaks of. *)
Record InvS (ns : gmap nat device_node) (ps : gmap nat NetSimPacket) (nx : nat)
    (reg hash : gmap Z nat) (cca tx : list nat) : Prop := {
  i_reg k p : reg !! k = Some p →
    ∃ nd, ns !! p = Some nd ∧ dn_socket nd = k ∧ dn_curState nd = RegisteringState;
  i_hash k p : hash !! k = Some p →
    ∃ nd, ns !! p = Some nd ∧ dn_socket nd = k ∧ dn_curState nd ≠ RegisteringState;
  i_disj k p q : reg !! k = Some p → hash !! k = Some q → False;
  i_node p nd : ns !! p = Some nd → node_ok reg hash ps tx p nd;
  i_tx : NoDup tx;
  i_cca p : p ∈ cca → is_Some (ns !! p);
  i_pkt k : is_Some (ps !! k) → (k < nx)%nat
}.

(** The invariant, whoever holds the mutex. *)
Definition InvL (w : world) : Prop :=
  InvS (w_nodes w) (w_pkts w) (w_next_pkt w) (pm_regListMap (w_medium w))
    (pm_nodeHashMap (w_medium w)) (pm_ccaList (w_medium w)) (pm_txList (w_medium w)).

Definition Inv (w : world) : Prop := InvL w ∧ pm_regListMapMutex (w_medium w) = false.

Definition live (w : world) (p : nat) : Prop := is_Some (w_nodes w !! p).

(** No entry of the Tx list points to a node that is gone, and no packet of the
    heap is owned by none. *)
Record CleanS (ns : gmap nat device_node) (ps : gmap nat NetSimPacket) (tx : list nat) : Prop := {
  c_tx p : p ∈ tx → is_Some (ns !! p);
  c_pkt k : is_Some (ps !! k) → ∃ p nd, ns !! p = Some nd ∧ dn_txPkt nd = Some k
}.

Definition Clean (w : world) : Prop :=
  CleanS (w_nodes w) (w_pkts w) (pm_txList (w_medium w)).

(** The Tx list holds a node that was deleted. *)
Definition dangling (w : world) : Prop := ∃ p, p ∈ pm_txList (w_medium w) ∧ ¬ live w p.

Lemma Clean_not_dangling w : Clean w → ¬ dangling w.
Proof. intros [Ht _] (p & Hp & Hl). by apply Hl, Ht. Qed.

(** Faults that are not a bad access to an object, a deadlock or a lack of fuel. *)
Definition benign (f : fault) : Prop :=
  match f with
  | Undef UseAfterFree | Undef NullDeref | Undef Deadlock | NoFuel => False
  | _ => True
  end.

(** ** Consequences *)

Section Facts.
Context {ns ps nx reg hash cca tx} (I : InvS ns ps nx reg hash cca tx).

Lemma inv_lookup_reg p nd :
  ns !! p = Some nd → dn_curState nd = RegisteringState →
  reg !! dn_socket nd = Some p ∧ hash !! dn_socket nd = None.
Proof using I.
  intros Hp Hs. pose proof (nk_map _ _ _ _ _ _ (i_node _ _ _ _ _ _ _ I p nd Hp)) as Hm.
  rewrite decide_True in Hm by done. split; [done|].
  destruct (hash !! dn_socket nd) as [q|] eqn:Hq; [|done].
  destruct (i_disj _ _ _ _ _ _ _ I _ _ _ Hm Hq).
Qed.

Lemma inv_lookup_hash p nd :
  ns !! p = Some nd → dn_curState nd ≠ RegisteringState →
  hash !! dn_socket nd = Some p ∧ reg !! dn_socket nd = None.
Proof using I.
  intros Hp Hs. pose proof (nk_map _ _ _ _ _ _ (i_node _ _ _ _ _ _ _ I p nd Hp)) as Hm.
  rewrite decide_False in Hm by done. split; [done|].
  destruct (reg !! dn_socket nd) as [q|] eqn:Hq; [|done].
  destruct (i_disj _ _ _ _ _ _ _ I _ _ _ Hq Hm).
Qed.

(** Ids are unique among the live nodes. *)
Lemma inv_socket_inj p q nd nd' :
  ns !! p = Some nd → ns !! q = Some nd' → dn_socket nd = dn_socket nd' → p = q.
Proof using I.
  intros Hp Hq Hs.
  destruct (decide (dn_curState nd = RegisteringState)) as [E|E];
    destruct (decide (dn_curState nd' = RegisteringState)) as [E'|E'];
    [pose proof (inv_lookup_reg p nd Hp E) as [H1 H2]
    |pose proof (inv_lookup_reg p nd Hp E) as [H1 H2]
    |pose proof (inv_lookup_hash p nd Hp E) as [H1 H2]
    |pose proof (inv_lookup_hash p nd Hp E) as [H1 H2]];
    first [pose proof (inv_lookup_reg q nd' Hq E') as [H3 H4]
          |pose proof (inv_lookup_hash q nd' Hq E') as [H3 H4]];
    rewrite Hs in *; congruence.
Qed.
End Facts.

(** ** Moving the invariant

    [other_node]: a node that is not touched keeps its part of the invariant
    when the maps keep its entries and the Tx list its membership. *)
Lemma node_ok_frame reg hash ps tx reg' hash' ps' tx' p nd :
  node_ok reg hash ps tx p nd →
  (reg !! dn_socket nd = Some p → reg' !! dn_socket nd = Some p) →
  (hash !! dn_socket nd = Some p → hash' !! dn_socket nd = Some p) →
  (p ∈ tx ↔ p ∈ tx') →
  (∀ k pk, ps !! k = Some pk → fromNode pk = p →
     ∃ pk', ps' !! k = Some pk' ∧ fromNode pk' = p) →
  node_ok reg' hash' ps' tx' p nd.
Proof.
  intros [H1 H2 H3 H4 H5 H6] Hr Hh Ht Hp. split; try done.
  - case_decide; auto.
  - destruct (dn_curState nd); [rewrite <-Ht; done..|].
    destruct H6 as (Hin & k & pk & Hk & Hpk & Hf). split; [by apply Ht|].
    destruct (Hp k pk Hpk Hf) as (pk' & ? & ?). eauto.
Qed.

(** The fields a node's part of the invariant depends on. *)
Definition same_node (nd nd' : device_node) : Prop :=
  dn_socket nd' = dn_socket nd ∧ dn_medium nd' = dn_medium nd ∧
  dn_curState nd' = dn_curState nd ∧
  started (dn_regTimer nd') = started (dn_regTimer nd) ∧
  started (dn_txTimer nd') = started (dn_txTimer nd) ∧ dn_txPkt nd' = dn_txPkt nd.

Lemma node_ok_same reg hash ps tx p nd nd' :
  same_node nd nd' → node_ok reg hash ps tx p nd → node_ok reg hash ps tx p nd'.
Proof.
  intros (E1 & E2 & E3 & E4 & E5 & E6) [H1 H2 H3 H4 H5 H6].
  split; rewrite ?E1, ?E2, ?E3, ?E4, ?E5, ?E6; done.
Qed.

(** Two pointers differ when what they point to does. *)
Ltac ne := intros ?; congruence.

Section Moves.
Context {ns ps nx reg hash cca tx} (I : InvS ns ps nx reg hash cca tx).

Lemma InvS_same p nd nd' :
  ns !! p = Some nd → same_node nd nd' → InvS (<[p := nd']> ns) ps nx reg hash cca tx.
Proof using I.
  intros Hp Hs. pose proof Hs as (E1 & _ & E3 & _). destruct I as [Ir Ih Id In It Ic Ik].
  split; try done.
  - intros k q Hq. destruct (Ir k q Hq) as (nq & Hnq & ? & ?).
    destruct (decide (q = p)) as [->|]; simplify_map_eq; eauto with congruence.
  - intros k q Hq. destruct (Ih k q Hq) as (nq & Hnq & ? & ?).
    destruct (decide (q = p)) as [->|]; simplify_map_eq; eauto with congruence.
  - intros q nq [[-> <-]|[Hne Hq]]%lookup_insert_Some; [|by apply In].
    eapply node_ok_same; [done|]. by apply In.
  - intros q Hq. destruct (decide (q = p)) as [->|]; simplify_map_eq; eauto.
Qed.

(** A node leaves: its entry goes from both maps, the Tx list is not changed. *)
Lemma InvS_delete p nd :
  ns !! p = Some nd → p ∉ cca →
  InvS (delete p ns) ps nx (delete (dn_socket nd) reg) (delete (dn_socket nd) hash) cca tx.
Proof using I.
  intros Hp Hcca. pose proof (inv_socket_inj I) as Hinj. destruct I as [Ir Ih Id In It Ic Ik].
  split; try done.
  - intros k q [Hne Hq]%lookup_delete_Some. destruct (Ir k q Hq) as (nq & Hnq & ? & ?).
    exists nq. rewrite lookup_delete_ne; [done|]. ne.
  - intros k q [Hne Hq]%lookup_delete_Some. destruct (Ih k q Hq) as (nq & Hnq & ? & ?).
    exists nq. rewrite lookup_delete_ne; [done|]. ne.
  - intros k q q' [_ Hq]%lookup_delete_Some [_ Hq']%lookup_delete_Some. eauto.
  - intros q nq [Hne Hq]%lookup_delete_Some.
    assert (dn_socket nd ≠ dn_socket nq) by (intros Heq; apply Hne; eauto).
    eapply node_ok_frame; [by apply In|..]; try done; rewrite ?lookup_delete_ne by done; eauto.
  - intros q Hq. rewrite lookup_delete_ne; [by apply Ic|]. by intros ->.
Qed.

(** A registering node is confirmed: from the registration list to the node
    map. *)
Lemma InvS_register p nd nd' :
  ns !! p = Some nd → dn_curState nd = RegisteringState →
  dn_socket nd' = dn_socket nd → dn_medium nd' = true → dn_curState nd' = ActiveState →
  started (dn_regTimer nd') = false → started (dn_txTimer nd') = started (dn_txTimer nd) →
  dn_txPkt nd' = dn_txPkt nd →
  InvS (<[p := nd']> ns) ps nx (delete (dn_socket nd) reg) (<[dn_socket nd := p]> hash) cca tx.
Proof using I.
  intros Hp Hs E1 E2 E3 E4 E5 E6.
  pose proof (inv_lookup_reg I p nd Hp Hs) as [Hreg Hhash].
  pose proof (inv_socket_inj I) as Hinj. destruct I as [Ir Ih Id In It Ic Ik].
  pose proof (In p nd Hp) as [N1 N2 N3 N4 N5 N6]. rewrite Hs in N3, N4, N6.
  split; try done.
  - intros k q [Hne Hq]%lookup_delete_Some. destruct (Ir k q Hq) as (nq & Hnq & ? & ?).
    exists nq. rewrite lookup_insert_ne; [done|]. ne.
  - intros k q [[<- <-]|[Hne Hq]]%lookup_insert_Some.
    + exists nd'. rewrite lookup_insert_eq. split_and!; congruence.
    + destruct (Ih k q Hq) as (nq & Hnq & ? & ?).
      exists nq. rewrite lookup_insert_ne; [done|]. ne.
  - intros k q q' [Hne Hq]%lookup_delete_Some [[<- _]|[_ Hq']]%lookup_insert_Some; eauto.
  - intros q nq [[<- <-]|[Hne Hq]]%lookup_insert_Some.
    + split; rewrite ?E1, ?E3; try done.
      * rewrite E5, N4. done.
      * rewrite decide_False by done. by rewrite lookup_insert_eq.
      * by rewrite E6.
    + assert (dn_socket nd ≠ dn_socket nq) by (intros Heq; apply Hne; eauto).
      eapply node_ok_frame; [by apply In|..]; try done;
        rewrite ?lookup_delete_ne, ?lookup_insert_ne by done; eauto.
  - intros q Hq. destruct (decide (q = p)) as [->|]; simplify_map_eq; eauto.
Qed.

(** An active node starts to transmit a new packet. *)
Lemma InvS_start_tx p nd nd' pk :
  ns !! p = Some nd → dn_curState nd = ActiveState →
  dn_socket nd' = dn_socket nd → dn_medium nd' = true → dn_curState nd' = TxState →
  started (dn_regTimer nd') = started (dn_regTimer nd) → started (dn_txTimer nd') = true →
  dn_txPkt nd' = Some nx → fromNode pk = p →
  InvS (<[p := nd']> ns) (<[nx := pk]> ps) (S nx) reg hash cca (tx ++ [p]).
Proof using I.
  intros Hp Hs E1 E2 E3 E4 E5 E6 E7.
  destruct I as [Ir Ih Id In It Ic Ik].
  pose proof (In p nd Hp) as [N1 N2 N3 N4 N5 N6]. rewrite Hs in N3, N4, N6.
  destruct N6 as [N6 _].
  split; try done.
  - intros k q Hq. destruct (Ir k q Hq) as (nq & Hnq & ? & ?).
    exists nq. rewrite lookup_insert_ne; [done|]. ne.
  - intros k q Hq. destruct (Ih k q Hq) as (nq & Hnq & ? & ?).
    destruct (decide (q = p)) as [->|]; simplify_map_eq; eauto with congruence.
  - intros q nq [[<- <-]|[Hne Hq]]%lookup_insert_Some.
    + split; rewrite ?E1, ?E3; try done.
      * by rewrite E4, N3.
      * rewrite decide_False by done. by rewrite decide_False in N5 by congruence.
      * split; [set_solver|]. exists nx, pk. by rewrite lookup_insert_eq.
    + eapply node_ok_frame; [by apply In|..]; try done; [set_solver|].
      intros k pk' Hk Hf. exists pk'. rewrite lookup_insert_ne; [done|].
      intros <-. pose proof (Ik nx ltac:(eauto)). lia.
  - apply NoDup_snoc. done.
  - intros q Hq. destruct (decide (q = p)) as [->|]; simplify_map_eq; eauto.
  - intros k [pk' [[<- _]|[_ Hk]]%lookup_insert_Some]; [lia|].
    pose proof (Ik k ltac:(eauto)). lia.
Qed.

(** A transmission ends: the node is active again, its packet is gone and it is
    off the Tx list. *)
Lemma InvS_end_tx p nd nd' k tx' :
  ns !! p = Some nd → dn_curState nd = TxState → dn_txPkt nd = Some k →
  dn_socket nd' = dn_socket nd → dn_medium nd' = true → dn_curState nd' = ActiveState →
  started (dn_regTimer nd') = started (dn_regTimer nd) → started (dn_txTimer nd') = false →
  dn_txPkt nd' = None → NoDup tx' → p ∉ tx' → (∀ q, q ≠ p → q ∈ tx ↔ q ∈ tx') →
  InvS (<[p := nd']> ns) (delete k ps) nx reg hash cca tx'.
Proof using I.
  intros Hp Hs Hk E1 E2 E3 E4 E5 E6 Hnd Hnin Htx.
  destruct I as [Ir Ih Id In It Ic Ik].
  pose proof (In p nd Hp) as [N1 N2 N3 N4 N5 N6]. rewrite Hs in N3, N4, N6.
  destruct N6 as (_ & k' & pk & Hk' & Hpk & Hf). simplify_eq.
  split; try done.
  - intros j q Hq. destruct (Ir j q Hq) as (nq & Hnq & ? & ?).
    exists nq. rewrite lookup_insert_ne; [done|]. ne.
  - intros j q Hq. destruct (Ih j q Hq) as (nq & Hnq & ? & ?).
    destruct (decide (q = fromNode pk)) as [->|]; simplify_map_eq; eauto with congruence.
  - intros q nq [[<- <-]|[Hne Hq]]%lookup_insert_Some.
    + split; rewrite ?E1, ?E3; try done.
      * by rewrite E4, N3.
      * rewrite decide_False by done. by rewrite decide_False in N5 by congruence.
    + eapply node_ok_frame; [by apply In|..]; try done; [by apply Htx|].
      intros j pk' Hj Hf. exists pk'. rewrite lookup_delete_ne; [done|]. congruence.
  - intros q Hq. destruct (decide (q = fromNode pk)) as [->|]; simplify_map_eq; eauto.
  - intros j [pk' [_ Hj]%lookup_delete_Some]. eauto.
Qed.

(** A packet keeps its owner. *)
Lemma InvS_pkt k pk pk' :
  ps !! k = Some pk → fromNode pk' = fromNode pk →
  InvS ns (<[k := pk']> ps) nx reg hash cca tx.
Proof using I.
  intros Hk Hf. destruct I as [Ir Ih Id In It Ic Ik]. split; try done.
  - intros p nd Hp. eapply node_ok_frame; [by apply In|..]; try done.
    intros j pj Hj Hfj. destruct (decide (j = k)) as [->|]; simplify_map_eq; eauto.
  - intros j [pj [[<- _]|[_ Hj]]%lookup_insert_Some]; eauto.
Qed.

(** A new node joins the registration list. *)
Lemma InvS_add p nd :
  ns !! p = None → p ∉ tx →
  (∀ q nq, ns !! q = Some nq → dn_socket nq ≠ dn_socket nd) →
  dn_socket nd ≠ 0 → dn_medium nd = true → dn_curState nd = RegisteringState →
  started (dn_regTimer nd) = true → started (dn_txTimer nd) = false → dn_txPkt nd = None →
  InvS (<[p := nd]> ns) ps nx (<[dn_socket nd := p]> reg) hash cca tx.
Proof using I.
  intros Hp Htx Hfresh E1 E2 E3 E4 E5 E6. destruct I as [Ir Ih Id In It Ic Ik].
  split; try done.
  - intros k q [[<- <-]|[Hne Hq]]%lookup_insert_Some.
    + exists nd. by rewrite lookup_insert_eq.
    + destruct (Ir k q Hq) as (nq & Hnq & ? & ?). exists nq.
      rewrite lookup_insert_ne; [done|]. ne.
  - intros k q Hq. destruct (Ih k q Hq) as (nq & Hnq & ? & ?). exists nq.
    rewrite lookup_insert_ne; [done|]. ne.
  - intros k q q' [[<- <-]|[Hne Hq]]%lookup_insert_Some Hq'; [|eauto].
    destruct (Ih _ _ Hq') as (nq & Hnq & ? & ?). by eapply Hfresh.
  - intros q nq [[<- <-]|[Hne Hq]]%lookup_insert_Some.
    + split; rewrite ?E3; try done. rewrite decide_True by done. by rewrite lookup_insert_eq.
    + eapply node_ok_frame; [by apply In|..]; try done; [|by eauto].
      intros Hr. rewrite lookup_insert_ne; [done|]. intros Heq. by apply (Hfresh q nq).
  - intros q Hq. destruct (decide (q = p)) as [->|]; simplify_map_eq; eauto.
Qed.

Lemma InvS_cca cca' :
  (∀ p, p ∈ cca' → is_Some (ns !! p)) → InvS ns ps nx reg hash cca' tx.
Proof using I. intros Hc. by destruct I as [Ir Ih Id In It Ic Ik]. Qed.
End Moves.

(** ** The same moves, for [CleanS] *)

Section CleanMoves.
Context {ns ps tx} (C : CleanS ns ps tx).

(** A node changes but for its packet; the Tx list may grow by it. *)
Lemma CleanS_node p nd nd' tx' :
  ns !! p = Some nd → dn_txPkt nd' = dn_txPkt nd → (∀ q, q ∈ tx' → q ∈ tx ∨ q = p) →
  CleanS (<[p := nd']> ns) ps tx'.
Proof using C.
  intros Hp Hk Htx. destruct C as [Ct Cp]. split.
  - intros q Hq. destruct (decide (q = p)) as [->|]; simplify_map_eq; [eauto|].
    destruct (Htx q Hq); [by apply Ct|done].
  - intros k Hkk. destruct (Cp k Hkk) as (q & nq & Hq & Hn).
    destruct (decide (q = p)) as [->|].
    + exists p, nd'. rewrite lookup_insert_eq. split; congruence.
    + exists q, nq. by rewrite lookup_insert_ne.
Qed.

Lemma CleanS_delete p nd :
  ns !! p = Some nd → dn_txPkt nd = None → p ∉ tx → CleanS (delete p ns) ps tx.
Proof using C.
  intros Hp Hk Htx. destruct C as [Ct Cp]. split.
  - intros q Hq. rewrite lookup_delete_ne; [by apply Ct|]. by intros ->.
  - intros k Hkk. destruct (Cp k Hkk) as (q & nq & Hq & Hn). exists q, nq.
    rewrite lookup_delete_ne; [done|]. congruence.
Qed.

Lemma CleanS_start_tx p nd nd' nx pk :
  ns !! p = Some nd → dn_txPkt nd = None → dn_txPkt nd' = Some nx →
  CleanS (<[p := nd']> ns) (<[nx := pk]> ps) (tx ++ [p]).
Proof using C.
  intros Hp Hk Hk'. destruct C as [Ct Cp]. split.
  - intros q Hq%elem_of_snoc. destruct (decide (q = p)) as [->|]; simplify_map_eq; [eauto|].
    destruct Hq; [by apply Ct|done].
  - intros k Hkk. destruct (decide (k = nx)) as [->|].
    + exists p, nd'. by rewrite lookup_insert_eq.
    + rewrite lookup_insert_ne in Hkk by done.
      destruct (Cp k Hkk) as (q & nq & Hq & Hn). exists q, nq.
      rewrite lookup_insert_ne; [done|]. congruence.
Qed.

Lemma CleanS_end_tx p nd nd' k tx' :
  ns !! p = Some nd → dn_txPkt nd = Some k → (∀ q, q ∈ tx' → q ∈ tx) →
  CleanS (<[p := nd']> ns) (delete k ps) tx'.
Proof using C.
  intros Hp Hk Htx. destruct C as [Ct Cp]. split.
  - intros q Hq%Htx. destruct (decide (q = p)) as [->|]; simplify_map_eq; eauto.
  - intros j [pj [Hne Hj]%lookup_delete_Some]. destruct (Cp j ltac:(eauto)) as (q & nq & Hq & Hn).
    exists q, nq. rewrite lookup_insert_ne; [done|]. congruence.
Qed.

Lemma CleanS_pkt k pk pk' : ps !! k = Some pk → CleanS ns (<[k := pk']> ps) tx.
Proof using C.
  intros Hk. destruct C as [Ct Cp]. split; [done|].
  intros j Hj. apply Cp. destruct (decide (j = k)) as [->|]; simplify_map_eq; eauto.
Qed.

Lemma CleanS_add p nd : ns !! p = None → CleanS (<[p := nd]> ns) ps tx.
Proof using C.
  intros Hp. destruct C as [Ct Cp]. split.
  - intros q Hq. destruct (decide (q = p)) as [->|]; simplify_map_eq; eauto.
  - intros k Hk. destruct (Cp k Hk) as (q & nq & Hq & Hn). exists q, nq.
    rewrite lookup_insert_ne; [done|]. congruence.
Qed.
End CleanMoves.
