(* ===== verification/Preserve.v ===== *)
(** Every operation on a node preserves the invariant of the medium, and its only
    faults are benign: no object is used after its deletion, no NULL pointer is
    followed, the mutex is never locked twice and no loop runs out of fuel. *)

From Stdlib Require Import ZArith Lia.
From stdpp Require Import base tactics list gmap numbers option strings.
From S2P Require Import Prelude Bytes TimeUtils Checksum Interface Os SocketIO State Spec.
From S2P Require Import DeviceNode NodeStates Invariant.

Lemma insert_new_None k p m : m !! k = None → insert_new k p m = <[k := p]> m.
Proof. unfold insert_new. by intros ->. Qed.

(** ** Calls on the system *)

(** A call on the system: only benign faults, and a value in [P]. *)
Definition os_ok {A} (m : M os A) (P : A → Prop) : Prop :=
  ∀ o, wp (λ f _, benign f) m (λ a _, P a) o.

(** The weakest precondition for benign faults. *)
Notation bwp := (wp (λ f (_ : world), benign f)).

Lemma wp_lift_frame {A} (m : M os A) P Q w :
  os_ok m P → (∀ a o, P a → Q a (set_os o w)) → bwp (lift_os m) Q w.
Proof.
  intros Hm HQ. rewrite wp_lift_os. eapply wp_mono; [apply Hm|]. eauto.
Qed.

Ltac os_unfold := unfold sys_recv, sys_malloc, timer_create, timer_settime, timer_gettime,
  timer_delete, sys_close, epoll_ctl_add, clock_gettime, epoll_wait, fcntl_get, fcntl_setfl,
  fcntl_setfd, sys_setsockopt.

(** Calls made of asking and emitting. *)
Ltac os_tac :=
  intros o; os_unfold; wp_simpl;
  repeat (case_match; wp_simpl; simpl in *); done.

Lemma os_ok_emit e : os_ok (emit e) (λ _, True).
Proof. done. Qed.
Lemma os_ok_recv fd n : 0 ≤ n →
  os_ok (sys_recv fd n) (λ '(rv, data), rv = -1 ∧ data = [] ∨ rv = length data ∧ rv ≤ n).
Proof.
  intros Hn o. unfold sys_recv. wp_simpl. simpl. case_match; [done|]. wp_simpl.
  pose proof (clamp_range n (a_rv a) Hn) as Hc. rewrite length_bytes_of.
  destruct (decide (clamp n (a_rv a) = -1)) as [->|]; [left; split; [done|apply resize_0]|]. right. lia.
Qed.
Lemma os_ok_recv_any fd n : os_ok (sys_recv fd n) (λ _, True).
Proof. os_tac. Qed.
Lemma os_ok_malloc n : os_ok (sys_malloc n) (λ l, length l = Z.to_nat n ∧ bytes_ok l).
Proof.
  intros o. unfold sys_malloc. wp_simpl. case_match; [done|]. wp_simpl.
  split; [apply length_bytes_of|apply bytes_of_ok].
Qed.
Lemma os_ok_close fd : os_ok (sys_close fd) (λ _, True).
Proof. done. Qed.
Lemma os_ok_epoll_ctl_add fd ev : os_ok (epoll_ctl_add fd ev) (λ _, True).
Proof. os_tac. Qed.
Lemma os_ok_epoll_wait f ms :
  os_ok (epoll_wait f ms) (λ '(rv, _, evs), (rv = -1 ∨ rv = length evs) ∧
    ∃ offered, evs = take EPOLL_MAX_EVENTS (f offered)).
Proof.
  intros o. unfold epoll_wait. wp_simpl. case_match; [done|]. wp_simpl. cbn beta iota.
  split; [|eauto]. destruct (a_rv a <? 0); auto.
Qed.
Lemma os_ok_timer_settime b v : os_ok (timer_settime b v) (λ _, True).
Proof. os_tac. Qed.
Lemma os_ok_timer_gettime : os_ok timer_gettime (λ _, True).
Proof. os_tac. Qed.
Lemma os_ok_clock_gettime : os_ok clock_gettime (λ _, True).
Proof. os_tac. Qed.
Lemma os_ok_setCloseOnExec fd b : os_ok (Socket.setCloseOnExec fd b) (λ _, True).
Proof. unfold Socket.setCloseOnExec. os_tac. Qed.
Lemma os_ok_destroy fd : os_ok (Socket.destroy fd) (λ _, True).
Proof. unfold Socket.destroy. os_tac. Qed.
Lemma os_ok_sendMsg fd msg :
  os_ok (Socket.sendMsg fd msg) (λ _, True).
Proof.
  intros o. eapply wp_mono; [|by intros; exact I]. eapply wp_mono_E.
  - exact (sendMsg_loop_spec (S (length (os_script o))) fd msg 0 o ltac:(lia)).
  - by intros f s' [-> _].
Qed.

Lemma set_started_id b t : started t = b → set_started b t = t.
Proof. by destruct t; intros <-. Qed.

Lemma os_ok_timer_start t : os_ok (NodeTimer.start t) (λ t', t' = set_started true t).
Proof. unfold NodeTimer.start, NodeTimer.arm. os_tac. Qed.
Lemma os_ok_timer_start_ms t ms :
  os_ok (NodeTimer.start_ms t ms) (λ t', t' = set_started true (set_it_value (NodeTimer.ms_value ms) t)).
Proof. unfold NodeTimer.start_ms, NodeTimer.arm. os_tac. Qed.
Lemma os_ok_timer_stop t : os_ok (NodeTimer.stop t) (λ t', t' = set_started false t).
Proof.
  unfold NodeTimer.stop. intros o. os_unfold. destruct (started t) eqn:Hs; wp_simpl; [done|].
  by rewrite set_started_id.
Qed.
Lemma os_ok_timer_expired t : os_ok (NodeTimer.expired t) (λ _, True).
Proof. unfold NodeTimer.expired. os_tac. Qed.

Create HintDb os_ok discriminated.
#[export] Hint Resolve os_ok_emit os_ok_malloc os_ok_close os_ok_epoll_ctl_add
  os_ok_epoll_wait os_ok_timer_settime os_ok_timer_gettime os_ok_clock_gettime
  os_ok_setCloseOnExec os_ok_destroy os_ok_sendMsg os_ok_timer_start os_ok_timer_start_ms os_ok_timer_stop
  os_ok_timer_expired : os_ok.
#[export] Hint Rewrite wp_get_node wp_upd_node wp_get_pkt wp_upd_pkt wp_delete_pkt
  wp_mutex_lock : wpdb.

(** One step into a computation on the world: through the monad, through known
    lookups, or over a call on the system. *)
Ltac wcbn := cbn [w_os w_nodes w_pkts w_next_pkt w_medium set_os on_nodes on_pkts on_medium
  pm_state pm_curTime pm_nodeHashMap pm_regListMap pm_regListMapMutex pm_ccaList pm_txList
  pm_tx_pkts_ok pm_tx_pkts_collided pm_tx_pkts_failed
  set_pm_state set_pm_curTime on_pm_nodeHashMap on_pm_regListMap set_pm_mutex set_pm_ccaList
  set_pm_txList set_pm_stats benign
  dn_socket dn_sockfd dn_medium dn_os dn_osVersion dn_curState dn_regTimer dn_txTimer dn_txPkt
  dn_failedReads set_dn_medium set_dn_os set_dn_curState set_dn_regTimer set_dn_txTimer
  set_dn_txPkt set_dn_failedReads it_interval it_value started set_started set_it_value
  pktBuffer pktBufferLen fromNode collision txDoneResult set_collision set_txDoneResult
  set_pktBuffer].
Ltac wlookup := repeat match goal with
  | H : ?m !! ?i = Some _ |- context [?m !! ?i] => rewrite H
  | |- context [<[?i := _]> _ !! ?i] => rewrite lookup_insert_eq
  end.
Ltac wgo := repeat (progress (wp_simpl; wcbn; wlookup; cbn beta iota)).
Ltac wlift H :=
  eapply wp_lift_frame; [solve [eauto with os_ok nocore]|intros ? ? H].

(** ** The destructor and deregistration *)

Lemma wp_delete_node p nd Q w :
  w_nodes w !! p = Some nd →
  (∀ o, Q tt (on_nodes (delete p) (set_os o w))) → bwp (delete_node p) Q w.
Proof.
  intros Hp HQ. unfold delete_node, stopRegistrationTimer. wgo.
  wlift Ht. wgo.
  assert (∀ o t, delete p (<[p:=t]> (w_nodes w)) = delete p (w_nodes w) →
    Q tt (on_nodes (delete p) (on_nodes (<[p:=t]>) (set_os o w)))) as HQ'.
  { intros o' t Heq. unfold on_nodes at 1. wcbn. rewrite Heq. apply HQ. }
  wlift Hc. wgo. apply (HQ' o0), delete_insert_eq.
Qed.

(** What a world and its successor have in common when an operation on node [p]
    is done: the other nodes, the state of the medium, and the CCA list but for
    [p] added to it; no other node joins the Tx list; the Tx list and the packets
    stay clean unless [p] leaves while it transmits; and the phases make a step of
    the specification, or none. *)
Definition touches (p : nat) (w w' : world) : Prop :=
  (∀ q, q ≠ p → w_nodes w' !! q = w_nodes w !! q) ∧
  pm_state (w_medium w') = pm_state (w_medium w) ∧
  (pm_ccaList (w_medium w') = pm_ccaList (w_medium w) ∨
   pm_ccaList (w_medium w') = pm_ccaList (w_medium w) ++ [p]) ∧
  (∀ q, q ≠ p → q ∈ pm_txList (w_medium w') → q ∈ pm_txList (w_medium w)) ∧
  (Clean w → p ∉ pm_txList (w_medium w) ∨ live w' p → Clean w') ∧
  spec_step1 (by_node p) (phases w) (phases w').

(** [pres p w w']: what a handler of node [p] run from [w] leaves in [w']. *)
Definition pres (p : nat) (w w' : world) : Prop := Inv w' ∧ touches p w w'.

Lemma pres_delete p nd w w' :
  InvS (delete p (w_nodes w)) (w_pkts w) (w_next_pkt w) (pm_regListMap (w_medium w'))
    (pm_nodeHashMap (w_medium w')) (pm_ccaList (w_medium w)) (pm_txList (w_medium w)) →
  InvL w → w_nodes w !! p = Some nd → pm_regListMapMutex (w_medium w') = false →
  w_nodes w' = delete p (w_nodes w) → w_pkts w' = w_pkts w → w_next_pkt w' = w_next_pkt w →
  pm_state (w_medium w') = pm_state (w_medium w) →
  pm_ccaList (w_medium w') = pm_ccaList (w_medium w) →
  pm_txList (w_medium w') = pm_txList (w_medium w) → pres p w w'.
Proof.
  intros I' I Hp Hm Hn Hk Hx Hs Hc Ht. split; [|split_and!; [|done|by left|by rewrite Ht| |]].
  - split; [|done]. unfold InvL. by rewrite Hn, Hk, Hx, Hc, Ht.
  - intros q Hq. by rewrite Hn, lookup_delete_ne.
  - intros C [Hnt|[nd' Hl]]; [|by rewrite Hn, lookup_delete_eq in Hl].
    unfold Clean. rewrite Hn, Hk, Ht. eapply CleanS_delete; [done..| |done].
    pose proof (nk_pkt _ _ _ _ _ _ (i_node _ _ _ _ _ _ _ I p nd Hp)) as Hpk.
    by destruct (dn_curState nd), Hpk.
  - right. exists (EvLeave p). split; [right; by left|].
    rewrite (phases_delete p w w') by done. constructor. eauto using lookup_phases.
Qed.

(** The changes of state a message makes. *)
Definition next_state (s s' : node_state) : Prop :=
  s' = s ∨ s = RegisteringState ∧ s' = ActiveState ∨ s = ActiveState ∧ s' = TxState.

Lemma pres_insert p nd nd' w w' :
  w_nodes w !! p = Some nd → next_state (dn_curState nd) (dn_curState nd') → InvL w' → pm_regListMapMutex (w_medium w') = false → w_nodes w' = <[p := nd']> (w_nodes w) →
  pm_state (w_medium w') = pm_state (w_medium w) →
  pm_ccaList (w_medium w') = pm_ccaList (w_medium w) ∨
  pm_ccaList (w_medium w') = pm_ccaList (w_medium w) ++ [p] →
  pm_txList (w_medium w') = pm_txList (w_medium w) ∨
  pm_txList (w_medium w') = pm_txList (w_medium w) ++ [p] →
  (Clean w → Clean w') → pres p w w'.
Proof.
  intros Hp Hst I Hm Hn Hs Hc Ht C. split; [done|]. split_and!; [|done..| |auto|].
  - intros q Hq. by rewrite Hn, lookup_insert_ne.
  - intros q Hq. destruct Ht as [-> | ->]; set_solver.
  - pose proof (lookup_phases w p nd Hp) as Hph. destruct Hst as [Hst|Hst].
    + left. by eapply phases_same.
    + right. rewrite (phases_insert p nd' w w') by done. unfold by_node.
      destruct Hst as [[E E']|[E E']]; rewrite E in Hph; rewrite E';
        [exists (EvRegister p)|exists (EvStartTx p)]; (split; [tauto|by constructor]).
Qed.

Lemma pres_same p nd nd' w w' :
  Inv w → w_nodes w !! p = Some nd → same_node nd nd' →
  w_nodes w' = <[p := nd']> (w_nodes w) → w_pkts w' = w_pkts w → w_next_pkt w' = w_next_pkt w →
  w_medium w' = w_medium w → pres p w w'.
Proof.
  intros [I Hm] Hp Hs En Ek Ex Em.
  eapply (pres_insert p nd nd'); rewrite ?Em; try done; [left; apply Hs| |by left..|].
  - unfold InvL. rewrite En, Ek, Ex, Em. by eapply InvS_same.
  - intros C. unfold Clean. rewrite En, Ek, Em.
    eapply CleanS_node; [done..|apply Hs|auto].
Qed.

Lemma pres_refl p w : Inv w → pres p w w.
Proof. intros I. split; [done|]. split_and!; [done..|by left|done|done|by left]. Qed.

Lemma wp_deregisterNode p nd w :
  Inv w → w_nodes w !! p = Some nd → p ∉ pm_ccaList (w_medium w) →
  bwp (deregisterNode p) (λ _ w', pres p w w' ∧ w_nodes w' !! p = None ∧
    pm_txList (w_medium w') = pm_txList (w_medium w)) w.
Proof.
  intros [I Hm] Hp Hcca. pose proof (InvS_delete I p nd Hp Hcca) as I'.
  unfold deregisterNode, getNodeId, erase_regList, erase_nodeHash. wgo. rewrite Hm. wgo.
  destruct (decide (dn_curState nd = RegisteringState)) as [Hs|Hs].
  - destruct (inv_lookup_reg I p nd Hp Hs) as [Hr Hh]. rewrite (delete_id _ _ Hh) in I'.
    rewrite ?Hr, bool_decide_true by done. wgo.
    eapply wp_delete_node; [by wcbn|]. intros o. wp_simpl.
    split; [by eapply pres_delete|]. wcbn. by rewrite lookup_delete_eq.
  - destruct (inv_lookup_hash I p nd Hp Hs) as [Hh Hr].
    rewrite ?Hr, bool_decide_false by (by intros [? ?]). wgo.
    eapply wp_delete_node; [by wcbn|]. intros o.
    split; [by eapply pres_delete|]. wcbn. by rewrite lookup_delete_eq.
Qed.

(** ** Messages to the node *)

Lemma wp_send_message p nd len ty body Q w :
  w_nodes w !! p = Some nd → (∀ n o, Q n (set_os o w)) →
  bwp (send_message p len ty body) Q w.
Proof.
  intros Hp HQ. unfold send_message. wgo.
  destruct (negb _); wgo; [|done]. destruct (seal _ _); wgo; [|done].
  wlift Hn. apply HQ.
Qed.

(** ** The state handlers *)

Lemma wp_handleRegistrationConfirm p nd buf w :
  Inv w → w_nodes w !! p = Some nd →
  bwp (handleRegistrationConfirm p buf) (λ _ w', pres p w w') w.
Proof.
  intros [I Hm] Hp. unfold handleRegistrationConfirm, print_string. wgo.
  destruct (strncpy 32 (drop OFF_os buf)) as [o|]; wgo; [|done].
  destruct (strncpy 32 (drop OFF_os_version buf)) as [v|]; wgo; [|done].
  destruct (bool_decide (0 ∈ o)); wgo; [|done]. destruct (bool_decide (0 ∈ v)); wgo; [|done].
  unfold on_curState. wgo.
  destruct (dn_curState nd) eqn:Hs; [|done..].
  unfold Registering.handleRegistrationConfirm, stopRegistrationTimer, getMedium, registerNode,
    getNodeId, erase_regList. wgo.
  wlift Ht. wgo.


  rewrite (nk_medium _ _ _ _ _ _ (i_node _ _ _ _ _ _ _ I p nd Hp)). wgo. rewrite Hm. wgo.
  destruct (inv_lookup_reg I p nd Hp Hs) as [Hr Hh].
  rewrite Hr, bool_decide_true by done. cbn in Ht. subst a. wgo.
  eapply (pres_insert p nd); unfold InvL, Clean; wcbn; rewrite ?insert_insert_eq;
    [done| | |done..|by left|by left|].
  - right; left. done.
  - rewrite insert_new_None by done.
    eapply (InvS_register I p nd); try done. apply (i_node _ _ _ _ _ _ _ I p nd Hp).
  - intros C. eapply (CleanS_node C p nd); auto.
Qed.

Lemma wp_handleDeregistrationRequest p nd w :
  Inv w → w_nodes w !! p = Some nd → p ∉ pm_ccaList (w_medium w) →
  bwp (handleDeregistrationRequest p) (λ _ w', pres p w w') w.
Proof.
  intros I Hp Hcca. unfold handleDeregistrationRequest, sendDeregistrationConfirm, on_curState. wgo.
  eapply wp_send_message; [done|]. intros n o. wgo.
  assert (Hd : bwp (getMedium p;; deregisterNode p;; mret (None : option node_state))
    (λ st w', st = None ∧ pres p w w') (set_os o w)).
  { unfold getMedium. wgo. rewrite (nk_medium _ _ _ _ _ _ (i_node _ _ _ _ _ _ _ (proj1 I) p nd Hp)).
    wgo. eapply wp_mono; [by apply (wp_deregisterNode p nd)|]. intros _ w' (Hw' & _ & _). done. }
  destruct (dn_curState nd);
    (eapply wp_mono; [exact Hd|intros ? w' [-> Hw']; exact Hw']).
Qed.

Lemma wp_handleCcaRequest p nd w :
  Inv w → w_nodes w !! p = Some nd →
  bwp (handleCcaRequest p) (λ _ w', pres p w w') w.
Proof.
  intros [I Hm] Hp. unfold handleCcaRequest, getMedium, addNodeToCcaList, on_curState. wgo.
  rewrite (nk_medium _ _ _ _ _ _ (i_node _ _ _ _ _ _ _ I p nd Hp)). wgo.
  assert (Hpres : pres p w (on_medium (λ m, set_pm_ccaList (pm_ccaList m ++ [p]) m) w)).
  { split; [split; [|done]|split_and!; [done|done|by right|done|done|by left]].
    eapply InvS_cca; [exact I|]. intros q [Hq| ->]%elem_of_snoc; [|eauto].
    by apply (i_cca _ _ _ _ _ _ _ I). }
  destruct (dn_curState nd); [done|exact Hpres..].
Qed.

Lemma wp_handleDataIndication p nd buf w :
  Inv w → w_nodes w !! p = Some nd →
  bwp (handleDataIndication p buf) (λ _ w', pres p w w') w.
Proof.
  intros [I Hm] Hp. unfold handleDataIndication. wgo.
  destruct (NetSimPkt.make buf p) as [pk|] eqn:Hpk; [|done]. wgo. unfold on_curState. wgo.
  destruct (dn_curState nd) eqn:Hs; [done| |done].
  unfold Active.handleTxRequest, startTxTimer, setTxPacket, getMedium, addNodeToTxList, getNodeId.
  wgo. destruct (NetSimPkt.isAck pk) as [b|]; [|done]. wgo.
  assert (Hf : fromNode pk = p).
  { revert Hpk. unfold NetSimPkt.make. destruct (load _ _ _); [|done]. cbn.
    by case_decide; intros [= <-]. }
  destruct b; wgo; wlift Ht; cbn in Ht; subst a; wgo;
    rewrite (nk_medium _ _ _ _ _ _ (i_node _ _ _ _ _ _ _ I p nd Hp)); wgo;
    (eapply (pres_insert p nd); unfold InvL, Clean; wcbn; rewrite ?insert_insert_eq;
      [done| | |done..|by left|by right|]);
    [by right; right|eapply (InvS_start_tx I p nd); try done; apply (i_node _ _ _ _ _ _ _ I p nd Hp)
    |intros C; eapply (CleanS_start_tx C p nd); try done
    |by right; right|eapply (InvS_start_tx I p nd); try done; apply (i_node _ _ _ _ _ _ _ I p nd Hp)
    |intros C; eapply (CleanS_start_tx C p nd); try done];
    pose proof (nk_pkt _ _ _ _ _ _ (i_node _ _ _ _ _ _ _ I p nd Hp)) as Hk;
    rewrite Hs in Hk; apply Hk.
Qed.

(** ** readMsg *)

Section ReadMsg.
Context (p : nat) (nd : device_node) (w : world).
Context (I : Inv w) (Hp : w_nodes w !! p = Some nd) (Hcca : p ∉ pm_ccaList (w_medium w)).

Lemma wp_dispatch ty buf : bwp (dispatch p ty buf) (λ _ w', pres p w w') w.
Proof using I Hp Hcca.
  unfold dispatch. destruct (msg_type_of ty) as [[]|]; wgo;
    eauto using pres_refl, wp_handleRegistrationConfirm,
      wp_handleDeregistrationRequest, wp_handleCcaRequest, wp_handleDataIndication.
Qed.

Lemma wp_process_msg len buf : bwp (process_msg p len buf) (λ _ w', pres p w w') w.
Proof using I Hp Hcca.
  unfold process_msg. wgo.
  destruct (load buf OFF_cksum 2) as [rx|]; [|done]. wgo.
  destruct (store buf OFF_cksum _) as [b1|]; [|done]. wgo.
  destruct (store b1 OFF_len _) as [b2|]; [|done]. wgo.
  destruct (generate_checksum b2) as [c|]; [|done]. wgo.
  destruct (negb (c =? _)); [by apply pres_refl|]. wgo.
  destruct (hdr_of_bytes b2) as [hdr|]; [|done]. wgo.
  destruct (ntohll _ =? _); [|done].
  destruct (negb _); [by apply pres_refl|]. apply wp_dispatch.
Qed.

Lemma wp_count_failed_read : bwp (count_failed_read p) (λ _ w', pres p w w') w.
Proof using I Hp.
  unfold count_failed_read, checked_int. wgo. case_bool_decide; [|done]. wgo.
  by apply (pres_same p nd (set_dn_failedReads (dn_failedReads nd + 1) nd)).
Qed.
End ReadMsg.

#[export] Hint Resolve os_ok_recv_any : os_ok.

Lemma wp_readMsg p nd w :
  Inv w → w_nodes w !! p = Some nd → p ∉ pm_ccaList (w_medium w) →
  bwp (readMsg p) (λ _ w', pres p w w') w.
Proof.
  intros I Hp Hcca. unfold readMsg, recv_body. wgo.
  wlift Ha. destruct a as [rv lenb]. wgo.
  destruct (rv =? EAGAIN); [by apply (wp_count_failed_read p nd (set_os _ w))|]. wgo.
  destruct (rv =? 2); [|done]. destruct (8 <=? le_val lenb); [|done]. wgo.
  wlift Hb. wgo. wlift Hc. destruct a0 as [rv' data]. wgo.
  destruct (match data with [] => Some a | _ => store a 2 data end) as [buf|]; [|done]. wgo.
  destruct (rv' =? EAGAIN).
  - by apply (wp_count_failed_read p nd (set_os _ w)).
  - by apply (wp_process_msg p nd (set_os _ w)).
Qed.
