(* ===== verification/Follow.v ===== *)
(** What every operation does to the boundary of the system, whatever the state of
    the medium: it takes its answers in order and sends nothing but messages of
    the interface.

    [follows R E m]: from a boundary [o] to the one [m] leaves, [R] holds when [m]
    returns and [E] when it fails.  The relations of interest are preorders that
    the primitive calls satisfy (class [OsRel]); that the operations follow them is
    then shown once, for all of them. *)

From Stdlib Require Import ZArith Lia.
From stdpp Require Import base tactics list gmap numbers option strings.
From S2P Require Import Prelude Bytes TimeUtils Checksum Interface Os SocketIO State.
From S2P Require Import DeviceNode NodeStates PhysicalMedium Acceptor Invariant Preserve.

(** The messages the simulator sends: length, type and body. *)
Inductive outgoing : Z → msg_type → list Z → Prop :=
  | out_reg_req : outgoing HDR_SIZE MSG_TYPE_REG_REQ []
  | out_dereg_con : outgoing HDR_SIZE MSG_TYPE_DEREG_CON []
  | out_cca_con (b : bool) : outgoing CCA_CON_SIZE MSG_TYPE_CCA_CON [if b then 1 else 0]
  | out_tx_done r : r = TX_DONE_OK ∨ r = TX_DONE_COLLIDED →
      outgoing TX_DONE_IND_SIZE MSG_TYPE_TX_DONE_IND [to_unsigned 8 r].

Definition no_send (e : sysev) : Prop := ∀ fd data, e ≠ SysSend fd data.
(** Nor does it hand a frame to the multicast or to the capture file. *)
Definition no_frame (e : sysev) : Prop :=
  match e with SysSend _ _ | SysSendTo _ | SysPcapDump _ => False | _ => True end.

Definition world_rel : Type := world → world → Prop.
Definition world_fault : Type := fault → world → world → Prop.

Definition follows (R : world_rel) (E : world_fault) {A} (m : M world A) : Prop :=
  ∀ w, wp (λ f w', E f w w') m (λ _ w', R w w') w.

(** The same of a call on the system. *)
Definition follows_os (R : world_rel) (E : world_fault) {A} (m : M os A) : Prop :=
  ∀ w, wp (λ f o, E f w (set_os o w)) m (λ _ o, R w (set_os o w)) (w_os w).

Definition keeps_socket (f : device_node → device_node) : Prop :=
  ∀ nd, dn_socket (f nd) = dn_socket nd.
Definition keeps_txList (f : medium → medium) : Prop := ∀ m, pm_txList (f m) = pm_txList m.
Definition keeps_stats (f : medium → medium) : Prop := ∀ m,
  pm_tx_pkts_ok (f m) = pm_tx_pkts_ok m ∧ pm_tx_pkts_failed (f m) = pm_tx_pkts_failed m.

(** What a relation owes to the operations that leave the Tx list alone ... *)
Class WorldRel (R : world_rel) (E : world_fault) := {
  wr_refl w : R w w;
  wr_trans w1 w2 w3 : R w1 w2 → R w2 w3 → R w1 w3;
  wr_fault f w1 w2 w3 : R w1 w2 → E f w2 w3 → E f w1 w3;
  wr_stop f w : f ≠ NoFuel → E f w w;
  wr_ask w a sc : os_script (w_os w) = a :: sc → R w (set_os (Os sc (os_trace (w_os w))) w);
  wr_emit w e : no_frame e → R w (set_os (Os (os_script (w_os w)) (os_trace (w_os w) ++ [e])) w);
  wr_send p len ty body : outgoing len ty body → follows R E (send_message p len ty body);
  wr_node w p nd f : keeps_socket f → w_nodes w !! p = Some nd → R w (on_nodes (<[p := f nd]>) w);
  wr_delete w p : R w (on_nodes (delete p) w);
  wr_pkts w f : R w (on_pkts f w);
  wr_new_pkt w pk : R w (World (w_os w) (w_nodes w) (<[w_next_pkt w := pk]> (w_pkts w))
    (S (w_next_pkt w)) (w_medium w));
  wr_medium w f : keeps_txList f → keeps_stats f → R w (on_medium f w)
}.

(** ... and to those that change it: a live node joins at the end, and entries go. *)
Class TxRel (R : world_rel) := {
  tr_in w p : is_Some (w_nodes w !! p) →
    R w (on_medium (λ m, set_pm_txList (pm_txList m ++ [p]) m) w);
  tr_out w l : l ⊆ pm_txList (w_medium w) → R w (on_medium (set_pm_txList l) w)
}.

(** ... and to the end of a transmission, whose result is one of two. *)
Class ResultRel (R : world_rel) (E : world_fault) :=
  follows_result pkt r : r = TX_DONE_OK ∨ r = TX_DONE_COLLIDED → follows R E (tx_result pkt r).

(** ... and to the one that makes a node. *)
Class GrowRel (R : world_rel) := wr_new w p nd : R w (on_nodes (<[p := nd]>) w).

(** A relation that does not tell a frame from another call, nor the statistics from
    the rest of the medium. *)
Class FrameBlind (R : world_rel) := {
  fb_emit w e : no_send e → R w (set_os (Os (os_script (w_os w)) (os_trace (w_os w) ++ [e])) w);
  fb_medium w f : keeps_txList f → R w (on_medium f w)
}.

Lemma no_frame_no_send e : no_frame e → no_send e.
Proof. by destruct e. Qed.
#[export] Hint Resolve no_frame_no_send : core.

(** A relation on what the system sees. *)
Definition os_rel : Type := os → os → Prop.
Definition at_os (R : os_rel) : world_rel := λ w w', R (w_os w) (w_os w').
Definition at_os_fault (E : fault → os → os → Prop) : world_fault :=
  λ f w w', E f (w_os w) (w_os w').

Lemma WorldRel_at_os (R : os_rel) (E : fault → os → os → Prop) :
  (∀ o, R o o) → (∀ o1 o2 o3, R o1 o2 → R o2 o3 → R o1 o3) →
  (∀ f o1 o2 o3, R o1 o2 → E f o2 o3 → E f o1 o3) → (∀ f o, f ≠ NoFuel → E f o o) →
  (∀ o a sc, os_script o = a :: sc → R o (Os sc (os_trace o))) →
  (∀ o e, no_send e → R o (Os (os_script o) (os_trace o ++ [e]))) →
  (∀ p len ty body, outgoing len ty body →
     follows (at_os R) (at_os_fault E) (send_message p len ty body)) →
  WorldRel (at_os R) (at_os_fault E).
Proof.
  intros Hr Ht Hf Hs Ha He Hm. unfold at_os, at_os_fault. split; simpl; eauto.
Qed.
Lemma FrameBlind_at_os (R : os_rel) :
  (∀ o, R o o) → (∀ o e, no_send e → R o (Os (os_script o) (os_trace o ++ [e]))) →
  FrameBlind (at_os R).
Proof. split; intros; [by apply H0|apply H]. Qed.
#[export] Instance TxRel_at_os R `{!WorldRel (at_os R) E} : TxRel (at_os R).
Proof. split; intros; exact (wr_refl (R := at_os R) (E := E) w). Qed.
#[export] Instance GrowRel_at_os R `{!WorldRel (at_os R) E} : GrowRel (at_os R).
Proof. intros w p nd. exact (wr_refl (R := at_os R) (E := E) w). Qed.

(** A relation on everything else, of the runs that return. *)
Definition any_fault : world_fault := λ _ _ _, True.

Lemma WorldRel_quiet (R : world_rel) :
  (∀ w, R w w) → (∀ w1 w2 w3, R w1 w2 → R w2 w3 → R w1 w3) → (∀ w o, R w (set_os o w)) →
  (∀ w p nd f, keeps_socket f → w_nodes w !! p = Some nd → R w (on_nodes (<[p := f nd]>) w)) →
  (∀ w p, R w (on_nodes (delete p) w)) →
  (∀ w ps nx, R w (World (w_os w) (w_nodes w) ps nx (w_medium w))) →
  (∀ w f, keeps_txList f → R w (on_medium f w)) → WorldRel R any_fault.
Proof.
  intros Hr Ht Ho Hn Hd Hp Hm. split; unfold any_fault; eauto.
  - intros p len ty body _ w. unfold send_message. wgo.
    destruct (w_nodes w !! p) as [nd|]; [|done]. wgo. destruct (negb _); wgo; [|done].
    destruct (seal _ _); wgo; [|done]. rewrite wp_lift_os.
    unfold wp. destruct (Socket.sendMsg _ _ _) as [[n|f] o]; [apply Ho|done].
Qed.

Lemma FrameBlind_quiet (R : world_rel) :
  (∀ w o, R w (set_os o w)) → (∀ w f, keeps_txList f → R w (on_medium f w)) → FrameBlind R.
Proof. split; intros; auto. Qed.

Create HintDb follow discriminated.

Section Follow.
Context {R : world_rel} {E : world_fault} {WR : WorldRel R E}.
Notation follows := (follows R E).
Notation follows_os := (follows_os R E).

(** ** Composition *)

(** A computation that changes nothing. *)
Lemma follows_wp {A} (m : M world A) :
  (∀ w, wp (λ f w', f ≠ NoFuel ∧ w' = w) m (λ _ w', R w w') w) → follows m.
Proof using WR.
  intros Hm w. eapply wp_mono_E; [apply Hm|].
  intros f w' [Hf ->]. by apply wr_stop.
Qed.

Lemma follows_ret {A} (a : A) : follows (mret a).
Proof using WR. apply follows_wp. intros w. wp_simpl. apply (wr_refl (E := E)). Qed.
Lemma follows_fail {A} f : f ≠ NoFuel → follows (failw f : M world A).
Proof using WR. intros Hf. apply follows_wp. intros w. by wp_simpl. Qed.
Lemma follows_gets {A} (f : world → A) : follows (gets f).
Proof using WR. apply follows_wp. intros w. wp_simpl. apply (wr_refl (E := E)). Qed.
Lemma follows_some_or {A} k (o : option A) : follows (some_or k o).
Proof using WR. destruct o; [apply follows_ret|by apply follows_fail]. Qed.
Lemma follows_assert b msg : follows (cassert b msg).
Proof using WR. destruct b; [apply follows_ret|by apply follows_fail]. Qed.
Lemma follows_upd_medium f : keeps_txList f → keeps_stats f → follows (upd_medium f).
Proof using WR. intros Hf Hs w. wp_simpl. by apply (wr_medium (E := E)). Qed.
Lemma follows_get_medium {A} (f : medium → A) : follows (get_medium f).
Proof using WR. apply follows_gets. Qed.
Lemma follows_get_node p : follows (get_node p).
Proof using WR.
  apply follows_wp. intros w. rewrite wp_get_node. case_match; [apply (wr_refl (E := E))|done].
Qed.
Lemma follows_upd_node p f : keeps_socket f → follows (upd_node p f).
Proof using WR.
  intros Hf. apply follows_wp. intros w. rewrite wp_upd_node. case_match; [|done].
  by apply (wr_node (E := E)).
Qed.
Lemma follows_get_pkt p : follows (get_pkt p).
Proof using WR.
  apply follows_wp. intros w. rewrite wp_get_pkt. case_match; [apply (wr_refl (E := E))|done].
Qed.
Lemma follows_upd_pkt p f : follows (upd_pkt p f).
Proof using WR.
  apply follows_wp. intros w. rewrite wp_upd_pkt. case_match; [apply (wr_pkts (E := E))|done].
Qed.
Lemma follows_delete_pkt p : follows (delete_pkt p).
Proof using WR.
  apply follows_wp. intros w. rewrite wp_delete_pkt. case_match; [apply (wr_pkts (E := E))|done].
Qed.
Lemma follows_new_pkt pk : follows (new_pkt pk).
Proof using WR. intros w. wp_simpl. apply (wr_new_pkt (E := E)). Qed.
Lemma follows_delete_key p : follows (modify (on_nodes (delete p))).
Proof using WR. intros w. wp_simpl. apply (wr_delete (E := E)). Qed.
Lemma follows_mutex_lock : follows mutex_lock.
Proof using WR.
  apply follows_wp. intros w. rewrite wp_mutex_lock. destruct (pm_regListMapMutex _); [done|].
  by apply (wr_medium (E := E)).
Qed.
Lemma follows_mutex_unlock : follows mutex_unlock.
Proof using WR. by apply follows_upd_medium. Qed.

(** What [f] does may depend on what [m] leaves. *)
Lemma follows_bind_post {A B} (m : M world A) (f : A → M world B) (P : A → world → Prop) w :
  wp (λ f w', E f w w') m (λ _ w', R w w') w →
  wp (λ _ _, True) m P w →
  (∀ a w1, P a w1 → wp (λ f w', E f w1 w') (f a) (λ _ w', R w1 w') w1) →
  wp (λ f w', E f w w') (m ≫= f) (λ _ w', R w w') w.
Proof using WR.
  intros Hm HP Hf. wp_simpl. eapply wp_mono; [eapply wp_and; [exact Hm|exact HP]|].
  intros a w1 [H1 H2]. cbn beta in H1.
  eapply wp_mono_E; [eapply wp_mono; [by apply Hf|]|].
  - intros b w2 H3. by eapply (wr_trans (E := E)).
  - intros e w2 H3. by eapply wr_fault.
Qed.
Lemma follows_bind {A B} (m : M world A) (f : A → M world B) :
  follows m → (∀ a, follows (f a)) → follows (m ≫= f).
Proof using WR.
  intros Hm Hf w. apply (follows_bind_post _ _ (λ _ _, True)); [apply Hm| |intros a w1 _; apply Hf].
  unfold wp. by destruct (m w) as [[]].
Qed.
Lemma follows_whenb b m : follows m → follows (whenb b m).
Proof using WR. destruct b; [done|]. intros _. apply follows_ret. Qed.
Lemma follows_lift_os {A} (m : M os A) : follows_os m → follows (lift_os m).
Proof using. intros Hm w. rewrite wp_lift_os. apply Hm. Qed.

Lemma set_os_id w : set_os (w_os w) w = w.
Proof using. by destruct w. Qed.
Lemma follows_os_ret {A} (a : A) : follows_os (mret a).
Proof using WR. intros w. rewrite wp_ret, set_os_id. apply (wr_refl (E := E)). Qed.
Lemma follows_os_fail {A} f : f ≠ NoFuel → follows_os (failw f : M os A).
Proof using WR. intros Hf w. rewrite wp_fail, set_os_id. by apply wr_stop. Qed.
Lemma follows_os_assert b msg : follows_os (cassert b msg).
Proof using WR. destruct b; [apply follows_os_ret|by apply follows_os_fail]. Qed.
Lemma follows_os_ask : follows_os ask.
Proof using WR.
  intros w. rewrite wp_ask. destruct (os_script (w_os w)) eqn:Hs.
  - rewrite set_os_id. by apply wr_stop.
  - by eapply (wr_ask (E := E)).
Qed.
Lemma follows_os_emit e : no_frame e → follows_os (emit e).
Proof using WR. intros He w. rewrite wp_emit. by apply (wr_emit (E := E)). Qed.
Lemma follows_os_bind {A B} (m : M os A) (f : A → M os B) :
  follows_os m → (∀ a, follows_os (f a)) → follows_os (m ≫= f).
Proof using WR.
  intros Hm Hf w. wp_simpl. eapply wp_mono; [apply Hm|]. intros a o1 H1. cbn beta in H1.
  eapply wp_mono_E; [eapply wp_mono; [apply (Hf a (set_os o1 w))|]|].
  - intros b o2 H2. by eapply (wr_trans (E := E)).
  - intros e o2 H2. by eapply wr_fault.
Qed.
End Follow.

#[export] Hint Resolve follows_ret follows_gets follows_some_or follows_assert follows_whenb
  follows_lift_os follows_upd_medium follows_get_medium follows_get_node follows_upd_node
  follows_get_pkt follows_upd_pkt follows_delete_pkt follows_new_pkt follows_delete_key
  follows_mutex_lock follows_mutex_unlock follows_os_ret follows_os_assert follows_os_ask : follow.
#[export] Hint Extern 1 (keeps_socket _) => intros ?; reflexivity : follow.
#[export] Hint Extern 1 (keeps_txList _) => intros ?; reflexivity : follow.
#[export] Hint Extern 1 (keeps_stats _) => intros ?; split; reflexivity : follow.
#[export] Hint Extern 1 (follows _ _ (send_message _ _ _ _)) => apply wr_send; by constructor : follow.
#[export] Hint Extern 1 (follows_os _ _ (emit _)) => apply follows_os_emit; exact I : follow.

(** Take a computation apart. *)
Ltac follow :=
  repeat first
    [ progress intros
    | solve [auto with follow nocore]
    | match goal with H : _ |- _ => apply H end
    | apply follows_fail; discriminate | apply follows_os_fail; discriminate
    | apply follows_bind | apply follows_os_bind | apply follows_whenb | apply follows_lift_os
    | progress cbn beta zeta
    | match goal with
      | |- follows _ _ (if ?b then _ else _) => destruct b
      | |- follows_os _ _ (if ?b then _ else _) => destruct b
      | |- follows _ _ (match ?x with _ => _ end) => destruct x
      | |- follows_os _ _ (match ?x with _ => _ end) => destruct x
      end ].

(** Unfolding the operations, one group at a time. *)
Ltac os_ops := unfold Socket.destroy, NodeTimer.stop, NodeTimer.expired, NodeTimer.start, NodeTimer.start_ms,
  NodeTimer.arm, sys_recv, sys_malloc, timer_create, timer_settime, timer_gettime, timer_delete,
  sys_close, epoll_ctl_add, clock_gettime, epoll_wait, fcntl_get, fcntl_setfl, fcntl_setfd.
Ltac node_ops := unfold getSocketFd, getMedium, getTxPacket, setTxPacket,
  startRegistrationTimer, stopRegistrationTimer, startTxTimer, stopTxTimer, hasRegTimerExpired,
  hasTxTimerExpired, isIdle, addNodeToCcaList, registerNode, erase_regList,
  erase_nodeHash, getNodeId, on_curState, print_string, stopping.

(** A transmission that has ended has been given one of two results. *)
Lemma tx_timer_result p nd k w :
  w_nodes w !! p = Some nd → dn_txPkt nd = Some k →
  wp (λ _ _, True) (handleTxTimerExpired p) (λ _ w', ∃ pk, w_pkts w' !! k = Some pk ∧
    (txDoneResult pk = TX_DONE_OK ∨ txDoneResult pk = TX_DONE_COLLIDED)) w.
Proof.
  intros Hp Hk. unfold handleTxTimerExpired, on_curState, Registering.handleTxTimerExpired,
    Active.handleTxTimerExpired, Tx.handleTxTimerExpired, getTxPacket, stopTxTimer. wgo.
  destruct (dn_curState nd); wgo; try done. rewrite Hk. wgo.
  destruct (w_pkts w !! k) as [pk|] eqn:Hpk; [|done]. wgo.
  rewrite wp_lift_os. unfold wp at 1. destruct (NodeTimer.stop _ _) as [[t|f] o]; [|done]. wgo.
  destruct (collision pk); wgo; eexists; (split; [done|]); [by right|by left].
Qed.

(** What the collision check of a medium owes to these theorems. *)
Class FollowsCheck (C : CollisionCheck) :=
  follows_check R E `{!WorldRel R E} : follows R E txCollisionCheck.

#[export] Instance follows_powerline : FollowsCheck powerline.
Proof.
  intros R E WR. unfold txCollisionCheck, powerline, PowerlineMedium.txCollisionCheck. follow.
  induction a as [|p l IH]; simpl; node_ops; follow.
Qed.
#[export] Instance follows_wireless : FollowsCheck wireless.
Proof.
  intros R E WR. unfold txCollisionCheck, wireless, WirelessMedium.txCollisionCheck. follow.
Qed.

(** The Tx list of before. *)
Definition same_txList : world_rel := λ w w', pm_txList (w_medium w') = pm_txList (w_medium w).
#[export] Instance same_txList_blind : FrameBlind same_txList.
Proof. apply FrameBlind_quiet; [done|]. intros w f Hf. apply Hf. Qed.
#[export] Instance same_txList_rel : WorldRel same_txList any_fault.
Proof.
  unfold same_txList. apply WorldRel_quiet; simpl; try done. congruence.
Qed.

Section Operations.
Context {R : world_rel} {E : world_fault} {WR : WorldRel R E} {TR : TxRel R}.
Notation follows := (follows R E).

(** ** The node *)

Lemma follows_delete_node p : follows (delete_node p).
Proof using WR. unfold delete_node. node_ops. os_ops. unfold whenb. follow. Qed.
#[local] Hint Resolve follows_delete_node : follow.
Lemma follows_deregisterNode p : follows (deregisterNode p).
Proof using WR. unfold deregisterNode. node_ops. follow. Qed.
#[local] Hint Resolve follows_deregisterNode : follow.

Lemma follows_handleRegistrationConfirm p buf : follows (handleRegistrationConfirm p buf).
Proof using WR.
  unfold handleRegistrationConfirm, Registering.handleRegistrationConfirm,
    Active.handleRegistrationConfirm, Tx.handleRegistrationConfirm. node_ops. os_ops. follow.
Qed.
Lemma follows_handleDeregistrationRequest p : follows (handleDeregistrationRequest p).
Proof using WR.
  unfold handleDeregistrationRequest, sendDeregistrationConfirm,
    Registering.handleDeregistrationRequest, Active.handleDeregistrationRequest,
    Tx.handleDeregistrationRequest. node_ops. follow.
Qed.
Lemma follows_handleCcaRequest p : follows (handleCcaRequest p).
Proof using WR.
  unfold handleCcaRequest, Registering.handleCcaRequest, Active.handleCcaRequest,
    Tx.handleCcaRequest, IDeviceNodeState.handleCcaRequest. node_ops. follow.
Qed.
Lemma follows_addNodeToTxList p : follows (addNodeToTxList p).
Proof using WR TR.
  unfold addNodeToTxList. intros w.
  apply (follows_bind_post _ _ (λ _ w1, w1 = w ∧ is_Some (w_nodes w !! p))).
  { unfold getNodeId. follow. }
  { unfold getNodeId. wgo. destruct (w_nodes w !! p); wgo; by eauto. }
  intros _ w1 [-> Hp]. wp_simpl. by apply tr_in.
Qed.
#[local] Hint Resolve follows_addNodeToTxList : follow.
Lemma follows_handleDataIndication p buf : follows (handleDataIndication p buf).
Proof using WR TR.
  unfold handleDataIndication, Registering.handleTxRequest, Active.handleTxRequest,
    Tx.handleTxRequest. node_ops. os_ops. follow.
Qed.
#[local] Hint Resolve follows_handleRegistrationConfirm follows_handleDeregistrationRequest
  follows_handleCcaRequest follows_handleDataIndication : follow.

Lemma follows_readMsg p : follows (readMsg p).
Proof using WR TR.
  unfold readMsg, recv_body, process_msg, dispatch, count_failed_read. os_ops. follow.
Qed.
Lemma follows_handleRegTimerExpired p : follows (handleRegTimerExpired p).
Proof using WR.
  unfold handleRegTimerExpired, Registering.handleRegTimerExpired, Active.handleRegTimerExpired,
    Tx.handleRegTimerExpired. node_ops. follow.
Qed.
Lemma follows_handleTxTimerExpired p : follows (handleTxTimerExpired p).
Proof using WR.
  unfold handleTxTimerExpired, Registering.handleTxTimerExpired, Active.handleTxTimerExpired,
    Tx.handleTxTimerExpired. node_ops. os_ops. follow.
Qed.
#[local] Hint Resolve follows_readMsg follows_handleRegTimerExpired : follow.

Lemma follows_join `{!GrowRel R} p socket fd : follows (join p socket fd).
Proof using WR.
  assert (follows (modify (on_nodes (<[p := DeviceNode_pimpl socket fd]>)))).
  { intros w. wp_simpl. apply wr_new. }
  unfold join, new_node, Registering.make, sendRegistrationRequest, addNode, addNode_announce, addNode_insert, setMedium,
    Socket.setCloseOnExec. node_ops. os_ops. follow.
Qed.

(** ** The medium *)

Lemma follows_processCcaList : follows processCcaList.
Proof using WR.
  unfold processCcaList. follow. induction a as [|node l IH]; simpl; [follow|].
  unfold sendCcaConfirm. node_ops. follow.
Qed.

Lemma follows_poll_loop evs : follows (poll_loop evs).
Proof using WR TR. induction evs as [|ev evs IH]; simpl; node_ops; follow. Qed.

Lemma follows_regTimeout_loop l : follows (regTimeout_loop l).
Proof using WR. induction l as [|[k p] l IH]; simpl; node_ops; os_ops; follow. Qed.

#[export] Instance result_blind `{!FrameBlind R} : ResultRel R E.
Proof using WR.
  intros pkt r _.
  assert (∀ e, no_send e → follows_os R E (emit e)).
  { intros e He w. rewrite wp_emit. by apply fb_emit. }
  assert (∀ f, keeps_txList f → follows (upd_medium f)).
  { intros f Hf w. wp_simpl. by apply fb_medium. }
  unfold tx_result, txPacket, count_ok, count_collided, count_failed.
  follow; by intros ? ?.
Qed.
#[local] Hint Resolve follows_regTimeout_loop : follow.
Context {RR : ResultRel R E}.

Lemma follows_tx_done p : follows (tx_done p).
Proof using WR RR.
  intros w. unfold tx_done.
  apply (follows_bind_post _ _ (λ o w1, w1 = w ∧
    ∃ nd, w_nodes w !! p = Some nd ∧ dn_txPkt nd = o)).
  { unfold getTxPacket. follow. }
  { unfold getTxPacket. wgo. destruct (w_nodes w !! p) eqn:Hp; [|done]. wgo. eauto. }
  intros [k|] w1 [-> (nd & Hp & Hk)]; [|by apply follows_fail].
  apply (follows_bind_post _ _ (λ _ w', ∃ pk, w_pkts w' !! k = Some pk ∧
    (txDoneResult pk = TX_DONE_OK ∨ txDoneResult pk = TX_DONE_COLLIDED)));
    [apply follows_handleTxTimerExpired|by eapply tx_timer_result|].
  intros _ w1 (pk & Hpk & Hr).
  apply (follows_bind_post _ _ (λ pk' _, pk' = pk)); [follow|by wgo|].
  intros ? w2 ->. unfold sendTxDoneIndication. node_ops.
  assert (follows (send_message p TX_DONE_IND_SIZE MSG_TYPE_TX_DONE_IND
    [to_unsigned 8 (txDoneResult pk)])) by (apply wr_send; by constructor).
  assert (follows (tx_result k (txDoneResult pk))) by by apply follows_result.
  match goal with |- wp _ ?m _ _ => enough (follows m) as Hm by apply Hm end. follow.
Qed.
End Operations.

#[export] Hint Resolve follows_delete_node follows_deregisterNode follows_handleRegistrationConfirm
  follows_handleDeregistrationRequest follows_handleCcaRequest follows_handleDataIndication
  follows_readMsg follows_handleRegTimerExpired follows_handleTxTimerExpired follows_join
  follows_processCcaList follows_poll_loop follows_regTimeout_loop follows_tx_done result_blind : follow.

Section Thread.
Context {R : world_rel} {E : world_fault} {WR : WorldRel R E} {TR : TxRel R} {RR : ResultRel R E}.
Notation follows := (follows R E).

Lemma follows_processTxList_loop kept l w :
  pm_txList (w_medium w) = kept ++ l →
  wp (λ f w', E f w w') (processTxList_loop kept l) (λ _ w', R w w') w.
Proof using WR TR RR.
  revert kept w. induction l as [|node l IH]; intros kept w Hl; simpl.
  { apply follows_ret. }
  apply (follows_bind_post _ _ (λ _ w1, pm_txList (w_medium w1) = kept ++ node :: l)).
  { node_ops. os_ops. follow. }
  { unfold hasTxTimerExpired. wgo. destruct (w_nodes w !! node); [|done].
    rewrite wp_lift_os. unfold wp. by destruct (NodeTimer.expired _ _) as [[]]. }
  intros [|] w1 H1; [|apply IH; by rewrite H1, <-app_assoc].
  apply (follows_bind_post _ _ (λ _ w2, pm_txList (w_medium w2) = kept ++ node :: l)).
  { apply follows_tx_done. }
  { eapply wp_mono; [apply (follows_tx_done (WR := same_txList_rel))|]. intros ? w2 H2.
    exact (eq_trans H2 H1). }
  intros _ w2 H2.
  apply (follows_bind_post _ _ (λ _ w3, w3 = w2)).
  { unfold getNodeId. follow. }
  { unfold getNodeId. wgo. by destruct (w_nodes w2 !! node). }
  intros _ ? ->. apply (follows_bind_post _ _ (λ _ w3, pm_txList (w_medium w3) = kept ++ l)).
  - wp_simpl. apply tr_out. rewrite H2. intros x. rewrite !elem_of_app, elem_of_cons. tauto.
  - by wp_simpl.
  - intros _ w4 H4. by apply IH.
Qed.
Lemma follows_processTxList : follows processTxList.
Proof using WR TR RR.
  unfold processTxList. intros w. apply (follows_bind_post _ _ (λ l w1, w1 = w ∧ pm_txList (w_medium w) = l)).
  - follow.
  - by wp_simpl.
  - intros l w1 [-> Hl]. by apply follows_processTxList_loop.
Qed.

(** ** The thread

    Its loops end for want of fuel only in the model, so their lemmas are for
    relations that allow it; Fuel shows that the fuel is enough. *)
#[local] Hint Resolve follows_processTxList : follow.

Class Unfuelled (E : world_fault) := wr_nofuel w : E NoFuel w w.
Context {NF : Unfuelled E}.

Lemma follows_nofuel {A} : follows (failw NoFuel : M world A).
Proof using NF. intros w. wp_simpl. apply wr_nofuel. Qed.
#[local] Hint Resolve follows_nofuel : follow.
Lemma follows_fuel {A} (m : nat → M world A) :
  (∀ n, follows (m n)) → follows (λ w, m (S (length (os_script (w_os w)))) w).
Proof using. intros Hm w. apply Hm. Qed.

Lemma follows_interval waitms : follows (interval waitms).
Proof using WR TR NF.
  unfold interval. os_ops. follow. apply (follows_fuel (λ n, interval_loop n waitms)).
  intros n. revert waitms. induction n as [|n IH]; intros waitms; simpl; [follow|].
  unfold processPollerEvents. os_ops. follow.
Qed.
#[local] Hint Resolve follows_interval : follow.

Context `{HO : HashOrder} `{C : CollisionCheck}.

Lemma follows_checkNodeRegistrationTimeout : follows checkNodeRegistrationTimeout.
Proof using WR. unfold checkNodeRegistrationTimeout. follow. Qed.

Context `{FC : !FollowsCheck C}.
#[local] Hint Resolve follows_checkNodeRegistrationTimeout follows_check : follow.

Lemma follows_run_loop n : follows (run_loop n).
Proof using All.
  assert (∀ n, follows (tx_loop n)) as Htx.
  { intros k. induction k as [|k IH]; simpl; [follow|]. unfold tx_round. node_ops. follow. }
  induction n as [|n IH]; simpl; [follow|].
  unfold run_body, idle_block. node_ops. follow. by apply (follows_fuel tx_loop).
Qed.

Lemma follows_run : follows run.
Proof using All. unfold run. os_ops. follow. apply (follows_fuel run_loop), follows_run_loop. Qed.
End Thread.

#[export] Hint Resolve follows_processTxList follows_interval follows_checkNodeRegistrationTimeout
  follows_check : follow.
