(* ===== verification/Fuel.v ===== *)
(** Every operation takes its answers from the front of the script and never adds
    one, and [interval] takes at least one: so a loop that waits in every round
    ends, with a fuel of one more than the answers there are. *)

From Stdlib Require Import ZArith Lia.
From stdpp Require Import base tactics list gmap numbers option strings.
From S2P Require Import Prelude Bytes TimeUtils Checksum Interface Os SocketIO State.
From S2P Require Import DeviceNode NodeStates PhysicalMedium Acceptor Invariant Preserve Follow.

(** The answers left. *)
Definition answers (w : world) : nat := length (os_script (w_os w)).

(** A fault that is not for want of fuel. *)
Definition fuelled {S} (f : fault) (_ : S) : Prop := f ≠ NoFuel.

(** No more answers after than before, and enough fuel. *)
Definition fewer : world_rel :=
  at_os (λ o o', (length (os_script o') ≤ length (os_script o))%nat).
Definition has_fuel : world_fault := at_os_fault (λ f _ _, f ≠ NoFuel).

(** [m] has the fuel it needs, and leaves no more answers than it finds. *)
Notation frugal := (follows fewer has_fuel).

(** The same with at least one answer taken. *)
Definition spends {A} (m : M world A) : Prop :=
  ∀ w, wp fuelled m (λ _ w', (answers w' < answers w)%nat) w.

Lemma frugal_wp {A} (m : M world A) w :
  frugal m → wp fuelled m (λ _ w', (answers w' ≤ answers w)%nat) w.
Proof. intros Hm. apply Hm. Qed.

Lemma spends_bind {A B} (m : M world A) (f : A → M world B) :
  spends m → (∀ a, frugal (f a)) → spends (m ≫= f).
Proof.
  intros Hm Hf w. wp_simpl. eapply wp_mono; [apply Hm|]. intros a w1 H1.
  eapply wp_mono; [apply frugal_wp, Hf|]. intros b w2 H2. cbn beta in *. lia.
Qed.
Lemma frugal_bind_spends {A B} (m : M world A) (f : A → M world B) :
  frugal m → (∀ a, spends (f a)) → spends (m ≫= f).
Proof.
  intros Hm Hf w. wp_simpl. eapply wp_mono; [by apply frugal_wp|]. intros a w1 H1.
  eapply wp_mono; [apply Hf|]. intros b w2 H2. cbn beta in *. lia.
Qed.

(** ** Every operation *)

Lemma sendMsg_loop_answers n fd msg l i o :
  wp (λ _ _, True) (Socket.sendMsg_loop n fd msg l i)
    (λ _ o', (length (os_script o') ≤ length (os_script o))%nat) o.
Proof.
  revert msg l i o. induction n as [|n IH]; intros msg l i o; simpl; [done|].
  unfold sys_send. wp_simpl. destruct (os_script o) as [|a sc]; [done|]. wp_simpl.
  repeat case_match; wp_simpl; simpl; try lia.
  eapply wp_mono; [apply IH|]. intros ? o'. simpl. lia.
Qed.
Lemma frugal_sendMsg fd msg o :
  wp fuelled (Socket.sendMsg fd msg)
    (λ _ o', (length (os_script o') ≤ length (os_script o))%nat) o.
Proof.
  pose proof (sendMsg_loop_answers (S (length (os_script o))) fd msg (length msg) 0 o) as H1.
  pose proof (sendMsg_loop_spec (S (length (os_script o))) fd msg 0 o ltac:(lia)) as H2.
  unfold wp in *. unfold Socket.sendMsg. destruct (Socket.sendMsg_loop _ _ _ _ _ o) as [[n|f] o'].
  - exact H1.
  - by destruct H2 as [-> _].
Qed.

#[export] Instance fewer_rel : WorldRel fewer has_fuel.
Proof.
  apply WorldRel_at_os; try (intros; simpl; lia); try done.
  - intros o a sc ->. simpl. lia.
  - intros p len ty body _ w. unfold send_message. wp_simpl.
    destruct (w_nodes w !! p) as [nd|]; [|done]. wp_simpl.
    destruct (negb _); wp_simpl; [|done]. destruct (seal _ _); wp_simpl; [|done].
    rewrite wp_lift_os. apply frugal_sendMsg.
Qed.
#[export] Instance fewer_blind : FrameBlind fewer.
Proof. by apply FrameBlind_at_os. Qed.
#[export] Instance fewer_tx : TxRel fewer.
Proof. exact (TxRel_at_os (E := has_fuel) _). Qed.
#[export] Hint Resolve fewer_rel fewer_tx fewer_blind : follow.

(** Waiting takes an answer each time round. *)
Lemma interval_loop_fuel fuel waitms w :
  (answers w < fuel)%nat →
  wp fuelled (interval_loop fuel waitms) (λ _ w', (answers w' ≤ answers w)%nat) w.
Proof.
  revert waitms w. induction fuel as [|fuel IH]; intros waitms w Hf; [lia|]. simpl.
  unfold epoll_wait. wp_simpl. rewrite wp_lift_os. wp_simpl. cbn. unfold answers in *.
  destruct (os_script (w_os w)) as [|a sc] eqn:Hs; [done|]. wp_simpl. simpl in Hf.
  set (rv := if a_rv a <? 0 then _ else _).
  destruct ((rv =? -1) && _); [done|]. destruct (negb (rv =? -1) && _).
  - unfold processPollerEvents.
    eapply wp_mono; [apply frugal_wp; follow|].
    intros ? w'. unfold answers. simpl. lia.
  - wp_simpl. rewrite wp_lift_os. unfold timer_gettime. wp_simpl. cbn.
    destruct sc as [|a2 sc]; [done|]. wp_simpl. destruct (a_rv a2 =? -1); [done|].
    destruct ((0 <? rv) && _); [|unfold answers; wp_simpl; simpl; lia].
    eapply wp_mono; [apply IH; simpl in *; lia|]. intros ? w'. simpl. lia.
Qed.

Lemma spends_interval waitms : spends (interval waitms).
Proof.
  unfold interval. do 2 (apply frugal_bind_spends; [follow|intros ?]).
  apply frugal_bind_spends; [follow|intros _]. intros w. unfold timer_settime. wp_simpl.
  rewrite wp_lift_os. wp_simpl. cbn [w_os on_medium set_os os_script os_trace]. unfold answers.
  destruct (os_script (w_os w)) as [|b sc] eqn:Hs; [done|]. wp_simpl.
  destruct (a_rv b =? -1); [done|].
  eapply wp_mono; [apply interval_loop_fuel; unfold answers; simpl; lia|].
  intros ? w'. unfold answers. simpl. lia.
Qed.

Section RunFuel.
Context `{HO : HashOrder} {C : CollisionCheck} `{FC : !FollowsCheck C}.

Lemma spends_tx_round : spends tx_round.
Proof using FC.
  unfold tx_round. apply spends_bind; [apply spends_interval|].
  node_ops. follow.
Qed.

Lemma tx_loop_fuel fuel w :
  (answers w < fuel)%nat →
  wp fuelled (tx_loop fuel) (λ _ w', (answers w' ≤ answers w)%nat) w.
Proof using FC.
  revert w. induction fuel as [|fuel IH]; intros w Hf; [lia|]. simpl. wp_simpl.
  destruct (pm_txList (w_medium w)); wp_simpl; [lia|].
  eapply wp_mono; [apply spends_tx_round|]. intros go w1 H1. cbn beta in H1.
  destruct go; wp_simpl; [|lia].
  eapply wp_mono; [apply IH; lia|]. intros ? w2. cbn beta. lia.
Qed.

Lemma spends_idle_block : spends idle_block.
Proof using.
  unfold idle_block. apply spends_bind; [apply spends_interval|]. node_ops. follow.
Qed.
End RunFuel.
