(* ===== verification/MediumSafe.v ===== *)
(** The thread of a medium keeps the invariant.

    Its faults are benign ones, or the use of a node that was deleted while its
    pointer was on the Tx list ([excused]); a medium whose Tx list is clean does
    not have the second kind, and only a node that leaves while it transmits
    makes it unclean. *)

From Stdlib Require Import ZArith Lia.
From stdpp Require Import base tactics list gmap numbers option strings.
From S2P Require Import Prelude Bytes TimeUtils Checksum Interface Os SocketIO State Spec.
From S2P Require Import DeviceNode NodeStates PhysicalMedium Invariant Preserve Follow Fuel.

(** ** The end of a transmission *)

Lemma fromNode_txPacket pk pk1 pk2 :
  NetSimPkt.setRSSI 127 pk = Some pk1 → NetSimPkt.generateChecksum pk1 = Some pk2 →
  fromNode pk2 = fromNode pk.
Proof.
  unfold NetSimPkt.setRSSI, NetSimPkt.generateChecksum.
  destruct (store _ _ _); [|done]. intros [= <-]. cbn.
  destruct (generate_checksum _); [|done]. cbn. destruct (store _ _ _); [|done].
  by intros [= <-].
Qed.

(** What the work on the packet [k] of an ending transmission changes. *)
Definition tx_work (k : nat) (w w' : world) : Prop :=
  w_nodes w' = w_nodes w ∧ (∃ pk, w_pkts w' = <[k := pk]> (w_pkts w)) ∧
  w_next_pkt w' = w_next_pkt w ∧ ∃ a b c, w_medium w' = set_pm_stats a b c (w_medium w).

Lemma wp_txPacket k pk w :
  w_pkts w !! k = Some pk →
  bwp (txPacket k) (λ _ w', w_nodes w' = w_nodes w ∧ (∃ pk, w_pkts w' = <[k := pk]> (w_pkts w)) ∧
    w_next_pkt w' = w_next_pkt w ∧ w_medium w' = w_medium w) w.
Proof.
  intros Hk. unfold txPacket. wgo.
  destruct (NetSimPkt.setRSSI 127 pk) as [pk1|]; [|done]. wgo.
  destruct (NetSimPkt.generateChecksum pk1) as [pk2|]; [|done]. wgo.
  wlift Ha. wgo. destruct (frame_of pk2); [|done]. wlift Hb. wcbn. eauto.
Qed.

Lemma wp_tx_result k pk r w :
  w_pkts w !! k = Some pk → bwp (tx_result k r) (λ _ w', tx_work k w w') w.
Proof.
  intros Hk. unfold tx_result, tx_work.
  assert (Hid : w_pkts w = <[k := pk]> (w_pkts w)) by by rewrite insert_id.
  destruct (r =? TX_DONE_OK).
  - wgo. eapply wp_mono; [by eapply wp_txPacket|]. intros _ w' (Hn & Hpk & Hx & Hm).
    unfold count_ok. wgo. destruct (checked_int _); [|done]. wgo. rewrite Hm. eauto 8.
  - destruct (r =? TX_DONE_COLLIDED); [|destruct (r =? TX_DONE_FAILURE); [|done]];
      unfold count_collided, count_failed; wgo; (destruct (checked_int _); [|done]); wgo; eauto 8.
Qed.

Lemma InvS_txstate {ns ps nx reg hash cca tx} p nd :
  InvS ns ps nx reg hash cca tx → ns !! p = Some nd → p ∈ tx →
  dn_curState nd = TxState ∧ started (dn_txTimer nd) = true ∧
  ∃ k pk, dn_txPkt nd = Some k ∧ ps !! k = Some pk ∧ fromNode pk = p.
Proof.
  intros I Hp Htx. pose proof (i_node _ _ _ _ _ _ _ I p nd Hp) as [_ _ _ Nt _ Nk].
  destruct (dn_curState nd); [by destruct Nk..|]. destruct Nk as [_ Nk].
  by rewrite Nt.
Qed.

(** The result a packet gets when its timer fires. *)
Definition with_result (pk : NetSimPacket) : NetSimPacket :=
  set_txDoneResult (if collision pk then TX_DONE_COLLIDED else TX_DONE_OK) pk.

Definition tx_ended (nd : device_node) : device_node :=
  set_dn_curState ActiveState (set_dn_txTimer (set_started false (dn_txTimer nd)) nd).

Lemma wp_handleTxTimerExpired p nd k pk Q w :
  w_nodes w !! p = Some nd → dn_curState nd = TxState → dn_txPkt nd = Some k →
  w_pkts w !! k = Some pk →
  (∀ o, Q tt (on_nodes (<[p := tx_ended nd]>) (set_os o (on_pkts (<[k := with_result pk]>) w)))) →
  bwp (handleTxTimerExpired p) Q w.
Proof.
  intros Hp Hs Hk Hpk HQ. unfold handleTxTimerExpired, on_curState. wgo. rewrite Hs.
  unfold Tx.handleTxTimerExpired, getTxPacket, stopTxTimer. wgo. rewrite Hk. wgo.
  wlift Ht. cbn in Ht. subst a. wgo.
  unfold with_result, tx_ended, on_nodes, on_pkts, set_os in HQ. cbn in HQ.
  destruct (collision pk); wgo; unfold on_nodes, on_pkts, set_os; cbn; rewrite ?insert_insert_eq; apply HQ.
Qed.

(** The timer of [p] has fired: everything up to the next node of the list. *)
Lemma wp_tx_done p nd kept rest w :
  Inv w → w_nodes w !! p = Some nd → pm_txList (w_medium w) = kept ++ p :: rest →
  bwp (tx_done p;; getNodeId p;; upd_medium (set_pm_txList (kept ++ rest)))
    (λ _ w', Inv w' ∧ pm_txList (w_medium w') = kept ++ rest ∧
      pm_state (w_medium w') = pm_state (w_medium w) ∧
      pm_ccaList (w_medium w') = pm_ccaList (w_medium w) ∧
      dom (w_nodes w') = dom (w_nodes w) ∧ (Clean w → Clean w') ∧
      spec_step (EvEndTx p) (phases w) (phases w')) w.
Proof.
  intros [I Hm] Hp Htx.
  pose proof (i_tx _ _ _ _ _ _ _ I) as Hnd. rewrite Htx in Hnd.
  assert (Hin : p ∈ pm_txList (w_medium w)) by (rewrite Htx; set_solver).
  destruct (InvS_txstate p nd I Hp Hin) as (Hs & Hst & k & pk & Hk & Hpk & Hf).
  unfold tx_done, getTxPacket. wgo. rewrite Hk. wgo.
  eapply wp_handleTxTimerExpired; [done..|]. intros o. wgo.
  unfold sendTxDoneIndication. wgo.
  eapply wp_send_message; [apply lookup_insert_eq|]. intros _ o'. wgo.
  eapply wp_mono; [eapply wp_tx_result, lookup_insert_eq|].
  intros _ w' (En & [pk' Ek] & Ex & a & b & c & Em). wcbn.
  unfold setTxPacket, getNodeId. wgo. rewrite En. wgo. cbn. rewrite Hk. wgo. rewrite Ek. wgo.
  rewrite En. wgo. unfold Inv, InvL, Clean. wcbn. rewrite En, Ek, Ex, Em. wcbn.
  rewrite !insert_insert_eq, !delete_insert_eq. cbn.
  apply NoDup_app in Hnd as (Hn1 & Hn2 & [Hn3 Hn4]%NoDup_cons).
  split; [split; [|done]|split_and!; [done..| | |]].
  - pose proof (i_node _ _ _ _ _ _ _ I p nd Hp) as [_ Nm _ _ _ _].
    eapply (InvS_end_tx I p nd); try done.
    + apply NoDup_app. split_and!; [done| |done]. intros q Hq Hq'. apply (Hn2 q Hq). set_solver.
    + rewrite elem_of_app. intros [Hq|Hq]; [|done]. apply (Hn2 p Hq). set_solver.
    + intros q Hq. rewrite Htx. set_solver.
  - rewrite dom_insert_L. apply elem_of_dom_2 in Hp. set_solver.
  - intros C. eapply (CleanS_end_tx C p nd); [done..|]. rewrite Htx. set_solver.
  - change (spec_step (EvEndTx p) (phases w)
      (dn_curState <$> <[p:=set_dn_txPkt None (tx_ended nd)]> (w_nodes w'))).
    rewrite En. wcbn. rewrite insert_insert_eq, fmap_insert.
    pose proof (lookup_phases w p nd Hp) as Hph. rewrite Hs in Hph. exact (step_end_tx p _ Hph).
Qed.

(** ** Faults of the medium's thread *)

(** A benign fault, or the use of a deleted node the Tx list still points to. *)
Definition excused (f : fault) (w : world) : Prop :=
  benign f ∨ f = Undef UseAfterFree ∧ dangling w.

Notation ewp := (wp excused).

Lemma ewp_bwp {A} (m : M world A) Q w : bwp m Q w → ewp m Q w.
Proof. intros H. eapply wp_mono_E; [exact H|]. by left. Qed.

Lemma ewp_lift_frame {A} (m : M os A) P Q w :
  os_ok m P → (∀ a o, P a → Q a (set_os o w)) → ewp (lift_os m) Q w.
Proof.
  intros Hm HQ. rewrite wp_lift_os. eapply wp_mono_E; [eapply wp_mono; [apply Hm|]|].
  - cbn. eauto.
  - by left.
Qed.

(** The same with the cause, for work that no node leaves during: the Tx list was
    not clean when it began. *)
Definition caused (w : world) (f : fault) (w' : world) : Prop :=
  benign f ∨ f = Undef UseAfterFree ∧ dangling w' ∧ dom (w_nodes w') = dom (w_nodes w) ∧ ¬ Clean w.

Lemma caused_excused {A} (m : M world A) Q w0 w : wp (caused w0) m Q w → ewp m Q w.
Proof. intros H. eapply wp_mono_E; [exact H|]. intros f w' [?|(? & ? & _)]; [by left|by right]. Qed.

(** What the loops over the lists of a medium keep. *)
Definition keeps (w w' : world) : Prop :=
  Inv w' ∧ dom (w_nodes w') = dom (w_nodes w) ∧
  pm_state (w_medium w') = pm_state (w_medium w) ∧ (Clean w → Clean w') ∧
  spec_steps is_end_tx (phases w) (phases w').

Lemma keeps_trans w1 w2 w3 : keeps w1 w2 → keeps w2 w3 → keeps w1 w3.
Proof.
  intros (? & E1 & F1 & ? & ?) (? & E2 & F2 & ? & ?).
  split_and!; [done|congruence..|auto|by eapply spec_steps_trans].
Qed.

Lemma keeps_same w w' :
  Inv w' → w_nodes w' = w_nodes w → pm_state (w_medium w') = pm_state (w_medium w) →
  (Clean w → Clean w') → keeps w w'.
Proof. intros I Hn Hs C. unfold keeps, phases. rewrite Hn. by split_and!. Qed.

Lemma caused_keeps {A} (m : M world A) Q w w1 s :
  keeps w w1 → wp (caused w1) m Q s → wp (caused w) m Q s.
Proof.
  intros (_ & Hd & _ & C & _) H. eapply wp_mono_E; [exact H|].
  intros f w' [?|(? & ? & Hd' & HC)]; [by left|right]. rewrite Hd in Hd'. split_and!; auto.
Qed.

Lemma wp_benign {A} (E : fault → world → Prop) (m : M world A) Q w :
  (∀ f w', benign f → E f w') → bwp m Q w → wp E m Q w.
Proof. intros HE H. eapply wp_mono_E; [exact H|]. auto. Qed.

(** ** processCcaList *)

Lemma wp_processCcaList_loop l w :
  Inv w → pm_ccaList (w_medium w) = l →
  bwp (processCcaList_loop l) (λ _ w', keeps w w' ∧ pm_ccaList (w_medium w') = [] ∧
    pm_txList (w_medium w') = pm_txList (w_medium w)) w.
Proof.
  revert w. induction l as [|p l IH]; intros w [I Hm] Hl; simpl; wgo.
  - split; [|done]. by apply keeps_same.
  - destruct (i_cca _ _ _ _ _ _ _ I p) as [nd Hp]; [rewrite Hl; set_solver|].
    unfold getNodeId, isIdle, sendCcaConfirm. wgo.
    eapply wp_send_message; [by wcbn|]. intros _ o. wgo.
    eapply wp_mono; [apply IH; [|done]|].
    + split; [|done]. eapply InvS_cca; [exact I|]. wcbn.
      intros q Hq. apply (i_cca _ _ _ _ _ _ _ I). rewrite Hl. set_solver.
    + wcbn. intros _ w' ((? & ? & ? & ?) & ? & ?). done.
Qed.

Lemma wp_processCcaList w :
  Inv w → bwp processCcaList (λ _ w', keeps w w' ∧ pm_ccaList (w_medium w') = [] ∧
    pm_txList (w_medium w') = pm_txList (w_medium w)) w.
Proof. intros I. unfold processCcaList. wgo. by apply wp_processCcaList_loop. Qed.

(** ** processPollerEvents *)

(** The nodes a batch of events is for. *)
Definition ev_nodes (evs : list epoll_event) : list nat :=
  omap (λ ev, match ev_ptr ev with PtrNode p => Some p | _ => None end) evs.

Lemma ev_nodes_deliverable ns evs :
  NoDup (ev_nodes (deliverable ns evs)) ∧
  ∀ p, p ∈ ev_nodes (deliverable ns evs) → is_Some (ns !! p).
Proof.
  revert ns. induction evs as [|[e ptr] evs IH]; intros ns; simpl.
  - split; [constructor|]. intros p []%not_elem_of_nil.
  - destruct ptr as [|p|]; simpl; [apply IH| |apply IH].
    destruct (ns !! p) as [nd|] eqn:Hp; [|apply IH]. simpl.
    destruct (IH (delete p ns)) as [Hnd Hl]. split.
    + apply NoDup_cons. split; [|done]. intros [nd' Hd]%Hl. by rewrite lookup_delete_eq in Hd.
    + intros q [-> |Hq]%elem_of_cons; [eauto|].
      destruct (Hl q Hq) as [nd' [_ Hd]%lookup_delete_Some]. eauto.
Qed.

Lemma ev_nodes_take n evs : ∃ rest, ev_nodes evs = ev_nodes (take n evs) ++ rest.
Proof.
  exists (ev_nodes (drop n evs)). unfold ev_nodes. by rewrite <-omap_app, take_drop.
Qed.

Lemma ev_nodes_take_ok n ns evs :
  NoDup (ev_nodes (take n (deliverable ns evs))) ∧
  ∀ p, p ∈ ev_nodes (take n (deliverable ns evs)) → is_Some (ns !! p).
Proof.
  destruct (ev_nodes_deliverable ns evs) as [Hnd Hl].
  destruct (ev_nodes_take n (deliverable ns evs)) as [rest Hr]. rewrite Hr in Hnd, Hl.
  apply NoDup_app in Hnd as [Hnd _]. split; [done|]. intros p Hp. apply Hl. set_solver.
Qed.

(** What a batch of events for the nodes [ps] leaves. *)
Definition polled (ps : list nat) (w w' : world) : Prop :=
  Inv w' ∧ (∀ q, q ∉ ps → w_nodes w' !! q = w_nodes w !! q) ∧
  (pm_state (w_medium w') = pm_state (w_medium w) ∨ pm_state (w_medium w') = STOPPING) ∧
  (Clean w → (∀ q, q ∈ pm_txList (w_medium w) → live w' q) → Clean w') ∧
  spec_steps any_event (phases w) (phases w').

Lemma polled_cons p ps w w1 w' :
  p ∉ ps → pres p w w1 → polled ps w1 w' → polled (p :: ps) w w'.
Proof.
  intros Hp (I1 & Hn1 & Hs1 & _ & Ht1 & Hc1 & P1) (I' & Hn' & Hs' & Hc' & P').
  split_and!; [done| |by rewrite <-Hs1| |].
  - intros q [Hq1 Hq2]%not_elem_of_cons. by rewrite Hn', Hn1.
  - intros C Hl. unfold live in Hl.
    assert (C1 : Clean w1).
    { apply Hc1; [done|]. destruct (decide (p ∈ pm_txList (w_medium w))) as [Hpt|]; [|by left].
      right. unfold live. rewrite <-Hn' by done. by apply Hl. }
    apply Hc'; [done|]. intros q Hq. unfold live.
    destruct (decide (q = p)) as [-> |Hne]; [|by apply Hl, Ht1].
    rewrite Hn' by done. by apply (c_tx _ _ _ C1).
  - eapply spec_steps_trans; [by eapply spec_step1_steps, P1|done].
Qed.

Lemma polled_nil w w' :
  Inv w' → w_nodes w' = w_nodes w → w_pkts w' = w_pkts w →
  pm_txList (w_medium w') = pm_txList (w_medium w) →
  (pm_state (w_medium w') = pm_state (w_medium w) ∨ pm_state (w_medium w') = STOPPING) →
  polled [] w w'.
Proof.
  intros I Hn Hk Ht Hs. split_and!; [done|by rewrite Hn|done| |].
  - unfold Clean. by rewrite Hn, Hk, Ht.
  - unfold phases. by rewrite Hn.
Qed.

Lemma polled_mono ps ps' w w' : (∀ p, p ∈ ps → p ∈ ps') → polled ps w w' → polled ps' w w'.
Proof. intros Hps (? & Hn & ? & ? & ?). split_and!; [done|auto|done..]. Qed.

Lemma wp_poll_loop evs w :
  Inv w → NoDup (ev_nodes evs) →
  (∀ p, p ∈ ev_nodes evs → live w p ∧ p ∉ pm_ccaList (w_medium w)) →
  bwp (poll_loop evs) (λ _ w', polled (ev_nodes evs) w w') w.
Proof.
  revert w. induction evs as [|[e ptr] evs IH]; intros w I Hnd Hev; simpl; wgo.
  { apply polled_nil; auto. }
  assert (Hstop : polled (ev_nodes (EpollEvent e ptr :: evs)) w
    (on_medium (set_pm_state STOPPING) w)).
  { eapply polled_mono; [|apply polled_nil]; try done; [set_solver|by right]. }
  assert (Hnode : ∀ p (m : M world unit), ptr = PtrNode p →
    (∀ nd, w_nodes w !! p = Some nd → p ∉ pm_ccaList (w_medium w) →
      bwp m (λ _ w', pres p w w') w) →
    bwp (m;; poll_loop evs) (λ _ w', polled (ev_nodes (EpollEvent e ptr :: evs)) w w') w).
  { intros p m -> Hm. simpl in *. apply NoDup_cons in Hnd as [Hp Hnd].
    destruct (Hev p) as [[nd Hl] Hcca]; [set_solver|]. wgo.
    eapply wp_mono; [by eapply Hm|]. intros ? w1 Hw1. cbn in Hw1.
    pose proof Hw1 as (I1 & Hn1 & _ & Hc1 & _).
    eapply wp_mono; [apply IH; [done..|]|].
    - intros q Hq. assert (q ≠ p) by (by intros ->). destruct (Hev q) as [Hlq Hqc]; [set_solver|].
      split; [unfold live; by rewrite Hn1|]. destruct Hc1 as [-> | ->]; set_solver.
    - intros ? w' Hw'. by eapply polled_cons. }
  assert (Hskip : bwp (poll_loop evs) (λ _ w', polled (ev_nodes (EpollEvent e ptr :: evs)) w w') w).
  { eapply wp_mono; [apply IH; [done|..]|].
    - destruct ptr; simpl in *; [done| |done]. by apply NoDup_cons in Hnd as [_ ?].
    - intros q Hq. apply Hev. destruct ptr; simpl in *; set_solver.
    - intros ? w'. apply polled_mono. destruct ptr; simpl; set_solver. }
  destruct (has_flag e EPOLLRDHUP); [|destruct (has_flag e EPOLLIN); [|done]];
    (destruct ptr as [|p|]; [exact Hstop| |done]).
  - destruct (Hev p) as [[nd Hl] _]; [set_solver|].
    unfold getSocketFd. rewrite !wp_bind, wp_get_node, Hl, wp_ret. apply (Hnode p); [done|].
    intros nd' Hl' Hcca. eapply wp_mono; [by apply (wp_deregisterNode p nd')|].
    intros ? w' Hw'. apply Hw'.
  - apply (Hnode p); [done|]. intros nd Hl Hcca. by apply (wp_readMsg p nd).
Qed.

(** ** interval *)

(** What waiting leaves. *)
Definition waited (w w' : world) : Prop := ∃ ps, polled ps w w'.

Lemma waited_refl w w' :
  Inv w' → w_nodes w' = w_nodes w → w_pkts w' = w_pkts w →
  pm_txList (w_medium w') = pm_txList (w_medium w) →
  pm_state (w_medium w') = pm_state (w_medium w) → waited w w'.
Proof. exists []. apply polled_nil; auto. Qed.

Lemma waited_frame w0 w w' :
  w_nodes w = w_nodes w0 → w_pkts w = w_pkts w0 →
  pm_txList (w_medium w) = pm_txList (w_medium w0) →
  pm_state (w_medium w) = pm_state (w_medium w0) → waited w w' → waited w0 w'.
Proof.
  intros Hn Hk Ht Hs (ps & ? & ? & ? & ? & ?). exists ps. unfold polled, Clean, phases in *.
  by rewrite <-Hn, <-Hk, <-Ht, <-Hs.
Qed.

Lemma wp_processPollerEvents offered ns n rv w :
  Inv w → w_nodes w = ns → pm_ccaList (w_medium w) = [] →
  bwp (processPollerEvents rv (take n (deliverable ns offered))) (λ _ w', waited w w') w.
Proof.
  intros I <- Hc. unfold processPollerEvents. wgo. destruct (_ <=? _); [|done].
  destruct (ev_nodes_take_ok (Z.to_nat rv `min` n)%nat (w_nodes w) offered) as [Hnd Hl].
  rewrite take_take. eapply wp_mono; [apply wp_poll_loop; [done..|]|].
  - intros p Hp. rewrite Hc. split; [by apply Hl|]. apply not_elem_of_nil.
  - intros ? w' Hw'. eexists. exact Hw'.
Qed.

(** With fuel for one round the loop does not run out: it waits once. *)
Lemma wp_interval_loop fuel waitms w :
  Inv w → pm_ccaList (w_medium w) = [] →
  bwp (interval_loop (S fuel) waitms) (λ _ w', waited w w') w.
Proof.
  intros I Hc. simpl. wgo. wlift Ha. destruct a as [[rv errno] evs]. wgo.
  destruct Ha as [Hrv [offered ->]].
  destruct ((rv =? -1) && negb (errno =? EINTR)); [done|].
  destruct (negb (rv =? -1) && negb (rv =? 0)) eqn:Hc1.
  - eapply wp_mono; [by apply wp_processPollerEvents|]. intros ? w'. by apply waited_frame.
  - wgo. wlift Hb. destruct a as [rv2 left]. wgo. destruct (rv2 =? -1); [done|].
    replace (0 <? rv) with false; [by apply waited_refl|].
    symmetry. apply Z.ltb_ge. destruct (Z.eqb_spec rv (-1)), (Z.eqb_spec rv 0); try done; lia.
Qed.

Lemma wp_interval waitms w :
  Inv w → pm_ccaList (w_medium w) = [] →
  bwp (interval waitms) (λ _ w', waited w w') w.
Proof.
  intros I Hc. unfold interval. wgo. destruct (timespec_add_ms _ _); [|done]. wgo.
  wlift Ha. destruct (a =? -1); [done|].
  eapply wp_mono; [by apply wp_interval_loop|]. intros ? w'. by apply waited_frame.
Qed.

(** ** The collision check: what a medium class promises the thread *)

(** It keeps the nodes, the lists and the state, and uses a deleted node only
    through a dangling entry. *)
Class CollisionCheckOk (C : CollisionCheck) := {
  collision_check_ok w : Inv w →
    wp (caused w) txCollisionCheck (λ _ w', keeps w w' ∧
      pm_ccaList (w_medium w') = pm_ccaList (w_medium w) ∧
      pm_txList (w_medium w') = pm_txList (w_medium w)) w
}.

Lemma keeps_refl w : Inv w → keeps w w.
Proof. intros I. by apply keeps_same. Qed.

Lemma caused_dead w p :
  p ∈ pm_txList (w_medium w) → w_nodes w !! p = None → caused w (Undef UseAfterFree) w.
Proof.
  intros Hp Hn. right. split_and!; [done|exists p; split; [done|]|done|].
  - unfold live. rewrite Hn. by intros [].
  - intros [Ht _]. destruct (Ht p Hp) as [nd Hnd]. congruence.
Qed.

#[export] Instance wireless_ok : CollisionCheckOk wireless.
Proof. split. intros w I. split; [by apply keeps_refl|done]. Qed.

Lemma wp_collide_all l w :
  Inv w → (∀ p, p ∈ l → p ∈ pm_txList (w_medium w)) →
  wp (caused w) (PowerlineMedium.collide_all l)
    (λ _ w', keeps w w' ∧ w_medium w' = w_medium w) w.
Proof.
  revert w. induction l as [|p l IH]; intros w I Hl; simpl; wgo.
  { split; [by apply keeps_refl|done]. }
  assert (Hp : p ∈ pm_txList (w_medium w)) by (apply Hl; set_solver).
  unfold getTxPacket. wgo.
  destruct (w_nodes w !! p) as [nd|] eqn:Hnd; [|by apply (caused_dead w p)].
  destruct (InvS_txstate p nd (proj1 I) Hnd Hp) as (_ & _ & k & pk & Hk & Hpk & Hf).
  wgo. rewrite Hk. wgo.
  assert (K : keeps w (on_pkts (<[k := set_collision true pk]>) w)).
  { apply keeps_same; [|done..|].
    - destruct I as [I Hm]. split; [|done]. by eapply (InvS_pkt I).
    - intros C. by eapply (CleanS_pkt C). }
  eapply caused_keeps; [exact K|].
  eapply wp_mono; [apply IH; [apply K|]|].
  - intros q Hq. apply Hl. set_solver.
  - intros ? w' [K' Hm']. split; [by eapply keeps_trans|done].
Qed.

#[export] Instance powerline_ok : CollisionCheckOk powerline.
Proof.
  split. intros w I. unfold txCollisionCheck, powerline, PowerlineMedium.txCollisionCheck. wgo.
  case_bool_decide; [|split; [by apply keeps_refl|done]].
  eapply wp_mono; [by apply wp_collide_all|]. intros ? w' [K ->]. done.
Qed.

(** ** processTxList *)

Lemma wp_hasTxTimerExpired p Q w :
  Inv w → p ∈ pm_txList (w_medium w) →
  (∀ nd b o, w_nodes w !! p = Some nd → Q b (set_os o w)) →
  wp (caused w) (hasTxTimerExpired p) Q w.
Proof.
  intros I Hp HQ. unfold hasTxTimerExpired. wgo.
  destruct (w_nodes w !! p) as [nd|] eqn:Hnd; [|by apply (caused_dead w p)].
  apply wp_benign; [by left|]. wlift Ha. by eapply HQ.
Qed.

Lemma wp_processTxList_loop l kept w :
  Inv w → pm_txList (w_medium w) = kept ++ l →
  wp (caused w) (processTxList_loop kept l) (λ _ w', keeps w w' ∧
    pm_ccaList (w_medium w') = pm_ccaList (w_medium w)) w.
Proof.
  revert kept w. induction l as [|p l IH]; intros kept w I Hl; simpl; wgo.
  { split; [by apply keeps_refl|done]. }
  assert (Hp : p ∈ pm_txList (w_medium w)) by (rewrite Hl; set_solver).
  apply wp_hasTxTimerExpired; [done..|]. intros nd b o Hnd.
  assert (K0 : keeps w (set_os o w)) by (by apply keeps_same).
  destruct b; [|eapply caused_keeps; [exact K0|];
    apply (IH _ (set_os o w)); [done|cbn; by rewrite Hl, <-app_assoc]].
  assert (Ht := wp_benign (caused w) _ _ _ (λ f w' H, or_introl H)
    (wp_tx_done p nd kept l (set_os o w) I Hnd Hl)).
  rewrite wp_bind in Ht |- *. eapply wp_mono; [exact Ht|]. intros ? w1 H1.
  rewrite wp_bind in H1 |- *. eapply wp_mono; [exact H1|]. intros ? w2 H2.
  rewrite wp_bind. eapply wp_mono; [exact H2|].
  intros ? w' (I' & Htx & Hs & Hc & Hd & HC & P).
  assert (K : keeps w w').
  { split_and!; try done. apply rtc_once. exists (EvEndTx p). split; [by exists p|exact P]. }
  eapply caused_keeps; [exact K|]. eapply wp_mono; [by apply IH|].
  intros ? w'' [K' Hc']. split; [by eapply keeps_trans|by rewrite Hc'].
Qed.

Lemma wp_processTxList w :
  Inv w → wp (caused w) processTxList (λ _ w', keeps w w' ∧
    pm_ccaList (w_medium w') = pm_ccaList (w_medium w)) w.
Proof. intros I. unfold processTxList. wgo. by apply wp_processTxList_loop. Qed.

(** ** checkNodeRegistrationTimeout *)

(** Nodes leave the registration list only, and none that transmits. *)
Definition timed_out (w w' : world) : Prop :=
  InvL w' ∧ pm_regListMapMutex (w_medium w') = pm_regListMapMutex (w_medium w) ∧
  pm_state (w_medium w') = pm_state (w_medium w) ∧
  pm_ccaList (w_medium w') = pm_ccaList (w_medium w) ∧ (Clean w → Clean w') ∧
  spec_steps is_timeout (phases w) (phases w').

Lemma wp_expire_node p nd w :
  InvL w → w_nodes w !! p = Some nd → dn_curState nd = RegisteringState →
  pm_ccaList (w_medium w) = [] →
  bwp (upd_medium (on_pm_regListMap (delete (dn_socket nd)));; handleRegTimerExpired p)
    (λ _ w', timed_out w w' ∧
      pm_regListMap (w_medium w') = delete (dn_socket nd) (pm_regListMap (w_medium w)) ∧
      w_nodes w' = delete p (w_nodes w)) w.
Proof.
  intros I Hp Hs Hcca. destruct (inv_lookup_reg I p nd Hp Hs) as [Hr Hh].
  unfold handleRegTimerExpired, on_curState, Registering.handleRegTimerExpired. wgo. rewrite Hs. wgo.
  eapply wp_delete_node; [by wcbn|]. intros o. wgo. unfold timed_out, InvL, Clean. wcbn.
  split; [|done]. split_and!; [|done..| |].
  - rewrite <-(delete_id (pm_nodeHashMap (w_medium w)) (dn_socket nd)) by done.
    apply (InvS_delete I p nd Hp). rewrite Hcca. apply not_elem_of_nil.
  - intros C. pose proof (nk_pkt _ _ _ _ _ _ (i_node _ _ _ _ _ _ _ I p nd Hp)) as Hk.
    rewrite Hs in Hk. destruct Hk. by apply (CleanS_delete C p nd).
  - apply rtc_once. exists (EvTimeout p). split; [by exists p|].
    by apply (phases_timeout p nd).
Qed.

Lemma wp_regTimeout_loop l w :
  InvL w → pm_ccaList (w_medium w) = [] → NoDup (l.*1) →
  (∀ k p, (k, p) ∈ l → pm_regListMap (w_medium w) !! k = Some p) →
  bwp (regTimeout_loop l) (λ _ w', timed_out w w') w.
Proof.
  revert w. induction l as [|[k p] l IH]; intros w I Hc Hnd Hl; simpl; wgo; [done|].
  destruct (i_reg _ _ _ _ _ _ _ I k p) as (nd & Hp & Hk & Hs); [apply Hl; set_solver|].
  simpl in Hnd. apply NoDup_cons in Hnd as [Hkl Hnd].
  unfold getNodeId, hasRegTimerExpired. wgo. subst k. rewrite Z.eqb_refl.
  wgo. wlift Ha. rewrite wp_bind, wp_whenb.
  destruct a; [|apply (IH (set_os o w)); [done..|intros; apply Hl; set_solver]].
  eapply wp_mono; [by apply (wp_expire_node p nd (set_os o w))|].
  intros ? w1 [(I1 & Hm1 & Hs1 & Hc1 & C1 & P1) [Hr1 Hn1]].
  eapply wp_mono; [apply IH; [done|by rewrite Hc1|done|]|].
  - intros k q Hkq. rewrite Hr1, lookup_delete_ne; [apply Hl; set_solver|].
    intros Heq. apply Hkl. rewrite Heq. apply list_elem_of_fmap. by exists (k, q).
  - intros ? w' (I' & Hm' & Hs' & Hc' & C' & P').
    split_and!; [done|by rewrite Hm', Hm1|by rewrite Hs', Hs1|by rewrite Hc', Hc1|auto|].
    by eapply spec_steps_trans.
Qed.

Section RunSafe.
Context `{HO : HashOrder} {C : CollisionCheck} `{CO : !CollisionCheckOk C} `{FC : !FollowsCheck C}.

Lemma hash_order_NoDup m : NoDup ((hash_order m).*1).
Proof using HO. rewrite hash_order_perm. apply NoDup_fst_map_to_list. Qed.

Lemma elem_of_hash_order m k p : (k, p) ∈ hash_order m ↔ m !! k = Some p.
Proof using HO. rewrite hash_order_perm. apply elem_of_map_to_list. Qed.

Lemma wp_checkNodeRegistrationTimeout w :
  Inv w → pm_ccaList (w_medium w) = [] →
  bwp checkNodeRegistrationTimeout (λ _ w', Inv w' ∧
    pm_state (w_medium w') = pm_state (w_medium w) ∧ pm_ccaList (w_medium w') = [] ∧
    (Clean w → Clean w') ∧ spec_steps is_timeout (phases w) (phases w')) w.
Proof using HO.
  intros [I Hm] Hc. unfold checkNodeRegistrationTimeout. wgo. rewrite Hm. wgo.
  eapply wp_mono; [apply wp_regTimeout_loop; [exact I|done|apply hash_order_NoDup|]|].
  - intros k p. apply elem_of_hash_order.
  - intros ? w' (I' & _ & Hs & Hc' & HC & P). wgo.
    split_and!; [done|done|by rewrite Hc'|done|done].
Qed.

(** ** run *)

(** Between two steps of the thread: no CCA request is waiting, unless the
    medium is stopping. *)
Definition ready (w : world) : Prop :=
  Inv w ∧ (pm_state (w_medium w) ≠ STOPPING → pm_ccaList (w_medium w) = []).

(** The phases so far. *)
Definition evolves (w w' : world) : Prop := spec_steps any_event (phases w) (phases w').

Lemma evolves_trans w1 w2 w3 : evolves w1 w2 → evolves w2 w3 → evolves w1 w3.
Proof using. apply spec_steps_trans. Qed.
Lemma keeps_evolves w w' : keeps w w' → evolves w w'.
Proof using. intros (_ & _ & _ & _ & P). by eapply spec_steps_mono, P. Qed.

(** Safety and the number of answers taken, together. *)
Lemma wp_spends {A} (m : M world A) Q w :
  ewp m Q w → spends m → ewp m (λ a w', Q a w' ∧ (answers w' < answers w)%nat) w.
Proof using.
  intros H Hs. specialize (Hs w). unfold wp in *. destruct (m w) as [[a|f] w']; auto.
Qed.

Lemma wp_frugal {A} (m : M world A) Q w :
  ewp m Q w → frugal m → ewp m (λ a w', Q a w' ∧ (answers w' ≤ answers w)%nat) w.
Proof using.
  intros H Hs. apply (wp_and _ _ _ _ _ _ H (frugal_wp m w Hs)).
Qed.

(** The work of a round after the wait, during which no node leaves. *)
Lemma wp_tx_work w :
  Inv w →
  wp (caused w) (processCcaList;; txCollisionCheck;; processTxList;; mret true)
    (λ go w', keeps w w' ∧ go = true ∧ pm_ccaList (w_medium w') = []) w.
Proof using CO.
  intros I. wgo.
  eapply wp_mono; [apply wp_benign; [by left|by apply wp_processCcaList]|].
  intros ? w2 (K2 & Hc2 & _). wgo. eapply caused_keeps; [exact K2|].
  eapply wp_mono; [apply collision_check_ok, K2|]. intros ? w3 (K3 & Hc3 & _). wgo.
  eapply caused_keeps; [exact (keeps_trans _ _ _ K2 K3)|].
  eapply wp_mono; [apply wp_processTxList, K3|]. intros ? w4 (K4 & Hc4). wgo.
  rewrite Hc4, Hc3, Hc2. split; [|done].
  eapply keeps_trans; [exact K2|by eapply keeps_trans].
Qed.

(** The faults of a round, and what it leaves; a node that is gone although it
    was transmitting when the round began is behind every unclean end. *)
Definition lost (w w' : world) : Prop := ∃ q, q ∈ pm_txList (w_medium w) ∧ ¬ live w' q.

Lemma wp_tx_round w :
  Inv w → pm_ccaList (w_medium w) = [] →
  wp (λ f w', excused f w' ∧ (Clean w → benign f ∨ ¬ ∀ q, q ∈ pm_txList (w_medium w) → live w' q))
    tx_round (λ go w', Inv w' ∧ evolves w w' ∧
    (pm_state (w_medium w') = pm_state (w_medium w) ∨ pm_state (w_medium w') = STOPPING) ∧
    (go = false → pm_state (w_medium w') = STOPPING) ∧
    (go = true → pm_ccaList (w_medium w') = []) ∧
    (Clean w → (∀ q, q ∈ pm_txList (w_medium w) → live w' q) → Clean w')) w.
Proof using CO.
  intros I Hc. unfold tx_round, stopping. rewrite wp_bind.
  eapply wp_mono.
  { apply wp_benign; [|by apply wp_interval]. intros f w' Hf. split; [by left|intros _; by left]. }
  intros ? w1 [ps (I1 & _ & Hs1 & C1 & P1)].
  wgo. case_bool_decide as Hst; [by wgo; split_and!|].
  eapply wp_mono_E; [eapply wp_mono; [by apply wp_tx_work|]|].
  - intros go w2 (K & -> & Hcca). pose proof K as (I2 & Hd & Hs2 & C2 & _).
    rewrite Hs2. split_and!; try done.
    + eapply evolves_trans; [exact P1|by apply keeps_evolves].
    + intros Cw Hl. apply C2, C1; [done|]. intros q Hq.
      apply elem_of_dom. rewrite <-Hd. apply elem_of_dom. by apply Hl.
  - intros f w2 [Hf|(-> & Hdg & Hd & HC)].
    + split; [by left|intros _; by left].
    + split; [by right|]. intros Cw. right. intros Hl. apply HC, C1; [done|].
      intros q Hq. apply elem_of_dom. rewrite <-Hd. apply elem_of_dom. by apply Hl.
Qed.

Lemma wp_tx_loop fuel w :
  Inv w → pm_ccaList (w_medium w) = [] → (answers w < fuel)%nat →
  ewp (tx_loop fuel) (λ _ w', ready w' ∧ evolves w w' ∧ (answers w' ≤ answers w)%nat ∧
    (pm_state (w_medium w') = pm_state (w_medium w) ∨ pm_state (w_medium w') = STOPPING)) w.
Proof using CO FC.
  revert w. induction fuel as [|fuel IH]; intros w I Hc Hf; [lia|]. simpl. wgo.
  destruct (pm_txList (w_medium w)) as [|p l]; wgo.
  { split_and!; [split; auto|constructor|lia|auto]. }
  eapply wp_mono; [apply wp_spends; [|apply spends_tx_round]|].
  { eapply wp_mono_E; [by apply wp_tx_round|]. by intros f w' [? _]. }
  intros go w1 [(I1 & P1 & Hs1 & Hstop & Hgo & _) Ha]. destruct go; wgo.
  - eapply wp_mono; [apply IH; [done|by apply Hgo|lia]|].
    intros ? w2 (R & P2 & Ha2 & Hs2). split_and!; [done|by eapply evolves_trans|lia|].
    destruct Hs2 as [-> | ->]; auto.
  - rewrite Hstop by done. split_and!; [|done|lia|by right]. split; [done|]. by rewrite Hstop.
Qed.

(** The idle block, entered in state IDLE. *)
Lemma wp_idle_block w :
  Inv w → pm_ccaList (w_medium w) = [] →
  bwp idle_block (λ go w', Inv w' ∧ evolves w w' ∧
    (go = true → pm_ccaList (w_medium w') = []) ∧
    (go = false → pm_state (w_medium w') = STOPPING) ∧
    (go = true → pm_state (w_medium w) = IDLE →
      pm_state (w_medium w') = if decide (pm_txList (w_medium w') = []) then IDLE else TX_802514_FRAME)) w.
Proof using.
  intros I Hc. unfold idle_block, stopping. wgo.
  eapply wp_mono; [by apply wp_interval|]. intros ? w1 [ps (I1 & _ & Hs1 & _ & P1)].
  wgo. case_bool_decide as Hst; wgo; [by split_and!|].
  assert (Hs : pm_state (w_medium w1) = pm_state (w_medium w)) by (by destruct Hs1).
  case_bool_decide as Htx; wgo.
  - eapply wp_mono; [by apply (wp_processCcaList (on_medium (set_pm_state _) w1))|].
    intros ? w2 (K & Hc2 & Ht2). pose proof K as (I2 & _ & Hs2 & _). wgo.
    split_and!; [done|eapply evolves_trans; [exact P1|by apply (keeps_evolves _ _ K)]|done..|].
    intros _ _. rewrite Ht2, Hs2. wcbn. by rewrite decide_False.
  - eapply wp_mono; [by apply wp_processCcaList|].
    intros ? w2 (K & Hc2 & Ht2). pose proof K as (I2 & _ & Hs2 & _). wgo.
    split_and!; [done|eapply evolves_trans; [exact P1|by apply keeps_evolves]|done..|].
    intros _ HI. rewrite Ht2, Hs2, Hs. by rewrite decide_True.
Qed.


(** One round of run: from IDLE back to IDLE, or to STOPPING. *)
Lemma wp_run_body w :
  ready w → pm_state (w_medium w) = IDLE →
  ewp run_body (λ go w', ready w' ∧ evolves w w' ∧ (answers w' < answers w)%nat ∧
    pm_state (w_medium w') = if (go : bool) && bool_decide (pm_state (w_medium w') ≠ STOPPING)
                             then IDLE else STOPPING) w.
Proof using CO FC.
  intros [I Hc] Hs. rewrite Hs in Hc. specialize (Hc ltac:(done)).
  unfold run_body, isIdle, stopping. wgo. rewrite Hs, bool_decide_true by done. wgo.
  eapply wp_mono; [apply wp_spends; [apply ewp_bwp; by apply wp_idle_block|apply spends_idle_block]|].
  intros go w1 [(I1 & P1 & Hc1 & Hg1 & _) Ha1]. destruct go; wgo.
  - eapply (wp_mono _ (tx_loop (S (answers w1)))); [apply wp_tx_loop; [done|by apply Hc1|lia]|].
    intros ? w2 ([I2 Hc2] & P2 & Ha2 & _). wgo.
    assert (P : evolves w w2) by (by eapply evolves_trans).
    case_bool_decide as Hst; wgo.
    + rewrite Hst. split_and!; [by split|done|lia|done].
    + eapply wp_mono; [apply wp_frugal; [apply ewp_bwp|apply follows_checkNodeRegistrationTimeout]|].
      { by apply (wp_checkNodeRegistrationTimeout (on_medium (set_pm_state IDLE) w2)); [|apply Hc2]. }
      intros ? w3 [(I3 & Hs3 & Hc3 & _ & P3) Ha3]. wgo. rewrite Hs3. wcbn.
      split_and!; [by split| |unfold answers in *; simpl in *; lia|done].
      eapply evolves_trans; [exact P|by eapply spec_steps_mono, P3].
  - rewrite Hg1 by done. split_and!; [split; [done|by rewrite Hg1]|done|lia|done].
Qed.

Lemma wp_run_loop fuel w :
  ready w → pm_state (w_medium w) = IDLE → (answers w < fuel)%nat →
  ewp (run_loop fuel) (λ _ w', Inv w' ∧ evolves w w' ∧ pm_state (w_medium w') = STOPPING) w.
Proof using CO FC.
  revert w. induction fuel as [|fuel IH]; intros w R Hs Hf; [lia|]. simpl. wgo.
  eapply wp_mono; [by apply wp_run_body|]. intros go w1 (R1 & P1 & Ha1 & Hs1).
  destruct go; wgo; [|by split; [apply R1|]].
  unfold stopping. wgo. rewrite andb_true_l in Hs1.
  destruct (decide (pm_state (w_medium w1) = STOPPING)) as [Hst|Hst].
  - rewrite bool_decide_true by done. wgo. by split; [apply R1|].
  - rewrite bool_decide_false by done. rewrite bool_decide_true in Hs1 by done.
    eapply wp_mono; [apply IH; [done|done|lia]|]. intros ? w2 (I2 & P2 & Hs2).
    split_and!; [done|by eapply evolves_trans|done].
Qed.

(** The thread of a medium: from a medium with no node waiting for a CCA
    answer, run ends with the invariant and in state STOPPED; its faults are
    excused, and so never a lack of fuel. *)
Lemma wp_medium_run w :
  Inv w → pm_ccaList (w_medium w) = [] →
  ewp run (λ _ w', Inv w' ∧ evolves w w' ∧ pm_state (w_medium w') = STOPPED) w.
Proof using CO FC.
  intros [I Hm] Hc. unfold run. wgo.
  eapply ewp_lift_frame; [apply os_ok_clock_gettime|]. intros [rv t] o _. wgo.
  destruct (rv =? -1); wgo; [by left|].
  set (w1 := on_medium (set_pm_curTime t) _).
  eapply (wp_mono _ (run_loop (S (answers w1)))); [apply wp_run_loop; [by split|done|lia]|].
  intros ? w2 (I2 & P2 & _). wgo. done.
Qed.
End RunSafe.
