(* ===== verification/Total.v ===== *)
(** Runs that return: the answers a call takes, and what it leaves in the trace. *)

From Stdlib Require Import ZArith Lia.
From stdpp Require Import base tactics list gmap numbers option strings.
From S2P Require Import Prelude Bytes TimeUtils Checksum Interface Os SocketIO State.
From S2P Require Import DeviceNode NodeStates Invariant Preserve.

(** ** Total runs

    [twp m Q w]: [m] returns from [w], in [Q]. *)
Notation twp := (wp (λ (_ : fault) (_ : world), False)).

Lemma twp_run {A} (m : M world A) Q w : twp m Q w → ∃ a w', m w = (Ok a, w') ∧ Q a w'.
Proof. unfold wp. destruct (m w) as [[a|f] w'] eqn:E; [eauto|done]. Qed.

Lemma twp_and {A} E (m : M world A) Q Q' w :
  twp m Q w → wp E m Q' w → twp m (λ a w', Q a w' ∧ Q' a w') w.
Proof. unfold wp. by destruct (m w) as [[a|f] w']. Qed.

(** ** Calls *)

Lemma lift_os_run {A} (m : M os A) w a o :
  m (w_os w) = (Ok a, o) → lift_os m w = (Ok a, set_os o w).
Proof. unfold lift_os, zoom. by intros ->. Qed.

Lemma get_node_run p nd w : w_nodes w !! p = Some nd → get_node p w = (Ok nd, w).
Proof. intros Hp. unfold get_node. rewrite (bind_ok _ _ w (w_nodes w) w) by done. by rewrite Hp. Qed.

Lemma twp_expired t Q w a sc :
  started t = true → os_script (w_os w) = a :: sc → a_rv a ≠ -1 →
  (∀ o, os_script o = sc →
    Q ((tv_sec (a_time a) =? 0) && (tv_nsec (a_time a) =? 0)) (set_os o w)) →
  twp (lift_os (NodeTimer.expired t)) Q w.
Proof.
  intros Ht Hs Ha HQ. unfold NodeTimer.expired, timer_gettime. rewrite wp_lift_os. wp_simpl.
  rewrite Ht. wp_simpl. cbn [os_script os_trace]. rewrite Hs. wp_simpl. rewrite (proj2 (Z.eqb_neq _ _) Ha). wp_simpl.
  by apply HQ.
Qed.

Lemma twp_delete_node p nd Q w :
  w_nodes w !! p = Some nd →
  (∀ o, os_script o = os_script (w_os w) → Q tt (on_nodes (delete p) (set_os o w))) →
  twp (delete_node p) Q w.
Proof.
  intros Hp HQ. unfold delete_node, stopRegistrationTimer, NodeTimer.stop, timer_delete, sys_close.
  assert (HQ' : ∀ o t, os_script o = os_script (w_os w) →
    Q tt (on_nodes (delete p) (on_nodes (<[p:=t]>) (set_os o w)))).
  { intros o t Ho. unfold on_nodes at 1. wcbn. rewrite delete_insert_eq. by apply HQ. }
  unfold Socket.destroy. wgo. rewrite wp_lift_os. destruct (started (dn_regTimer nd)); wgo;
    rewrite wp_lift_os; (destruct (negb _); unfold sys_close); wgo;
    match goal with
    | |- Q tt (on_nodes _ (set_os ?o _)) => by apply (HQ' o)
    | |- _ => by apply HQ'
    end.
Qed.

(** A message the system takes whole. *)
Lemma sendMsg_at_once fd msg o a sc :
  msg ≠ [] → os_script o = a :: sc → length msg ≤ a_rv a →
  Socket.sendMsg fd msg o = (Ok (length msg : Z), Os sc (os_trace o ++ [SysSend fd msg])).
Proof.
  intros Hne Hs Ha. unfold Socket.sendMsg. simpl. unfold sys_send, mbind, M_bind, ask. rewrite Hs.
  cbn. replace (clamp (length msg) (a_rv a)) with (length msg : Z) by (unfold clamp; lia).
  rewrite Nat2Z.id, take_ge, drop_ge by lia. cbn.
  destruct (Z.ltb_spec (length msg) 0); [lia|]. rewrite Z.sub_diag. done.
Qed.

Lemma twp_send_message p nd len ty body msg a sc Q w :
  w_nodes w !! p = Some nd → dn_socket nd ≠ 0 →
  seal (out_hdr len ty (dn_socket nd)) body = Some msg →
  os_script (w_os w) = a :: sc → length msg ≤ a_rv a →
  Q (length msg : Z) (set_os (Os sc (os_trace (w_os w) ++ [SysSend (dn_sockfd nd) msg])) w) →
  twp (send_message p len ty body) Q w.
Proof.
  intros Hp Hsock Hm Hs Ha HQ. unfold send_message. wgo.
  rewrite (proj2 (Z.eqb_neq _ _) Hsock). cbn [negb]. wgo. rewrite Hm. wgo.
  rewrite wp_lift_os. unfold wp. rewrite (sendMsg_at_once _ _ _ a sc); [done| |done|done].
  intros ->. unfold seal in Hm. destruct (generate_checksum _); [|done]. cbn in Hm.
  apply (inj Some) in Hm. apply (f_equal length) in Hm. rewrite length_app, length_hdr_bytes in Hm.
  done.
Qed.

(** A message of a byte or none has a checksum. *)
Lemma seal_out h body :
  bytes_ok body → length body ≤ 65517 → ∃ msg, seal h body = Some msg ∧
    length msg = (18 + length body)%nat.
Proof.
  intros Hb Hl. unfold seal. rewrite generate_checksum_value.
  - cbn. eexists. split; [done|]. rewrite length_app, length_hdr_bytes. done.
  - unfold bytes_ok. rewrite Forall_app. split; [apply hdr_bytes_ok|done].
  - rewrite length_app, length_hdr_bytes. unfold HDR_SIZE. lia.
Qed.
