(* ===== verification/Examples.v ===== *)
(** Small concrete media, with the invariant: what the theorems are applied to. *)

From Stdlib Require Import ZArith Lia.
From stdpp Require Import base tactics list gmap numbers option strings.
From S2P Require Import Prelude Bytes TimeUtils Checksum Interface Os SocketIO State Spec.
From S2P Require Import DeviceNode NodeStates PhysicalMedium Invariant.

(** The iteration order a map lists its entries in. *)
#[local] Instance map_order : HashOrder := {| hash_order := map_to_list; hash_order_perm m := reflexivity _ |}.

(** A system with the answers [script] to give. *)
Definition os_of (script : list answer) : os := Os script [].
Definition ans (rv : Z) (data : list Z) : answer := Answer rv 0 data (Timespec 0 0) [] [].
Definition ans_time (rv : Z) (t : timespec) : answer := Answer rv 0 [] t [] [].
Definition ans_events (rv : Z) (evs : list epoll_event) : answer :=
  Answer rv 0 [] (Timespec 0 0) evs [].

Definition medium_of (st : PhysicalMediumState) (hash reg : gmap Z nat) (tx : list nat) : medium :=
  Medium st (Timespec 0 0) hash reg false [] tx 0 0 0.

(** Node [p], whose Socket is at address [4096 * (p + 1)] on descriptor [p + 5]. *)
Definition sock (p : nat) : Z := 4096 * (p + 1).
Definition reg_node (p : nat) : device_node :=
  set_dn_regTimer (set_started true (NodeTimer.make 0 0 REGISTRATION_TIME 0))
    (set_dn_medium true (DeviceNode_pimpl (sock p) (p + 5))).
Definition active_node (p : nat) : device_node :=
  set_dn_curState ActiveState (set_dn_medium true (DeviceNode_pimpl (sock p) (p + 5))).
Definition tx_node (p k : nat) : device_node :=
  set_dn_txPkt (Some k) (set_dn_curState TxState
    (set_dn_txTimer (set_started true (NodeTimer.make 0 0 0 4000000)) (active_node p))).
Definition pkt_of (p : nat) (frame : list Z) : NetSimPacket :=
  Packet (replicate 26 0 ++ le_bytes 2 (htons (length frame)) ++ replicate 6 0 ++ frame)
    (34 + length frame) p false 0.

(** No node; one registering node; one and two active nodes; one and two nodes
    transmitting. *)
Definition empty_world (sc : list answer) : world :=
  World (os_of sc) ∅ ∅ 0 (medium_of IDLE ∅ ∅ []).
Definition reg_world (sc : list answer) : world :=
  World (os_of sc) {[1%nat := reg_node 1]} ∅ 0 (medium_of IDLE ∅ {[sock 1 := 1%nat]} []).
Definition active_world (sc : list answer) : world :=
  World (os_of sc) {[1%nat := active_node 1]} ∅ 0 (medium_of IDLE {[sock 1 := 1%nat]} ∅ []).
Definition tx_world (sc : list answer) : world :=
  World (os_of sc) {[1%nat := tx_node 1 0]} {[0%nat := pkt_of 1 [7; 8; 9]]} 1
    (medium_of TX_802514_FRAME {[sock 1 := 1%nat]} ∅ [1%nat]).
Definition two_active_world (sc : list answer) : world :=
  World (os_of sc) (<[2%nat := active_node 2]> {[1%nat := active_node 1]}) ∅ 0
    (medium_of IDLE (<[sock 2 := 2%nat]> {[sock 1 := 1%nat]}) ∅ []).
Definition two_tx_world (sc : list answer) : world :=
  World (os_of sc) (<[2%nat := tx_node 2 1]> {[1%nat := tx_node 1 0]})
    (<[1%nat := pkt_of 2 [1; 2]]> {[0%nat := pkt_of 1 [7; 8; 9]]}) 2
    (medium_of TX_802514_FRAME (<[sock 2 := 2%nat]> {[sock 1 := 1%nat]}) ∅ [1%nat; 2%nat]).

(** ** The invariant, one move at a time *)

Lemma InvS_empty nx : InvS ∅ ∅ nx ∅ ∅ [] [].
Proof.
  split; try (intros *; rewrite ?lookup_empty; discriminate).
  - constructor.
  - intros p []%not_elem_of_nil.
  - intros k []. discriminate.
Qed.

(** What is left of the side conditions of a move on a concrete world. *)
Ltac concrete := try done; try (apply not_elem_of_nil); try (by apply list_elem_of_singleton);
  try (intros q nq Hq; revert Hq; rewrite ?lookup_insert_Some, ?lookup_singleton_Some; naive_solver).

Lemma InvS_reg1 : InvS {[1%nat := reg_node 1]} ∅ 0 {[sock 1 := 1%nat]} ∅ [] [].
Proof. apply (InvS_add (InvS_empty 0) 1 (reg_node 1)); concrete. Qed.

Lemma InvS_active1 : InvS {[1%nat := active_node 1]} ∅ 0 ∅ {[sock 1 := 1%nat]} [] [].
Proof. refine (InvS_register InvS_reg1 1 (reg_node 1) (active_node 1) _ _ _ _ _ _ _ _); concrete. Qed.

Lemma InvS_tx1 :
  InvS {[1%nat := tx_node 1 0]} {[0%nat := pkt_of 1 [7; 8; 9]]} 1 ∅ {[sock 1 := 1%nat]} [] [1%nat].
Proof.
  refine (InvS_start_tx InvS_active1 1 (active_node 1) (tx_node 1 0) (pkt_of 1 [7; 8; 9])
    _ _ _ _ _ _ _ _ _); concrete.
Qed.

Lemma Inv_empty sc : Inv (empty_world sc).
Proof. split; [apply InvS_empty|done]. Qed.
Lemma Inv_reg sc : Inv (reg_world sc).
Proof. split; [apply InvS_reg1|done]. Qed.
Lemma Inv_active sc : Inv (active_world sc).
Proof. split; [apply InvS_active1|done]. Qed.
Lemma Inv_tx sc : Inv (tx_world sc).
Proof. split; [apply InvS_tx1|done]. Qed.

(** ** The media with two nodes *)

Lemma InvS_two_reg :
  InvS (<[2%nat := reg_node 2]> {[1%nat := active_node 1]}) ∅ 0
    {[sock 2 := 2%nat]} {[sock 1 := 1%nat]} [] [].
Proof. refine (InvS_add InvS_active1 2 (reg_node 2) _ _ _ _ _ _ _ _ _); concrete. Qed.

Lemma InvS_two_active :
  InvS (<[2%nat := active_node 2]> {[1%nat := active_node 1]}) ∅ 0
    ∅ (<[sock 2 := 2%nat]> {[sock 1 := 1%nat]}) [] [].
Proof. refine (InvS_register InvS_two_reg 2 (reg_node 2) (active_node 2) _ _ _ _ _ _ _ _); concrete. Qed.

Lemma InvS_two_tx1 :
  InvS (<[2%nat := active_node 2]> {[1%nat := tx_node 1 0]}) {[0%nat := pkt_of 1 [7; 8; 9]]} 1
    ∅ (<[sock 2 := 2%nat]> {[sock 1 := 1%nat]}) [] [1%nat].
Proof.
  refine (InvS_start_tx InvS_two_active 1 (active_node 1) (tx_node 1 0) (pkt_of 1 [7; 8; 9])
    _ _ _ _ _ _ _ _ _); concrete.
Qed.

Lemma InvS_two_tx :
  InvS (<[2%nat := tx_node 2 1]> {[1%nat := tx_node 1 0]})
    (<[1%nat := pkt_of 2 [1; 2]]> {[0%nat := pkt_of 1 [7; 8; 9]]}) 2
    ∅ (<[sock 2 := 2%nat]> {[sock 1 := 1%nat]}) [] [1%nat; 2%nat].
Proof.
  refine (InvS_start_tx InvS_two_tx1 2 (active_node 2) (tx_node 2 1) (pkt_of 2 [1; 2])
    _ _ _ _ _ _ _ _ _); concrete.
Qed.

Lemma Inv_two_active sc : Inv (two_active_world sc).
Proof. split; [apply InvS_two_active|done]. Qed.
Lemma Inv_two_tx sc : Inv (two_tx_world sc).
Proof. split; [apply InvS_two_tx|done]. Qed.

(** None of them is unclean. *)
Lemma Clean_two_tx sc : Clean (two_tx_world sc).
Proof.
  split; cbn.
  - intros p [-> |[-> |[]%not_elem_of_nil]%elem_of_cons]%elem_of_cons; eauto.
  - intros k. rewrite lookup_insert_is_Some, lookup_singleton_is_Some.
    intros [<-|[_ <-]]; [exists 2%nat|exists 1%nat]; eexists; done.
Qed.
Lemma Clean_tx sc : Clean (tx_world sc).
Proof.
  split; cbn.
  - intros p ->%list_elem_of_singleton. eauto.
  - intros k. rewrite lookup_singleton_is_Some. intros <-. exists 1%nat. eexists; done.
Qed.
Lemma Clean_active sc : Clean (active_world sc).
Proof. split; cbn; [intros p []%not_elem_of_nil|intros k []; discriminate]. Qed.
