(* ===== verification/Safety.v ===== *)
(** Safety, termination and refinement of a medium's thread, and the one way it
    goes wrong: a node that leaves while it transmits. *)

From Stdlib Require Import ZArith Lia.
From stdpp Require Import base tactics list gmap numbers option strings relations.
From S2P Require Import Prelude Bytes TimeUtils Checksum Interface Os SocketIO State Spec.
From S2P Require Import DeviceNode NodeStates PhysicalMedium Invariant Preserve Follow Fuel.
From S2P Require Import MediumSafe Total Examples.

(** ** A registration that times out *)

(** The nodes of [l] whose timer reads zero in the answers [al]. *)
Definition timed_out_nodes (l : list (Z * nat)) (al : list answer) : list nat :=
  omap (λ '((_, p), a), if (tv_sec (a_time a) =? 0) && (tv_nsec (a_time a) =? 0)
                        then Some p else None) (zip l al).

Lemma timed_out_nodes_cons k p a l al :
  timed_out_nodes ((k, p) :: l) (a :: al) =
  if (tv_sec (a_time a) =? 0) && (tv_nsec (a_time a) =? 0)
  then p :: timed_out_nodes l al else timed_out_nodes l al.
Proof. unfold timed_out_nodes. simpl. by destruct (_ && _). Qed.

Lemma twp_expire_node p nd w :
  InvL w → w_nodes w !! p = Some nd → dn_curState nd = RegisteringState →
  pm_ccaList (w_medium w) = [] →
  twp (upd_medium (on_pm_regListMap (delete (dn_socket nd)));; handleRegTimerExpired p)
    (λ _ w', os_script (w_os w') = os_script (w_os w) ∧ timed_out w w' ∧
      pm_regListMap (w_medium w') = delete (dn_socket nd) (pm_regListMap (w_medium w)) ∧
      w_nodes w' = delete p (w_nodes w)) w.
Proof.
  intros I Hp Hs Hc. eapply twp_and; [|by apply wp_expire_node].
  unfold handleRegTimerExpired, on_curState, Registering.handleRegTimerExpired. wgo. rewrite Hs. wgo.
  eapply twp_delete_node; [by wcbn|]. intros o Ho. wgo. exact Ho.
Qed.

Lemma twp_regTimeout_loop l al sc w :
  InvL w → pm_ccaList (w_medium w) = [] → NoDup (l.*1) →
  (∀ k p, (k, p) ∈ l → pm_regListMap (w_medium w) !! k = Some p) →
  os_script (w_os w) = al ++ sc → length al = length l → Forall (λ a, a_rv a ≠ -1) al →
  twp (regTimeout_loop l) (λ _ w', os_script (w_os w') = sc ∧
    ∀ q, w_nodes w' !! q = if decide (q ∈ timed_out_nodes l al) then None else w_nodes w !! q) w.
Proof.
  revert al w. induction l as [|[k p] l IH]; intros [|a al] w I Hc Hnd Hl Hsc Hlen Hal;
    try done; simpl.
  destruct (i_reg _ _ _ _ _ _ _ I k p) as (nd & Hp & Hk & Hs); [apply Hl; set_solver|].
  simpl in Hnd. apply NoDup_cons in Hnd as [Hkl Hnd]. apply Forall_cons in Hal as [Ha Hal].
  pose proof (nk_regTimer _ _ _ _ _ _ (i_node _ _ _ _ _ _ _ I p nd Hp)) as Ht.
  rewrite Hs, bool_decide_true in Ht by done. injection Hlen as Hlen.
  unfold getNodeId, hasRegTimerExpired. wgo. subst k. rewrite Z.eqb_refl. wgo.
  eapply twp_expired; [done|exact Hsc|done|]. intros o Ho.
  rewrite timed_out_nodes_cons.
  destruct ((tv_sec (a_time a) =? 0) && (tv_nsec (a_time a) =? 0)); rewrite wp_bind, wp_whenb.
  - eapply wp_mono; [by apply (twp_expire_node p nd (set_os o w))|].
    intros ? w1 (Hsc1 & (I1 & _ & _ & Hc1 & _) & Hr1 & Hn1).
    eapply wp_mono; [apply (IH al); try done|].
    + by rewrite Hc1.
    + intros k q Hkq. rewrite Hr1, lookup_delete_ne; [apply Hl; set_solver|].
      intros Heq. apply Hkl. rewrite Heq. apply list_elem_of_fmap. by exists (k, q).
    + rewrite Hsc1. exact Ho.
    + intros ? w' [Hsc' Hn']. split; [done|]. intros q. rewrite Hn', Hn1. cbn [set_os w_nodes].
      destruct (decide (q = p)) as [-> |Hne].
      * rewrite lookup_delete_eq. rewrite (decide_True _ _ (list_elem_of_here _ _)).
        by case_decide.
      * rewrite lookup_delete_ne by done. apply decide_ext. rewrite elem_of_cons. tauto.
  - wgo. eapply wp_mono; [apply (IH al (set_os o w)); try done|].
    + intros k q Hkq. apply Hl. set_solver.
    + intros ? w' [Hsc' Hn']. split; [done|]. intros q. by rewrite Hn'.
Qed.

(** ** Theorems *)

(** C1: the thread of a medium is safe, whatever the nodes send and whatever the
    system answers: from a medium that satisfies the invariant, with no CCA
    request waiting, run either returns with the invariant and the medium
    STOPPED, or fails with a fault that is no bad access to an object, no
    deadlock and no endless loop; the only exception is the use of a node that
    was deleted while the Tx list still pointed to it, and then the list does so
    when the fault happens. *)
Theorem run_safe `{HO : HashOrder} {C : CollisionCheck} `{CO : !CollisionCheckOk C}
    `{FC : !FollowsCheck C} (w : world) :
  Inv w → pm_ccaList (w_medium w) = [] →
  wp (λ f w', benign f ∨ f = Undef UseAfterFree ∧ ∃ p, p ∈ pm_txList (w_medium w') ∧ ¬ live w' p)
    run (λ _ w', Inv w' ∧ pm_state (w_medium w') = STOPPED) w.
Proof.
  intros I Hc. eapply wp_mono; [by apply wp_medium_run|]. by intros ? w' (? & _ & ?).
Qed.

Lemma run_safe_witness : Inv (two_tx_world []) ∧
  wp (λ f w', benign f ∨ f = Undef UseAfterFree ∧ ∃ p, p ∈ pm_txList (w_medium w') ∧ ¬ live w' p)
    (run (H := map_order) (H0 := powerline)) (λ _ w', Inv w' ∧ pm_state (w_medium w') = STOPPED)
    (two_tx_world []).
Proof.
  split; [apply Inv_two_tx|].
  exact (run_safe (HO := map_order) (C := powerline) (two_tx_world []) (Inv_two_tx []) eq_refl).
Defined.


(** Node 1 hangs up, then the medium is told to stop. *)
Definition hangup_script : list answer :=
  [ans_time 0 (Timespec 10 0); ans 0 [];
   ans_events 2 [EpollEvent EPOLLRDHUP (PtrNode 1); EpollEvent EPOLLIN PtrUnblocker]].






(** C4: whatever bytes a node sends, readMsg keeps the invariant of the medium;
    it changes no other node and not the medium's state, the node makes at most
    one step of the specification, and it adds nothing but itself to the CCA
    list; its faults are benign. *)
Theorem readMsg_safe (p : nat) (w : world) :
  Inv w → live w p → p ∉ pm_ccaList (w_medium w) →
  wp (λ f _, benign f) (readMsg p) (λ _ w', Inv w' ∧
    (∀ q, q ≠ p → w_nodes w' !! q = w_nodes w !! q) ∧
    spec_step1 (by_node p) (phases w) (phases w') ∧
    pm_state (w_medium w') = pm_state (w_medium w) ∧
    (pm_ccaList (w_medium w') = pm_ccaList (w_medium w) ∨
     pm_ccaList (w_medium w') = pm_ccaList (w_medium w) ++ [p])) w.
Proof.
  intros I [nd Hp] Hc. eapply wp_mono; [by apply (wp_readMsg p nd)|].
  by intros ? w' (? & ? & ? & ? & _ & _ & ?).
Qed.

Lemma readMsg_safe_witness :
  let w := two_tx_world [ans 2 [0; 18]; ans 0 []; ans 16 []] in
  wp (λ f _, benign f) (readMsg 1) (λ _ w', Inv w' ∧
    (∀ q, q ≠ 1%nat → w_nodes w' !! q = w_nodes w !! q) ∧
    spec_step1 (by_node 1) (phases w) (phases w') ∧
    pm_state (w_medium w') = pm_state (w_medium w) ∧
    (pm_ccaList (w_medium w') = pm_ccaList (w_medium w) ∨
     pm_ccaList (w_medium w') = pm_ccaList (w_medium w) ++ [1%nat])) w.
Proof.
  apply (readMsg_safe 1); [apply Inv_two_tx|by eexists|apply not_elem_of_nil].
Defined.



(** C26: checkNodeRegistrationTimeout reads the timer of every registering node
    once and deletes exactly those that have run out; the invariant holds again,
    the nodes that are registered are not touched, and the order in which the map
    is visited does not matter but for which answer belongs to which node. *)
Theorem checkNodeRegistrationTimeout_spec `{HO : HashOrder} (w : world) (al sc : list answer) :
  Inv w → pm_ccaList (w_medium w) = [] →
  os_script (w_os w) = al ++ sc → length al = size (pm_regListMap (w_medium w)) →
  Forall (λ a, a_rv a ≠ -1) al →
  ∃ w', checkNodeRegistrationTimeout w = (Ok tt, w') ∧ Inv w' ∧
    os_script (w_os w') = sc ∧
    ∀ q, w_nodes w' !! q =
      if decide (q ∈ timed_out_nodes (hash_order (pm_regListMap (w_medium w))) al)
      then None else w_nodes w !! q.
Proof.
  intros I Hc Hsc Hlen Hal.
  assert (H : twp checkNodeRegistrationTimeout (λ _ w', (os_script (w_os w') = sc ∧
    ∀ q, w_nodes w' !! q =
      if decide (q ∈ timed_out_nodes (hash_order (pm_regListMap (w_medium w))) al)
      then None else w_nodes w !! q) ∧ Inv w') w).
  { eapply wp_mono; [eapply twp_and; [|by apply wp_checkNodeRegistrationTimeout]|].
    2: { intros ? w' [H (I' & _)]. exact (conj H I'). }
    destruct I as [I Hm]. unfold checkNodeRegistrationTimeout. wgo. rewrite Hm. wgo.
    eapply wp_mono; [apply (twp_regTimeout_loop _ al sc); try done|].
    - apply hash_order_NoDup.
    - intros k p. apply elem_of_hash_order.
    - rewrite Hlen. rewrite (Permutation_length (hash_order_perm _)).
      by rewrite length_map_to_list.
    - intros ? w' H. wgo. exact H. }
  destruct (twp_run _ _ _ H) as ([] & w' & E & (? & ?) & ?). eauto 6.
Qed.

Lemma checkNodeRegistrationTimeout_spec_witness :
  let w := reg_world [ans_time 0 (Timespec 0 0)] in
  ∃ w', checkNodeRegistrationTimeout (H := map_order) w = (Ok tt, w') ∧ Inv w' ∧
    w_nodes w' !! 1%nat = None.
Proof.
  destruct (checkNodeRegistrationTimeout_spec (HO := map_order)
    (reg_world [ans_time 0 (Timespec 0 0)]) [ans_time 0 (Timespec 0 0)] [])
    as (w' & E & I & _ & Hn); try done.
  - apply Inv_reg.
  - by repeat constructor.
  - exists w'. split; [exact E|split; [exact I|]]. rewrite Hn. vm_compute. reflexivity.
Defined.
