(* ===== verification/Messages.v ===== *)
(** The messages on the wire: what one side seals the other accepts, what was
    changed on the way is dropped, and what readMsg does with lengths it does not
    expect. *)

From Stdlib Require Import ZArith Lia.
From stdpp Require Import base tactics list gmap numbers option strings.
From S2P Require Import Prelude Bytes TimeUtils Checksum Interface Os SocketIO State Spec.
From S2P Require Import DeviceNode NodeStates PhysicalMedium Invariant Preserve Total Examples.

(** ** Layout

    A message is two bytes of length, fourteen of type, version and node id, two
    of checksum, and the body. *)

Definition hdr_mid (h : netsim_pkt_hdr) : list Z :=
  le_bytes 2 (hdr_msg_type h) ++ le_bytes 4 (hdr_interface_version h) ++ le_bytes 8 (hdr_node_id h).

Lemma hdr_bytes_split h body :
  hdr_bytes h ++ body = le_bytes 2 (hdr_len h) ++ hdr_mid h ++ le_bytes 2 (hdr_cksum h) ++ body.
Proof. unfold hdr_bytes, hdr_mid. by rewrite <-!app_assoc. Qed.

Lemma length_hdr_mid h : length (hdr_mid h) = 14%nat.
Proof. unfold hdr_mid. by rewrite !length_app, !length_le_bytes. Qed.

Lemma hdr_mid_ok h : bytes_ok (hdr_mid h).
Proof. unfold hdr_mid, bytes_ok. rewrite !Forall_app. split_and!; apply le_bytes_ok. Qed.

(** The buffer the checksum is computed on. *)
Definition blank (len : Z) (mid body : list Z) : list Z :=
  le_bytes 2 (htons len) ++ mid ++ le_bytes 2 0 ++ body.

Lemma length_blank len mid body : length (blank len mid body) = (4 + length mid + length body)%nat.
Proof. unfold blank. rewrite !length_app, !length_le_bytes. lia. Qed.

Lemma blank_ok len mid body : bytes_ok mid → bytes_ok body → bytes_ok (blank len mid body).
Proof.
  intros Hm Hb. unfold blank, bytes_ok. rewrite !Forall_app.
  split_and!; [apply le_bytes_ok|done|apply le_bytes_ok|done].
Qed.

Lemma hdr_of_bytes_total b : (HDR_SIZE ≤ length b)%nat → ∃ h, hdr_of_bytes b = Some h.
Proof.
  unfold HDR_SIZE, hdr_of_bytes, OFF_len, OFF_msg_type, OFF_interface_version, OFF_node_id, OFF_cksum.
  intros Hb. rewrite !load_Some by lia. simpl. eauto.
Qed.

(** ** process_msg on a whole message *)

(** The end of process_msg, once the checksum is right. *)
Definition accept_msg (p : nat) (hdr : netsim_pkt_hdr) (msgData : list Z) : M world unit :=
  nd ← get_node p;
  cassert (ntohll (hdr_node_id hdr) =? dn_socket nd) "nodeId == (uint64_t)pimpl->socket";;
  if negb (ntohl (hdr_interface_version hdr) =? NETSIM_INTERFACE_VERSION) then mret tt
  else dispatch p (ntohs (hdr_msg_type hdr)) msgData.

Lemma process_msg_whole p len a mid ck body w :
  length a = 2%nat → length mid = 14%nat → length ck = 2%nat →
  bytes_ok mid → bytes_ok body → 18 + length body ≤ 65535 →
  ∃ c hdr, generate_checksum (blank len mid body) = Some c ∧ fits 2 c ∧
    hdr_of_bytes (blank len mid body) = Some hdr ∧
    process_msg p len (a ++ mid ++ ck ++ body) w =
      if negb (c =? ntohs (le_val ck)) then (Ok tt, w)
      else accept_msg p hdr (blank len mid body) w.
Proof.
  intros Ha Hm Hc Hmok Hbok Hlen.
  assert (Hl : length (blank len mid body) ≤ 65535) by (rewrite length_blank; lia).
  destruct (generate_checksum (blank len mid body)) as [c|] eqn:Hg.
  2: { rewrite generate_checksum_value in Hg by (done || by apply blank_ok). done. }
  destruct (hdr_of_bytes_total (blank len mid body)) as [hdr Hh].
  { rewrite length_blank. unfold HDR_SIZE. lia. }
  exists c, hdr. split; [done|].
  split; [by apply (generate_checksum_range (blank len mid body)); [apply blank_ok|..]|].
  split; [done|]. unfold process_msg, some_or.
  rewrite (load_at (a ++ mid ++ ck ++ body) (a ++ mid) ck body)
    by first [by rewrite <-app_assoc | by rewrite length_app, Ha, Hm | done].
  rewrite (store_at (a ++ mid ++ ck ++ body) (a ++ mid) ck (le_bytes 2 0) body OFF_cksum
    (a ++ mid ++ le_bytes 2 0 ++ body))
    by first [by rewrite <-app_assoc | by rewrite length_app, Ha, Hm | done].
  unfold mbind, M_bind. cbn [mret M_ret].
  rewrite (store_at (a ++ mid ++ le_bytes 2 0 ++ body) [] a (le_bytes 2 (htons len))
    (mid ++ le_bytes 2 0 ++ body) OFF_len (blank len mid body)) by done.
  cbn [mret M_ret]. rewrite Hg. cbn [mret M_ret].
  destruct (negb (c =? _)); [done|]. by rewrite Hh.
Qed.

(** ** readMsg on a message that arrives in two pieces *)

Lemma sys_recv_all fd (n : Z) data s e tm evs fds sc :
  bytes_ok data → n = length data → os_script s = Answer n e data tm evs fds :: sc →
  sys_recv fd n s = (Ok (n, data), Os sc (os_trace s ++ [SysRecv fd n])).
Proof.
  intros Hd -> Hs. unfold sys_recv, mbind, M_bind, emit, modify, ask. cbn. rewrite Hs. cbn.
  rewrite clamp_id by lia. rewrite Nat2Z.id, bytes_of_id by done. done.
Qed.

(** The three answers a message of [lenb ++ rest] takes: the length, the fresh
    memory, and the rest. *)
Definition arrives (lenb rest : list Z) (fresh : answer) (sc : list answer) : list answer :=
  ans 2 lenb :: fresh :: ans (length rest) rest :: sc.

(** The world when the message has been received. *)
Definition received (fd len : Z) (sc : list answer) (w : world) : world :=
  set_os (Os sc (os_trace (w_os w) ++ [SysRecv fd 2; SysRecv fd (len - 2)])) w.

Lemma recv_body_run fd rest fresh sc w :
  bytes_ok rest → 2 + length rest < 65536 →
  os_script (w_os w) = fresh :: ans (length rest) rest :: sc →
  recv_body fd (2 + length rest) w =
    (Ok (length rest : Z, take 2 (bytes_of (2 + length rest) (a_data fresh)) ++ rest),
     set_os (Os sc (os_trace (w_os w) ++ [SysRecv fd (length rest)])) w).
Proof.
  intros Hrb Hmax Hsc. unfold recv_body.
  erewrite bind_ok.
  2: { apply lift_os_run. unfold sys_malloc, mbind, M_bind, ask. by rewrite Hsc. }
  replace (to_unsigned 64 (2 + length rest - 2)) with (length rest : Z)
    by (rewrite to_unsigned_small; lia).
  erewrite bind_ok by (apply lift_os_run; eapply sys_recv_all; [exact Hrb|done|reflexivity]).
  cbn beta iota. replace (Z.to_nat (2 + length rest)) with (2 + length rest)%nat by lia.
  replace (match rest with [] => _ | _ => _ end)
    with (Some (take 2 (bytes_of (2 + length rest) (a_data fresh)) ++ rest)); [done|].
  destruct rest as [|b rest].
  - rewrite take_ge, app_nil_r; [done|]. rewrite length_bytes_of. simpl. lia.
  - rewrite store_Some by (rewrite length_bytes_of; lia).
    rewrite (drop_ge _ (2 + length (b :: rest))) by (rewrite length_bytes_of; lia).
    by rewrite app_nil_r.
Qed.

Lemma readMsg_recv p nd lenb rest fresh sc w :
  w_nodes w !! p = Some nd → length lenb = 2%nat → bytes_ok lenb → bytes_ok rest →
  8 ≤ le_val lenb → ntohs (le_val lenb) = 2 + length rest →
  os_script (w_os w) = arrives lenb rest fresh sc →
  ∃ a, length a = 2%nat ∧
    readMsg p w = (if length rest =? EAGAIN then count_failed_read p
                   else process_msg p (2 + length rest) (a ++ rest))
                    (received (dn_sockfd nd) (2 + length rest) sc w).
Proof.
  intros Hp Hl2 Hlb Hrb Hraw Hlen Hsc.
  exists (take 2 (bytes_of (2 + length rest) (a_data fresh))).
  split; [rewrite length_take, length_bytes_of; lia|].
  unfold readMsg. erewrite bind_ok by by apply get_node_run.
  erewrite bind_ok by (apply lift_os_run; eapply sys_recv_all; [exact Hlb|by rewrite Hl2|exact Hsc]).
  cbn beta iota. change (2 =? EAGAIN) with false. cbn iota.
  erewrite bind_ok by done. rewrite (proj2 (Z.leb_le 8 (le_val lenb)) Hraw).
  erewrite bind_ok by done. rewrite Hlen.
  assert (Hmax : 2 + length rest < 65536).
  { rewrite <-Hlen. apply (bswap_fits 2). }
  erewrite bind_ok by (by apply recv_body_run).
  cbn beta iota. unfold received. cbn [os_trace set_os w_os]. rewrite <-app_assoc.
  replace (2 + length rest - 2) with (length rest : Z) by lia.
  by destruct (length rest =? EAGAIN).
Qed.

Lemma readMsg_arrives p nd lenb rest fresh sc w :
  w_nodes w !! p = Some nd → length lenb = 2%nat → bytes_ok lenb → bytes_ok rest →
  8 ≤ le_val lenb → (16 ≤ length rest)%nat → ntohs (le_val lenb) = 2 + length rest →
  os_script (w_os w) = arrives lenb rest fresh sc →
  ∃ a, length a = 2%nat ∧
    readMsg p w = process_msg p (2 + length rest) (a ++ rest)
                    (received (dn_sockfd nd) (2 + length rest) sc w).
Proof.
  intros Hp Hl2 Hlb Hrb Hraw Hr Hlen Hsc.
  destruct (readMsg_recv p nd lenb rest fresh sc w) as (a & Ha & ->); try done.
  exists a. split; [done|].
  destruct (Z.eqb_spec (length rest) EAGAIN) as [He|_]; [unfold EAGAIN in He; lia|done].
Qed.

(** ** Sealed messages *)

(** A header as a sender fills it in, for a message of [len] bytes. *)
Definition sendable (h : netsim_pkt_hdr) (len : Z) : Prop :=
  hdr_fits h ∧ hdr_len h = htons len ∧ hdr_cksum h = 0.

Lemma seal_Some h body len :
  sendable h len → bytes_ok body → len = 18 + length body → len ≤ 65535 →
  ∃ c, generate_checksum (blank len (hdr_mid h) body) = Some c ∧ fits 2 c ∧
    blank len (hdr_mid h) body = hdr_bytes h ++ body ∧
    seal h body = Some (le_bytes 2 (htons len) ++ hdr_mid h ++ le_bytes 2 (htons c) ++ body).
Proof.
  intros (Hf & Hl & Hc) Hb Hlen Hmax.
  assert (Hbl : blank len (hdr_mid h) body = hdr_bytes h ++ body).
  { rewrite hdr_bytes_split, Hl, Hc. done. }
  assert (Hok : bytes_ok (blank len (hdr_mid h) body)) by (apply blank_ok; [apply hdr_mid_ok|done]).
  assert (Hlb : length (blank len (hdr_mid h) body) ≤ 65535).
  { rewrite length_blank, length_hdr_mid. lia. }
  pose proof (generate_checksum_value _ Hok Hlb) as Hg.
  eexists. split; [exact Hg|]. split; [by eapply generate_checksum_range|]. split; [done|].
  unfold seal. rewrite <-Hbl, Hg. cbn. f_equal. rewrite hdr_bytes_split. cbn. by rewrite Hl.
Qed.

Lemma le_val_length_field len : fits 2 len → ntohs (le_val (le_bytes 2 (htons len))) = len.
Proof.
  intros Hl. rewrite le_val_le_bytes by apply bswap_fits. by apply bswap_involutive.
Qed.

(** The message as the receiver's answers bring it. *)
Definition arrives_msg (m : list Z) (fresh : answer) (sc : list answer) : list answer :=
  arrives (take 2 m) (drop 2 m) fresh sc.

Lemma readMsg_fields p nd len mid ck body fresh sc w :
  w_nodes w !! p = Some nd → length mid = 14%nat → length ck = 2%nat →
  bytes_ok mid → bytes_ok ck → bytes_ok body → len = 18 + length body → len ≤ 65535 →
  8 ≤ htons len →
  os_script (w_os w) = arrives_msg (le_bytes 2 (htons len) ++ mid ++ ck ++ body) fresh sc →
  ∃ c hdr, generate_checksum (blank len mid body) = Some c ∧ fits 2 c ∧
    hdr_of_bytes (blank len mid body) = Some hdr ∧
    readMsg p w =
      if negb (c =? ntohs (le_val ck)) then (Ok tt, received (dn_sockfd nd) len sc w)
      else accept_msg p hdr (blank len mid body) (received (dn_sockfd nd) len sc w).
Proof.
  intros Hp Hm Hc Hmok Hcok Hbok Hlen Hmax Hraw Hsc.
  assert (Hfit : fits 2 len) by (unfold fits; change (256 ^ 2%nat) with 65536; lia).
  unfold arrives_msg in Hsc. rewrite take_app_length', drop_app_length' in Hsc by done.
  assert (Hl2 : 2 + length (mid ++ ck ++ body) = len) by (rewrite !length_app; lia).
  destruct (readMsg_arrives p nd (le_bytes 2 (htons len)) (mid ++ ck ++ body) fresh sc w)
    as (a & Ha & ->); try done.
  - apply le_bytes_ok.
  - unfold bytes_ok. rewrite !Forall_app. done.
  - rewrite le_val_le_bytes by apply bswap_fits. done.
  - rewrite !length_app. lia.
  - rewrite le_val_length_field by done. lia.
  - rewrite Hl2. apply process_msg_whole; try done. lia.
Qed.

(** The part of a message a changed byte is in. *)
Lemma insert_field (i : nat) (b : Z) (lenb mid ck body : list Z) :
  length lenb = 2%nat → length mid = 14%nat → length ck = 2%nat → (2 ≤ i)%nat →
  <[i := b]> (lenb ++ mid ++ ck ++ body) = lenb ++
    if decide (i < 16)%nat then <[(i - 2)%nat := b]> mid ++ ck ++ body
    else if decide (i < 18)%nat then mid ++ <[(i - 16)%nat := b]> ck ++ body
    else mid ++ ck ++ <[(i - 18)%nat := b]> body.
Proof.
  intros Hl Hm Hc Hi. rewrite insert_app_r_alt, Hl by lia. f_equal.
  case_decide; [by rewrite insert_app_l by lia|].
  rewrite insert_app_r_alt, Hm by lia.
  replace (i - 2 - 14)%nat with (i - 16)%nat by lia.
  case_decide; f_equal; [by rewrite insert_app_l by lia|].
  rewrite insert_app_r_alt, Hc by lia. do 2 f_equal. lia.
Qed.

Lemma lookup_field (i : nat) (b : Z) (lenb mid ck body : list Z) :
  length lenb = 2%nat → length mid = 14%nat → length ck = 2%nat → (2 ≤ i)%nat →
  (lenb ++ mid ++ ck ++ body) !! i =
    if decide (i < 16)%nat then mid !! (i - 2)%nat
    else if decide (i < 18)%nat then ck !! (i - 16)%nat
    else body !! (i - 18)%nat.
Proof.
  intros Hl Hm Hc Hi. rewrite lookup_app_r, Hl by lia.
  case_decide; [by rewrite lookup_app_l by lia|].
  rewrite lookup_app_r, Hm by lia. replace (i - 2 - 14)%nat with (i - 16)%nat by lia.
  case_decide; [by rewrite lookup_app_l by lia|].
  rewrite lookup_app_r, Hc by lia. f_equal. lia.
Qed.

Lemma blank_insert_neq len mid body mid' body' c c' i x b :
  bytes_ok (blank len mid body) → byte_ok b → length (blank len mid body) ≤ 65535 →
  blank len mid body !! i = Some x → x ≠ b →
  blank len mid' body' = <[i := b]> (blank len mid body) →
  generate_checksum (blank len mid body) = Some c →
  generate_checksum (blank len mid' body') = Some c' → c ≠ c'.
Proof.
  intros Hok Hb Hlen Hi Hne He Hc Hc' ->.
  apply (generate_checksum_insert_neq _ i x b Hok Hb Hlen Hi Hne). by rewrite Hc, <-He, Hc'.
Qed.

(** A CCA request of node 1 of the examples, sealed. *)
Definition cca_hdr : netsim_pkt_hdr := out_hdr 18 MSG_TYPE_CCA_REQ (sock 1).
Definition cca_msg : list Z := default [] (seal cca_hdr []).

Lemma cca_hdr_sendable : sendable cca_hdr 18.
Proof.
  split; [|done]. unfold hdr_fits, cca_hdr, out_hdr. cbn [hdr_len hdr_msg_type
    hdr_interface_version hdr_node_id hdr_cksum].
  split_and!; try apply bswap_fits. split; [done|]. by vm_compute.
Qed.

(** ** Theorems *)

Lemma readMsg_sealed_run (p : nat) (nd : device_node) (h : netsim_pkt_hdr) (body : list Z) (len : Z)
    (fresh : answer) (sc : list answer) (w : world) :
  w_nodes w !! p = Some nd → sendable h len → bytes_ok body →
  len = 18 + length body → len ≤ 65535 → 8 ≤ htons len →
  ntohll (hdr_node_id h) = dn_socket nd →
  ntohl (hdr_interface_version h) = NETSIM_INTERFACE_VERSION →
  ∃ m, seal h body = Some m ∧ (length m : Z) = len ∧
    (os_script (w_os w) = arrives_msg m fresh sc →
     readMsg p w = dispatch p (ntohs (hdr_msg_type h)) (hdr_bytes h ++ body)
                     (received (dn_sockfd nd) len sc w)).
Proof.
  intros Hp Hs Hb Hlen Hmax Hraw Hid Hver.
  destruct (seal_Some h body len Hs Hb Hlen Hmax) as (c & Hg & Hfit & Hbl & Hm).
  exists (le_bytes 2 (htons len) ++ hdr_mid h ++ le_bytes 2 (htons c) ++ body).
  split; [done|]. split; [rewrite !length_app, !length_le_bytes, length_hdr_mid; lia|].
  intros Hsc.
  destruct (readMsg_fields p nd len (hdr_mid h) (le_bytes 2 (htons c)) body fresh sc w)
    as (c' & hdr & Hg' & _ & Hh & ->); auto using length_hdr_mid, hdr_mid_ok, le_bytes_ok.
  - rewrite Hg in Hg'. injection Hg' as <-.
    rewrite le_val_le_bytes by apply bswap_fits. unfold ntohs, htons at 1.
    rewrite bswap_involutive, Z.eqb_refl by done. cbn [negb].
    destruct Hs as (Hf & _ & _). rewrite Hbl, hdr_of_bytes_bytes in Hh by done.
    injection Hh as <-. rewrite Hbl. unfold accept_msg.
    rewrite (bind_ok _ _ _ nd (received (dn_sockfd nd) len sc w)) by by apply get_node_run.
    rewrite Hid, Z.eqb_refl, Hver. done.
Qed.





(** The assertion on the length field is made before the field is converted
    from network order, and so stops the simulator at the lengths 0, 256, 512 and
    so on up to 1792, among them NETSIM_PKT_MAX_SZ, and at no other: after every
    other length, however short, the rest of the message is read. *)
Theorem readMsg_length_assert (p : nat) (nd : device_node) (len : Z) (sc : list answer) (w : world) :
  w_nodes w !! p = Some nd → fits 2 len →
  os_script (w_os w) = ans 2 (le_bytes 2 (htons len)) :: sc →
  let w1 := set_os (Os sc (os_trace (w_os w) ++ [SysRecv (dn_sockfd nd) 2])) w in
  readMsg p w =
    if (len mod 256 =? 0) && (len / 256 <? 8)
    then (Fail (AssertFail "len >= sizeof(hdr)"), w1)
    else ('(rv, msgData) ← recv_body (dn_sockfd nd) len;
          if rv =? EAGAIN then count_failed_read p else process_msg p len msgData) w1.
Proof.
  intros Hp Hfit Hsc w1. unfold readMsg. erewrite bind_ok by by apply get_node_run.
  erewrite bind_ok by (apply lift_os_run;
    by apply (sys_recv_all _ 2 (le_bytes 2 (htons len)) _ 0 (Timespec 0 0) [] [] sc (le_bytes_ok _ _))).
  cbn beta iota. change (2 =? EAGAIN) with false. cbn iota. erewrite bind_ok by done.
  rewrite le_val_length_field, le_val_le_bytes by (done || apply bswap_fits). fold (htons len).
  assert (Hraw : (8 <=? htons len) = negb ((len mod 256 =? 0) && (len / 256 <? 8))).
  { rewrite htons_value by done. unfold fits in Hfit. change (256 ^ 2%nat) with 65536 in Hfit.
    pose proof (Z.mod_pos_bound len 256). pose proof (Z.div_pos len 256).
    destruct (Z.eqb_spec (len mod 256) 0), (Z.ltb_spec (len / 256) 8); cbn;
      first [apply Z.leb_le|apply Z.leb_gt]; lia. }
  rewrite Hraw. destruct ((len mod 256 =? 0) && (len / 256 <? 8)); [by apply bind_fail|done].
Qed.

Lemma readMsg_length_assert_witness :
  let w := active_world [ans 2 (le_bytes 2 (htons NETSIM_PKT_MAX_SZ))] in
  readMsg 1 w = (Fail (AssertFail "len >= sizeof(hdr)"), set_os (Os [] [SysRecv 6 2]) w).
Proof.
  cbv zeta. rewrite (readMsg_length_assert 1 (active_node 1) NETSIM_PKT_MAX_SZ []).
  - reflexivity.
  - reflexivity.
  - vm_compute. split; [discriminate|reflexivity].
  - reflexivity.
Defined.

(** C40: a message that announces less than a header (2 to 17 bytes) is not
    refused: readMsg reads what it announces and then accesses fields outside the
    buffer, except that a message of 13 bytes, of which 11 are left to read, is
    counted as a failed read, because the count is compared with EAGAIN. *)
Theorem readMsg_short (p : nat) (nd : device_node) (rest : list Z) (fresh : answer)
    (sc : list answer) (w : world) :
  w_nodes w !! p = Some nd → bytes_ok rest → length rest < 16 →
  os_script (w_os w) = arrives (le_bytes 2 (htons (2 + length rest))) rest fresh sc →
  let w' := received (dn_sockfd nd) (2 + length rest) sc w in
  readMsg p w = if length rest =? 11 then count_failed_read p w'
                else (Fail (Undef OutOfBounds), w').
Proof.
  intros Hp Hrb Hr Hsc w'.
  assert (Hfit : fits 2 (2 + length rest)) by (unfold fits; change (256 ^ 2%nat) with 65536; lia).
  destruct (readMsg_recv p nd (le_bytes 2 (htons (2 + length rest))) rest fresh sc w)
    as (a & Ha & ->); try done.
  - apply le_bytes_ok.
  - rewrite le_val_le_bytes by apply bswap_fits. fold (htons (2 + length rest)).
    rewrite htons_value, Z.mod_small by (done || lia). pose proof (Z.div_pos (2 + length rest) 256). lia.
  - by apply le_val_length_field.
  - change EAGAIN with 11. destruct (length rest =? 11); [done|]. unfold process_msg.
    apply bind_fail. unfold OFF_cksum. by rewrite load_None by (rewrite length_app; lia).
Qed.

Lemma readMsg_short_witness :
  let w := active_world (arrives (le_bytes 2 (htons 5)) [1; 2; 3] (ans 0 []) []) in
  readMsg 1 w = (Fail (Undef OutOfBounds), received 6 5 [] w).
Proof.
  cbv zeta. rewrite (readMsg_short 1 (active_node 1) [1; 2; 3] (ans 0 []) []).
  - reflexivity.
  - reflexivity.
  - apply (bool_decide_unpack _). vm_compute. exact I.
  - vm_compute. reflexivity.
  - reflexivity.
Defined.
