(* ===== verification/TxLife.v ===== *)
(** The life of a transmission, as it happens when the system does what it is
    asked: a frame arrives and a timer is armed, the collision check marks the
    packets on the wire, the timer fires, the node is told the result and the
    frame is multicast or not; and the answers to the CCA requests made
    meanwhile. *)

From Stdlib Require Import ZArith Lia.
From stdpp Require Import base tactics list gmap numbers option strings.
From S2P Require Import Prelude Bytes TimeUtils Checksum Interface Os SocketIO State Spec.
From S2P Require Import DeviceNode NodeStates PhysicalMedium Invariant Preserve Fuel.
From S2P Require Import MediumSafe Total Examples.

(** ** The start *)

Lemma twp_start_ms t ms Q w a b sc :
  started t = false → os_script (w_os w) = a :: b :: sc → a_rv a ≠ -1 → a_rv b ≠ -1 →
  Q (set_started true (set_it_value (NodeTimer.ms_value ms) t))
    (set_os (Os sc (os_trace (w_os w) ++ [SysTimerCreate; SysTimerSet false (NodeTimer.ms_value ms)])) w) →
  twp (lift_os (NodeTimer.start_ms t ms)) Q w.
Proof.
  intros Ht Hs Ha Hb HQ. unfold NodeTimer.start_ms, NodeTimer.arm, timer_create, timer_settime.
  rewrite wp_lift_os, Ht. cbn [negb]. wp_simpl. cbn [os_script os_trace]. rewrite Hs. wp_simpl.
  rewrite (proj2 (Z.eqb_neq _ _) Ha). wp_simpl. cbn [os_script os_trace]. wp_simpl.
  rewrite (proj2 (Z.eqb_neq _ _) Hb). wp_simpl. by rewrite <-app_assoc in *.
Qed.

(** The transmitting node [handleDataIndication] makes of an active one. *)
Definition tx_started (k : nat) (ms : Z) (nd : device_node) : device_node :=
  set_dn_curState TxState (set_dn_txPkt (Some k)
    (set_dn_txTimer (set_started true (set_it_value (NodeTimer.ms_value ms) (dn_txTimer nd))) nd)).

(** The first byte of a message is the high byte of its length. *)
Lemma isAck_length buf len from col res :
  bytes_ok buf → (2 ≤ length buf)%nat → fits 2 len → load buf OFF_len 2 = Some (htons len) →
  NetSimPkt.isAck (Packet buf len from col res) = Some ((len / 256) mod 8 =? 2).
Proof.
  intros Hok Hl Hfit Hload. destruct buf as [|b0 [|b1 buf]]; [simpl in Hl; lia..|].
  apply list.Forall_cons in Hok as [H0 [H1 _]%list.Forall_cons].
  rewrite load_Some in Hload by (simpl; lia). cbn in Hload. injection Hload as Hv.
  rewrite htons_value in Hv by done. unfold byte_ok in *.
  unfold fits in Hfit. change (256 ^ 2%nat) with 65536 in Hfit.
  unfold le_val in Hv. pose proof (Z.mod_pos_bound len 256).
  assert (0 ≤ len / 256 < 256) by (split; [apply Z.div_pos; lia|apply Z.div_lt_upper_bound; lia]).
  assert (b0 = len / 256) as -> by lia.
  unfold NetSimPkt.isAck. cbn [pktBuffer]. rewrite load_Some by (simpl; lia). cbn.
  unfold le_val. rewrite Z.mul_0_r, Z.add_0_r. change 7 with (Z.ones 3). by rewrite Z.land_ones.
Qed.

Lemma handleDataIndication_run (p : nat) (nd : device_node) (buf : list Z) (len : Z)
    (a b : answer) (sc : list answer) (w : world) :
  Inv w → w_nodes w !! p = Some nd → dn_curState nd = ActiveState →
  len = length buf → 18 ≤ len ≤ 65535 → load buf OFF_len 2 = Some (htons len) → bytes_ok buf →
  os_script (w_os w) = a :: b :: sc → a_rv a ≠ -1 → a_rv b ≠ -1 →
  let ms := if (len / 256) mod 8 =? 2 then 0 else 4 in
  ∃ w', handleDataIndication p buf w = (Ok tt, w') ∧
    w_nodes w' = <[p := tx_started (w_next_pkt w) ms nd]> (w_nodes w) ∧
    w_pkts w' = <[w_next_pkt w := Packet buf len p false 0]> (w_pkts w) ∧
    w_medium w' = set_pm_txList (pm_txList (w_medium w) ++ [p]) (w_medium w) ∧
    w_os w' = Os sc (os_trace (w_os w) ++
      [SysTimerCreate; SysTimerSet false (if ms =? 0 then Timespec 0 1 else Timespec 0 4000000)]).
Proof.
  intros [I Hm] Hp Hs Hl Hlen Hload Hok Hsc Ha Hb ms.
  assert (Hfit : fits 2 len) by (unfold fits; change (256 ^ 2%nat) with 65536; lia).
  pose proof (i_node _ _ _ _ _ _ _ I p nd Hp) as [_ Hmed _ Ht _ _].
  rewrite Hs, bool_decide_false in Ht by done.
  assert (Hmake : NetSimPkt.make buf p = Some (Packet buf len p false 0)).
  { unfold NetSimPkt.make. rewrite Hload. cbn. unfold ntohs, htons. rewrite bswap_involutive by done.
    rewrite decide_True by lia. rewrite Hl, Nat2Z.id. by rewrite take_ge by lia. }
  assert (Hack : NetSimPkt.isAck (Packet buf len p false 0) = Some ((len / 256) mod 8 =? 2)).
  { apply isAck_length; try done. lia. }
  assert (H : twp (handleDataIndication p buf) (λ _ w',
    w_nodes w' = <[p := tx_started (w_next_pkt w) ms nd]> (w_nodes w) ∧
    w_pkts w' = <[w_next_pkt w := Packet buf len p false 0]> (w_pkts w) ∧
    w_medium w' = set_pm_txList (pm_txList (w_medium w) ++ [p]) (w_medium w) ∧
    w_os w' = Os sc (os_trace (w_os w) ++
      [SysTimerCreate; SysTimerSet false (NodeTimer.ms_value ms)])) w).
  { unfold handleDataIndication. wgo. rewrite Hmake. wgo. unfold on_curState. wgo. rewrite Hs.
    unfold Active.handleTxRequest, startTxTimer, setTxPacket, getMedium, addNodeToTxList, getNodeId.
    wgo. rewrite Hack. wgo. subst ms.
    destruct ((len / 256) mod 8 =? 2); wgo; (eapply twp_start_ms; [done|exact Hsc|done..|]);
      wgo; rewrite Hmed; wgo; rewrite !insert_insert_eq; done. }
  destruct (twp_run _ _ _ H) as ([] & w' & E & ? & ? & ? & Ho).
  exists w'. split_and!; [done..|]. rewrite Ho. subst ms. by destruct (_ =? 2).
Qed.

(** C14: an active node that hands in a frame of [len] bytes starts to transmit:
    the whole message becomes its packet, its Tx timer is armed once, it goes to
    the end of the Tx list and is in TxState; no other node changes.  The timer
    gets 4 ms, or 1 ns for an acknowledgement, and what tells the two apart is
    the high byte of the message's length, not the frame. *)
Theorem handleDataIndication_starts_tx (p : nat) (nd : device_node) (buf : list Z) (len : Z)
    (a b : answer) (sc : list answer) (w : world) :
  Inv w → w_nodes w !! p = Some nd → dn_curState nd = ActiveState →
  len = length buf → 18 ≤ len ≤ 65535 → load buf OFF_len 2 = Some (htons len) → bytes_ok buf →
  os_script (w_os w) = a :: b :: sc → a_rv a ≠ -1 → a_rv b ≠ -1 →
  let ms := if (len / 256) mod 8 =? 2 then 0 else 4 in
  ∃ w', handleDataIndication p buf w = (Ok tt, w') ∧
    w_nodes w' = <[p := tx_started (w_next_pkt w) ms nd]> (w_nodes w) ∧
    w_pkts w' = <[w_next_pkt w := Packet buf len p false 0]> (w_pkts w) ∧
    w_medium w' = set_pm_txList (pm_txList (w_medium w) ++ [p]) (w_medium w) ∧
    w_os w' = Os sc (os_trace (w_os w) ++
      [SysTimerCreate; SysTimerSet false (if ms =? 0 then Timespec 0 1 else Timespec 0 4000000)]).
Proof. apply handleDataIndication_run. Qed.

(** A frame of three bytes, as a message of 37. *)
Definition frame_msg : list Z := le_bytes 2 (htons 37) ++ replicate 32 0 ++ [7; 8; 9].

Lemma handleDataIndication_starts_tx_witness :
  let w := active_world [ans 0 []; ans 0 []] in
  ∃ w', handleDataIndication 1 frame_msg w = (Ok tt, w') ∧
    w_nodes w' = <[1%nat := tx_started 0 4 (active_node 1)]> (w_nodes w) ∧
    pm_txList (w_medium w') = [1%nat].
Proof.
  cbv zeta.
  destruct (handleDataIndication_starts_tx 1 (active_node 1) frame_msg 37 (ans 0 []) (ans 0 []) []
    (active_world [ans 0 []; ans 0 []])) as (w' & E & Hn & _ & Hm & _).
  - apply Inv_active.
  - reflexivity.
  - reflexivity.
  - reflexivity.
  - lia.
  - vm_compute. reflexivity.
  - apply (bool_decide_unpack _). vm_compute. exact I.
  - reflexivity.
  - vm_compute. discriminate.
  - vm_compute. discriminate.
  - exists w'. split; [exact E|split; [exact Hn|rewrite Hm; reflexivity]].
Defined.

(** ** The collision check *)

Lemma twp_collide_all l w :
  Inv w → Clean w → (∀ p, p ∈ l → p ∈ pm_txList (w_medium w)) →
  twp (PowerlineMedium.collide_all l) (λ _ w', w' = on_pkts (λ _, w_pkts w') w ∧
    ∀ k, w_pkts w' !! k =
      (λ pk, if decide (fromNode pk ∈ l) then set_collision true pk else pk) <$> w_pkts w !! k) w.
Proof.
  revert w. induction l as [|p l IH]; intros w I Cw Hl; simpl; wgo.
  { split; [by destruct w|]. intros k. destruct (w_pkts w !! k) as [pk|]; done. }
  destruct (c_tx _ _ _ Cw p) as [nd Hnd]; [by apply Hl; left|].
  destruct (InvS_txstate p nd (proj1 I) Hnd) as (Hs & _ & k & pk & Hk & Hpk & Hf); [by apply Hl; left|].
  unfold getTxPacket. wgo. rewrite Hk. wgo.
  eapply wp_mono; [apply IH|].
  - destruct I as [I Hm]. split; [|done]. by eapply (InvS_pkt I).
  - by eapply (CleanS_pkt Cw).
  - intros q Hq. apply Hl. by right.
  - intros ? w' [Hw' Hpk']. split; [by rewrite Hw'|]. intros j. rewrite Hpk'. wcbn.
    destruct (decide (j = k)) as [->|Hne].
    + rewrite lookup_insert_eq, Hpk. simpl. rewrite Hf.
      rewrite (decide_True _ _ (list_elem_of_here _ _)). by case_decide.
    + rewrite lookup_insert_ne by done. destruct (w_pkts w !! j) as [pj|] eqn:Hj; [|done]. simpl.
      f_equal. apply decide_ext. rewrite elem_of_cons. split; [by right|]. intros [He|?]; [|done].
      exfalso. apply Hne. destruct (c_pkt _ _ _ Cw j) as (q & nq & Hq & Hqk); [eauto|].
      pose proof (nk_pkt _ _ _ _ _ _ (i_node _ _ _ _ _ _ _ (proj1 I) q nq Hq)) as Hqp.
      destruct (dn_curState nq); [by destruct Hqp; congruence..|].
      destruct Hqp as (_ & k' & pk' & ? & ? & ?). simplify_eq. congruence.
Qed.

(** Every packet on the wire belongs to a node of the Tx list. *)
Lemma pkt_transmits w k pk :
  Inv w → Clean w → w_pkts w !! k = Some pk → fromNode pk ∈ pm_txList (w_medium w).
Proof.
  intros [I _] Cw Hk. destruct (c_pkt _ _ _ Cw k) as (q & nq & Hq & Hqk); [eauto|].
  pose proof (nk_pkt _ _ _ _ _ _ (i_node _ _ _ _ _ _ _ I q nq Hq)) as Hqp.
  destruct (dn_curState nq); [by destruct Hqp; congruence..|].
  destruct Hqp as (Hin & k' & pk' & ? & ? & ?). simplify_eq. done.
Qed.

(** On a powerline medium every packet on the wire has collided as soon as
    two nodes transmit at once, and none has by a single transmission; the check
    changes nothing else, and it never fails on a clean Tx list. *)
Theorem powerline_collision_check (w : world) :
  Inv w → Clean w →
  ∃ w', PowerlineMedium.txCollisionCheck w = (Ok tt, w') ∧
    w' = on_pkts (λ _, w_pkts w') w ∧
    ∀ k, w_pkts w' !! k =
      (if bool_decide (2 ≤ length (pm_txList (w_medium w)))%nat then set_collision true else id)
        <$> w_pkts w !! k.
Proof.
  intros I Cw.
  assert (H : twp PowerlineMedium.txCollisionCheck (λ _ w', w' = on_pkts (λ _, w_pkts w') w ∧
    ∀ k, w_pkts w' !! k =
      (if bool_decide (2 ≤ length (pm_txList (w_medium w)))%nat then set_collision true else id)
        <$> w_pkts w !! k) w).
  { unfold PowerlineMedium.txCollisionCheck. wgo.
    rewrite (bool_decide_ext (1 < length (pm_txList (w_medium w)))
      (2 ≤ length (pm_txList (w_medium w)))%nat) by lia.
    case_bool_decide.
    - eapply wp_mono; [by apply twp_collide_all|]. intros ? w' [Hw' Hpk]. split; [done|].
      intros k. rewrite Hpk. destruct (w_pkts w !! k) as [pk|] eqn:Hk; [|done]. simpl.
      by rewrite decide_True by by eapply pkt_transmits.
    - split; [by destruct w|]. intros k. by rewrite option_fmap_id. }
  destruct (twp_run _ _ _ H) as ([] & w' & E & ?). eauto.
Qed.

Lemma powerline_collision_check_witness :
  ∃ w', PowerlineMedium.txCollisionCheck (two_tx_world []) = (Ok tt, w') ∧
    w_pkts w' !! 0%nat = Some (set_collision true (pkt_of 1 [7; 8; 9])) ∧
    w_pkts w' !! 1%nat = Some (set_collision true (pkt_of 2 [1; 2])).
Proof.
  destruct (powerline_collision_check (two_tx_world []) (Inv_two_tx []) (Clean_two_tx []))
    as (w' & E & _ & Hk). exists w'. split; [exact E|]. rewrite !Hk. split; reflexivity.
Defined.

(** ** The end *)

(** A data message by its fields, and the fields of a whole one. *)
Definition data_buf (pre ck src psdu opt : list Z) (rssi : Z) (data : list Z) : list Z :=
  pre ++ ck ++ src ++ psdu ++ opt ++ [rssi] ++ data.

Record data_ok (pre src psdu opt data : list Z) : Prop := {
  do_pre : length pre = 16%nat;
  do_src : length src = 8%nat;
  do_psdu : length psdu = 2%nat;
  do_opt : length opt = 5%nat;
  do_bytes : bytes_ok (pre ++ src ++ psdu ++ opt ++ data);
  do_max : 34 + length data ≤ 65535;
  do_len : ntohs (le_val psdu) ≤ length data
}.

Lemma data_buf_ok pre ck src psdu opt rssi data :
  data_ok pre src psdu opt data → bytes_ok ck → byte_ok rssi →
  bytes_ok (data_buf pre ck src psdu opt rssi data).
Proof.
  intros D Hc Hr. pose proof (do_bytes _ _ _ _ _ D) as H. unfold data_buf, bytes_ok in *.
  rewrite !Forall_app in *. rewrite list.Forall_singleton. tauto.
Qed.

Lemma length_data_buf pre ck src psdu opt rssi data :
  data_ok pre src psdu opt data → length ck = 2%nat →
  length (data_buf pre ck src psdu opt rssi data) = (34 + length data)%nat.
Proof.
  intros [H1 H2 H3 H4 _ _ _] Hc. unfold data_buf. rewrite !length_app, H1, H2, H3, H4, Hc. simpl. lia.
Qed.

Section Fields.
Context (pre ck src psdu opt data : list Z) (rssi : Z).
Context (D : data_ok pre src psdu opt data) (Hc : length ck = 2%nat).

Lemma store_rssi r :
  store (data_buf pre ck src psdu opt rssi data) OFF_rssi [r] =
    Some (data_buf pre ck src psdu opt r data).
Proof using D Hc.
  destruct D as [H1 H2 H3 H4 _ _ _].
  apply (store_at _ (pre ++ ck ++ src ++ psdu ++ opt) [rssi] _ data); unfold data_buf;
    rewrite <-?app_assoc; try done. rewrite !length_app, H1, H2, H3, H4, Hc. done.
Qed.

Lemma store_cksum ck' : length ck' = 2%nat →
  store (data_buf pre ck src psdu opt rssi data) OFF_cksum ck' =
    Some (data_buf pre ck' src psdu opt rssi data).
Proof using D Hc.
  intros Hc'. destruct D as [H1 _ _ _ _ _ _].
  apply (store_at _ pre ck _ (src ++ psdu ++ opt ++ [rssi] ++ data)); try done; congruence.
Qed.

Lemma load_psdu :
  load (data_buf pre ck src psdu opt rssi data) OFF_psdu_len 2 = Some (le_val psdu).
Proof using D Hc.
  destruct D as [H1 H2 H3 _ _ _ _].
  apply (load_at _ (pre ++ ck ++ src) psdu (opt ++ [rssi] ++ data)); unfold data_buf;
    rewrite <-?app_assoc; try done. rewrite !length_app, H1, H2, Hc. done.
Qed.

Lemma drop_data : drop OFF_pktData (data_buf pre ck src psdu opt rssi data) = data.
Proof using D Hc.
  destruct D as [H1 H2 H3 H4 _ _ _]. unfold data_buf.
  rewrite !(app_assoc _ _ (_ ++ _)). rewrite !app_assoc. apply drop_app_length'.
  rewrite !length_app, H1, H2, H3, H4, Hc. done.
Qed.
End Fields.

Lemma byte_ok_127 : byte_ok 127.
Proof. by unfold byte_ok. Qed.

Lemma data_checksum pre ck src psdu opt data :
  data_ok pre src psdu opt data → length ck = 2%nat → bytes_ok ck →
  ∃ c, generate_checksum (data_buf pre ck src psdu opt 127 data) = Some c ∧ fits 2 c.
Proof.
  intros D Hc Hck. pose proof (data_buf_ok pre ck src psdu opt 127 data D Hck byte_ok_127) as Hb.
  assert (Hl : length (data_buf pre ck src psdu opt 127 data) ≤ 65535).
  { rewrite length_data_buf by done. pose proof (do_max _ _ _ _ _ D). lia. }
  eexists. split; [by apply generate_checksum_value|].
  eapply generate_checksum_range; [exact Hb|exact Hl|]. by apply generate_checksum_value.
Qed.

(** The packet multicast, and what is done with it. *)
Lemma twp_txPacket k pk pre ck src psdu opt rssi data c Q w :
  data_ok pre src psdu opt data → length ck = 2%nat → w_pkts w !! k = Some pk →
  pktBuffer pk = data_buf pre ck src psdu opt rssi data →
  generate_checksum (data_buf pre ck src psdu opt 127 data) = Some c →
  (let b := data_buf pre (le_bytes 2 (htons c)) src psdu opt 127 data in
   Q tt (set_os (Os (os_script (w_os w)) (os_trace (w_os w) ++
          [SysSendTo b; SysPcapDump (take (Z.to_nat (ntohs (le_val psdu))) data)]))
        (on_pkts (<[k := set_pktBuffer b pk]>) w))) →
  twp (txPacket k) Q w.
Proof.
  intros D Hc Hk Hb Hg HQ. unfold txPacket, NetSimPkt.setRSSI. wgo. rewrite Hb.
  change (to_unsigned 8 127) with 127. rewrite store_rssi by done. cbn [mbind option_bind]. wgo.
  unfold NetSimPkt.generateChecksum. wcbn. rewrite Hg. cbn [mbind option_bind].
  rewrite store_cksum by (done || apply length_le_bytes). cbn [mbind option_bind]. wgo.
  rewrite wp_lift_os. wgo. unfold frame_of, NetSimPkt.pktbufSize, NetSimPkt.pktbuf. wcbn.
  rewrite load_psdu by (done || apply length_le_bytes). cbn [mbind option_bind].
  rewrite drop_data by (done || apply length_le_bytes).
  rewrite decide_True by apply (do_len _ _ _ _ _ D). wgo. rewrite wp_lift_os. wgo.
  cbv zeta in HQ. revert HQ. unfold on_pkts, set_os, set_pktBuffer. cbn. by rewrite <-app_assoc.
Qed.

Lemma twp_handleTxTimerExpired p nd k pk Q w :
  w_nodes w !! p = Some nd → dn_curState nd = TxState → started (dn_txTimer nd) = true →
  dn_txPkt nd = Some k → w_pkts w !! k = Some pk →
  Q tt (on_nodes (<[p := tx_ended nd]>)
    (set_os (Os (os_script (w_os w)) (os_trace (w_os w) ++ [SysTimerDelete]))
      (on_pkts (<[k := with_result pk]>) w))) →
  twp (handleTxTimerExpired p) Q w.
Proof.
  intros Hp Hs Ht Hk Hpk HQ. unfold handleTxTimerExpired, on_curState. wgo. rewrite Hs.
  unfold Tx.handleTxTimerExpired, getTxPacket, stopTxTimer, NodeTimer.stop, timer_delete.
  wgo. rewrite Hk. wgo. rewrite wp_lift_os, Ht. wgo.
  unfold with_result, tx_ended, on_nodes, on_pkts, set_os in HQ. cbn in HQ.
  destruct (collision pk); wgo; unfold on_nodes, on_pkts, set_os; cbn;
    rewrite ?insert_insert_eq; apply HQ.
Qed.

(** The message that tells the node, and the statistics after it. *)
Definition done_msg (nd : device_node) (pk : NetSimPacket) : list Z :=
  default [] (seal (out_hdr 19 MSG_TYPE_TX_DONE_IND (dn_socket nd)) [if collision pk then 1 else 0]).

Definition done_stats (pk : NetSimPacket) (m : medium) : medium :=
  if collision pk
  then set_pm_stats (pm_tx_pkts_ok m) (pm_tx_pkts_collided m + 1) (pm_tx_pkts_failed m) m
  else set_pm_stats (pm_tx_pkts_ok m + 1) (pm_tx_pkts_collided m) (pm_tx_pkts_failed m) m.

Definition stats_room (m : medium) : Prop :=
  0 ≤ pm_tx_pkts_ok m < INT_MAX ∧ 0 ≤ pm_tx_pkts_collided m < INT_MAX.

Lemma twp_count_ok Q w :
  stats_room (w_medium w) →
  Q tt (on_medium (λ m, set_pm_stats (pm_tx_pkts_ok m + 1) (pm_tx_pkts_collided m)
    (pm_tx_pkts_failed m) m) w) → twp count_ok Q w.
Proof.
  intros [H1 _] HQ. unfold count_ok. wgo. unfold id. rewrite checked_int_Some by (unfold INT_MIN; lia).
  done.
Qed.

Lemma twp_count_collided Q w :
  stats_room (w_medium w) →
  Q tt (on_medium (λ m, set_pm_stats (pm_tx_pkts_ok m) (pm_tx_pkts_collided m + 1)
    (pm_tx_pkts_failed m) m) w) → twp count_collided Q w.
Proof.
  intros [_ H1] HQ. unfold count_collided. wgo. unfold id.
  rewrite checked_int_Some by (unfold INT_MIN; lia). done.
Qed.

(** The timer of [p] is stopped and its client told the result; what is left is to
    act on it. *)
Lemma twp_tx_done p nd k pk a sc Q w :
  Inv w → w_nodes w !! p = Some nd → p ∈ pm_txList (w_medium w) →
  dn_txPkt nd = Some k → w_pkts w !! k = Some pk → os_script (w_os w) = a :: sc → 19 ≤ a_rv a →
  twp (tx_result k (if collision pk then TX_DONE_COLLIDED else TX_DONE_OK);; setTxPacket p None) Q
    (set_os (Os sc (os_trace (w_os w) ++ [SysTimerDelete; SysSend (dn_sockfd nd) (done_msg nd pk)]))
      (on_nodes (<[p := tx_ended nd]>) (on_pkts (<[k := with_result pk]>) w))) →
  twp (tx_done p) Q w.
Proof.
  intros [I Hm] Hp Hin Hk Hpk Hsc Ha HQ.
  destruct (InvS_txstate p nd I Hp Hin) as (Hs & Ht & _).
  pose proof (nk_sock _ _ _ _ _ _ (i_node _ _ _ _ _ _ _ I p nd Hp)) as Hsock.
  set (res := if collision pk then TX_DONE_COLLIDED else TX_DONE_OK) in *.
  assert (Hres : to_unsigned 8 res = if collision pk then 1 else 0).
  { subst res. by destruct (collision pk). }
  destruct (seal_out (out_hdr 19 MSG_TYPE_TX_DONE_IND (dn_socket nd)) [to_unsigned 8 res])
    as (msg & Hmsg & Hlmsg); [|simpl; lia|].
  { rewrite Hres. repeat constructor; destruct (collision pk); done. }
  assert (Hdm : done_msg nd pk = msg) by (unfold done_msg; by rewrite <-Hres, Hmsg).
  rewrite Hdm in HQ. unfold tx_done, getTxPacket. wgo. rewrite Hk. wgo.
  eapply twp_handleTxTimerExpired; [done..|]. wgo. unfold sendTxDoneIndication. wgo.
  eapply (twp_send_message _ (tx_ended nd)); [apply lookup_insert_eq|done|exact Hmsg|exact Hsc| |].
  { rewrite Hlmsg. simpl. lia. }
  change (txDoneResult (with_result pk)) with res.
  revert HQ. unfold on_nodes, on_pkts, set_os. cbn. by rewrite <-app_assoc.
Qed.

(** [setTxPacket(NULL)] after it, which frees the packet. *)
Lemma twp_tx_freed p nd k pk Q w :
  w_nodes w !! p = Some (tx_ended nd) → dn_txPkt nd = Some k → w_pkts w !! k = Some pk →
  Q tt (on_nodes (<[p := set_dn_txPkt None (tx_ended nd)]>) (on_pkts (delete k) w)) →
  twp (setTxPacket p None) Q w.
Proof.
  intros Hp Hk Hpk HQ. unfold setTxPacket. wgo. cbn [dn_txPkt tx_ended set_dn_curState set_dn_txTimer].
  rewrite Hk. by wgo.
Qed.

Lemma tx_done_run (p : nat) (nd : device_node) (k : nat) (pk : NetSimPacket)
    (pre src psdu opt : list Z) (rssi : Z) (data : list Z) (a : answer) (sc : list answer) (w : world) :
  Inv w → w_nodes w !! p = Some nd → p ∈ pm_txList (w_medium w) →
  dn_txPkt nd = Some k → w_pkts w !! k = Some pk →
  data_ok pre src psdu opt data →
  pktBuffer pk = data_buf pre (le_bytes 2 0) src psdu opt rssi data →
  os_script (w_os w) = a :: sc → 19 ≤ a_rv a → stats_room (w_medium w) →
  ∃ w' c, tx_done p w = (Ok tt, w') ∧
    generate_checksum (data_buf pre (le_bytes 2 0) src psdu opt 127 data) = Some c ∧
    w_nodes w' = <[p := set_dn_txPkt None (tx_ended nd)]> (w_nodes w) ∧
    w_pkts w' = delete k (w_pkts w) ∧
    w_medium w' = done_stats pk (w_medium w) ∧
    w_os w' = Os sc (os_trace (w_os w) ++ [SysTimerDelete; SysSend (dn_sockfd nd) (done_msg nd pk)] ++
      if collision pk then []
      else [SysSendTo (data_buf pre (le_bytes 2 (htons c)) src psdu opt 127 data);
            SysPcapDump (take (Z.to_nat (ntohs (le_val psdu))) data)]).
Proof.
  intros I Hp Hin Hk Hpk D Hb Hsc Ha Hst.
  destruct (data_checksum pre (le_bytes 2 0) src psdu opt data D) as (c & Hg & Hfit);
    [done|apply le_bytes_ok|].
  cut (twp (tx_done p) (λ _ w',
    w_nodes w' = <[p := set_dn_txPkt None (tx_ended nd)]> (w_nodes w) ∧
    w_pkts w' = delete k (w_pkts w) ∧ w_medium w' = done_stats pk (w_medium w) ∧
    w_os w' = Os sc (os_trace (w_os w) ++ [SysTimerDelete; SysSend (dn_sockfd nd) (done_msg nd pk)] ++
      if collision pk then []
      else [SysSendTo (data_buf pre (le_bytes 2 (htons c)) src psdu opt 127 data);
            SysPcapDump (take (Z.to_nat (ntohs (le_val psdu))) data)])) w).
  { intros H. destruct (twp_run _ _ _ H) as ([] & w' & E & ? & ? & ? & Ho).
    exists w', c. by split_and!. }
  eapply twp_tx_done; [done..|]. unfold tx_result, done_stats.
  destruct (collision pk) eqn:Hcol; cbn [Z.eqb TX_DONE_OK TX_DONE_COLLIDED]; wgo.
  - eapply twp_count_collided; [done|]. eapply twp_tx_freed; [apply lookup_insert_eq|done|apply lookup_insert_eq|].
    unfold on_nodes, on_pkts, on_medium, set_os. cbn.
    by rewrite insert_insert_eq, delete_insert_eq.
  - eapply (twp_txPacket k (with_result pk) pre (le_bytes 2 0)); [exact D|done|apply lookup_insert_eq|exact Hb|exact Hg|].
    cbv zeta. wgo. eapply twp_count_ok; [done|].
    eapply twp_tx_freed; [apply lookup_insert_eq|done|apply lookup_insert_eq|].
    unfold on_nodes, on_pkts, on_medium, set_os. cbn.
    by rewrite insert_insert_eq, !delete_insert_eq, <-!app_assoc.
Qed.

(** C13: a transmission ends in one of two ways.  If its packet has not collided,
    the node is told TX_DONE_OK, and then the frame is multicast with RSSI 127 and
    a checksum computed on it, and captured; if it has, the node is told
    TX_DONE_COLLIDED and nothing is multicast.  Either way the node is active
    again without a packet, its packet is freed, its timer is deleted, and one
    statistic goes up by one. *)
Theorem tx_done_result (p : nat) (nd : device_node) (k : nat) (pk : NetSimPacket)
    (pre src psdu opt : list Z) (rssi : Z) (data : list Z) (a : answer) (sc : list answer) (w : world) :
  Inv w → w_nodes w !! p = Some nd → p ∈ pm_txList (w_medium w) →
  dn_txPkt nd = Some k → w_pkts w !! k = Some pk →
  data_ok pre src psdu opt data →
  pktBuffer pk = data_buf pre (le_bytes 2 0) src psdu opt rssi data →
  os_script (w_os w) = a :: sc → 19 ≤ a_rv a → stats_room (w_medium w) →
  ∃ w' c, tx_done p w = (Ok tt, w') ∧
    generate_checksum (data_buf pre (le_bytes 2 0) src psdu opt 127 data) = Some c ∧
    w_nodes w' = <[p := set_dn_txPkt None (tx_ended nd)]> (w_nodes w) ∧
    w_pkts w' = delete k (w_pkts w) ∧
    w_medium w' = done_stats pk (w_medium w) ∧
    w_os w' = Os sc (os_trace (w_os w) ++ [SysTimerDelete; SysSend (dn_sockfd nd) (done_msg nd pk)] ++
      if collision pk then []
      else [SysSendTo (data_buf pre (le_bytes 2 (htons c)) src psdu opt 127 data);
            SysPcapDump (take (Z.to_nat (ntohs (le_val psdu))) data)]).
Proof. apply tx_done_run. Qed.

Lemma tx_done_result_witness :
  ∃ w', tx_done 1 (tx_world [ans 19 []]) = (Ok tt, w') ∧ w_pkts w' = ∅ ∧
    pm_tx_pkts_ok (w_medium w') = 1.
Proof.
  destruct (tx_done_result 1 (tx_node 1 0) 0 (pkt_of 1 [7; 8; 9]) (replicate 16 0) (replicate 8 0)
    (le_bytes 2 (htons 3)) (replicate 5 0) 0 [7; 8; 9] (ans 19 []) [] (tx_world [ans 19 []]))
    as (w' & c & E & _ & _ & Hk & Hm & _).
  - apply Inv_tx.
  - reflexivity.
  - left.
  - reflexivity.
  - reflexivity.
  - split; try reflexivity.
    + apply (bool_decide_unpack _). vm_compute. exact I.
    + vm_compute. discriminate.
  - reflexivity.
  - reflexivity.
  - vm_compute. discriminate.
  - vm_compute. repeat split; discriminate.
  - exists w'. split; [exact E|split; [rewrite Hk; reflexivity|rewrite Hm; reflexivity]].
Defined.

(** ** CCA requests *)

(** The answer a node gets. *)
Definition cca_answer (idle : bool) (nd : device_node) : sysev :=
  SysSend (dn_sockfd nd)
    (default [] (seal (out_hdr 19 MSG_TYPE_CCA_CON (dn_socket nd)) [if idle then 1 else 0])).

Definition cca_answers (w : world) (l : list nat) : list sysev :=
  omap (λ p, cca_answer (bool_decide (pm_state (w_medium w) = IDLE)) <$> w_nodes w !! p) l.

Lemma twp_processCcaList_loop l al sc w :
  Inv w → pm_ccaList (w_medium w) = l →
  os_script (w_os w) = al ++ sc → length al = length l → Forall (λ a, 19 ≤ a_rv a) al →
  twp (processCcaList_loop l) (λ _ w', w' = set_os (Os sc (os_trace (w_os w) ++ cca_answers w l))
    (on_medium (set_pm_ccaList []) w)) w.
Proof.
  revert al w. induction l as [|p l IH]; intros al w [I Hm] Hl Hsc Hlen Hal.
  { apply nil_length_inv in Hlen as ->. simpl in *. wgo. rewrite <-Hsc, app_nil_r.
    destruct w as [[] ? ? ? []]. simpl in *. by subst. }
  destruct al as [|a al]; [done|]. apply Forall_cons in Hal as [Ha Hal]. injection Hlen as Hlen.
  destruct (i_cca _ _ _ _ _ _ _ I p) as [nd Hp]; [rewrite Hl; by left|].
  pose proof (nk_sock _ _ _ _ _ _ (i_node _ _ _ _ _ _ _ I p nd Hp)) as Hsock.
  simpl. unfold getNodeId, isIdle, sendCcaConfirm. wgo.
  set (idle := bool_decide (pm_state (w_medium w) = IDLE)).
  destruct (seal_out (out_hdr 19 MSG_TYPE_CCA_CON (dn_socket nd)) [if idle then 1 else 0])
    as (msg & Hmsg & Hlmsg); [repeat constructor; by destruct idle|simpl; lia|].
  eapply (twp_send_message _ nd); [done|done|exact Hmsg|exact Hsc|rewrite Hlmsg; simpl; lia|]. wgo.
  eapply wp_mono; [apply (IH al); try done|].
  - split; [|done]. eapply InvS_cca; [exact I|]. wcbn.
    intros q Hq. apply (i_cca _ _ _ _ _ _ _ I). rewrite Hl. by right.
  - intros ? w' ->. unfold cca_answers. simpl.
    unfold cca_answer at 2. rewrite Hmsg. unfold set_os, on_medium. cbn. by rewrite <-app_assoc.
Qed.

Lemma processCcaList_run (w : world) (al sc : list answer) :
  Inv w → os_script (w_os w) = al ++ sc → length al = length (pm_ccaList (w_medium w)) →
  Forall (λ a, 19 ≤ a_rv a) al →
  processCcaList w = (Ok tt,
    set_os (Os sc (os_trace (w_os w) ++ cca_answers w (pm_ccaList (w_medium w))))
      (on_medium (set_pm_ccaList []) w)).
Proof.
  intros I Hsc Hlen Hal.
  destruct (twp_run _ _ _ (twp_processCcaList_loop _ al sc w I eq_refl Hsc Hlen Hal))
    as ([] & w' & E & Hw'). unfold processCcaList, get_medium.
  rewrite (bind_ok _ _ w (pm_ccaList (w_medium w)) w) by done. by rewrite E, Hw'.
Qed.

(** C17: processCcaList answers every waiting request exactly once, in the order
    they were made: each node gets a sealed CCA confirm on its own socket, with
    result 1 when the medium is idle and 0 otherwise; the list is empty then, and
    nothing else has changed. *)
Theorem processCcaList_answers (w : world) (al sc : list answer) :
  Inv w → os_script (w_os w) = al ++ sc → length al = length (pm_ccaList (w_medium w)) →
  Forall (λ a, 19 ≤ a_rv a) al →
  processCcaList w = (Ok tt,
    set_os (Os sc (os_trace (w_os w) ++ cca_answers w (pm_ccaList (w_medium w))))
      (on_medium (set_pm_ccaList []) w)).
Proof. apply processCcaList_run. Qed.

(** Node 1 asks twice. *)
Definition cca_world (sc : list answer) : world :=
  on_medium (set_pm_ccaList [1%nat; 1%nat]) (active_world sc).

Lemma Inv_cca sc : Inv (cca_world sc).
Proof.
  split; [|done]. eapply InvS_cca; [apply InvS_active1|].
  intros p [-> |[-> |[]%not_elem_of_nil]%elem_of_cons]%elem_of_cons; eauto.
Qed.

Lemma processCcaList_answers_witness :
  let w := cca_world [ans 19 []; ans 19 []] in
  processCcaList w = (Ok tt,
    set_os (Os [] [cca_answer true (active_node 1); cca_answer true (active_node 1)])
      (on_medium (set_pm_ccaList []) w)).
Proof.
  apply (processCcaList_answers (cca_world [ans 19 []; ans 19 []]) [ans 19 []; ans 19 []] []).
  - apply Inv_cca.
  - reflexivity.
  - reflexivity.
  - repeat constructor; vm_compute; discriminate.
Defined.

(** ** The timers and the waiting loop *)

(** A transmission timer is armed with exactly the milliseconds asked for,
    as a time timer_settime accepts; 0 stands for the shortest time there is. *)
Theorem ms_value_spec (ms : Z) :
  0 ≤ ms ≤ INT_MAX →
  normalised (NodeTimer.ms_value ms) ∧
  total_ns (NodeTimer.ms_value ms) = Z.max 1 (ms * 1000000).
Proof.
  intros Hms. unfold NodeTimer.ms_value, normalised, total_ns, NSEC_PER_SEC.
  destruct (Z.eqb_spec ms 0) as [->|Hne]; cbn [tv_sec tv_nsec]; [lia|].
  rewrite Z.quot_div_nonneg, Z.rem_mod_nonneg by lia.
  pose proof (Z.div_mod ms 1000 ltac:(lia)). pose proof (Z.mod_pos_bound ms 1000 ltac:(lia)).
  pose proof (Z.div_pos ms 1000 ltac:(lia) ltac:(lia)). lia.
Qed.

Lemma ms_value_spec_witness :
  normalised (NodeTimer.ms_value 1004) ∧ total_ns (NodeTimer.ms_value 1004) = Z.max 1 1004000000.
Proof. apply (ms_value_spec 1004). vm_compute. split; discriminate. Defined.

(** The loop of interval never goes round again: with any fuel it does what
    one round does, so a wait that is interrupted ends early. *)
Theorem interval_waits_once (fuel : nat) (waitms : Z) :
  ∀ w, interval_loop (S fuel) waitms w = interval_loop 1 waitms w.
Proof.
  intros w. simpl. unfold mbind, M_bind. cbn.
  destruct (lift_os (epoll_wait (deliverable (w_nodes w)) waitms) w) as [[[[rv errno] evs]|f] w1] eqn:E;
    [|done].
  destruct ((rv =? -1) && negb (errno =? EINTR)); [done|].
  destruct (negb (rv =? -1) && negb (rv =? 0)) eqn:Hc; [done|].
  destruct (lift_os timer_gettime w1) as [[[rv2 left]|f] w2]; [|done].
  destruct (rv2 =? -1); [done|].
  assert (Hrv : rv = -1 ∨ rv = 0).
  { destruct (Z.eqb_spec rv (-1)), (Z.eqb_spec rv 0); auto. done. }
  assert ((0 <? rv) = false) as -> by (apply Z.ltb_ge; lia). done.
Qed.
