(* ===== verification/Wire.v ===== *)
(** What goes out on the connections: nothing but the messages of the interface. *)

From Stdlib Require Import ZArith Lia.
From stdpp Require Import base tactics list gmap numbers option strings.
From S2P Require Import Prelude Bytes TimeUtils Checksum Interface Os SocketIO State.
From S2P Require Import DeviceNode NodeStates PhysicalMedium Acceptor Invariant Preserve Follow Total.
From S2P Require Import Examples.

(** A trace whose sends, taken together in order, are messages with a correct
    checksum, each on one connection and in one piece or several; a message that
    is cut short is one whose send failed or did not return. *)
Inductive wire : list sysev → Prop :=
  | wire_nil : wire []
  | wire_other e tr : no_send e → wire tr → wire (e :: tr)
  | wire_message fd id len ty body msg chunks tr :
      outgoing len ty body → seal (out_hdr len ty id) body = Some msg →
      concat chunks `prefix_of` msg → wire tr → wire ((SysSend fd <$> chunks) ++ tr).

Lemma wire_app tr1 tr2 : wire tr1 → wire tr2 → wire (tr1 ++ tr2).
Proof.
  intros H1 H2. induction H1; simpl; [done|by constructor|].
  rewrite <-app_assoc. by eapply wire_message.
Qed.

(** The trace grows by a trace of that form. *)
Definition puts (o o' : os) : Prop := ∃ tr, os_trace o' = os_trace o ++ tr ∧ wire tr.
Notation puts_wire := (at_os puts).
Notation puts_wire_fail := (at_os_fault (λ _, puts)).

Lemma puts_none o sc : puts o (Os sc (os_trace o)).
Proof. exists []. split; [by rewrite app_nil_r|constructor]. Qed.
Lemma puts_refl o : puts o o.
Proof. destruct o. apply puts_none. Qed.
Lemma puts_trans o1 o2 o3 : puts o1 o2 → puts o2 o3 → puts o1 o3.
Proof.
  intros (tr1 & E1 & W1) (tr2 & E2 & W2). exists (tr1 ++ tr2).
  split; [by rewrite E2, E1, <-app_assoc|by apply wire_app].
Qed.

Lemma sends_puts fd id len ty body msg sent o o' :
  outgoing len ty body → seal (out_hdr len ty id) body = Some msg → sent `prefix_of` msg →
  sends fd o o' sent → puts o o'.
Proof.
  intros Ho Hm Hp (chunks & Htr & <-). exists (SysSend fd <$> chunks). split; [done|].
  rewrite <-(app_nil_r (SysSend fd <$> chunks)). by eapply wire_message; [..|constructor].
Qed.

Lemma puts_other o e : no_send e → puts o (Os (os_script o) (os_trace o ++ [e])).
Proof. intros He. exists [e]. split; [done|]. repeat constructor. done. Qed.

#[export] Instance puts_wire_blind : FrameBlind puts_wire.
Proof. apply FrameBlind_at_os; auto using puts_refl, puts_other. Qed.
#[export] Instance puts_wire_rel : WorldRel puts_wire puts_wire_fail.
Proof.
  apply WorldRel_at_os; eauto using puts_refl, puts_trans, puts_none.
  - intros o e He. by apply puts_other.
  - intros p len ty body Ho w. unfold send_message. wp_simpl.
    destruct (w_nodes w !! p) as [nd|]; [|apply puts_refl]. wp_simpl.
    destruct (negb _); wp_simpl; [|apply puts_refl].
    destruct (seal _ _) as [msg|] eqn:Hm; wp_simpl; [|apply puts_refl]. rewrite wp_lift_os.
    pose proof (sendMsg_loop_spec (S (length (os_script (w_os w)))) (dn_sockfd nd) msg 0 (w_os w)
      ltac:(lia)) as H.
    eapply wp_mono_E; [eapply wp_mono; [exact H|]|].
    + intros r o' [[_ Hs]|(_ & sent & Hp & Hs)]; by eapply sends_puts.
    + intros f o' (_ & sent & Hp & Hs). by eapply sends_puts.
Qed.
#[export] Instance puts_wire_nofuel : Unfuelled puts_wire_fail.
Proof. intros w. apply puts_refl. Qed.

Lemma follows_puts_wire {A} (m : M world A) w r w' :
  follows puts_wire puts_wire_fail m → m w = (r, w') →
  ∃ tr, os_trace (w_os w') = os_trace (w_os w) ++ tr ∧ wire tr.
Proof. intros Hm Hr. specialize (Hm w). unfold wp in Hm. rewrite Hr in Hm. by destruct r. Qed.


(** A transmission ends; its result goes out in three pieces, one of them empty; then
    the medium is told to stop. *)
Definition pieces_script : list answer :=
  [ans_time 0 (Timespec 10 0); ans 0 []; ans_events 0 []; ans_time 0 (Timespec 0 0);
   ans 0 []; ans_events 0 []; ans_time 0 (Timespec 0 0);
   ans_time 0 (Timespec 0 0); ans 10 []; ans 0 []; ans 9 []; ans 0 [];
   ans_events 1 [EpollEvent EPOLLIN PtrUnblocker]].

