(* ===== verification/Accounts.v ===== *)
(** The statistics and the capture file of a medium agree with what it multicasts.

    [stats.tx_pkts_ok] counts the frames handed to the multicast, and the capture
    file holds the start of each of them, in the same order. *)

From Stdlib Require Import ZArith Lia.
From stdpp Require Import base tactics list gmap numbers option strings.
From S2P Require Import Prelude Bytes TimeUtils Checksum Interface Os SocketIO State.
From S2P Require Import DeviceNode NodeStates PhysicalMedium Acceptor Invariant Preserve Follow Fuel.
From S2P Require Import Examples.

(** The messages handed to the multicast, and the frames in the capture file. *)
Definition multicast (tr : list sysev) : list (list Z) :=
  omap (λ e, match e with SysSendTo d => Some d | _ => None end) tr.
Definition captured (tr : list sysev) : list (list Z) :=
  omap (λ e, match e with SysPcapDump f => Some f | _ => None end) tr.

Lemma multicast_app tr1 tr2 : multicast (tr1 ++ tr2) = multicast tr1 ++ multicast tr2.
Proof. apply omap_app. Qed.
Lemma captured_app tr1 tr2 : captured (tr1 ++ tr2) = captured tr1 ++ captured tr2.
Proof. apply omap_app. Qed.

Lemma no_frame_quiet e : no_frame e → multicast [e] = [] ∧ captured [e] = [].
Proof. by destruct e. Qed.
Lemma sends_quiet fd chunks :
  multicast (SysSend fd <$> chunks) = [] ∧ captured (SysSend fd <$> chunks) = [].
Proof. by induction chunks. Qed.

(** The captured frame is in the message multicast, at the offset of [pktData]. *)
Definition captures (msg frame : list Z) : Prop := frame `prefix_of` drop OFF_pktData msg.

(** A trace in which every message is captured; there are [n] of them. *)
Definition balanced (tr : list sysev) (n : Z) : Prop :=
  Forall2 captures (multicast tr) (captured tr) ∧ n = length (multicast tr).

Lemma balanced_quiet tr : multicast tr = [] → captured tr = [] → balanced tr 0.
Proof. intros Hm Hc. unfold balanced. rewrite Hm, Hc. by split. Qed.
Lemma balanced_app tr1 tr2 n1 n2 :
  balanced tr1 n1 → balanced tr2 n2 → balanced (tr1 ++ tr2) (n1 + n2).
Proof.
  intros [F1 ->] [F2 ->]. unfold balanced. rewrite multicast_app, captured_app, length_app.
  split; [by apply Forall2_app|lia].
Qed.

(** The frames that went out in a run are the ones counted and captured ... *)
Definition accounts : world_rel := λ w w', ∃ tr,
  os_trace (w_os w') = os_trace (w_os w) ++ tr ∧
  balanced tr (pm_tx_pkts_ok (w_medium w') - pm_tx_pkts_ok (w_medium w)) ∧
  pm_tx_pkts_failed (w_medium w') = pm_tx_pkts_failed (w_medium w).

(** ... but for the last, when the run fails. *)
Definition accounts_fail : world_fault := λ _ w w', ∃ tr last,
  os_trace (w_os w') = os_trace (w_os w) ++ tr ++ last ∧
  balanced tr (pm_tx_pkts_ok (w_medium w') - pm_tx_pkts_ok (w_medium w)) ∧
  (length (captured last) ≤ length (multicast last) ≤ 1)%nat ∧
  pm_tx_pkts_failed (w_medium w') = pm_tx_pkts_failed (w_medium w).

(** A change of the trace by calls that are about no frame. *)
Lemma accounts_quiet w w' tr :
  os_trace (w_os w') = os_trace (w_os w) ++ tr → multicast tr = [] → captured tr = [] →
  pm_tx_pkts_ok (w_medium w') = pm_tx_pkts_ok (w_medium w) →
  pm_tx_pkts_failed (w_medium w') = pm_tx_pkts_failed (w_medium w) → accounts w w'.
Proof.
  intros Htr Hm Hc Hok Hf. exists tr. rewrite Hok, Z.sub_diag.
  split; [done|]. by split; [apply balanced_quiet|].
Qed.
Lemma accounts_same w w' :
  os_trace (w_os w') = os_trace (w_os w) → w_medium w' = w_medium w → accounts w w'.
Proof. intros Ho Hm. apply accounts_quiet with []; rewrite ?Hm, ?app_nil_r; done. Qed.
Lemma accounts_fails f w w' : accounts w w' → accounts_fail f w w'.
Proof.
  intros (tr & Htr & Hb & Hf). exists tr, []. rewrite app_nil_r. simpl. auto with lia.
Qed.

Lemma accounts_trans w1 w2 w3 : accounts w1 w2 → accounts w2 w3 → accounts w1 w3.
Proof.
  intros (tr1 & T1 & B1 & F1) (tr2 & T2 & B2 & F2). exists (tr1 ++ tr2).
  rewrite T2, T1, F2, F1, <-app_assoc. split; [done|]. split; [|done].
  replace (_ - _) with ((pm_tx_pkts_ok (w_medium w2) - pm_tx_pkts_ok (w_medium w1)) +
    (pm_tx_pkts_ok (w_medium w3) - pm_tx_pkts_ok (w_medium w2))) by lia.
  by apply balanced_app.
Qed.
Lemma accounts_fault f w1 w2 w3 :
  accounts w1 w2 → accounts_fail f w2 w3 → accounts_fail f w1 w3.
Proof.
  intros (tr1 & T1 & B1 & F1) (tr2 & last & T2 & B2 & L2 & F2). exists (tr1 ++ tr2), last.
  rewrite T2, T1, F2, F1, <-!app_assoc. split; [done|]. split; [|done].
  replace (_ - _) with ((pm_tx_pkts_ok (w_medium w2) - pm_tx_pkts_ok (w_medium w1)) +
    (pm_tx_pkts_ok (w_medium w3) - pm_tx_pkts_ok (w_medium w2))) by lia.
  by apply balanced_app.
Qed.

(** ** The calls of a medium's thread *)

Lemma accounts_sends fd o o' sent w :
  w_os w = o → sends fd o o' sent → accounts w (set_os o' w).
Proof.
  intros <- (chunks & Htr & _). destruct (sends_quiet fd chunks).
  by apply accounts_quiet with (SysSend fd <$> chunks).
Qed.

#[export] Instance accounts_rel : WorldRel accounts accounts_fail.
Proof.
  split; try (intros; by apply accounts_same).
  - exact accounts_trans.
  - exact accounts_fault.
  - intros. by apply accounts_fails, accounts_same.
  - intros w e [Hm Hc]%no_frame_quiet. by apply accounts_quiet with [e].
  - intros p len ty body _ w. unfold send_message. wp_simpl.
    destruct (w_nodes w !! p) as [nd|]; [|by apply accounts_fails, accounts_same]. wp_simpl.
    destruct (negb _); wp_simpl; [|by apply accounts_fails, accounts_same].
    destruct (seal _ _) as [msg|]; wp_simpl; [|by apply accounts_fails, accounts_same].
    rewrite wp_lift_os.
    pose proof (sendMsg_loop_spec (S (length (os_script (w_os w)))) (dn_sockfd nd) msg 0 (w_os w)
      ltac:(lia)) as H.
    eapply wp_mono_E; [eapply wp_mono; [exact H|]|].
    + intros r o' [[_ Hs]|(_ & sent & _ & Hs)]; by eapply accounts_sends.
    + intros f o' (_ & sent & _ & Hs). by eapply accounts_fails, accounts_sends.
  - intros w f _ Hs. destruct (Hs (w_medium w)). by apply accounts_quiet with []; rewrite ?app_nil_r.
Qed.
#[export] Instance accounts_tx : TxRel accounts.
Proof. split; intros; apply accounts_quiet with []; by rewrite ?app_nil_r. Qed.
#[export] Instance accounts_nofuel : Unfuelled accounts_fail.
Proof. intros w. by apply accounts_fails, accounts_same. Qed.

Lemma checked_int_eq z n : checked_int z = Some n → n = z.
Proof. unfold checked_int. case_bool_decide; congruence. Qed.
Lemma frame_captured pk f : frame_of pk = Some f → captures (pktBuffer pk) f.
Proof.
  unfold frame_of. destruct (NetSimPkt.pktbufSize pk) as [n|]; [|done]. cbn.
  case_decide; [|done]. intros [= <-]. eexists. symmetry. apply take_drop.
Qed.

(** The one place where frames go out: the message, then its capture, then the
    count. *)
#[export] Instance accounts_result : ResultRel accounts accounts_fail.
Proof.
  intros k r Hr w. unfold tx_result, txPacket.
  assert (Hstop : ∀ f, accounts_fail f w w) by (intros; by apply accounts_fails, accounts_same).
  destruct Hr as [-> | ->]; cbn [Z.eqb Pos.eqb TX_DONE_OK TX_DONE_COLLIDED].
  - wgo. destruct (w_pkts w !! k) as [pk|] eqn:Hk; [|done]. wgo.
    destruct (NetSimPkt.setRSSI 127 pk) as [pk1|]; [|done]. wgo.
    destruct (NetSimPkt.generateChecksum pk1) as [pk2|]; [|done]. wgo.
    rewrite wp_lift_os. wgo.
    destruct (frame_of pk2) as [frame|] eqn:Hf; wgo.
    2:{ exists [], [SysSendTo (pktBuffer pk2)]. cbn. rewrite Z.sub_diag. by repeat split; auto with lia. }
    rewrite wp_lift_os. unfold count_ok. wgo.
    destruct (checked_int _) as [n|] eqn:Hn; wgo.
    + apply checked_int_eq in Hn as ->.
      exists [SysSendTo (pktBuffer pk2); SysPcapDump frame]. cbn.
      rewrite <-app_assoc. split; [done|]. split; [|done]. split; [|cbn; lia].
      constructor; [by apply frame_captured|constructor].
    + exists [], [SysSendTo (pktBuffer pk2); SysPcapDump frame]. cbn. rewrite Z.sub_diag, <-app_assoc.
      by repeat split; auto with lia.
  - unfold count_collided. wgo. destruct (checked_int _); wgo; [|done].
    apply accounts_quiet with []; by rewrite ?app_nil_r.
Qed.

(** C16: what the thread of a medium counts and captures is what it multicasts: when it
    returns, [tx_pkts_ok] has grown by the number of messages handed to the
    multicast and the capture file by the start of the frame of each, in order; when
    it stops with a fault, the last message may be missing from either; no
    transmission ever counts as failed. *)
Theorem run_statistics `{HO : HashOrder} {C : CollisionCheck} `{FC : !FollowsCheck C}
    (w w' : world) (r : res unit) :
  run w = (r, w') →
  ∃ tr last, os_trace (w_os w') = os_trace (w_os w) ++ tr ++ last ∧
    Forall2 captures (multicast tr) (captured tr) ∧
    pm_tx_pkts_ok (w_medium w') = pm_tx_pkts_ok (w_medium w) + length (multicast tr) ∧
    pm_tx_pkts_failed (w_medium w') = pm_tx_pkts_failed (w_medium w) ∧
    match r with
    | Ok _ => last = []
    | Fail _ => length (captured last) ≤ length (multicast last) ≤ 1
    end%nat.
Proof.
  intros Hrun. pose proof (follows_run (R := accounts) (E := accounts_fail) w) as H.
  unfold wp in H. rewrite Hrun in H. destruct r as [[]|f].
  - destruct H as (tr & Htr & [Hc Hn] & Hf). exists tr, []. rewrite app_nil_r.
    repeat split; [done..|lia|done].
  - destruct H as (tr & last & Htr & [Hc Hn] & Hl & Hf). exists tr, last.
    repeat split; [done..|lia|done|lia|lia].
Qed.

(** A transmission ends and its frame goes out; then the medium is told to stop. *)
Definition sent_script : list answer :=
  [ans_time 0 (Timespec 10 0); ans 0 []; ans_events 0 []; ans_time 0 (Timespec 0 0);
   ans 0 []; ans_events 0 []; ans_time 0 (Timespec 0 0);
   ans_time 0 (Timespec 0 0); ans 19 []; ans 0 []; ans_events 1 [EpollEvent EPOLLIN PtrUnblocker]].

Lemma run_statistics_witness :
  let w := tx_world sent_script in
  let w' := (run (H := map_order) (H0 := powerline) w).2 in
  pm_tx_pkts_ok (w_medium w') = 1 ∧ captured (os_trace (w_os w')) = [[7; 8; 9]] ∧
  ∃ tr last, os_trace (w_os w') = os_trace (w_os w) ++ tr ++ last ∧
    Forall2 captures (multicast tr) (captured tr) ∧
    pm_tx_pkts_ok (w_medium w') = pm_tx_pkts_ok (w_medium w) + length (multicast tr) ∧
    pm_tx_pkts_failed (w_medium w') = pm_tx_pkts_failed (w_medium w) ∧ last = [].
Proof.
  cbv zeta. split; [vm_compute; reflexivity|]. split; [vm_compute; reflexivity|].
  apply (run_statistics (HO := map_order) (C := powerline) (tx_world sent_script) _ (Ok tt)).
  vm_compute. reflexivity.
Defined.
