(* ===== verification/Collisions.v ===== *)
(** Several nodes transmit at once: what a round of the medium's thread makes of
    them, on the powerline and on the wireless medium. *)

From Stdlib Require Import ZArith Lia.
From stdpp Require Import base tactics list gmap numbers option strings.
From S2P Require Import Prelude Bytes TimeUtils Checksum Interface Os SocketIO State Spec.
From S2P Require Import DeviceNode NodeStates PhysicalMedium Invariant Preserve Fuel MediumSafe Total.
From S2P Require Import Examples TxLife.

(** The message and the frame a packet becomes on the air: RSSI 127, and the
    checksum of that; [None] where the packet is too short for it. *)
Definition on_air (pk : NetSimPacket) : option (list Z * list Z) :=
  pk ← NetSimPkt.setRSSI 127 pk; pk ← NetSimPkt.generateChecksum pk;
  frame ← frame_of pk; Some (pktBuffer pk, frame).

(** It is the work of the bytes alone. *)
Lemma on_air_buffer pk pk' : pktBuffer pk = pktBuffer pk' → on_air pk = on_air pk'.
Proof.
  intros E. unfold on_air, NetSimPkt.setRSSI, NetSimPkt.generateChecksum. rewrite E.
  destruct (store _ _ _); [|done]. cbn. destruct (generate_checksum _); [|done]. cbn.
  by destruct (store _ _ _).
Qed.

(** The calls made for a node at the end of its transmission: its timer is read and
    deleted, it is told the result, and its frame goes out if it did not collide. *)
Definition result_msg (col : bool) (nd : device_node) : list Z :=
  default [] (seal (out_hdr 19 MSG_TYPE_TX_DONE_IND (dn_socket nd)) [if col then 1 else 0]).
Definition end_calls (col : bool) (nd : device_node) (air : option (list Z * list Z)) : list sysev :=
  [SysTimerGet; SysTimerDelete; SysSend (dn_sockfd nd) (result_msg col nd)] ++
  match air with
  | Some (msg, frame) => if col then [] else [SysSendTo msg; SysPcapDump frame]
  | None => []
  end.
Definition node_calls (col : bool) (w : world) (p : nat) : list sysev :=
  match w_nodes w !! p with
  | Some nd => end_calls col nd (k ← dn_txPkt nd; pk ← w_pkts w !! k; on_air pk)
  | None => []
  end.

(** The state of a node whose transmission is over. *)
Definition tx_over (nd : device_node) : device_node := set_dn_txPkt None (tx_ended nd).

Definition counted (col : bool) (n : nat) (m : medium) : medium :=
  if col
  then set_pm_stats (pm_tx_pkts_ok m) (pm_tx_pkts_collided m + n) (pm_tx_pkts_failed m) m
  else set_pm_stats (pm_tx_pkts_ok m + n) (pm_tx_pkts_collided m) (pm_tx_pkts_failed m) m.

(** The round is over for the nodes [l], with one result for all. *)
Definition round_over (col : bool) (l : list nat) (sc : list answer) (w w' : world) : Prop :=
  (∀ q, w_nodes w' !! q = (if decide (q ∈ l) then tx_over else id) <$> w_nodes w !! q) ∧
  w_pkts w' = ∅ ∧
  w_medium w' = set_pm_txList [] (counted col (length l) (w_medium w)) ∧
  w_os w' = Os sc (os_trace (w_os w) ++ (l ≫= node_calls col w)).

(** The system's answers for a node: the timer has run out, and the message is
    taken in one piece. *)
Definition round_answers (al : list (answer * answer)) : list answer :=
  al ≫= λ '(g, a), [g; a].
Definition fires (x : answer * answer) : Prop :=
  a_rv x.1 ≠ -1 ∧ a_time x.1 = Timespec 0 0 ∧ 19 ≤ a_rv x.2.

Definition room (n : nat) (m : medium) : Prop :=
  0 ≤ pm_tx_pkts_ok m ≤ INT_MAX - n ∧ 0 ≤ pm_tx_pkts_collided m ≤ INT_MAX - n.

(** ** One node *)

Lemma twp_txPacket_air k pk msg frame Q w :
  w_pkts w !! k = Some pk → on_air pk = Some (msg, frame) →
  (∀ pk', Q tt (set_os (Os (os_script (w_os w)) (os_trace (w_os w) ++ [SysSendTo msg; SysPcapDump frame]))
    (on_pkts (<[k := pk']>) w))) →
  twp (txPacket k) Q w.
Proof.
  intros Hk Hair HQ. unfold on_air in Hair. unfold txPacket. wgo.
  destruct (NetSimPkt.setRSSI 127 pk) as [pk1|]; [|done]. cbn in Hair. wgo.
  destruct (NetSimPkt.generateChecksum pk1) as [pk2|]; [|done]. cbn in Hair. wgo.
  destruct (frame_of pk2) as [f|]; [|done]. injection Hair as <- <-.
  rewrite wp_lift_os. wgo. rewrite wp_lift_os. wgo.
  specialize (HQ pk2). revert HQ. unfold on_pkts, set_os. cbn. by rewrite <-app_assoc.
Qed.

(** A timer that has run out. *)
Lemma twp_fired p nd g Q w sc :
  w_nodes w !! p = Some nd → started (dn_txTimer nd) = true → os_script (w_os w) = g :: sc →
  a_rv g ≠ -1 → a_time g = Timespec 0 0 →
  Q true (set_os (Os sc (os_trace (w_os w) ++ [SysTimerGet])) w) → twp (hasTxTimerExpired p) Q w.
Proof.
  intros Hp Ht Hsc Hg Htime HQ. unfold hasTxTimerExpired, NodeTimer.expired, timer_gettime. wgo.
  rewrite wp_lift_os, Ht. wp_simpl. cbn [os_script os_trace]. rewrite Hsc. wp_simpl.
  rewrite (proj2 (Z.eqb_neq _ _) Hg). wp_simpl. by rewrite Htime.
Qed.

(** The node at the head of the list: its transmission ends and it leaves the list. *)
Definition node_ended (col : bool) (p : nat) (nd : device_node) (k : nat) (rest : list nat)
    (sc : list answer) (w w1 : world) : Prop :=
  w_nodes w1 = <[p := tx_over nd]> (w_nodes w) ∧ w_pkts w1 = delete k (w_pkts w) ∧
  w_medium w1 = set_pm_txList rest (counted col 1 (w_medium w)) ∧
  w_os w1 = Os sc (os_trace (w_os w) ++ node_calls col w p).

Lemma twp_end_node col p nd k pk g a rest sc w :
  Inv w → Clean w → pm_txList (w_medium w) = p :: rest → w_nodes w !! p = Some nd →
  dn_txPkt nd = Some k → w_pkts w !! k = Some pk → collision pk = col → is_Some (on_air pk) →
  os_script (w_os w) = g :: a :: sc → 19 ≤ a_rv a → stats_room (w_medium w) →
  twp (tx_done p;; getNodeId p;; upd_medium (set_pm_txList rest))
    (λ _ w1, node_ended col p nd k rest sc w w1 ∧ Inv w1 ∧ Clean w1)
    (set_os (Os (a :: sc) (os_trace (w_os w) ++ [SysTimerGet])) w).
Proof.
  intros I Cw Hl Hp Hk Hpk Hcol [[msg frame] Hair] Hsc Ha Hst.
  eapply wp_mono; [eapply twp_and; [|by eapply (wp_tx_done p nd [] rest)]|].
  2:{ intros ? w1 [H1 (? & _ & _ & _ & _ & ? & _)]. split; [exact H1|auto]. }
  assert (Hin : p ∈ pm_txList (w_medium w)) by (rewrite Hl; by left).
  rewrite wp_bind. eapply (twp_tx_done p nd k pk); [done..|].
  assert (Hcalls : node_calls col w p = end_calls col nd (Some (msg, frame))).
  { unfold node_calls. rewrite Hp, Hk. cbn. rewrite Hpk. cbn. by rewrite Hair. }
  unfold node_ended. rewrite Hcalls. unfold end_calls, tx_result, done_msg, result_msg, tx_over.
  rewrite Hcol. unfold counted. destruct col; cbn [Z.eqb Pos.eqb TX_DONE_OK TX_DONE_COLLIDED]; wgo.
  - eapply twp_count_collided; [done|].
    eapply twp_tx_freed; [apply lookup_insert_eq|done|apply lookup_insert_eq|].
    unfold getNodeId. wgo. unfold on_nodes, on_pkts, on_medium, set_os. cbn.
    by rewrite insert_insert_eq, delete_insert_eq, <-!app_assoc.
  - eapply (twp_txPacket_air k (with_result pk)); [apply lookup_insert_eq|by rewrite <-Hair; apply on_air_buffer|].
    intros pk'. eapply twp_count_ok; [done|].
    eapply twp_tx_freed; [apply lookup_insert_eq|done|apply lookup_insert_eq|].
    unfold getNodeId. wgo. unfold on_nodes, on_pkts, on_medium, set_os. cbn.
    by rewrite insert_insert_eq, !delete_insert_eq, <-!app_assoc.
Qed.

(** ** All of them *)

Lemma no_packets w : Inv w → Clean w → pm_txList (w_medium w) = [] → w_pkts w = ∅.
Proof.
  intros I Cw Hl. apply map_empty. intros k. destruct (w_pkts w !! k) as [pk|] eqn:Hk; [|done].
  pose proof (pkt_transmits w k pk I Cw Hk) as H. rewrite Hl in H. by apply not_elem_of_nil in H.
Qed.

(** What the end of one transmission leaves for the others of the list. *)
Lemma node_calls_rest col p nd k rest sc w w1 q :
  Inv w → pm_txList (w_medium w) = p :: rest → w_nodes w !! p = Some nd → dn_txPkt nd = Some k →
  node_ended col p nd k rest sc w w1 → q ∈ rest → node_calls col w1 q = node_calls col w q.
Proof.
  intros I Hl Hp Hk (Hn & Hps & _) Hq.
  pose proof (i_tx _ _ _ _ _ _ _ (proj1 I)) as Hnd. rewrite Hl in Hnd. apply NoDup_cons in Hnd as [Hpr _].
  unfold node_calls. rewrite Hn, Hps, lookup_insert_ne by congruence.
  destruct (w_nodes w !! q) as [nq|] eqn:Hnq; [|done].
  destruct (InvS_txstate q nq (proj1 I) Hnq) as (_ & _ & k' & pk' & Hk' & Hpk' & Hf'); [rewrite Hl; by right|].
  destruct (InvS_txstate p nd (proj1 I) Hp) as (_ & _ & k0 & pk0 & Hk0 & Hpk0 & Hf0); [rewrite Hl; by left|].
  rewrite Hk'. cbn. rewrite lookup_delete_ne; [done|]. intros ->. simplify_eq. done.
Qed.

Lemma counted_counted col n m l :
  counted col n (set_pm_txList l (counted col 1 m)) = set_pm_txList l (counted col (S n) m).
Proof. destruct m, col; unfold counted, set_pm_stats, set_pm_txList; cbn; f_equal; lia. Qed.

Lemma round_over_cons col p nd k rest sc sc' w w1 w' :
  Inv w → pm_txList (w_medium w) = p :: rest → w_nodes w !! p = Some nd → dn_txPkt nd = Some k →
  node_ended col p nd k rest sc' w w1 → round_over col rest sc w1 w' →
  round_over col (p :: rest) sc w w'.
Proof.
  intros I Hl Hp Hk E (Hn' & Hps' & Hm' & Ho'). pose proof E as (Hn & _ & Hm & Ho).
  pose proof (i_tx _ _ _ _ _ _ _ (proj1 I)) as Hnd. rewrite Hl in Hnd. apply NoDup_cons in Hnd as [Hpr _].
  split_and!; [|done| |].
  - intros q. rewrite Hn', Hn. destruct (decide (q = p)) as [-> |Hq].
    + rewrite lookup_insert_eq, Hp, decide_False, decide_True by (done || by left). done.
    + rewrite lookup_insert_ne by done.
      rewrite (decide_ext (q ∈ rest) (q ∈ p :: rest)) by (rewrite elem_of_cons; tauto). done.
  - rewrite Hm', Hm, counted_counted. by destruct (w_medium w).
  - rewrite Ho', Ho. cbn [os_trace]. rewrite <-app_assoc. do 2 f_equal. rewrite bind_cons. f_equal.
    apply Forall_bind_ext, Forall_forall. intros q Hq. by eapply node_calls_rest.
Qed.

Lemma processTxList_loop_run col l al sc w :
  Inv w → Clean w → pm_txList (w_medium w) = l →
  (∀ k pk, w_pkts w !! k = Some pk → collision pk = col ∧ is_Some (on_air pk)) →
  os_script (w_os w) = round_answers al ++ sc → length al = length l → Forall fires al →
  room (length l) (w_medium w) →
  twp (processTxList_loop [] l) (λ _ w', round_over col l sc w w') w.
Proof.
  revert al w. induction l as [|p l IH]; intros al w I Cw Hl Hpks Hsc Hlen Hal Hroom.
  { apply nil_length_inv in Hlen as ->. simpl in Hsc |- *. wgo. split_and!.
    - intros q. rewrite decide_False by apply not_elem_of_nil. by rewrite option_fmap_id.
    - by apply no_packets.
    - destruct w as [? ? ? ? []], col; cbn in *; subst; unfold counted, set_pm_stats, set_pm_txList;
        cbn; by rewrite Z.add_0_r.
    - rewrite <-Hsc. destruct w as [[]]. cbn. by rewrite app_nil_r. }
  destruct al as [|[g a] al]; [done|]. apply Forall_cons in Hal as [(Hg & Ht & Ha) Hal].
  injection Hlen as Hlen. cbn in Hg, Ht, Ha, Hsc.
  assert (Hp : p ∈ pm_txList (w_medium w)) by (rewrite Hl; by left).
  destruct (c_tx _ _ _ Cw p Hp) as [nd Hnd].
  destruct (InvS_txstate p nd (proj1 I) Hnd Hp) as (_ & Hst & k & pk & Hk & Hpk & _).
  destruct (Hpks k pk Hpk) as [Hcol Hair].
  simpl. rewrite wp_bind. eapply twp_fired; [done..|]. cbv iota.
  assert (Hroom1 : stats_room (w_medium w)).
  { unfold stats_room. unfold room in Hroom. cbn [length] in Hroom. lia. }
  assert (He := twp_end_node col p nd k pk g a l (round_answers al ++ sc) w I Cw Hl Hnd Hk Hpk Hcol
    Hair Hsc Ha Hroom1).
  rewrite wp_bind in He |- *. eapply wp_mono; [exact He|]. intros ? w1 H1.
  rewrite wp_bind in H1 |- *. eapply wp_mono; [exact H1|]. intros ? w2 H2.
  rewrite wp_bind. eapply wp_mono; [exact H2|]. intros ? w3 (E & I3 & C3). cbn beta in E.
  pose proof E as (_ & Hps & Hm & Ho).
  eapply wp_mono; [apply (IH al); try done|].
  - by rewrite Hm.
  - rewrite Hps. intros q pkq [_ Hq]%lookup_delete_Some. eauto.
  - by rewrite Ho.
  - rewrite Hm. unfold room in *. destruct (w_medium w), col; cbn in *; lia.
  - intros ? w' R. by eapply round_over_cons.
Qed.

(** On the powerline: everything on the wire has collided by then. *)
Lemma powerline_round l al sc w :
  Inv w → Clean w → pm_txList (w_medium w) = l → (2 ≤ length l)%nat →
  (∀ k pk, w_pkts w !! k = Some pk → is_Some (on_air pk)) →
  os_script (w_os w) = round_answers al ++ sc → length al = length l → Forall fires al →
  room (length l) (w_medium w) →
  twp (PowerlineMedium.txCollisionCheck;; processTxList) (λ _ w', round_over true l sc w w') w.
Proof.
  intros I Cw Hl H2 Hpks Hsc Hlen Hal Hroom.
  assert (Hc : twp PowerlineMedium.txCollisionCheck (λ _ w1, w1 = on_pkts (λ _, w_pkts w1) w ∧
    ∀ k, w_pkts w1 !! k = set_collision true <$> w_pkts w !! k) w).
  { unfold PowerlineMedium.txCollisionCheck. wgo. rewrite bool_decide_true by (rewrite Hl; lia).
    eapply wp_mono; [by apply twp_collide_all|]. intros ? w1 [Hw1 Hk]. split; [done|].
    intros k. rewrite Hk. destruct (w_pkts w !! k) as [pk|] eqn:Hpk; [|done]. simpl.
    by rewrite decide_True by by eapply pkt_transmits. }
  rewrite wp_bind. eapply wp_mono; [eapply twp_and; [exact Hc|by apply (collision_check_ok (C := powerline))]|].
  intros ? w1 [[Hw1 Hk] (K & _ & _)]. destruct K as (I1 & _ & _ & C1 & _).
  unfold processTxList. wgo. assert (Hl1 : pm_txList (w_medium w1) = l) by by rewrite Hw1.
  rewrite Hl1. eapply wp_mono; [apply (processTxList_loop_run true l al sc w1); auto|].
  - intros k pk Hpk. rewrite Hk in Hpk. destruct (w_pkts w !! k) as [pk0|] eqn:Hk0; [|done].
    injection Hpk as <-. split; [done|]. erewrite on_air_buffer; [by eapply Hpks|done].
  - by rewrite Hw1.
  - by rewrite Hw1.
  - intros ? w' (Hn & Hp' & Hm & Ho). split_and!.
    + intros q. rewrite Hn. by rewrite Hw1.
    + done.
    + rewrite Hm. by rewrite Hw1.
    + rewrite Ho. rewrite Hw1 at 1. cbn [w_os on_pkts]. do 2 f_equal.
      apply list_bind_ext; [|done]. intros q. unfold node_calls. rewrite Hw1 at 1. cbn [w_nodes on_pkts].
      destruct (w_nodes w !! q) as [nd|]; [|done]. f_equal. destruct (dn_txPkt nd) as [k|]; [|done].
      cbn. rewrite Hk. destruct (w_pkts w !! k); [|done]. cbn. by apply on_air_buffer.
Qed.

(** C15: what happens when two nodes or more transmit at once, to the call: on the
    powerline every one of them is told TX_DONE_COLLIDED and nothing is multicast
    or captured; on the wireless medium every one is told TX_DONE_OK and every
    frame goes out.  Either way each timer is read and deleted in the order of the
    list, every node is active again without a packet, the list and the packets of
    the medium are gone, and the statistic of that result has gone up by their
    number. *)
Theorem transmissions_meet (w : world) (al : list (answer * answer)) (sc : list answer) :
  let l := pm_txList (w_medium w) in
  Inv w → Clean w → (2 ≤ length l)%nat →
  (∀ k pk, w_pkts w !! k = Some pk → is_Some (on_air pk)) →
  os_script (w_os w) = round_answers al ++ sc → length al = length l → Forall fires al →
  room (length l) (w_medium w) →
  (∃ w', (PowerlineMedium.txCollisionCheck;; processTxList) w = (Ok tt, w') ∧ round_over true l sc w w') ∧
  ((∀ k pk, w_pkts w !! k = Some pk → collision pk = false) →
   ∃ w', (WirelessMedium.txCollisionCheck;; processTxList) w = (Ok tt, w') ∧ round_over false l sc w w').
Proof.
  intros l I Cw H2 Hpks Hsc Hlen Hal Hroom. split.
  - destruct (twp_run _ _ _ (powerline_round l al sc w I Cw eq_refl H2 Hpks Hsc Hlen Hal Hroom))
      as ([] & w' & E & R). eauto.
  - intros Hcol. assert (H : twp (WirelessMedium.txCollisionCheck;; processTxList)
      (λ _ w', round_over false l sc w w') w).
    { unfold WirelessMedium.txCollisionCheck, processTxList. wgo.
      apply processTxList_loop_run with al; eauto. }
    destruct (twp_run _ _ _ H) as ([] & w' & E & R). eauto.
Qed.

(** Two nodes with a frame each. *)
Definition both_end : list (answer * answer) :=
  replicate 2 (ans_time 0 (Timespec 0 0), ans 19 []).

Lemma two_tx_pkts sc k pk :
  w_pkts (two_tx_world sc) !! k = Some pk → pk ∈ [pkt_of 1 [7; 8; 9]; pkt_of 2 [1; 2]].
Proof.
  cbn [w_pkts two_tx_world]. rewrite lookup_insert_Some, lookup_singleton_Some.
  intros [[_ <-]|[_ [_ <-]]]; set_solver.
Qed.

Lemma transmissions_meet_witness :
  let w := two_tx_world (round_answers both_end) in
  (∃ w', (PowerlineMedium.txCollisionCheck;; processTxList) w = (Ok tt, w') ∧
     pm_tx_pkts_collided (w_medium w') = 2 ∧ length (os_trace (w_os w')) = 6%nat) ∧
  (∃ w', (WirelessMedium.txCollisionCheck;; processTxList) w = (Ok tt, w') ∧
     pm_tx_pkts_ok (w_medium w') = 2 ∧ length (os_trace (w_os w')) = 10%nat).
Proof.
  cbv zeta.
  destruct (transmissions_meet (two_tx_world (round_answers both_end)) both_end [])
    as [(w1 & E1 & _ & _ & Hm1 & Ho1) Hw].
  - apply Inv_two_tx.
  - apply Clean_two_tx.
  - vm_compute. lia.
  - intros k pk Hk%two_tx_pkts. rewrite !elem_of_cons, elem_of_nil in Hk.
    destruct Hk as [-> |[-> |[]]]; vm_compute; eauto.
  - reflexivity.
  - reflexivity.
  - repeat constructor; vm_compute; discriminate.
  - vm_compute. repeat split; discriminate.
  - split.
    + exists w1. split; [exact E1|]. rewrite Hm1, Ho1. split; vm_compute; reflexivity.
    + destruct Hw as (w2 & E2 & _ & _ & Hm2 & Ho2).
      { intros k pk Hk%two_tx_pkts. rewrite !elem_of_cons, elem_of_nil in Hk.
        by destruct Hk as [-> |[-> |[]]]. }
      exists w2. split; [exact E2|]. rewrite Hm2, Ho2. split; vm_compute; reflexivity.
Defined.
