(* ===== verification/Registration.v ===== *)
(** Nodes that join, register and are destroyed with their medium; and the states
    of the medium itself. *)

From Stdlib Require Import ZArith Lia.
From stdpp Require Import base tactics list gmap numbers option strings.
From S2P Require Import Prelude Bytes TimeUtils Checksum Interface Os SocketIO State Spec.
From S2P Require Import DeviceNode NodeStates PhysicalMedium Invariant Preserve Fuel.
From S2P Require Import MediumSafe Total Examples Acceptor.

(** ** Joining *)

Definition joined (socket fd : Z) : device_node :=
  set_dn_medium true (set_dn_regTimer (set_started true (NodeTimer.make 0 0 REGISTRATION_TIME 0))
    (DeviceNode_pimpl socket fd)).

Lemma set_dn_curState_id nd : set_dn_curState (dn_curState nd) nd = nd.
Proof. by destruct nd. Qed.

Lemma wp_new_node p socket fd Q w :
  (∀ o, Q tt (on_nodes (<[p := set_dn_regTimer
      (set_started true (NodeTimer.make 0 0 REGISTRATION_TIME 0)) (DeviceNode_pimpl socket fd)]>)
    (set_os o w))) →
  bwp (new_node p socket fd) Q w.
Proof.
  intros HQ. unfold new_node, Registering.make, sendRegistrationRequest, startRegistrationTimer. wgo.
  wlift Ha. wgo. eapply wp_send_message; [apply lookup_insert_eq|]. intros n o2. wgo.
  destruct (n =? HDR_SIZE); [|done]. wgo. wlift Ht. cbn in Ht. subst a0. wgo.
  unfold on_nodes, set_os in *. cbn in *. rewrite !insert_insert_eq. apply HQ.
Qed.

(** The node is made and its descriptor is in the epoll set; it is in no map yet. *)
Lemma wp_announce p socket fd Q w :
  (∀ o, Q tt (on_nodes (<[p := joined socket fd]>) (set_os o w))) →
  bwp (new_node p socket fd;; addNode_announce p) Q w.
Proof.
  intros HQ. wgo. apply wp_new_node. intros o.
  unfold addNode_announce, getNodeId, setMedium, getSocketFd. wgo. wlift Ha. wgo.
  destruct (a <? 0); [by destruct (a =? EEXIST)|]. wgo.
  unfold on_nodes, set_os in *. cbn in *. rewrite insert_insert_eq. apply HQ.
Qed.

(** *** A node that is not finished *)

(** [w'] is [w] but for node [p] and the calls on the system. *)
Definition only_node (p : nat) (w w' : world) : Prop :=
  ∃ nd o, w' = on_nodes (<[p := nd]>) (set_os o w).

Section Unfinished.
Context (p : nat) (w0 : world).

Definition at_node {A} (m : M world A) : Prop :=
  ∀ w, only_node p w0 w → wp (λ _, only_node p w0) m (λ _, only_node p w0) w.

Lemma at_node_bind {A B} (m : M world A) (f : A → M world B) :
  at_node m → (∀ a, at_node (f a)) → at_node (m ≫= f).
Proof using.
  intros Hm Hf w Hw. wp_simpl. eapply wp_mono; [by apply Hm|]. intros a w1 H1. by apply Hf.
Qed.
Lemma at_node_ret {A} (a : A) : at_node (mret a).
Proof using. by intros w Hw. Qed.
Lemma at_node_fail {A} f : at_node (failw f : M world A).
Proof using. by intros w Hw. Qed.
Lemma at_node_get : at_node (get_node p).
Proof using. intros w Hw. rewrite wp_get_node. by destruct (w_nodes w !! p). Qed.
Lemma at_node_upd f : at_node (upd_node p f).
Proof using.
  intros w (nd & o & ->). rewrite wp_upd_node. cbn. rewrite lookup_insert_eq.
  exists (f nd), o. unfold on_nodes. cbn. by rewrite insert_insert_eq.
Qed.
Lemma at_node_lift {A} (m : M os A) : at_node (lift_os m).
Proof using.
  intros w (nd & o & ->). rewrite wp_lift_os. unfold wp.
  destruct (m _) as [[a|f] o']; by exists nd, o'.
Qed.
End Unfinished.

Ltac at_node := repeat first
  [ progress intros | apply at_node_get | apply at_node_upd | apply at_node_lift
  | apply at_node_ret | apply at_node_fail | apply at_node_bind
  | match goal with
    | |- at_node _ _ (if ?b then _ else _) => destruct b
    | |- at_node _ _ (match ?x with _ => _ end) => destruct x
    end ].

(** Until the node is in a map, nothing but the node has changed. *)
Lemma wp_unfinished p socket fd w :
  wp (λ _, only_node p w) (new_node p socket fd;; addNode_announce p) (λ _, only_node p w) w.
Proof.
  assert (H : at_node p w ((lift_os (Socket.setCloseOnExec fd true);;
    st ← Registering.make p; upd_node p (set_dn_curState st));; addNode_announce p)).
  { unfold Registering.make, sendRegistrationRequest, send_message, startRegistrationTimer,
      addNode_announce, getNodeId, setMedium, getSocketFd, cassert, some_or. at_node. }
  apply (H (on_nodes (<[p := DeviceNode_pimpl socket fd]>) w)).
  exists (DeviceNode_pimpl socket fd), (w_os w). by destruct w.
Qed.

(** So a join that throws has changed nothing else. *)
Lemma wp_join_throws p socket fd w :
  wp (λ f w', throws f = true → only_node p w w') (join p socket fd) (λ _ _, True) w.
Proof.
  pose proof (wp_unfinished p socket fd w) as H. unfold join, addNode. rewrite wp_bind in *.
  eapply wp_mono_E; [eapply wp_mono; [exact H|]|by auto]. intros ? w1 H1. rewrite wp_bind.
  eapply wp_mono_E; [eapply wp_mono; [exact H1|]|by auto]. intros ? w2 _.
  unfold addNode_insert, getNodeId. wgo. destruct (pm_regListMapMutex _); wgo; [done|].
  by destruct (w_nodes w2 !! p).
Qed.

(** No map has an entry for the id of a node yet to come. *)
Lemma fresh_id w socket :
  InvL w → (∀ q nq, w_nodes w !! q = Some nq → dn_socket nq ≠ socket) →
  pm_regListMap (w_medium w) !! socket = None ∧ pm_nodeHashMap (w_medium w) !! socket = None.
Proof.
  intros I Hfresh. split; apply eq_None_not_Some; intros [q Hq].
  - destruct (i_reg _ _ _ _ _ _ _ I _ _ Hq) as (nq & Hnq & Hs & _). by destruct (Hfresh q nq Hnq).
  - destruct (i_hash _ _ _ _ _ _ _ I _ _ Hq) as (nq & Hnq & Hs & _). by destruct (Hfresh q nq Hnq).
Qed.

(** The rest of addNode. *)
Lemma addNode_insert_run p socket fd o w :
  Inv w → w_nodes w !! p = None → p ∉ pm_txList (w_medium w) → socket ≠ 0 →
  (∀ q nq, w_nodes w !! q = Some nq → dn_socket nq ≠ socket) →
  let w1 := on_nodes (<[p := joined socket fd]>) (set_os o w) in
  let w2 := on_medium (on_pm_regListMap <[socket := p]>) w1 in
  addNode_insert p w1 = (Ok tt, w2) ∧ Inv w2.
Proof.
  intros [I Hm] Hp Htx Hsock Hfresh w1 w2. destruct (fresh_id w socket I Hfresh) as [Hr _]. split.
  - assert (H : wp (λ _ _, False) (addNode_insert p) (λ _ w', w' = w2) w1).
    { subst w1 w2. unfold addNode_insert, getNodeId. wgo. rewrite Hm. wgo.
      unfold on_medium, on_pm_regListMap, set_pm_mutex. cbn. rewrite insert_new_None by done.
      by rewrite Hm. }
    unfold wp in H. destruct (addNode_insert p w1) as [[[]|] w']; [by rewrite H|done].
  - split; [|done]. by apply (InvS_add I p (joined socket fd)).
Qed.

Lemma wp_join (p : nat) (socket fd : Z) (w : world) :
  Inv w → w_nodes w !! p = None → p ∉ pm_txList (w_medium w) → socket ≠ 0 →
  (∀ q nq, w_nodes w !! q = Some nq → dn_socket nq ≠ socket) →
  wp (λ f _, benign f) (join p socket fd) (λ _ w', Inv w' ∧
    w_nodes w' = <[p := joined socket fd]> (w_nodes w) ∧
    w_medium w' = on_pm_regListMap <[socket := p]> (w_medium w) ∧
    it_value (dn_regTimer (joined socket fd)) = Timespec 120 0) w.
Proof.
  intros I Hp Htx Hsock Hfresh.
  assert (H : bwp (new_node p socket fd;; addNode_announce p) (λ _ w1, bwp (addNode_insert p)
    (λ _ w', Inv w' ∧ w_nodes w' = <[p := joined socket fd]> (w_nodes w) ∧
    w_medium w' = on_pm_regListMap <[socket := p]> (w_medium w) ∧
    it_value (dn_regTimer (joined socket fd)) = Timespec 120 0) w1) w).
  { apply wp_announce. intros o. unfold wp.
    destruct (addNode_insert_run p socket fd o w I Hp Htx Hsock Hfresh) as [-> I']. by split. }
  unfold join, addNode. rewrite wp_bind in *. eapply wp_mono; [exact H|]. intros ? w1 H1. by rewrite wp_bind.
Qed.

(** A node that joins is registered with the medium and nowhere else: it is
    in the registration list under its id, in RegisteringState, with a timer of
    REGISTRATION_TIME seconds running; the invariant holds again, and no other
    node changes. *)
Theorem join_registers (p : nat) (socket fd : Z) (w : world) :
  Inv w → w_nodes w !! p = None → p ∉ pm_txList (w_medium w) → socket ≠ 0 →
  (∀ q nq, w_nodes w !! q = Some nq → dn_socket nq ≠ socket) →
  wp (λ f _, benign f) (join p socket fd) (λ _ w', Inv w' ∧
    w_nodes w' = <[p := joined socket fd]> (w_nodes w) ∧
    w_medium w' = on_pm_regListMap <[socket := p]> (w_medium w) ∧
    it_value (dn_regTimer (joined socket fd)) = Timespec 120 0) w.
Proof. apply wp_join. Qed.

Lemma join_registers_witness :
  let w := active_world [] in
  wp (λ f _, benign f) (join 2 (sock 2) 7) (λ _ w', Inv w' ∧
    w_nodes w' = <[2%nat := joined (sock 2) 7]> (w_nodes w) ∧
    w_medium w' = on_pm_regListMap <[sock 2 := 2%nat]> (w_medium w) ∧
    it_value (dn_regTimer (joined (sock 2) 7)) = Timespec 120 0) w.
Proof.
  apply (join_registers 2 (sock 2) 7 (active_world [])).
  - apply Inv_active.
  - reflexivity.
  - apply not_elem_of_nil.
  - vm_compute. discriminate.
  - intros q nq Hq. change (({[1%nat := active_node 1]} : gmap nat device_node) !! q = Some nq) in Hq.
    apply lookup_singleton_Some in Hq as [_ <-]. vm_compute. discriminate.
Defined.

(** ** Registering *)

(** The fields of a registration confirm. *)
Definition reg_strings (buf os osv : list Z) : Prop :=
  strncpy 32 (drop OFF_os buf) = Some os ∧ strncpy 32 (drop OFF_os_version buf) = Some osv ∧
  0 ∈ os ∧ 0 ∈ osv.

Definition registered (os osv : list Z) (nd : device_node) : device_node :=
  set_dn_curState ActiveState (set_dn_regTimer (set_started false (dn_regTimer nd))
    (set_dn_os os osv nd)).

Lemma handleRegistrationConfirm_run (p : nat) (nd : device_node) (buf os osv : list Z)
    (w : world) :
  Inv w → w_nodes w !! p = Some nd → dn_curState nd = RegisteringState → reg_strings buf os osv →
  handleRegistrationConfirm p buf w = (Ok tt,
    World (Os (os_script (w_os w)) (os_trace (w_os w) ++ [SysTimerDelete]))
      (<[p := registered os osv nd]> (w_nodes w)) (w_pkts w) (w_next_pkt w)
      (on_pm_nodeHashMap (<[dn_socket nd := p]>)
        (on_pm_regListMap (delete (dn_socket nd)) (w_medium w)))).
Proof.
  intros [I Hm] Hp Hs (Ho & Hv & Hno & Hnv).
  pose proof (i_node _ _ _ _ _ _ _ I p nd Hp) as [_ Hmed Ht _ _ _].
  rewrite Hs, bool_decide_true in Ht by done.
  destruct (inv_lookup_reg I p nd Hp Hs) as [Hr Hh].
  assert (H : twp (handleRegistrationConfirm p buf) (λ _ w', w' =
    World (Os (os_script (w_os w)) (os_trace (w_os w) ++ [SysTimerDelete]))
      (<[p := registered os osv nd]> (w_nodes w)) (w_pkts w) (w_next_pkt w)
      (on_pm_nodeHashMap (<[dn_socket nd := p]>)
        (on_pm_regListMap (delete (dn_socket nd)) (w_medium w)))) w).
  { unfold handleRegistrationConfirm, print_string. wgo. rewrite Ho. wgo. rewrite Hv. wgo.
    rewrite !bool_decide_true by done. unfold on_curState. wgo. rewrite Hs.
    unfold Registering.handleRegistrationConfirm, stopRegistrationTimer, getMedium, registerNode,
      getNodeId, erase_regList, NodeTimer.stop, timer_delete. wgo.
    rewrite wp_lift_os, Ht. wgo. rewrite Hmed. wgo. rewrite Hm. wgo.
    rewrite bool_decide_true by done. wgo.
    destruct w as [[sc tr] ns ps nx [st ct hash reg mu cca tx n1 n2 n3]]. cbn in *. subst mu.
    cbv [on_nodes on_medium set_os set_pm_mutex on_pm_nodeHashMap on_pm_regListMap w_os w_nodes w_pkts
      w_next_pkt w_medium os_script os_trace pm_state pm_curTime pm_nodeHashMap pm_regListMap
      pm_regListMapMutex pm_ccaList pm_txList pm_tx_pkts_ok pm_tx_pkts_collided pm_tx_pkts_failed].
    by rewrite !insert_insert_eq, insert_new_None by done. }
  destruct (twp_run _ _ _ H) as ([] & w' & E & ->). exact E.
Qed.

(** "L" and "1", in a message of 82 bytes. *)
Definition reg_con : list Z :=
  replicate 18 0 ++ [76] ++ replicate 31 0 ++ [49] ++ replicate 31 0.

(** A registration confirm makes a registering node active: its names are
    those of the message, its registration timer is deleted, and it has moved
    from the registration list to the node map; no answer of the system is
    needed, and nothing else changes. *)
Theorem handleRegistrationConfirm_registers (p : nat) (nd : device_node) (buf os osv : list Z)
    (w : world) :
  Inv w → w_nodes w !! p = Some nd → dn_curState nd = RegisteringState → reg_strings buf os osv →
  handleRegistrationConfirm p buf w = (Ok tt,
    World (Os (os_script (w_os w)) (os_trace (w_os w) ++ [SysTimerDelete]))
      (<[p := registered os osv nd]> (w_nodes w)) (w_pkts w) (w_next_pkt w)
      (on_pm_nodeHashMap (<[dn_socket nd := p]>)
        (on_pm_regListMap (delete (dn_socket nd)) (w_medium w)))).
Proof. apply handleRegistrationConfirm_run. Qed.

Lemma handleRegistrationConfirm_registers_witness :
  handleRegistrationConfirm 1 reg_con (reg_world []) = (Ok tt,
    World (Os [] [SysTimerDelete])
      {[1%nat := registered (76 :: replicate 31 0) (49 :: replicate 31 0) (reg_node 1)]} ∅ 0
      (medium_of IDLE {[sock 1 := 1%nat]} ∅ [])).
Proof.
  rewrite (handleRegistrationConfirm_registers 1 (reg_node 1) reg_con
    (76 :: replicate 31 0) (49 :: replicate 31 0)).
  - reflexivity.
  - apply Inv_reg.
  - reflexivity.
  - reflexivity.
  - split; [vm_compute; reflexivity|split; [vm_compute; reflexivity|]].
    split; right; left.
Defined.

(** *** A message before the node is in the map *)

Lemma deregister_unlisted p socket fd w :
  let w1 := on_nodes (<[p := joined socket fd]>) w in
  pm_regListMapMutex (w_medium w) = false →
  pm_regListMap (w_medium w) !! socket = None → pm_nodeHashMap (w_medium w) !! socket = None →
  (deregisterNode p w1).1 = Fail (AssertFail "n == 1").
Proof.
  intros w1 Hm Hr Hh.
  assert (H : wp (λ f _, f = AssertFail "n == 1") (deregisterNode p) (λ _ _, False) w1).
  { subst w1. unfold deregisterNode, getNodeId, erase_regList, erase_nodeHash. wgo. rewrite Hm. wgo.
    change (dn_socket (joined socket fd)) with socket. rewrite Hr, bool_decide_false by (by intros [? ?]). wgo.
    change (dn_socket (joined socket fd)) with socket. by rewrite Hh, bool_decide_false by (by intros [? ?]). }
  unfold wp in H. destruct (deregisterNode p w1) as [[[]|f] w']; [done|]. by rewrite H.
Qed.

Lemma confirm_unlisted p socket fd buf os osv w :
  let w1 := on_nodes (<[p := joined socket fd]>) w in
  pm_regListMapMutex (w_medium w) = false → pm_regListMap (w_medium w) !! socket = None →
  reg_strings buf os osv →
  (handleRegistrationConfirm p buf w1).1 = Fail (AssertFail "n == 1").
Proof.
  intros w1 Hm Hr (Ho & Hv & Hno & Hnv).
  assert (H : wp (λ f _, f = AssertFail "n == 1") (handleRegistrationConfirm p buf) (λ _ _, False) w1).
  { subst w1. unfold handleRegistrationConfirm, print_string. wgo. rewrite Ho. wgo. rewrite Hv. wgo.
    rewrite !bool_decide_true by done. unfold on_curState. wgo.
    unfold Registering.handleRegistrationConfirm, stopRegistrationTimer, getMedium, registerNode,
      getNodeId, erase_regList, NodeTimer.stop, timer_delete.
    change (dn_curState (joined socket fd)) with RegisteringState. wgo. rewrite wp_lift_os. change (started (dn_regTimer (joined socket fd))) with true. wgo.
    change (dn_medium (joined socket fd)) with true. wgo. rewrite Hm. wgo.
    change (dn_socket (joined socket fd)) with socket. by rewrite Hr, bool_decide_false by (by intros [? ?]). }
  unfold wp in H. destruct (handleRegistrationConfirm p buf w1) as [[[]|f] w']; [done|]. by rewrite H.
Qed.



(** ** The states of the medium *)

(** A medium in state IDLE goes to TX_802514_FRAME in its idle block exactly
    when a node has started to transmit, and otherwise stays IDLE; the block is
    only left early when the medium is stopping.  After it no CCA request waits. *)
Theorem idle_block_state (w : world) :
  Inv w → pm_ccaList (w_medium w) = [] → pm_state (w_medium w) = IDLE →
  wp (λ f _, benign f) idle_block (λ go w', Inv w' ∧
    if (go : bool)
    then pm_ccaList (w_medium w') = [] ∧
      pm_state (w_medium w') = (if decide (pm_txList (w_medium w') = []) then IDLE else TX_802514_FRAME)
    else pm_state (w_medium w') = STOPPING) w.
Proof.
  intros I Hc Hs. eapply wp_mono; [by apply wp_idle_block|].
  intros go w' (I' & _ & H1 & H2 & H3). split; [done|]. destruct go; auto.
Qed.

Lemma idle_block_state_witness :
  wp (λ f _, benign f) idle_block (λ go w', Inv w' ∧
    if (go : bool)
    then pm_ccaList (w_medium w') = [] ∧
      pm_state (w_medium w') = (if decide (pm_txList (w_medium w') = []) then IDLE else TX_802514_FRAME)
    else pm_state (w_medium w') = STOPPING) (active_world []).
Proof. apply (idle_block_state (active_world [])); [apply Inv_active|reflexivity|reflexivity]. Defined.

(** ** removeNodeFromTxList *)

Lemma remove_loop_all l n nodeIn found w :
  pm_txList (w_medium w) = l → (length l < n)%nat → Forall (λ q, q = nodeIn) l →
  (removeNodeFromTxList_loop n nodeIn found w).1 ≠ Fail NoFuel.
Proof.
  revert n found w. induction l as [|q l IH]; intros n found w Hl Hn Hall; destruct n as [|n];
    simpl in Hn; try lia; simpl; unfold mbind, M_bind; simpl; rewrite Hl; [done|].
  apply Forall_cons in Hall as [-> Hall]. rewrite decide_True by done. simpl.
  apply IH; [done|lia|done].
Qed.

Lemma remove_loop_other n nodeIn found l1 q l2 w :
  pm_txList (w_medium w) = l1 ++ q :: l2 → Forall (λ q, q = nodeIn) l1 → q ≠ nodeIn →
  (removeNodeFromTxList_loop n nodeIn found w).1 = Fail NoFuel.
Proof.
  revert l1 found w. induction n as [|n IH]; intros l1 found w Hl Hall Hq; [done|].
  simpl. unfold mbind, M_bind. simpl. rewrite Hl. destruct l1 as [|q1 l1]; simpl.
  - rewrite decide_False by done. by apply (IH []).
  - apply Forall_cons in Hall as [-> Hall]. rewrite decide_True by done. simpl. by apply (IH l1).
Qed.

(** The loop of removeNodeFromTxList comes to an end only when the Tx list
    holds nothing but the node to be removed: at any other node its iterator is
    never moved on. *)
Theorem removeNodeFromTxList_ends (nodeIn : nat) (w : world) :
  (∃ fuel, (removeNodeFromTxList_loop fuel nodeIn false w).1 ≠ Fail NoFuel) ↔
  Forall (λ q, q = nodeIn) (pm_txList (w_medium w)).
Proof.
  split.
  - intros [fuel Hf]. destruct (first_other nodeIn (pm_txList (w_medium w)))
      as [?|(l1 & q & l2 & Hl & Hall & Hq)]; [done|]. destruct Hf. by eapply remove_loop_other.
  - intros Hall. exists (S (length (pm_txList (w_medium w)))). eapply remove_loop_all; [done|lia|done].
Qed.

(** ** The end of a medium *)

Lemma twp_destroy_regList l ns ps nx hash tx w :
  w_nodes w = ns → InvS ns ps nx (pm_regListMap (w_medium w)) hash [] tx →
  NoDup (l.*1) → (∀ k p, (k, p) ∈ l ↔ pm_regListMap (w_medium w) !! k = Some p) →
  twp (destroy_regList l) (λ _ w', InvS (w_nodes w') ps nx ∅ hash [] tx ∧
    w_medium w' = on_pm_regListMap (λ _, ∅) (w_medium w) ∧
    w_pkts w' = w_pkts w ∧ os_script (w_os w') = os_script (w_os w)) w.
Proof.
  revert ns w. induction l as [|[k p] l IH]; intros ns w <- I Hnd Hl; simpl; wgo.
  { assert (E : pm_regListMap (w_medium w) = ∅).
    { apply map_empty. intros k. apply eq_None_not_Some. intros [p Hp%Hl]. by apply not_elem_of_nil in Hp. }
    rewrite E in I. split; [done|]. split; [|done].
    destruct w as [? ? ? ? []]. simpl in *. by subst. }
  destruct (i_reg _ _ _ _ _ _ _ I k p) as (nd & Hp & Hk & Hs); [apply Hl; by left|]. subst k.
  destruct (inv_lookup_reg I p nd Hp Hs) as [Hr Hh].
  simpl in Hnd. apply NoDup_cons in Hnd as [Hkl Hnd].
  unfold getNodeId. wgo. rewrite Z.eqb_refl. wgo. eapply twp_delete_node; [by wcbn|]. intros o Ho. wgo.
  pose proof (InvS_delete I p nd Hp (not_elem_of_nil _)) as I'. rewrite (delete_id hash) in I' by done.
  eapply wp_mono; [eapply IH; [reflexivity|exact I'|done|]|].
  - intros k q. wcbn. rewrite lookup_delete_Some, <-Hl, elem_of_cons. split.
    + intros Hkq. split; [|by right]. intros <-. apply Hkl, list_elem_of_fmap. by exists (dn_socket nd, q).
    + intros [Hne [[= -> ->]|?]]; done.
  - intros ? w' (I2 & Hm' & Hk' & Hsc'). split; [done|]. rewrite Hm', Hk', Hsc'. by wcbn.
Qed.

Lemma twp_destroy_nodeHash l ps nx tx w :
  InvS (w_nodes w) ps nx ∅ (pm_nodeHashMap (w_medium w)) [] tx →
  NoDup (l.*1) → (∀ k p, (k, p) ∈ l ↔ pm_nodeHashMap (w_medium w) !! k = Some p) →
  twp (destroy_nodeHash l) (λ _ w', w_nodes w' = ∅ ∧
    w_medium w' = on_pm_nodeHashMap (λ _, ∅) (w_medium w) ∧
    w_pkts w' = w_pkts w ∧ os_script (w_os w') = os_script (w_os w)) w.
Proof.
  revert w. induction l as [|[k p] l IH]; intros w I Hnd Hl; simpl; wgo.
  { assert (E : pm_nodeHashMap (w_medium w) = ∅).
    { apply map_empty. intros k. apply eq_None_not_Some. intros [p Hp%Hl]. by apply not_elem_of_nil in Hp. }
    rewrite E in I. split; [|split; [destruct w as [? ? ? ? []]; simpl in *; by subst|done]].
    apply map_empty. intros p. destruct (w_nodes w !! p) as [nd|] eqn:Hp; [|done].
    pose proof (nk_map _ _ _ _ _ _ (i_node _ _ _ _ _ _ _ I p nd Hp)) as H.
    by case_decide; rewrite lookup_empty in H. }
  destruct (i_hash _ _ _ _ _ _ _ I k p) as (nd & Hp & Hk & Hs); [apply Hl; by left|]. subst k.
  destruct (inv_lookup_hash I p nd Hp Hs) as [Hh Hr].
  simpl in Hnd. apply NoDup_cons in Hnd as [Hkl Hnd].
  unfold getNodeId. wgo. rewrite Z.eqb_refl. wgo. eapply twp_delete_node; [by wcbn|]. intros o Ho. wgo.
  pose proof (InvS_delete I p nd Hp (not_elem_of_nil _)) as I'. rewrite delete_empty in I'.
  eapply wp_mono; [eapply IH; [exact I'|done|]|].
  - intros k q. wcbn. rewrite lookup_delete_Some, <-Hl, elem_of_cons. split.
    + intros Hkq. split; [|by right]. intros <-. apply Hkl, list_elem_of_fmap. by exists (dn_socket nd, q).
    + intros [Hne [[= -> ->]|?]]; done.
  - intros ? w' (Hn' & Hm' & Hk' & Hsc'). split; [done|]. rewrite Hm', Hk', Hsc'. by wcbn.
Qed.

Lemma destroy_run `{HO : HashOrder} (w : world) :
  Inv w →
  ∃ w', destroy w = (Ok tt, w') ∧ w_nodes w' = ∅ ∧
    w_medium w' = on_pm_nodeHashMap (λ _, ∅) (on_pm_regListMap (λ _, ∅) (w_medium w)) ∧
    w_pkts w' = w_pkts w ∧ os_script (w_os w') = os_script (w_os w).
Proof.
  intros [I Hm].
  assert (I0 : InvS (w_nodes w) (w_pkts w) (w_next_pkt w) (pm_regListMap (w_medium w))
    (pm_nodeHashMap (w_medium w)) [] (pm_txList (w_medium w))).
  { eapply InvS_cca; [exact I|]. intros p []%not_elem_of_nil. }
  assert (H : twp destroy (λ _ w', w_nodes w' = ∅ ∧
    w_medium w' = on_pm_nodeHashMap (λ _, ∅) (on_pm_regListMap (λ _, ∅) (w_medium w)) ∧
    w_pkts w' = w_pkts w ∧ os_script (w_os w') = os_script (w_os w)) w).
  { unfold destroy. wgo. rewrite Hm. wgo.
    eapply wp_mono; [eapply twp_destroy_regList; [reflexivity|exact I0|apply hash_order_NoDup|]|].
    - intros k p. apply elem_of_hash_order.
    - intros ? w1 (I1 & Hm1 & Hk1 & Hsc1). wgo. rewrite Hm1. wcbn.
      eapply wp_mono; [eapply twp_destroy_nodeHash; [|apply hash_order_NoDup|]|].
      + wcbn. rewrite Hm1. exact I1.
      + intros k p. wcbn. rewrite Hm1. apply elem_of_hash_order.
      + intros ? w2 (Hn2 & Hm2 & Hk2 & Hsc2). split; [done|]. rewrite Hm2, Hk2, Hsc2. wcbn.
        rewrite Hm1, Hk1, Hsc1. split; [|done].
        unfold set_pm_mutex, on_pm_nodeHashMap, on_pm_regListMap. cbn. by rewrite Hm. }
  destruct (twp_run _ _ _ H) as ([] & w' & E & ?). by exists w'.
Qed.

(** C31: the destructor of a medium deletes every node, whichever list it is in
    and in whatever order the maps are visited, each of them once; it takes no
    answer of the system, both maps are empty then, and the packets of the nodes
    that were transmitting are left behind. *)
Theorem destroy_deletes_all `{HO : HashOrder} (w : world) :
  Inv w →
  ∃ w', destroy w = (Ok tt, w') ∧ w_nodes w' = ∅ ∧
    w_medium w' = on_pm_nodeHashMap (λ _, ∅) (on_pm_regListMap (λ _, ∅) (w_medium w)) ∧
    w_pkts w' = w_pkts w ∧ os_script (w_os w') = os_script (w_os w).
Proof. apply destroy_run. Qed.

Lemma destroy_deletes_all_witness :
  ∃ w', destroy (H := map_order) (two_tx_world []) = (Ok tt, w') ∧ w_nodes w' = ∅ ∧
    w_pkts w' = w_pkts (two_tx_world []).
Proof.
  destruct (destroy_deletes_all (HO := map_order) (two_tx_world []) (Inv_two_tx []))
    as (w' & E & Hn & _ & Hk & _).
  exists w'. split; [exact E|split; [exact Hn|exact Hk]].
Defined.
