(* ===== verification/Protocol.v ===== *)
(** Both ends of a connection: the simulator and the client of the tests.

    Each side accepts what the other sends; a client that follows the protocol is
    registered under the id it was given, is told the state of the channel, and
    its frame reaches the other clients as it was sent. *)

From Stdlib Require Import ZArith Lia.
From stdpp Require Import base tactics list gmap numbers option strings.
From S2P Require Import Prelude Bytes TimeUtils Checksum Interface Os SocketIO State Spec.
From S2P Require Import DeviceNode NodeStates NodeSim PhysicalMedium Acceptor Invariant Preserve Follow.
From S2P Require Import Fuel MediumSafe Total Examples Messages TxLife Registration.

(** ** Headers *)

Lemma out_hdr_sendable len ty id : sendable (out_hdr len ty id) len.
Proof.
  split; [|done]. unfold hdr_fits, out_hdr. cbn [hdr_len hdr_msg_type
    hdr_interface_version hdr_node_id hdr_cksum].
  split_and!; try apply bswap_fits. unfold fits. lia.
Qed.

Lemma out_hdr_type len ty id : ntohs (hdr_msg_type (out_hdr len ty id)) = msg_type_val ty.
Proof. by destruct ty. Qed.
Lemma out_hdr_version len ty id :
  ntohl (hdr_interface_version (out_hdr len ty id)) = NETSIM_INTERFACE_VERSION.
Proof. done. Qed.
Lemma out_hdr_id len ty id : fits 8 id → ntohll (hdr_node_id (out_hdr len ty id)) = id.
Proof. intros H. by apply (bswap_involutive 8). Qed.

Lemma seal_out_hdr len ty id body :
  bytes_ok body → len = 18 + length body → len ≤ 65535 →
  ∃ m, seal (out_hdr len ty id) body = Some m ∧ (length m : Z) = len.
Proof.
  intros Hb Hlen Hmax. destruct (seal_out (out_hdr len ty id) body Hb) as (m & Hm & Hl); [lia|].
  exists m. split; [done|lia].
Qed.

(** ** What the client does *)

(** The client after a call on the system. *)
Definition client_at (sc : list answer) (l : list sysev) (c : NodeSim_pimpl) : NodeSim_pimpl :=
  set_cl_os (Os sc (os_trace (cl_os c) ++ l)) c.

(** It has taken the answers up to [sc], made the calls [l] and has the id [id]. *)
Definition client_did (id : Z) (sc : list answer) (l : list sysev) (c c' : NodeSim_pimpl) : Prop :=
  cl_nodeId c' = id ∧ cl_os c' = Os sc (os_trace (cl_os c) ++ l) ∧
  cl_sockfd c' = cl_sockfd c ∧ cl_mcastfd c' = cl_mcastfd c.

Lemma client_did_trans id sc sc' l l' c c' c'' id' :
  client_did id sc l c c' → client_did id' sc' l' c' c'' → client_did id' sc' (l ++ l') c c''.
Proof.
  intros (H1 & H2 & H3 & H4) (G1 & G2 & G3 & G4). split_and!; [done| |congruence..].
  by rewrite G2, H2, app_assoc.
Qed.

Lemma send_msg_run c len ty body msg a sc :
  seal (out_hdr len ty (cl_nodeId c)) body = Some msg → os_script (cl_os c) = a :: sc →
  length msg ≤ a_rv a →
  send_msg len ty body c = (Ok tt, client_at sc [SysSend (cl_sockfd c) msg] c).
Proof.
  intros Hm Hs Ha. unfold send_msg, cl_call, zoom, mbind, M_bind, gets, id. rewrite Hm.
  cbn. unfold sys_send, mbind, M_bind, ask. rewrite Hs. cbn.
  replace (clamp (length msg) (a_rv a)) with (length msg : Z) by (unfold clamp; lia).
  by rewrite Nat2Z.id, take_ge by lia.
Qed.

Lemma sys_recv_some fd (n : Z) (data : list Z) s sc :
  bytes_ok data → length data ≤ n → os_script s = ans (length data) data :: sc →
  sys_recv fd n s = (Ok (length data : Z, data), Os sc (os_trace s ++ [SysRecv fd n])).
Proof.
  intros Hd Hn Hs. unfold sys_recv, mbind, M_bind, emit, modify, ask. cbn. rewrite Hs. cbn.
  rewrite clamp_id by lia. rewrite Nat2Z.id, bytes_of_id by done. done.
Qed.

(** The buffer after a message of the header [h] and the body [body]. *)
Definition read_buffer (h : netsim_pkt_hdr) (body : list Z) (c : NodeSim_pimpl) : list Z :=
  hdr_bytes h ++ body ++ drop (18 + length body) (cl_replyBuffer c).

(** A message that arrives in one piece and fits the buffer passes the checks. *)
Lemma client_reads c h body len m sc :
  sendable h len → bytes_ok body → len = 18 + length body → len ≤ 128 →
  seal h body = Some m → os_script (cl_os c) = ans len m :: sc →
  NodeSim.readMsg c = on_type h (read_buffer h body c)
    (set_cl_replyBuffer (read_buffer h body c) (client_at sc [SysRecv (cl_sockfd c) 128] c)).
Proof.
  intros Hs Hb Hlen Hmax Hm Hsc.
  destruct (seal_Some h body len Hs Hb Hlen) as (ck & Hg & Hfit & Hbl & Hm'); [lia|].
  rewrite Hm in Hm'. apply (inj Some) in Hm'. subst m. destruct Hs as (Hf & Hl & Hc0).
  set (m := le_bytes 2 (htons len) ++ hdr_mid h ++ le_bytes 2 (htons ck) ++ body) in *.
  pose proof (length_hdr_mid h) as Hlm.
  assert (Hml : length m = (18 + length body)%nat).
  { unfold m. rewrite !length_app, !length_le_bytes, Hlm. lia. }
  assert (Hmok : bytes_ok m).
  { unfold m, bytes_ok. rewrite !Forall_app. split_and!; try apply le_bytes_ok; [apply hdr_mid_ok|done]. }
  replace len with (length m : Z) in Hsc by lia.
  unfold NodeSim.readMsg. unfold mbind, M_bind, gets, id, cl_call, zoom.
  rewrite (sys_recv_some _ 128 m _ sc) by (done || lia). cbn beta iota.
  rewrite (proj2 (Z.ltb_ge _ _)) by lia. cbn [cl_replyBuffer set_cl_os].
  set (rest := drop (length m) (cl_replyBuffer c)).
  rewrite (load_at (m ++ rest) (le_bytes 2 (htons len) ++ hdr_mid h) (le_bytes 2 (htons ck)) (body ++ rest))
    by first [done | by rewrite length_app, Hlm | by unfold m; rewrite <-!app_assoc]. cbn beta iota.
  rewrite (store_at (m ++ rest) (le_bytes 2 (htons len) ++ hdr_mid h) (le_bytes 2 (htons ck))
    (le_bytes 2 0) (body ++ rest) _ (blank len (hdr_mid h) body ++ rest))
    by first [done | by rewrite length_app, Hlm | by unfold m, blank; rewrite <-!app_assoc]. cbn beta iota.
  unfold some_or, modify. cbn [mret M_ret].
  rewrite take_app_length' by (rewrite length_blank, Hlm, Nat2Z.id; lia).
  rewrite Hg. cbn [mret M_ret]. rewrite le_val_le_bytes by apply bswap_fits.
  unfold ntohs, htons. rewrite bswap_involutive, Z.eqb_refl by done. cbn [cassert mret M_ret].
  assert (E : blank len (hdr_mid h) body ++ rest = read_buffer h body c).
  { rewrite Hbl. unfold read_buffer, rest. by rewrite <-app_assoc, Hml. }
  rewrite E. unfold read_buffer at 1. rewrite hdr_of_bytes_bytes by done. done.
Qed.

(** The header the client reads tells it the type. *)
Lemma on_type_out len ty id buf c :
  on_type (out_hdr len ty id) buf c =
  match ty with
  | MSG_TYPE_REG_REQ => (Ok None, set_cl_nodeId (ntohll (htonll id)) c)
  | MSG_TYPE_DEREG_REQ | MSG_TYPE_DEREG_CON | MSG_TYPE_TX_DATA_IND => (Ok None, c)
  | MSG_TYPE_CCA_CON | MSG_TYPE_TX_DONE_IND =>
      match load buf 18 1 with Some r => (Ok (Some r), c) | None => (Fail (Undef OutOfBounds), c) end
  | _ => (Fail (Throw "Invalid received msg type"), c)
  end.
Proof.
  unfold on_type. rewrite out_hdr_type, msg_type_of_val.
  destruct ty; try done; unfold mbind, M_bind; by destruct (load buf 18 1).
Qed.

Lemma load_result h r rest c : byte_ok r →
  load (read_buffer h (r :: rest) c) 18 1 = Some r.
Proof.
  intros Hr. unfold read_buffer. erewrite (load_at _ (hdr_bytes h) [r]).
  - f_equal. unfold le_val. lia.
  - simpl. reflexivity.
  - by rewrite length_hdr_bytes.
  - done.
Qed.

(** ** What the simulator does with the client's messages *)

(** A message of the client that arrives is dispatched on its type. *)
Lemma client_message_dispatched p nd len ty body m fresh sc w :
  w_nodes w !! p = Some nd → fits 8 (dn_socket nd) → bytes_ok body →
  len = 18 + length body → len ≤ 65535 → 8 ≤ htons len →
  seal (out_hdr len ty (dn_socket nd)) body = Some m →
  os_script (w_os w) = arrives_msg m fresh sc →
  NodeStates.readMsg p w = dispatch p (msg_type_val ty) (hdr_bytes (out_hdr len ty (dn_socket nd)) ++ body)
    (received (dn_sockfd nd) len sc w).
Proof.
  intros Hp Hid Hb Hlen Hmax Hraw Hm Hsc.
  destruct (readMsg_sealed_run p nd (out_hdr len ty (dn_socket nd)) body len fresh sc w)
    as (m' & Hm' & _ & Hrun); auto using out_hdr_sendable, out_hdr_id.
  assert (m' = m) as -> by congruence. by rewrite (Hrun Hsc), out_hdr_type.
Qed.

(** *** Registration *)

Lemma name_fields_ok : bytes_ok (name_field os_name ++ name_field os_version).
Proof. apply (bool_decide_unpack _). vm_compute. exact I. Qed.

Lemma client_reg_strings h :
  reg_strings (hdr_bytes h ++ name_field os_name ++ name_field os_version)
    (name_field os_name) (name_field os_version).
Proof.
  unfold reg_strings.
  rewrite (drop_app_length' (hdr_bytes h)) by by rewrite length_hdr_bytes.
  rewrite (app_assoc (hdr_bytes h) (name_field os_name)), (drop_app_length' (_ ++ _))
    by by rewrite length_app, length_hdr_bytes.
  split; [by vm_compute|]. split; [by vm_compute|].
  split; apply (bool_decide_unpack _); by vm_compute.
Qed.

Lemma request_sent p nd w a0 sc m0 :
  w_nodes w !! p = Some nd → dn_socket nd ≠ 0 →
  seal (out_hdr 18 MSG_TYPE_REG_REQ (dn_socket nd)) [] = Some m0 →
  length m0 = 18%nat → 18 ≤ a_rv a0 → os_script (w_os w) = a0 :: sc →
  sendRegistrationRequest p w =
    (Ok tt, set_os (Os sc (os_trace (w_os w) ++ [SysSend (dn_sockfd nd) m0])) w).
Proof.
  intros Hp Hsock Hm Hl Ha Hsc.
  assert (H : twp (sendRegistrationRequest p) (λ _ w', w' =
    set_os (Os sc (os_trace (w_os w) ++ [SysSend (dn_sockfd nd) m0])) w) w).
  { unfold sendRegistrationRequest. wgo.
    eapply twp_send_message; [exact Hp|done|exact Hm|exact Hsc|lia|]. wgo. by rewrite Hl. }
  destruct (twp_run _ _ _ H) as ([] & w' & E & ->). exact E.
Qed.

Lemma client_confirms c id m0 m1 a1 sc :
  fits 8 id → seal (out_hdr 18 MSG_TYPE_REG_REQ id) [] = Some m0 →
  seal (out_hdr 82 MSG_TYPE_REG_CON id) (name_field os_name ++ name_field os_version) = Some m1 →
  length m1 = 82%nat → 82 ≤ a_rv a1 → os_script (cl_os c) = ans 18 m0 :: a1 :: sc →
  ∃ c', (NodeSim.readMsg;; sendRegCon) c = (Ok tt, c') ∧
    client_did id sc [SysRecv (cl_sockfd c) 128; SysSend (cl_sockfd c) m1] c c'.
Proof.
  intros Hid Hm0 Hm1 Hl Ha Hsc. eexists. split.
  - erewrite bind_ok.
    2: { rewrite (client_reads c (out_hdr 18 MSG_TYPE_REG_REQ id) [] 18 m0 (a1 :: sc));
         [|apply out_hdr_sendable|constructor|done|done|done|done].
         rewrite on_type_out. unfold ntohll, htonll, ntohll. rewrite bswap_involutive by done. done. }
    eapply send_msg_run; [exact Hm1|reflexivity|lia].
  - split_and!; try done. cbn. by rewrite <-app_assoc.
Qed.

(** The medium when node [p] has confirmed. *)
Definition confirmed (p : nat) (nd : device_node) (w : world) : world :=
  World (w_os w) (<[p := registered (name_field os_name) (name_field os_version) nd]> (w_nodes w))
    (w_pkts w) (w_next_pkt w)
    (on_pm_nodeHashMap (<[dn_socket nd := p]>) (on_pm_regListMap (delete (dn_socket nd)) (w_medium w))).

Lemma confirm_accepted p nd w m1 fresh sc :
  Inv w → w_nodes w !! p = Some nd → dn_curState nd = RegisteringState → fits 8 (dn_socket nd) →
  seal (out_hdr 82 MSG_TYPE_REG_CON (dn_socket nd)) (name_field os_name ++ name_field os_version) = Some m1 →
  os_script (w_os w) = arrives_msg m1 fresh sc →
  NodeStates.readMsg p w = (Ok tt, set_os (Os sc (os_trace (w_os w) ++
    [SysRecv (dn_sockfd nd) 2; SysRecv (dn_sockfd nd) 80; SysTimerDelete])) (confirmed p nd w)).
Proof.
  intros I Hp Hs Hid Hm Hsc.
  rewrite (client_message_dispatched p nd 82 MSG_TYPE_REG_CON (name_field os_name ++ name_field os_version)
    m1 fresh sc w) by (done || apply name_fields_ok).
  cbn [dispatch msg_type_val msg_type_of].
  rewrite (handleRegistrationConfirm_run p nd _ (name_field os_name) (name_field os_version));
    [|done|done|done|apply client_reg_strings].
  cbn. by rewrite <-app_assoc.
Qed.

(** C10: the two ends of a connection register: the simulator's registration request
    gives the client the id of its node; the client answers with a registration
    confirm under that id; and when the confirm arrives, the simulator makes the
    node active under that id, with the client's names. *)
Theorem registration_handshake (p : nat) (nd : device_node) (w : world)
    (a0 a1 fresh : answer) (sc0 sc1 sc2 : list answer) :
  Inv w → w_nodes w !! p = Some nd → dn_curState nd = RegisteringState → fits 8 (dn_socket nd) →
  18 ≤ a_rv a0 → 82 ≤ a_rv a1 →
  ∃ m0 m1,
    sendRegistrationRequest p (set_os (Os (a0 :: sc0) (os_trace (w_os w))) w) =
      (Ok tt, set_os (Os sc0 (os_trace (w_os w) ++ [SysSend (dn_sockfd nd) m0])) w) ∧
    (∀ c, os_script (cl_os c) = ans 18 m0 :: a1 :: sc1 → ∃ c',
       (NodeSim.readMsg;; sendRegCon) c = (Ok tt, c') ∧
       client_did (dn_socket nd) sc1 [SysRecv (cl_sockfd c) 128; SysSend (cl_sockfd c) m1] c c') ∧
    let w1 := set_os (Os (arrives_msg m1 fresh sc2) (os_trace (w_os w))) w in
    ∃ w', NodeStates.readMsg p w1 = (Ok tt, w') ∧
      w_nodes w' = <[p := registered (name_field os_name) (name_field os_version) nd]> (w_nodes w) ∧
      w_medium w' = on_pm_nodeHashMap (<[dn_socket nd := p]>)
        (on_pm_regListMap (delete (dn_socket nd)) (w_medium w)).
Proof.
  intros I Hp Hs Hid Ha0 Ha1.
  pose proof (nk_sock _ _ _ _ _ _ (i_node _ _ _ _ _ _ _ (proj1 I) p nd Hp)) as Hsock.
  destruct (seal_out_hdr 18 MSG_TYPE_REG_REQ (dn_socket nd) []) as (m0 & Hm0 & Hl0); [constructor|done..|].
  destruct (seal_out_hdr 82 MSG_TYPE_REG_CON (dn_socket nd) (name_field os_name ++ name_field os_version))
    as (m1 & Hm1 & Hl1); [apply name_fields_ok|done..|].
  exists m0, m1. split; [|split].
  - by rewrite (request_sent p nd _ a0 sc0 m0) by first [done | lia].
  - intros c Hsc. eapply client_confirms; [done..|lia|done|done].
  - intros w1. eexists. split; [by apply (confirm_accepted p nd w1 m1 fresh sc2)|done].
Qed.

(** A client with the id [id], and the answers its system gives. *)
Definition client_of (id : Z) (sc : list answer) : NodeSim_pimpl :=
  Client (os_of sc) 3 id (replicate 256 0) 4.

Lemma registration_handshake_witness : ∃ m0 m1 c' w',
  (NodeSim.readMsg;; sendRegCon) (client_of (2 ^ 64 - 1) [ans 18 m0; ans 82 []]) = (Ok tt, c') ∧
  cl_nodeId c' = sock 1 ∧
  NodeStates.readMsg 1 (reg_world (arrives_msg m1 (ans 0 []) [])) = (Ok tt, w') ∧
  w_nodes w' !! 1%nat = Some (registered (name_field os_name) (name_field os_version) (reg_node 1)).
Proof.
  destruct (registration_handshake 1 (reg_node 1) (reg_world []) (ans 18 []) (ans 82 []) (ans 0 []) [] [] [])
    as (m0 & m1 & _ & Hc & w' & E & Hn & _).
  - apply Inv_reg.
  - reflexivity.
  - reflexivity.
  - vm_compute. split; [discriminate|reflexivity].
  - vm_compute. discriminate.
  - vm_compute. discriminate.
  - destruct (Hc (client_of (2 ^ 64 - 1) [ans 18 m0; ans 82 []])) as (c' & Ec & (Hid & _)); [reflexivity|].
    exists m0, m1, c', w'. split; [exact Ec|split; [exact Hid|split; [exact E|]]].
    rewrite Hn. reflexivity.
Defined.

(** *** Clear channel assessment *)

Lemma handleCcaRequest_run p nd buf w :
  Inv w → w_nodes w !! p = Some nd → dn_curState nd = ActiveState →
  dispatch p (msg_type_val MSG_TYPE_CCA_REQ) buf w =
    (Ok tt, on_medium (set_pm_ccaList (pm_ccaList (w_medium w) ++ [p])) w).
Proof.
  intros I Hp Hs. pose proof (i_node _ _ _ _ _ _ _ (proj1 I) p nd Hp) as [_ Hmed _ _ _ _].
  assert (H : twp (handleCcaRequest p) (λ _ w', w' =
    on_medium (set_pm_ccaList (pm_ccaList (w_medium w) ++ [p])) w) w).
  { unfold handleCcaRequest, getMedium, addNodeToCcaList, on_curState. wgo. rewrite Hmed. wgo.
    rewrite Hs. unfold Active.handleCcaRequest. by wgo. }
  destruct (twp_run _ _ _ H) as ([] & w' & E & ->). exact E.
Qed.

Lemma client_asks c m1 m2 a1 sc (r : bool) :
  seal (out_hdr 18 MSG_TYPE_CCA_REQ (cl_nodeId c)) [] = Some m1 → length m1 = 18%nat → 18 ≤ a_rv a1 →
  seal (out_hdr 19 MSG_TYPE_CCA_CON (cl_nodeId c)) [if r then 1 else 0] = Some m2 →
  os_script (cl_os c) = a1 :: ans 19 m2 :: sc →
  ∃ c', (sendCcaReq;; NodeSim.readMsg) c = (Ok (Some (if r then 1 else 0)), c') ∧
    client_did (cl_nodeId c) sc [SysSend (cl_sockfd c) m1; SysRecv (cl_sockfd c) 128] c c'.
Proof.
  intros Hm1 Hl Ha Hm2 Hsc. eexists. split.
  - erewrite bind_ok by (eapply send_msg_run; [exact Hm1|exact Hsc|lia]).
    rewrite (client_reads _ (out_hdr 19 MSG_TYPE_CCA_CON (cl_nodeId c)) [if r then 1 else 0] 19 m2 sc);
      [|apply out_hdr_sendable|repeat constructor; by destruct r|done|done|exact Hm2|done].
    rewrite on_type_out, load_result by by destruct r. done.
  - split_and!; try done. cbn. by rewrite <-app_assoc.
Qed.

Lemma asked_answered p nd w m1 m2 fresh a2 sc :
  Inv w → w_nodes w !! p = Some nd → dn_curState nd = ActiveState → fits 8 (dn_socket nd) →
  pm_ccaList (w_medium w) = [] → 19 ≤ a_rv a2 →
  seal (out_hdr 18 MSG_TYPE_CCA_REQ (dn_socket nd)) [] = Some m1 →
  seal (out_hdr 19 MSG_TYPE_CCA_CON (dn_socket nd))
    [if bool_decide (pm_state (w_medium w) = IDLE) then 1 else 0] = Some m2 →
  os_script (w_os w) = arrives_msg m1 fresh (a2 :: sc) →
  (NodeStates.readMsg p;; processCcaList) w = (Ok tt, set_os (Os sc (os_trace (w_os w) ++
    [SysRecv (dn_sockfd nd) 2; SysRecv (dn_sockfd nd) 16; SysSend (dn_sockfd nd) m2])) w).
Proof.
  intros I Hp Hs Hid Hcca Ha2 Hm1 Hm2 Hsc. erewrite bind_ok.
  2: { rewrite (client_message_dispatched p nd 18 MSG_TYPE_CCA_REQ [] m1 fresh (a2 :: sc) w)
         by first [done | constructor].
       by apply (handleCcaRequest_run p nd). }
  rewrite (processCcaList_run _ [a2] sc).
  - unfold received, on_medium, set_os, set_pm_ccaList. cbn. rewrite Hcca. unfold cca_answers. cbn.
    rewrite Hp. cbn. unfold cca_answer. rewrite <-!app_assoc, Hm2.
    by destruct w as [? ? ? ? []]; simpl in *; subst.
  - destruct I as [I Hm]. split; [|done]. eapply InvS_cca; [exact I|]. cbn. rewrite Hcca.
    intros q ->%list_elem_of_singleton. by eexists.
  - done.
  - cbn. by rewrite Hcca.
  - by repeat constructor.
Qed.

(** C18: a client that asks for the channel is told its state: its request arrives
    at its node, the node is answered once, and what the client reads is 1 when the
    medium was idle and 0 otherwise; the medium is as it was before. *)
Theorem cca_exchange (p : nat) (nd : device_node) (w : world)
    (a1 a2 fresh : answer) (sc1 sc2 : list answer) :
  Inv w → w_nodes w !! p = Some nd → dn_curState nd = ActiveState → fits 8 (dn_socket nd) →
  pm_ccaList (w_medium w) = [] → 18 ≤ a_rv a1 → 19 ≤ a_rv a2 →
  let idle := bool_decide (pm_state (w_medium w) = IDLE) in
  ∃ m1 m2,
    (∀ c, cl_nodeId c = dn_socket nd → os_script (cl_os c) = a1 :: ans 19 m2 :: sc1 → ∃ c',
       (sendCcaReq;; NodeSim.readMsg) c = (Ok (Some (if idle then 1 else 0)), c') ∧
       client_did (dn_socket nd) sc1 [SysSend (cl_sockfd c) m1; SysRecv (cl_sockfd c) 128] c c') ∧
    let fd := dn_sockfd nd in let tr := os_trace (w_os w) in
    (NodeStates.readMsg p;; processCcaList) (set_os (Os (arrives_msg m1 fresh (a2 :: sc2)) tr) w) =
      (Ok tt, set_os (Os sc2 (tr ++ [SysRecv fd 2; SysRecv fd 16; SysSend fd m2])) w).
Proof.
  intros I Hp Hs Hid Hcca Ha1 Ha2 idle.
  destruct (seal_out_hdr 18 MSG_TYPE_CCA_REQ (dn_socket nd) []) as (m1 & Hm1 & Hl1); [constructor|done..|].
  destruct (seal_out_hdr 19 MSG_TYPE_CCA_CON (dn_socket nd) [if idle then 1 else 0])
    as (m2 & Hm2 & Hl2); [repeat constructor; by destruct idle|done..|].
  exists m1, m2. split.
  - intros c Hc Hsc. rewrite <-Hc in Hm1, Hm2 |- *. by apply (client_asks c m1 m2 a1 sc1 idle); [|lia|..].
  - intros fd tr. by rewrite (asked_answered p nd _ m1 m2 fresh a2 sc2).
Qed.

Lemma cca_exchange_witness : ∃ m1 m2 c',
  (sendCcaReq;; NodeSim.readMsg) (client_of (sock 1) [ans 18 []; ans 19 m2]) = (Ok (Some 1), c') ∧
  (NodeStates.readMsg 1;; processCcaList) (active_world (arrives_msg m1 (ans 0 []) [ans 19 []])) =
    (Ok tt, set_os (Os [] [SysRecv 6 2; SysRecv 6 16; SysSend 6 m2]) (active_world [])).
Proof.
  destruct (cca_exchange 1 (active_node 1) (active_world []) (ans 18 []) (ans 19 []) (ans 0 []) [] [])
    as (m1 & m2 & Hc & E).
  - apply Inv_active.
  - reflexivity.
  - reflexivity.
  - vm_compute. split; [discriminate|reflexivity].
  - reflexivity.
  - vm_compute. discriminate.
  - vm_compute. discriminate.
  - destruct (Hc (client_of (sock 1) [ans 18 []; ans 19 m2])) as (c' & Ec & _); [reflexivity|reflexivity|].
    exists m1, m2, c'. split; [exact Ec|exact E].
Defined.

(** *** A frame *)

Lemma length_psdu_data n : length (psdu_data n) = n.
Proof. unfold psdu_data. by rewrite length_fmap, length_seq. Qed.
Lemma psdu_data_ok n : bytes_ok (psdu_data n).
Proof.
  unfold psdu_data, bytes_ok. apply Forall_fmap, Forall_true. intros i. unfold byte_ok. cbn.
  apply Z.mod_pos_bound. lia.
Qed.

Section Frame.
Context (id sourceAddr psduLen repCode txPower ccaMode : Z) (extra : list Z).
Context (Hx : length extra = 2%nat) (Hxok : bytes_ok extra) (Hlen : 0 ≤ psduLen ≤ 221).

(** The parts of the message: the bytes before the checksum, the address, the
    length, the options and the data. *)
Let h := out_hdr (34 + psduLen) MSG_TYPE_TX_DATA_IND id.
Definition frame_pre : list Z := le_bytes 2 (hdr_len h) ++ hdr_mid h.
Definition frame_src : list Z := le_bytes 8 (htonll sourceAddr).
Definition frame_psdu : list Z := le_bytes 2 (htons psduLen).
Definition frame_opt : list Z :=
  extra ++ [to_unsigned 8 repCode; to_unsigned 8 (- txPower); to_unsigned 8 ccaMode].
Definition frame_data : list Z := psdu_data (Z.to_nat psduLen).

Lemma frame_body_split :
  hdr_bytes h ++ data_body extra sourceAddr psduLen repCode txPower ccaMode =
  data_buf frame_pre (le_bytes 2 0) frame_src frame_psdu frame_opt 0 frame_data.
Proof using.
  rewrite hdr_bytes_split. unfold data_buf, data_body, frame_pre, frame_src, frame_psdu, frame_opt,
    frame_data. by rewrite <-!app_assoc.
Qed.

Lemma frame_psdu_len : ntohs (le_val frame_psdu) = psduLen.
Proof using Hlen. clear Hx Hxok. apply le_val_length_field. unfold fits. change (256 ^ 2%nat) with 65536. lia. Qed.

Lemma frame_data_ok rest :
  bytes_ok rest → length rest ≤ 256 →
  data_ok frame_pre frame_src frame_psdu frame_opt (frame_data ++ rest).
Proof using Hx Hxok Hlen.
  intros Hr Hrl.
  assert (Hopt : bytes_ok frame_opt).
  { unfold frame_opt, bytes_ok. rewrite Forall_app. split; [done|].
    repeat constructor; apply Z.mod_pos_bound; lia. }
  split.
  - unfold frame_pre. by rewrite length_app, length_le_bytes, length_hdr_mid.
  - apply length_le_bytes.
  - apply length_le_bytes.
  - unfold frame_opt. by rewrite length_app, Hx.
  - unfold frame_pre, bytes_ok. rewrite !Forall_app.
    split_and!; try apply le_bytes_ok; [apply hdr_mid_ok|done|apply psdu_data_ok|done].
  - unfold frame_data. rewrite length_app, length_psdu_data. lia.
  - rewrite frame_psdu_len. unfold frame_data. rewrite length_app, length_psdu_data. lia.
Qed.

Lemma frame_data_ok_nil : data_ok frame_pre frame_src frame_psdu frame_opt frame_data.
Proof using Hx Hxok Hlen. rewrite <-(app_nil_r frame_data). apply frame_data_ok; [constructor|simpl; lia]. Qed.

(** A client that receives the multicast prints the data. *)
Lemma mcast_reads ck fresh sc c :
  length ck = 2%nat → bytes_ok ck →
  let b := data_buf frame_pre ck frame_src frame_psdu frame_opt 127 frame_data in
  os_script (cl_os c) = fresh :: ans (length b) b :: sc →
  mcastRxDataPacket c = (Ok (Some frame_data), client_at sc [SysRecv (cl_mcastfd c) 256] c).
Proof using Hx Hxok Hlen.
  intros Hck Hckok b Hsc.
  assert (Hbl : length b = (34 + Z.to_nat psduLen)%nat).
  { unfold b. rewrite length_data_buf by (done || apply frame_data_ok_nil). unfold frame_data.
    by rewrite length_psdu_data. }
  assert (Hbok : bytes_ok b) by (apply data_buf_ok; [apply frame_data_ok_nil|done|apply byte_ok_127]).
  unfold mcastRxDataPacket, sys_recv_fresh, sys_malloc, cl_call, zoom, mbind, M_bind, gets, ask, emit, modify.
  rewrite Hsc. cbn -[bytes_of drop b Nat.add OFF_pktData]. rewrite clamp_id by lia.
  rewrite Nat2Z.id, bytes_of_id by done.
  destruct (Z.eqb_spec (length b) (-1)); [lia|]. destruct (Z.eqb_spec (length b) 0); [lia|]. cbn [andb].
  set (rest := drop (length b) _).
  assert (bytes_ok rest ∧ length rest ≤ 256) as [Hrest Hrl].
  { unfold rest. split; [apply Forall_drop, bytes_of_ok|]. rewrite length_drop, length_bytes_of. lia. }
  assert (E : b ++ rest = data_buf frame_pre ck frame_src frame_psdu frame_opt 127 (frame_data ++ rest)).
  { unfold b, data_buf. by rewrite <-!app_assoc. }
  rewrite E. rewrite load_psdu by (done || by apply frame_data_ok). cbn [some_or mret M_ret].
  rewrite drop_data by (done || by apply frame_data_ok).
  rewrite frame_psdu_len.
  rewrite decide_True by (unfold OFF_pktData; lia).
  rewrite take_app_length' by (unfold frame_data; by rewrite length_psdu_data). done.
Qed.
End Frame.

(** What malloc found where the client leaves extra_hdr as it is. *)
Definition extra_of (psduLen : Z) (fresh : answer) : list Z :=
  take 2 (drop OFF_extra_hdr (bytes_of (Z.to_nat (34 + psduLen)) (a_data fresh))).

Lemma extra_of_ok psduLen fresh :
  0 ≤ psduLen → length (extra_of psduLen fresh) = 2%nat ∧ bytes_ok (extra_of psduLen fresh).
Proof.
  intros H. unfold extra_of, OFF_extra_hdr. split.
  - rewrite length_take, length_drop, length_bytes_of. lia.
  - apply Forall_take, Forall_drop, bytes_of_ok.
Qed.

Lemma data_body_ok extra src len rep pow cca :
  bytes_ok extra → bytes_ok (data_body extra src len rep pow cca).
Proof.
  intros H. unfold data_body, bytes_ok. rewrite !Forall_app.
  split_and!; try apply le_bytes_ok; [done| |apply psdu_data_ok].
  repeat constructor; try (by apply Z.mod_pos_bound); done.
Qed.

Lemma length_data_body extra src len rep pow cca :
  0 ≤ len → length extra = 2%nat →
  (length (data_body extra src len rep pow cca) : Z) = 16 + len.
Proof.
  intros H He. unfold data_body. rewrite !length_app, !length_le_bytes, He, length_psdu_data.
  simpl. lia.
Qed.

Lemma frame_raw_len psduLen : 0 ≤ psduLen ≤ 221 → 8 ≤ htons (34 + psduLen).
Proof.
  intros H. rewrite htons_value by (unfold fits; change (256 ^ 2%nat) with 65536; lia).
  rewrite Z.mod_small by lia. pose proof (Z.div_pos (34 + psduLen) 256). lia.
Qed.

Lemma load_out_len len ty id body :
  load (hdr_bytes (out_hdr len ty id) ++ body) OFF_len 2 = Some (htons len).
Proof.
  rewrite hdr_bytes_split. erewrite (load_at _ [] (le_bytes 2 (htons len))); [|reflexivity|done|done].
  by rewrite le_val_le_bytes by apply bswap_fits.
Qed.

(** The simulator's half: the message becomes the packet of the node, and the end of
    the transmission multicasts it. *)
Lemma frame_transmitted (p : nat) (nd : device_node) (w : world) (len : Z) (body m data : list Z)
    (src psdu opt : list Z) (fs t1 t2 a2 : answer) (sc : list answer) (c : Z) (tr : list sysev) :
  let h := out_hdr len MSG_TYPE_TX_DATA_IND (dn_socket nd) in
  let pre := le_bytes 2 (hdr_len h) ++ hdr_mid h in
  let fd := dn_sockfd nd in
  Inv w → w_nodes w !! p = Some nd → dn_curState nd = ActiveState → fits 8 (dn_socket nd) →
  bytes_ok body → len = 18 + length body → len ≤ 255 → 8 ≤ htons len → seal h body = Some m →
  hdr_bytes h ++ body = data_buf pre (le_bytes 2 0) src psdu opt 0 data → data_ok pre src psdu opt data →
  generate_checksum (data_buf pre (le_bytes 2 0) src psdu opt 127 data) = Some c →
  a_rv t1 ≠ -1 → a_rv t2 ≠ -1 → 19 ≤ a_rv a2 → stats_room (w_medium w) →
  ∃ w', (NodeStates.readMsg p;; tx_done p)
      (set_os (Os (arrives_msg m fs (t1 :: t2 :: a2 :: sc)) tr) w) = (Ok tt, w') ∧
    w_os w' = Os sc (tr ++ [SysRecv fd 2; SysRecv fd (len - 2); SysTimerCreate;
      SysTimerSet false (Timespec 0 4000000); SysTimerDelete;
      SysSend fd (done_msg nd (Packet (hdr_bytes h ++ body) len p false 0));
      SysSendTo (data_buf pre (le_bytes 2 (htons c)) src psdu opt 127 data);
      SysPcapDump (take (Z.to_nat (ntohs (le_val psdu))) data)]) ∧
    w_nodes w' = <[p := set_dn_txPkt None (tx_ended (tx_started (w_next_pkt w) 4 nd))]> (w_nodes w) ∧
    w_pkts w' = delete (w_next_pkt w) (w_pkts w).
Proof.
  intros h pre fd I Hp Hs Hid Hb Hlen Hmax Hraw Hm Hsplit D Hc Ht1 Ht2 Ha2 Hst.
  set (w0 := set_os (Os (arrives_msg m fs (t1 :: t2 :: a2 :: sc)) tr) w).
  set (w1 := received fd len (t1 :: t2 :: a2 :: sc) w0).
  assert (Hbuf : len = length (hdr_bytes h ++ body)).
  { rewrite length_app, length_hdr_bytes. unfold HDR_SIZE. lia. }
  assert (Hack : (len / 256) mod 8 =? 2 = false) by (rewrite Z.div_small; [done|lia]).
  destruct (handleDataIndication_run p nd (hdr_bytes h ++ body) len t1 t2 (a2 :: sc) w1)
    as (w2 & E2 & Hn2 & Hk2 & Hm2 & Ho2); try done; [lia|apply load_out_len| |].
  { unfold bytes_ok. rewrite Forall_app. split; [apply hdr_bytes_ok|done]. }
  rewrite Hack in Hn2, Ho2. cbn [Z.eqb] in Ho2.
  assert (I2 : Inv w2).
  { pose proof (wp_handleDataIndication p nd (hdr_bytes h ++ body) w1 I Hp) as W.
    unfold wp in W. rewrite E2 in W. apply W. }
  destruct (tx_done_run p (tx_started (w_next_pkt w) 4 nd) (w_next_pkt w)
    (Packet (hdr_bytes h ++ body) len p false 0) pre src psdu opt 0 data a2 sc w2)
    as (w3 & c' & E3 & Hc' & Hn3 & Hk3 & _ & Ho3); try done.
  - rewrite Hn2. apply lookup_insert_eq.
  - rewrite Hm2. cbn. set_solver.
  - rewrite Hk2. apply lookup_insert_eq.
  - by rewrite Ho2.
  - by rewrite Hm2.
  - assert (c' = c) as -> by congruence. exists w3. split; [|split; [|split]].
    + erewrite bind_ok; [exact E3|].
      rewrite (client_message_dispatched p nd len MSG_TYPE_TX_DATA_IND body m fs (t1 :: t2 :: a2 :: sc) w0)
        by first [done | lia]. exact E2.
    + rewrite Ho3, Ho2. unfold w1, received. cbn. by rewrite <-!app_assoc.
    + rewrite Hn3, Hn2. by rewrite insert_insert_eq.
    + rewrite Hk3, Hk2. cbn. by rewrite delete_insert_eq.
Qed.

Lemma client_sends_frame c id src psduLen rep pw cca m fc a1 sc :
  cl_nodeId c = id → 0 ≤ psduLen →
  seal (out_hdr (34 + psduLen) MSG_TYPE_TX_DATA_IND id)
    (data_body (extra_of psduLen fc) src psduLen rep pw cca) = Some m →
  length m ≤ a_rv a1 → os_script (cl_os c) = fc :: a1 :: sc →
  sendTxDataInd src psduLen rep pw cca c = (Ok tt, client_at sc [SysSend (cl_sockfd c) m] c).
Proof.
  intros <- Hlen Hm Ha Hsc. unfold sendTxDataInd.
  replace (DATA_IND_SIZE - 1 + psduLen) with (34 + psduLen) by (unfold DATA_IND_SIZE; lia).
  erewrite bind_ok by (unfold cl_call, zoom, sys_malloc, mbind, M_bind, ask; by rewrite Hsc).
  erewrite send_msg_run; [done|exact Hm|done|lia].
Qed.

Lemma client_told c id d sc :
  seal (out_hdr 19 MSG_TYPE_TX_DONE_IND id) [0] = Some d → os_script (cl_os c) = ans 19 d :: sc →
  ∃ c', NodeSim.readMsg c = (Ok (Some TX_DONE_OK), c') ∧
    client_did (cl_nodeId c) sc [SysRecv (cl_sockfd c) 128] c c'.
Proof.
  intros Hd Hsc. eexists.
  rewrite (client_reads c (out_hdr 19 MSG_TYPE_TX_DONE_IND id) [0] 19 d sc);
    [|apply out_hdr_sendable|by repeat constructor|done|done|done|done].
  by rewrite on_type_out, load_result by done.
Qed.

(** What the simulator does with it, and the multicast, which every client reads. *)
Lemma frame_passed p nd w src psduLen rep pw cca fc fs t1 t2 a2 sc :
  let id := dn_socket nd in let fd := dn_sockfd nd in let frame := psdu_data (Z.to_nat psduLen) in
  Inv w → w_nodes w !! p = Some nd → dn_curState nd = ActiveState → fits 8 id →
  0 ≤ psduLen ≤ 221 → a_rv t1 ≠ -1 → a_rv t2 ≠ -1 → 19 ≤ a_rv a2 → stats_room (w_medium w) →
  ∃ m d b,
    seal (out_hdr (34 + psduLen) MSG_TYPE_TX_DATA_IND id)
      (data_body (extra_of psduLen fc) src psduLen rep pw cca) = Some m ∧
    (length m : Z) = 34 + psduLen ∧
    seal (out_hdr 19 MSG_TYPE_TX_DONE_IND id) [0] = Some d ∧
    (∀ tr, ∃ w', (NodeStates.readMsg p;; tx_done p)
         (set_os (Os (arrives_msg m fs (t1 :: t2 :: a2 :: sc)) tr) w) = (Ok tt, w') ∧
       w_os w' = Os sc (tr ++ [SysRecv fd 2; SysRecv fd (32 + psduLen); SysTimerCreate;
         SysTimerSet false (Timespec 0 4000000); SysTimerDelete; SysSend fd d; SysSendTo b;
         SysPcapDump frame]) ∧
       w_nodes w' = <[p := set_dn_txPkt None (tx_ended (tx_started (w_next_pkt w) 4 nd))]> (w_nodes w) ∧
       w_pkts w' = delete (w_next_pkt w) (w_pkts w)) ∧
    (∀ c fr sc, os_script (cl_os c) = fr :: ans (length b) b :: sc →
       mcastRxDataPacket c = (Ok (Some frame), client_at sc [SysRecv (cl_mcastfd c) 256] c)).
Proof.
  intros id fd frame I Hp Hs Hid Hlen Ht1 Ht2 Ha2 Hst.
  destruct (extra_of_ok psduLen fc) as [Hx Hxok]; [lia|]. set (extra := extra_of psduLen fc) in *.
  set (body := data_body extra src psduLen rep pw cca).
  assert (Hbok : bytes_ok body) by by apply data_body_ok.
  assert (Hbl : 34 + psduLen = 18 + length body) by (unfold body; rewrite length_data_body by (done || lia); lia).
  destruct (seal_out_hdr (34 + psduLen) MSG_TYPE_TX_DATA_IND id body) as (m & Hm & Hml); [done..|lia|].
  destruct (seal_out_hdr 19 MSG_TYPE_TX_DONE_IND id [0]) as (d & Hd & _); [by repeat constructor|done..|].
  pose proof (frame_body_split id src psduLen rep pw cca extra) as Hsplit.
  pose proof (frame_data_ok_nil id src psduLen rep pw cca extra Hx Hxok Hlen) as D.
  destruct (data_checksum _ (le_bytes 2 0) _ _ _ _ D) as (ck & Hck & _); [done|apply le_bytes_ok|].
  pose proof (λ tr, frame_transmitted p nd w (34 + psduLen) body m (frame_data psduLen) (frame_src src)
    (frame_psdu psduLen) (frame_opt rep pw cca extra) fs t1 t2 a2 sc ck tr I Hp Hs Hid Hbok Hbl
    ltac:(lia) (frame_raw_len psduLen Hlen) Hm Hsplit D Hck Ht1 Ht2 Ha2 Hst) as R.
  exists m, d. eexists. split; [exact Hm|]. split; [done|]. split; [exact Hd|]. split.
  - intros tr. destruct (R tr) as (w' & E & Ho & Hn & Hk). exists w'. split; [exact E|]. split; [|done].
    set (pk := Packet _ _ _ _ _) in Ho.
    assert (Hdone : done_msg nd pk = d) by exact (f_equal (default []) Hd).
    rewrite Ho, Hdone, frame_psdu_len by done. unfold frame_data.
    replace (34 + psduLen - 2) with (32 + psduLen) by lia.
    rewrite (take_ge (psdu_data _)) by (by rewrite length_psdu_data). reflexivity.
  - intros c fr sc' Hsc. eapply (mcast_reads id src psduLen rep pw cca extra Hx Hxok Hlen);
      [| |exact Hsc]; [apply length_le_bytes|apply le_bytes_ok].
Qed.


