(* ===== verification/Session.v ===== *)
(** A whole session: the client TxOnePacket (src/test/nodesim/TxOnePacket.cpp) and
    the node that serves it, from the connection to the frame. *)

From Stdlib Require Import ZArith Lia.
From stdpp Require Import base tactics list gmap numbers option strings.
From S2P Require Import Prelude Bytes TimeUtils Checksum Interface Os SocketIO State Spec.
From S2P Require Import DeviceNode NodeStates NodeSim PhysicalMedium Acceptor Invariant Preserve Follow.
From S2P Require Import Fuel MediumSafe Total Examples Messages TxLife Registration Protocol.

(** ** The client connects *)

Definition connect_calls (mcastfd sockfd : Z) : list sysev :=
  [SysSocket mcastfd; SysSetSockOpt mcastfd NodeSim.SO_REUSEADDR 1; SysBind mcastfd HANADU_MCAST_TX_PORT;
   SysSetSockOpt mcastfd IP_ADD_MEMBERSHIP 1; SysSocket sockfd; SysConnect sockfd HANADU_NODE_PORT].

Lemma client_connects c s1 o1 b1 o2 s2 c1 sc :
  Forall (λ a, 0 ≤ a_rv a) [s1; o1; b1; o2; s2; c1] →
  os_script (cl_os c) = s1 :: o1 :: b1 :: o2 :: s2 :: c1 :: sc →
  (NodeSim.make;; connectNetSim) c = (Ok tt,
    Client (Os sc (os_trace (cl_os c) ++ connect_calls (a_rv s1) (a_rv s2))) (a_rv s2) (2 ^ 64 - 1)
      (cl_replyBuffer c) (a_rv s1)).
Proof.
  intros H Hsc. decompose_Forall_hyps.
  unfold NodeSim.make, mcastInit, connectNetSim, sys_socket, sys_setsockopt, sys_bind, sys_connect,
    cl_call, zoom, mbind, M_bind, mret, M_ret, modify, emit, ask.
  destruct c as [[sc0 tr] fd id buf mc]. cbn in Hsc |- *. subst sc0. cbn.
  repeat first [rewrite (Z.max_r (-1)) by lia | rewrite (proj2 (Z.ltb_ge _ 0)) by lia | progress cbn].
  unfold connect_calls. by rewrite <-!app_assoc.
Qed.

(** ** The session *)

(** What the simulator does for node [p]. *)
Definition serve (p : nat) : M world unit :=
  sendRegistrationRequest p;;
  NodeStates.readMsg p;;
  NodeStates.readMsg p;; processCcaList;;
  NodeStates.readMsg p;; tx_done p.

Section Session.
(** The answers of the client's system and of the simulator's, but for the
    messages. *)
Context (s1 o1 b1 o2 s2 c1 r1 r2 fm r3 fr : answer).
Context (a0 f1 f2 a2 f4 t1 t2 a3 : answer).

Definition client_answers (m0 m3 m5 b : list Z) : list answer :=
  [s1; o1; b1; o2; s2; c1; ans 18 m0; r1; r2; ans 19 m3; fm; r3; ans 19 m5; fr; ans (length b) b].
Definition node_answers (m1 m2 m4 : list Z) : list answer :=
  a0 :: arrives_msg m1 f1 (arrives_msg m2 f2 (a2 :: arrives_msg m4 f4 [t1; t2; a3])).

Hypothesis Hconnect : Forall (λ a, 0 ≤ a_rv a) [s1; o1; b1; o2; s2; c1].
Hypothesis Hr1 : 82 ≤ a_rv r1.
Hypothesis Hr2 : 18 ≤ a_rv r2.
Hypothesis Hr3 : 66 ≤ a_rv r3.
Hypothesis Ha0 : 18 ≤ a_rv a0.
Hypothesis Ha2 : 19 ≤ a_rv a2.
Hypothesis Ha3 : 19 ≤ a_rv a3.
Hypothesis Ht1 : a_rv t1 ≠ -1.
Hypothesis Ht2 : a_rv t2 ≠ -1.

(** The client's half, for the messages the lemmas of Protocol speak of. *)
Lemma client_session c id m0 m1 m2 m3 m4 m5 b :
  fits 8 id → seal (out_hdr 18 MSG_TYPE_REG_REQ id) [] = Some m0 →
  seal (out_hdr 82 MSG_TYPE_REG_CON id) (name_field os_name ++ name_field os_version) = Some m1 →
  length m1 = 82%nat →
  seal (out_hdr 18 MSG_TYPE_CCA_REQ id) [] = Some m2 → length m2 = 18%nat →
  seal (out_hdr 19 MSG_TYPE_CCA_CON id) [1] = Some m3 →
  seal (out_hdr 66 MSG_TYPE_TX_DATA_IND id)
    (data_body (extra_of 32 fm) 0x0102030405060708 32 48 (-10) 4) = Some m4 →
  (length m4 : Z) = 66 → seal (out_hdr 19 MSG_TYPE_TX_DONE_IND id) [0] = Some m5 →
  (∀ c fr sc, os_script (cl_os c) = fr :: ans (length b) b :: sc →
     mcastRxDataPacket c = (Ok (Some (psdu_data 32)), client_at sc [SysRecv (cl_mcastfd c) 256] c)) →
  cl_os c = Os (client_answers m0 m3 m5 b) [] →
  ∃ c', TxOnePacket c = (Ok (Some 1, Some TX_DONE_OK, Some (psdu_data 32)), c') ∧
    let fd := a_rv s2 in
    cl_os c' = Os [] (connect_calls (a_rv s1) fd ++
      [SysRecv fd 128; SysSend fd m1; SysSend fd m2; SysRecv fd 128; SysSend fd m4; SysRecv fd 128;
       SysRecv (a_rv s1) 256]).
Proof using Hconnect Hr1 Hr2 Hr3.
  intros Hid Hm0 Hm1 Hl1 Hm2 Hl2 Hm3 Hm4 Hl4 Hm5 Hrx Hc. unfold TxOnePacket.
  erewrite bind_then; [|eapply client_connects; [done|by rewrite Hc]]. rewrite Hc.
  set (k0 := Client _ _ _ _ _).
  destruct (client_confirms k0 id m0 m1 r1 [r2; ans 19 m3; fm; r3; ans 19 m5; fr; ans (length b) b])
    as (k1 & E1 & D1 & O1 & S1 & M1); [done..|].
  rewrite (bind_then _ _ _ _ _ _ E1).
  rewrite <-D1 in Hm2, Hm3.
  destruct (client_asks k1 m2 m3 r2 [fm; r3; ans 19 m5; fr; ans (length b) b] true)
    as (k2 & E2 & D2 & O2 & S2 & M2); [done..|by rewrite O1|].
  rewrite (bind_then _ _ _ _ _ _ E2).
  erewrite bind_ok.
  2: { eapply client_sends_frame; [by rewrite D2|done|exact Hm4| |by rewrite O2]. lia. }
  set (k3 := client_at _ _ k2).
  destruct (client_told k3 id m5 [fr; ans (length b) b]) as (k4 & E4 & D4 & O4 & S4 & M4); [done..|].
  erewrite bind_ok by exact E4.
  erewrite bind_ok by (eapply Hrx; by rewrite O4).
  eexists. split; [done|]. cbn. rewrite O4. cbn. rewrite O2, S2. cbn. rewrite O1, S1, M4. cbn.
  rewrite M2, M1. done.
Qed.

(** The simulator's half. *)
Lemma node_session p nd w m0 m1 m2 m3 m4 m5 b :
  let fd := dn_sockfd nd in let id := dn_socket nd in
  Inv w → w_nodes w !! p = Some nd → dn_curState nd = RegisteringState → fits 8 id →
  pm_ccaList (w_medium w) = [] → pm_state (w_medium w) = IDLE →
  seal (out_hdr 18 MSG_TYPE_REG_REQ id) [] = Some m0 → length m0 = 18%nat →
  seal (out_hdr 82 MSG_TYPE_REG_CON id) (name_field os_name ++ name_field os_version) = Some m1 →
  seal (out_hdr 18 MSG_TYPE_CCA_REQ id) [] = Some m2 →
  seal (out_hdr 19 MSG_TYPE_CCA_CON id) [1] = Some m3 →
  let nd1 := registered (name_field os_name) (name_field os_version) nd in
  (∀ tr, ∃ w', (NodeStates.readMsg p;; tx_done p)
       (set_os (Os (arrives_msg m4 f4 [t1; t2; a3]) tr) (confirmed p nd w)) = (Ok tt, w') ∧
     w_os w' = Os [] (tr ++ [SysRecv fd 2; SysRecv fd 64; SysTimerCreate;
       SysTimerSet false (Timespec 0 4000000); SysTimerDelete; SysSend fd m5; SysSendTo b;
       SysPcapDump (psdu_data 32)]) ∧
     w_nodes w' = <[p := set_dn_txPkt None (tx_ended (tx_started (w_next_pkt w) 4 nd1))]>
       (w_nodes (confirmed p nd w)) ∧
     w_pkts w' = delete (w_next_pkt w) (w_pkts w)) →
  Inv (confirmed p nd w) →
  ∃ w', serve p (set_os (Os (node_answers m1 m2 m4) []) w) = (Ok tt, w') ∧
    w_os w' = Os [] [SysSend fd m0; SysRecv fd 2; SysRecv fd 80; SysTimerDelete; SysRecv fd 2;
      SysRecv fd 16; SysSend fd m3; SysRecv fd 2; SysRecv fd 64; SysTimerCreate;
      SysTimerSet false (Timespec 0 4000000); SysTimerDelete; SysSend fd m5; SysSendTo b;
      SysPcapDump (psdu_data 32)] ∧
    w_nodes w' = <[p := set_dn_txPkt None (tx_ended (tx_started (w_next_pkt w) 4 nd1))]> (w_nodes w) ∧
    w_pkts w' = delete (w_next_pkt w) (w_pkts w).
Proof using Ha0 Ha2.
  intros fd id I Hp Hs Hid Hcca Hidle Hm0 Hl0 Hm1 Hm2 Hm3 nd1 Hf I1.
  pose proof (nk_sock _ _ _ _ _ _ (i_node _ _ _ _ _ _ _ (proj1 I) p nd Hp)) as Hsock.
  unfold serve, node_answers.
  erewrite bind_ok by (eapply (request_sent p nd _ a0); [exact Hp|done|exact Hm0|done|lia|done]).
  erewrite bind_ok by (eapply (confirm_accepted p nd); [exact I|exact Hp|done|done|exact Hm1|reflexivity]).
  cbn [w_os set_os os_trace].
  erewrite bind_then.
  2: { eapply (asked_answered p nd1 _ m2 m3 f2 a2); [exact I1|apply lookup_insert_eq|done..|exact Hm2| |reflexivity].
       cbn. by rewrite Hidle. }
  cbn [w_os set_os os_trace]. destruct (Hf ([SysSend fd m0] ++ [SysRecv fd 2; SysRecv fd 80; SysTimerDelete]
    ++ [SysRecv fd 2; SysRecv fd 16; SysSend fd m3])) as (w' & E & Ho & Hn & Hk).
  exists w'. split; [exact E|]. split; [by rewrite Ho|]. split; [|done].
  rewrite Hn. cbn. by rewrite insert_insert_eq.
Qed.
End Session.

Lemma Inv_confirmed p nd w m1 :
  Inv w → w_nodes w !! p = Some nd → dn_curState nd = RegisteringState → fits 8 (dn_socket nd) →
  pm_ccaList (w_medium w) = [] →
  seal (out_hdr 82 MSG_TYPE_REG_CON (dn_socket nd)) (name_field os_name ++ name_field os_version) = Some m1 →
  Inv (confirmed p nd w).
Proof.
  intros I Hp Hs Hid Hcca Hm1. set (w0 := set_os (Os (arrives_msg m1 (ans 0 []) []) []) w).
  pose proof (wp_readMsg p nd w0 I Hp) as W. unfold wp in W.
  rewrite (confirm_accepted p nd w0 m1 (ans 0 []) []) in W by done.
  apply W. cbn. rewrite Hcca. apply not_elem_of_nil.
Qed.


