(* ===== verification/Accepting.v ===== *)
(** The acceptor: what becomes of every descriptor it accepts, how it counts its
    errors, and that it keeps both media well formed. *)

From Stdlib Require Import ZArith Lia.
From stdpp Require Import base tactics list gmap numbers option strings sets.
From S2P Require Import Prelude Bytes TimeUtils Checksum Interface Os SocketIO State Spec.
From S2P Require Import DeviceNode NodeStates PhysicalMedium Acceptor Invariant Preserve Follow Fuel.
From S2P Require Import MediumSafe Total Examples Registration.

(** ** acceptConnections *)

(** What is done for one server socket: nothing, a client accepted, or a failed
    accept ([ok] is [false]). *)
Inductive one_accept (fd : Z) : Z → bool → list sysev → Prop :=
  | one_idle : one_accept fd (-1) true []
  | one_client c : 0 ≤ c → one_accept fd c true [SysAccept fd c]
  | one_failed : one_accept fd (-1) false [SysAccept fd (-1)].

Definition close_client (c : Z) : list sysev := if c =? -1 then [] else [SysClose c].

(** Every way acceptConnections can end: status, clients, and the calls after
    select. *)
Inductive acceptance (han air ufd : Z) : AcceptStatus → Z → Z → list sysev → Prop :=
  | acc_interrupted : acceptance han air ufd ACCEPT_OK (-1) (-1) []
  | acc_failed : acceptance han air ufd ACCEPT_ERROR (-1) (-1) []
  | acc_timeout : acceptance han air ufd ACCEPT_TIMEOUT (-1) (-1) []
  | acc_clients h a b1 b2 l1 l2 : one_accept han h b1 l1 → one_accept air a b2 l2 →
      acceptance han air ufd (if b1 && b2 then ACCEPT_OK else ACCEPT_ERROR) h a (l1 ++ l2)
  | acc_unblocked h a b1 b2 l1 l2 : one_accept han h b1 l1 → one_accept air a b2 l2 →
      acceptance han air ufd ACCEPT_UNBLOCK (-1) (-1)
        (l1 ++ l2 ++ SysRead ufd 1 :: close_client h ++ close_client a).

(** Three descriptors that fit an fd_set, no two of them the same. *)
Definition good_servers (han air ufd : Z) : Prop :=
  0 < han < FD_SETSIZE ∧ 0 < air < FD_SETSIZE ∧ 0 < ufd < FD_SETSIZE ∧
  han ≠ air ∧ han ≠ ufd ∧ air ≠ ufd.

Lemma setupAcceptFdSet_run han air ufd s :
  good_servers han air ufd →
  ∃ fdmax, setupAcceptFdSet han air ufd s = (Ok (fdmax, [han; air; ufd]), s) ∧
    0 < fdmax ∧ Forall (λ f, f < fdmax + 1) [han; air; ufd] ∧ fdmax = Z.max (Z.max han air) ufd.
Proof.
  intros (Hh & Ha & Hu & H1 & H2 & H3). unfold setupAcceptFdSet.
  destruct (Z.ltb_spec han 0); [lia|].
  erewrite bind_ok by (apply FD_SET_new; [lia|apply not_elem_of_nil]).
  destruct (Z.ltb_spec air 0); [lia|].
  erewrite bind_ok by (apply FD_SET_new; [lia|set_solver]).
  destruct (Z.ltb_spec ufd 0); [lia|].
  erewrite bind_ok by (apply FD_SET_new; [lia|set_solver]).
  simpl. eexists. split; [done|].
  repeat case_match; rewrite ?Z.ltb_lt, ?Z.ltb_ge in *; split_and!; try lia; repeat constructor; lia.
Qed.

(** The faults of acceptConnections: the system does not answer, or the assertion
    fails, which looks at the Hanadu client's descriptor for both servers. *)
Definition accept_fault (f : fault) (_ : os) : Prop :=
  f = Blocked ∨ f = AssertFail "*hanClient != EWOULDBLOCK".

Lemma wp_accept_han han ready rv count (Q : _ → os → Prop) s :
  (∀ c ok l s', adds s s' l → one_accept han c ok l →
     (han ∉ ready → ok = true) →
     Q (c, if ok then rv else ACCEPT_ERROR, count - (if bool_decide (han ∈ ready) then 1 else 0)) s') →
  wp accept_fault (accept_han han ready rv count) Q s.
Proof.
  intros HQ. unfold accept_han, sys_accept. case_bool_decide as Hin; wp_simpl.
  - destruct (os_script s) as [|a sc]; [by left|]. wp_simpl. cbn [os_script os_trace].
    set (c := Z.max (-1) (a_rv a)). destruct (Z.ltb_spec c 0) as [Hn|Hp].
    + assert (c = -1) as -> by lia. simpl. wp_simpl.
      by apply (HQ (-1) false [SysAccept han (-1)]); [|constructor|].
    + wp_simpl. by apply (HQ c true [SysAccept han c]); [|constructor|].
  - rewrite Z.sub_0_r in HQ. apply (HQ (-1) true []); [|constructor|done].
    unfold adds. by rewrite app_nil_r.
Qed.

Lemma wp_accept_air air h ready rv count (Q : _ → os → Prop) s :
  (∀ c ok l s', adds s s' l → one_accept air c ok l →
     Q (c, if ok then rv else ACCEPT_ERROR, count - (if bool_decide (air ∈ ready) then 1 else 0)) s') →
  wp accept_fault (accept_air air h ready rv count) Q s.
Proof.
  intros HQ. unfold accept_air, sys_accept. case_bool_decide as Hin; wp_simpl.
  - destruct (os_script s) as [|a sc]; [by left|]. wp_simpl. cbn [os_script os_trace].
    set (c := Z.max (-1) (a_rv a)). destruct (Z.ltb_spec c 0) as [Hn|Hp].
    + assert (c = -1) as -> by lia. wp_simpl.
      destruct (negb _); [|by right]. wp_simpl.
      by apply (HQ (-1) false [SysAccept air (-1)]); [|constructor].
    + wp_simpl. by apply (HQ c true [SysAccept air c]); [|constructor].
  - rewrite Z.sub_0_r in HQ. apply (HQ (-1) true []); [|constructor].
    unfold adds. by rewrite app_nil_r.
Qed.

Lemma wp_drop_clients h a (Q : _ → os → Prop) s :
  (∀ s', adds s s' (close_client h ++ close_client a) → Q tt s') →
  wp accept_fault (drop_clients h a) Q s.
Proof.
  intros HQ. unfold drop_clients, close_client, sys_close in *. wp_simpl.
  destruct (h =? -1), (a =? -1); simpl in *; wp_simpl; apply HQ; unfold adds; simpl;
    by rewrite <-?app_assoc, ?app_nil_r.
Qed.

Lemma wp_accept_unblock ufd ready h a rv count (Q : _ → os → Prop) s :
  (∀ s', ufd ∈ ready → adds s s' (SysRead ufd 1 :: close_client h ++ close_client a) →
     Q (-1, -1, ACCEPT_UNBLOCK, count - 1) s') →
  (ufd ∉ ready → Q (h, a, rv, count) s) →
  wp accept_fault (accept_unblock ufd ready h a rv count) Q s.
Proof.
  intros HQ HQ'. unfold accept_unblock, sys_read. case_bool_decide as Hin; wp_simpl; [|by apply HQ'].
  cbn [os_script os_trace]. destruct (os_script s) as [|b sc]; [by left|]. wp_simpl.
  apply wp_drop_clients. intros s' Hs'. wp_simpl. apply HQ; [done|].
  unfold adds in *. simpl in Hs'. by rewrite Hs', <-app_assoc.
Qed.

(** What select counts is what the three tests find. *)
Lemma accept_count han air ufd (P : Z → Prop) `{!∀ x, Decision (P x)} :
  good_servers han air ufd → let ready := filter P [han; air; ufd] in
  length ready - (if bool_decide (han ∈ ready) then 1 else 0)
    - (if bool_decide (air ∈ ready) then 1 else 0) = if bool_decide (ufd ∈ ready) then 1 else 0.
Proof.
  intros (_ & _ & _ & H1 & H2 & H3). cbv zeta.
  assert (Hin : ∀ x, x ∈ [han; air; ufd] →
    bool_decide (x ∈ filter P [han; air; ufd]) = bool_decide (P x)).
  { intros x Hx. apply bool_decide_ext. rewrite list_elem_of_filter. tauto. }
  rewrite !Hin by set_solver. rewrite !filter_cons, filter_nil.
  destruct (decide (P han)), (decide (P air)), (decide (P ufd));
    rewrite ?(bool_decide_true (P han)), ?(bool_decide_false (P han)),
      ?(bool_decide_true (P air)), ?(bool_decide_false (P air)),
      ?(bool_decide_true (P ufd)), ?(bool_decide_false (P ufd)) by done; done.
Qed.

(** What acceptConnections adds to the trace, for the clients it returns. *)
Definition accept_ends (han air ufd : Z) (s : os) : AcceptStatus * Z * Z → os → Prop :=
  λ '(rv, h, a) s', ∃ nfds l,
    adds s s' (SysSelect nfds [han; air; ufd] :: l) ∧ acceptance han air ufd rv h a l.

Lemma wp_acceptConnections han air ufd s :
  good_servers han air ufd →
  wp accept_fault (acceptConnections han air ufd) (accept_ends han air ufd s) s.
Proof.
  intros Hg. unfold acceptConnections.
  destruct (setupAcceptFdSet_run han air ufd s Hg) as (fdmax & Hset & Hmax & Hall & _). wp_simpl.
  unfold wp at 1. rewrite Hset. destruct (Z.ltb_spec 0 fdmax); [|lia].
  unfold sys_select. wp_simpl. cbn [os_script os_trace].
  destruct (os_script s) as [|an sc]; [by left|]. wp_simpl. cbn [os_script os_trace].
  pose proof (accept_count han air ufd (λ fd, fd ∈ a_fds an ∧ fd < fdmax + 1) Hg) as Hcount.
  set (ready := filter _ _) in *. cbv zeta in Hcount. clearbody ready.
  set (s1 := Os sc _).
  assert (HQ : ∀ rv h a s' l, adds s1 s' l → acceptance han air ufd rv h a l →
    accept_ends han air ufd s (rv, h, a) s').
  { intros rv h a s' l Hs' Ha. exists (fdmax + 1), l. split; [|done].
    unfold adds, s1 in *. simpl in *. by rewrite Hs', <-app_assoc. }
  assert (Hnil : adds s1 s1 []) by (unfold adds; by rewrite app_nil_r).
  destruct (a_rv an <? 0); wp_simpl.
  { destruct (a_errno an =? EINTR); wp_simpl; (eapply HQ; [exact Hnil|constructor]). }
  destruct (Z.eqb_spec (length ready) (-1)); [lia|].
  destruct (Z.eqb_spec (length ready) 0) as [H0|H0]; wp_simpl; [eapply HQ; [exact Hnil|constructor]|].
  apply wp_accept_han. intros h b1 l1 s2 Hs2 H1 _. wp_simpl.
  apply wp_accept_air. intros a b2 l2 s3 Hs3 H2. wp_simpl.
  apply wp_accept_unblock.
  - intros s4 Hin Hs4. rewrite (bool_decide_true (ufd ∈ ready)) in Hcount by done.
    rewrite Hcount. wp_simpl. eapply HQ; [|by eapply acc_unblocked].
    unfold adds in *. by rewrite Hs4, Hs3, Hs2, <-!app_assoc.
  - intros Hout. rewrite (bool_decide_false (ufd ∈ ready)) in Hcount by done. rewrite Hcount. wp_simpl.
    eapply HQ; [|replace (if b2 then _ else _) with (if b1 && b2 then ACCEPT_OK else ACCEPT_ERROR)
      by (by destruct b1, b2); by eapply acc_clients].
    unfold adds in *. by rewrite Hs3, Hs2, <-app_assoc.
Qed.



(** *** Accounting for descriptors *)

(** The descriptors opened by accept, and the descriptors closed. *)
Fixpoint opened (l : list sysev) : list Z :=
  match l with
  | SysAccept _ c :: l => (if c =? -1 then [] else [c]) ++ opened l
  | _ :: l => opened l
  | [] => []
  end.
Fixpoint closed (l : list sysev) : list Z :=
  match l with
  | SysClose c :: l => c :: closed l
  | _ :: l => closed l
  | [] => []
  end.
Definition client (c : Z) : list Z := if c =? -1 then [] else [c].

Lemma opened_app l1 l2 : opened (l1 ++ l2) = opened l1 ++ opened l2.
Proof. induction l1 as [|[] l1 IH]; simpl; rewrite ?IH, <-?app_assoc; done. Qed.
Lemma closed_app l1 l2 : closed (l1 ++ l2) = closed l1 ++ closed l2.
Proof. induction l1 as [|[] l1 IH]; simpl; rewrite ?IH; done. Qed.

Lemma one_accept_accounts fd c ok l :
  one_accept fd c ok l → opened l = client c ∧ closed l = [].
Proof.
  intros [|c' Hc'|]; [done| |done]. unfold opened, client. simpl.
  destruct (Z.eqb_spec c' (-1)); [lia|done].
Qed.

Lemma close_client_accounts c : opened (close_client c) = [] ∧ closed (close_client c) = client c.
Proof. unfold close_client, client. by destruct (c =? -1). Qed.

(** C21: every descriptor that acceptConnections accepts is accounted for: it is
    returned as a client or has been closed, once, and nothing else is closed. *)
Theorem acceptConnections_accounts (han air ufd : Z) (s : os) :
  good_servers han air ufd →
  wp accept_fault (acceptConnections han air ufd)
    (λ '(rv, h, a) s', ∃ l, adds s s' l ∧ opened l = closed l ++ client h ++ client a) s.
Proof.
  intros Hg. eapply wp_mono; [by apply wp_acceptConnections|].
  intros [[rv h] a] s' (nfds & l & Hl & Hacc). eexists. split; [exact Hl|]. simpl.
  destruct Hacc as [| | |h a b1 b2 l1 l2 H1 H2|h a b1 b2 l1 l2 H1 H2]; try done;
    apply one_accept_accounts in H1 as [Ho1 Hc1], H2 as [Ho2 Hc2];
    rewrite !opened_app, !closed_app, Ho1, Ho2, Hc1, Hc2; [done|].
  simpl. rewrite opened_app, closed_app.
  destruct (close_client_accounts h) as [-> ->], (close_client_accounts a) as [-> ->].
  by rewrite !app_nil_r.
Qed.

Lemma acceptConnections_accounts_witness :
  let s := Os [Answer 2 0 [] (Timespec 0 0) [] [3; 4]; ans 9 []; ans (-1) []] [] in
  wp accept_fault (acceptConnections 3 4 5)
    (λ '(rv, h, a) s', ∃ l, adds s s' l ∧ opened l = closed l ++ client h ++ client a) s ∧
  acceptConnections 3 4 5 s = (Ok (ACCEPT_ERROR, 9, -1),
    Os [] [SysSelect 6 [3; 4; 5]; SysAccept 3 9; SysAccept 4 (-1)]).
Proof.
  split; [|vm_compute; reflexivity].
  apply acceptConnections_accounts. unfold good_servers, FD_SETSIZE. lia.
Defined.

(** ** Calls on the system *)

(** A call on the system with faults in [P], which adds no answers. *)
Definition asks (P : fault → Prop) {A} (m : M os A) : Prop :=
  ∀ o, wp (λ f _, P f) m (λ _ o', (length (os_script o') ≤ length (os_script o))%nat) o.

(** Faults that are not a bad access, and those of them that are no exceptions. *)
Definition silent (f : fault) : Prop := benign f ∧ throws f = false.
Notation calm := (asks benign).
Notation mute := (asks silent).

(** To wait for ever and to fail an assertion are among the faults. *)
Class StopFaults (P : fault → Prop) : Prop := {
  stop_blocked : P Blocked;
  stop_assert msg : P (AssertFail msg)
}.
#[export] Instance benign_stop : StopFaults benign.
Proof. done. Qed.
#[export] Instance silent_stop : StopFaults silent.
Proof. done. Qed.

Section Asks.
Context {P : fault → Prop} `{SF : !StopFaults P}.

Lemma asks_bind {A B} (m : M os A) (f : A → M os B) :
  asks P m → (∀ a, asks P (f a)) → asks P (m ≫= f).
Proof using.
  intros Hm Hf o. wp_simpl. eapply wp_mono; [apply Hm|]. intros a o1 H1.
  eapply wp_mono; [apply Hf|]. intros b o2 H2. cbn beta in *. lia.
Qed.
Lemma asks_ret {A} (a : A) : asks P (mret a).
Proof using. intros o. unfold wp. simpl. lia. Qed.
Lemma asks_fail {A} f : P f → asks P (failw f : M os A).
Proof using. by intros Hf o. Qed.
Lemma asks_assert b msg : asks P (cassert b msg).
Proof using SF. intros o. destruct b; unfold wp; simpl; [lia|apply stop_assert]. Qed.
Lemma asks_ask : asks P ask.
Proof using SF.
  intros o. rewrite wp_ask. destruct (os_script o); [apply stop_blocked|]. simpl. lia.
Qed.
Lemma asks_emit e : asks P (emit e).
Proof using. intros o. rewrite wp_emit. simpl. lia. Qed.
End Asks.

Ltac asks := repeat first
  [ progress intros | apply asks_bind | apply asks_ret | apply asks_ask | apply asks_emit
  | apply asks_assert | apply asks_fail; done
  | match goal with
    | |- asks _ (if ?b then _ else _) => destruct b
    | |- asks _ (match ?x with _ => _ end) => destruct x
    end ].

(** ** The invariant of the simulator *)

Definition keys_below (n : nat) (w : world) : Prop :=
  ∀ p, is_Some (w_nodes w !! p) ∨ p ∈ pm_txList (w_medium w) → (p < n)%nat.

(** Both media satisfy their invariants, the ids of all nodes are different, and
    the heap keys in use are below the next one. *)
Record sim_inv (s : simulator) : Prop := {
  si_plc : Inv (ns_plcMedium s);
  si_wl : Inv (ns_wlMedium s);
  si_ids p q np nq : w_nodes (ns_plcMedium s) !! p = Some np →
    w_nodes (ns_wlMedium s) !! q = Some nq → dn_socket np ≠ dn_socket nq;
  si_plc_keys : keys_below (ns_next_node s) (ns_plcMedium s);
  si_wl_keys : keys_below (ns_next_node s) (ns_wlMedium s)
}.

(** The invariant does not depend on what the system has still to say. *)
Lemma sim_inv_os o s : sim_inv s → sim_inv (set_ns_os o s).
Proof. by intros []. Qed.
Lemma sim_inv_stop b s : sim_inv s → sim_inv (set_ns_stop b s).
Proof. by intros []. Qed.

Section Accepting.
Context `{AL : Allocator}.

(** The answers the acceptor still has. *)
Definition sim_answers (s : simulator) : nat := length (os_script (ns_os s)).

Lemma elem_of_sockets w p nd : w_nodes w !! p = Some nd → dn_socket nd ∈ sockets w.
Proof using.
  intros Hp. unfold sockets. apply list_elem_of_fmap. exists (p, nd). split; [done|].
  by apply elem_of_map_to_list.
Qed.

(** The lists and the state of a medium are those of before. *)
Definition quiet (w w' : world) : Prop :=
  pm_ccaList (w_medium w') = pm_ccaList (w_medium w) ∧
  pm_txList (w_medium w') = pm_txList (w_medium w) ∧ pm_state (w_medium w') = pm_state (w_medium w).

Definition same_media (s s' : simulator) : Prop :=
  quiet (ns_plcMedium s) (ns_plcMedium s') ∧ quiet (ns_wlMedium s) (ns_wlMedium s').

(** How the main thread fails: the fault is benign; and after an exception, which
    main catches, the simulator is well formed and nothing happened to the lists. *)
Definition excused (s : simulator) (f : fault) (s' : simulator) : Prop :=
  benign f ∧ (throws f = true → sim_inv s' ∧ same_media s s').

(** The state of the simulator but for the nodes of its media, its heap and its
    answers. *)
Definition same_control (s s' : simulator) : Prop :=
  ns_stop s' = ns_stop s ∧ ns_hanServer s' = ns_hanServer s ∧ ns_airServer s' = ns_airServer s ∧
  ns_unblocker s' = ns_unblocker s ∧ (sim_answers s' ≤ sim_answers s)%nat ∧
  same_media s s'.

(** [w'] is [w] with the node of a new connection on [fd]. *)
Definition joins (n : nat) (socket fd : Z) (w w' : world) : Prop :=
  w_nodes w' = <[n := joined socket fd]> (w_nodes w) ∧
  w_medium w' = on_pm_regListMap <[socket := n]> (w_medium w).

Lemma wp_join_at n socket fd o w :
  Inv w → keys_below n w → socket ≠ 0 → socket ∉ sockets w →
  wp (λ f w', benign f ∧ (throws f = true → ∃ o', w' = set_os o' w)) (join_or_leak n socket fd)
    (λ _ w', Inv w' ∧ joins n socket fd w w' ∧ (answers w' ≤ length (os_script o))%nat) (set_os o w).
Proof using.
  intros I Hk Hs Hfresh.
  assert (Hn : w_nodes w !! n = None).
  { destruct (w_nodes w !! n) eqn:Hn; [|done]. specialize (Hk n). rewrite Hn in Hk.
    assert (n < n)%nat by (apply Hk; by left). lia. }
  assert (Hj : wp (λ f _, benign f) (join n socket fd) (λ _ w', Inv w' ∧ joins n socket fd w w' ∧
    (answers w' ≤ length (os_script o))%nat) (set_os o w)).
  { eapply wp_mono; [eapply wp_and; [|apply frugal_wp, follows_join]|].
    - apply (wp_join n socket fd (set_os o w)); [exact I|exact Hn| |done|].
      + intros Hin. assert (n < n)%nat by (apply Hk; by right). lia.
      + intros q nq Hq E. apply Hfresh. rewrite <-E. by eapply elem_of_sockets.
    - intros ? w' [(I' & Hn' & Hm & _) Ha]. split; [done|]. split; [by split|exact Ha]. }
  unfold join_or_leak. rewrite wp_try_catch.
  eapply wp_mono_E; [eapply wp_mono; [exact (wp_both _ _ _ _ _ _ Hj (wp_join_throws n socket fd _))|]|].
  - by intros ? w' [HQ _].
  - intros f w' [Hb Ht]. destruct f; try by split. wp_simpl. split; [done|]. intros _.
    destruct (Ht eq_refl) as (nd & o' & ->). exists o'. unfold on_nodes, set_os. cbn.
    by rewrite delete_insert_id.
Qed.

Lemma keys_below_joins n socket fd w w' :
  keys_below n w → joins n socket fd w w' → keys_below (S n) w'.
Proof using.
  intros Hk [Hn Hm] p. rewrite Hn, Hm. simpl. intros [Hp|Hp].
  - destruct (decide (p = n)) as [->|Hne]; [lia|]. rewrite lookup_insert_ne in Hp by done.
    assert (p < n)%nat by (apply Hk; by left). lia.
  - assert (p < n)%nat by (apply Hk; by right). lia.
Qed.

Lemma keys_below_S n w : keys_below n w → keys_below (S n) w.
Proof using. intros Hk p Hp. specialize (Hk p Hp). lia. Qed.

Lemma quiet_refl w : quiet w w.
Proof using. done. Qed.
Lemma quiet_trans w1 w2 w3 : quiet w1 w2 → quiet w2 w3 → quiet w1 w3.
Proof using. intros (? & ? & ?) (? & ? & ?). unfold quiet. split_and!; congruence. Qed.
Lemma joins_quiet n socket fd w w' : joins n socket fd w w' → quiet w w'.
Proof using. intros [_ Hm]. unfold quiet. by rewrite Hm. Qed.
Lemma same_media_refl s : same_media s s.
Proof using. done. Qed.
Lemma same_media_trans s1 s2 s3 : same_media s1 s2 → same_media s2 s3 → same_media s1 s3.
Proof using. intros [] []. split; by eapply quiet_trans. Qed.

(** The address the next node gets. *)
Definition next_socket (s : simulator) : Z :=
  alloc (ns_next_node s) (sockets (ns_plcMedium s) ++ sockets (ns_wlMedium s)).

Lemma next_socket_fresh s :
  next_socket s ≠ 0 ∧ next_socket s ∉ sockets (ns_plcMedium s) ∧
  next_socket s ∉ sockets (ns_wlMedium s).
Proof using.
  unfold next_socket. split; [apply alloc_not_NULL|].
  pose proof (alloc_fresh (ns_next_node s) (sockets (ns_plcMedium s) ++ sockets (ns_wlMedium s))) as H.
  rewrite not_elem_of_app in H. exact H.
Qed.

(** A medium that was borrowed and only changed in what it asks the system. *)
Lemma return_plc (s s1 : simulator) o o' :
  sim_inv s → same_media s1 s →
  let s' := set_ns_os o' (set_ns_media (set_os (w_os (ns_plcMedium s)) (set_os o (ns_plcMedium s)))
    (ns_wlMedium s) (set_ns_next_node (S (ns_next_node s)) s)) in
  sim_inv s' ∧ same_media s1 s'.
Proof using. intros [] Hq. split; [split; try done; by apply keys_below_S|apply Hq]. Qed.
Lemma return_wl (s s1 : simulator) o o' :
  sim_inv s → same_media s1 s →
  let s' := set_ns_os o' (set_ns_media (ns_plcMedium s)
    (set_os (w_os (ns_wlMedium s)) (set_os o (ns_wlMedium s))) (set_ns_next_node (S (ns_next_node s)) s)) in
  sim_inv s' ∧ same_media s1 s'.
Proof using. intros [] Hq. split; [split; try done; by apply keys_below_S|apply Hq]. Qed.

(** A client of the Hanadu server becomes a node of the powerline medium, and the
    wireless medium is not touched. *)
Lemma wp_add_han fd s0 s :
  sim_inv s → same_media s0 s →
  wp (excused s0) (add_han fd) (λ _ s', sim_inv s' ∧ same_control s s' ∧
    ns_next_node s' = S (ns_next_node s) ∧ ns_wlMedium s' = ns_wlMedium s ∧
    joins (ns_next_node s) (next_socket s) fd (ns_plcMedium s) (ns_plcMedium s')) s.
Proof using.
  intros I Hmed. pose proof I as [I1 I2 Hids Hk1 Hk2]. unfold add_han, new_address. wp_simpl.
  unfold on_plc. rewrite wp_zoom. fold (next_socket s).
  destruct (next_socket_fresh s) as (H0 & Hf1 & Hf2).
  eapply wp_mono_E; [eapply wp_mono; [by apply (wp_join_at _ _ fd (ns_os s))|]|].
  2: { intros f w' [Hb Ht]. split; [done|]. intros [o' ->]%Ht. exact (return_plc s s0 _ _ I Hmed). }
  intros ? w' (I' & HJ & Ha). pose proof (joins_quiet _ _ _ _ _ HJ) as HQ.
  split; [|split_and!; try done; apply HQ].
  assert (Hn : w_nodes w' = <[ns_next_node s := joined (next_socket s) fd]> (w_nodes (ns_plcMedium s)))
    by apply HJ.
  split; try done.
  - simpl. intros p q np nq. rewrite Hn. intros [[<- <-]|[_ Hp]]%lookup_insert_Some Hq.
    + simpl. intros E. apply Hf2. rewrite E. by eapply elem_of_sockets.
    + by eapply Hids.
  - exact (keys_below_joins _ _ _ _ _ Hk1 HJ).
  - by apply keys_below_S.
Qed.

(** And a client of the wireless server a node of the wireless one. *)
Lemma wp_add_air fd s0 s :
  sim_inv s → same_media s0 s →
  wp (excused s0) (add_air fd) (λ _ s', sim_inv s' ∧ same_control s s' ∧
    ns_next_node s' = S (ns_next_node s) ∧ ns_plcMedium s' = ns_plcMedium s ∧
    joins (ns_next_node s) (next_socket s) fd (ns_wlMedium s) (ns_wlMedium s')) s.
Proof using.
  intros I Hmed. pose proof I as [I1 I2 Hids Hk1 Hk2]. unfold add_air, new_address. wp_simpl.
  unfold on_wl. rewrite wp_zoom. fold (next_socket s).
  destruct (next_socket_fresh s) as (H0 & Hf1 & Hf2).
  eapply wp_mono_E; [eapply wp_mono; [by apply (wp_join_at _ _ fd (ns_os s))|]|].
  2: { intros f w' [Hb Ht]. split; [done|]. intros [o' ->]%Ht. exact (return_wl s s0 _ _ I Hmed). }
  intros ? w' (I' & HJ & Ha). pose proof (joins_quiet _ _ _ _ _ HJ) as HQ.
  split; [|split_and!; try done; apply HQ].
  assert (Hn : w_nodes w' = <[ns_next_node s := joined (next_socket s) fd]> (w_nodes (ns_wlMedium s)))
    by apply HJ.
  split; try done.
  - simpl. intros p q np nq Hp. rewrite Hn. intros [[<- <-]|[_ Hq]]%lookup_insert_Some.
    + simpl. intros E. apply Hf1. rewrite <-E. by eapply elem_of_sockets.
    + by eapply Hids.
  - by apply keys_below_S.
  - exact (keys_below_joins _ _ _ _ _ Hk2 HJ).
Qed.

(** ** The loop *)

Lemma calm_FD_SET fd fds : calm (FD_SET fd fds).
Proof using. unfold FD_SET. asks. Qed.
Lemma calm_select n fds : calm (sys_select n fds).
Proof using. unfold sys_select. asks. Qed.
Lemma calm_setupAcceptFdSet han air ufd : calm (setupAcceptFdSet han air ufd).
Proof using.
  unfold setupAcceptFdSet. destruct (han <? 0); [asks|]. apply asks_bind; [apply calm_FD_SET|intros ?].
  destruct (air <? 0); [asks|]. apply asks_bind; [apply calm_FD_SET|intros ?].
  destruct (ufd <? 0); [asks|]. apply asks_bind; [apply calm_FD_SET|intros ?]. asks.
Qed.
Lemma calm_accept_han han ready rv n : calm (accept_han han ready rv n).
Proof using. unfold accept_han, sys_accept. asks. Qed.
Lemma calm_accept_air air h ready rv n : calm (accept_air air h ready rv n).
Proof using. unfold accept_air, sys_accept. asks. Qed.
Lemma calm_drop_clients h a : calm (drop_clients h a).
Proof using. unfold drop_clients, sys_close, whenb. asks. Qed.
Lemma calm_accept_unblock ufd ready h a rv n : calm (accept_unblock ufd ready h a rv n).
Proof using. 
  unfold accept_unblock, sys_read. destruct (bool_decide _); [|asks].
  apply asks_bind; [asks|intros ?]. apply asks_bind; [apply calm_drop_clients|asks].
Qed.

Lemma calm_acceptConnections han air ufd : calm (acceptConnections han air ufd).
Proof using.
  unfold acceptConnections. apply asks_bind; [apply calm_setupAcceptFdSet|intros [fdmax fds]].
  destruct (0 <? fdmax); [|asks]. apply asks_bind; [apply calm_select|intros [[count errno] ready]].
  repeat (match goal with |- calm (if ?b then _ else _) => destruct b end; [asks|]).
  apply asks_bind; [apply calm_accept_han|intros [[h rv] n]].
  apply asks_bind; [apply calm_accept_air|intros [[a rv'] n']].
  apply asks_bind; [apply calm_accept_unblock|intros [[[h' a'] rv''] n'']].
  destruct (negb _); [|asks]. apply asks_bind; [apply calm_drop_clients|]. asks.
Qed.
Lemma calm_destroy fd : calm (Socket.destroy fd).
Proof using. unfold Socket.destroy, sys_close, whenb. asks. Qed.
Lemma calm_unblock p : calm (SocketUnblocker.unblock p).
Proof using. unfold SocketUnblocker.unblock, sys_write. asks. Qed.
Lemma calm_open_server port fd : calm (open_server port fd).
Proof using.
  unfold open_server, Socket.setBlocking, Socket.setCloseOnExec, Socket.setReuseAddress,
    ServerSocket.bindAnyAddress, ServerSocket.setPassive, fcntl_get, fcntl_setfl, fcntl_setfd,
    sys_setsockopt, sys_bind, sys_listen. asks.
Qed.
Lemma calm_make : calm ServerSocket.make.
Proof using. unfold ServerSocket.make, sys_socket. asks. Qed.

Lemma excused_os s0 s f o : benign f → sim_inv s → same_media s0 s → excused s0 f (set_ns_os o s).
Proof using. intros Hf I Hq. split; [done|]. intros _. by split; [apply sim_inv_os|]. Qed.

(** A call on the system changes nothing but the answers. *)
Lemma wp_sim_os {A} (m : M os A) (Q : A → simulator → Prop) s0 s :
  calm m → sim_inv s → same_media s0 s →
  (∀ a o, (length (os_script o) ≤ sim_answers s)%nat → Q a (set_ns_os o s)) →
  wp (excused s0) (sim_os m) Q s.
Proof using.
  intros Hm I Hq HQ. unfold sim_os. rewrite wp_zoom.
  eapply wp_mono_E; [eapply wp_mono; [apply Hm|]; eauto|]. intros f o Hf. by apply excused_os.
Qed.

Lemma same_control_trans s1 s2 s3 : same_control s1 s2 → same_control s2 s3 → same_control s1 s3.
Proof using.
  intros (? & ? & ? & ? & ? & ?) (? & ? & ? & ? & ? & ?). unfold same_control.
  split_and!; try congruence; [lia|by eapply same_media_trans].
Qed.
Lemma same_control_media s s' : same_control s s' → same_media s s'.
Proof using. intros (? & ? & ? & ? & ? & ?). done. Qed.

Lemma same_control_os o s :
  (length (os_script o) ≤ sim_answers s)%nat → same_control s (set_ns_os o s).
Proof using. intros H. by repeat split. Qed.

Lemma wp_delete_servers s0 s (Q : unit → simulator → Prop) :
  sim_inv s → same_media s0 s →
  (∀ o, (length (os_script o) ≤ sim_answers s)%nat → Q tt (set_ns_os o s)) →
  wp (excused s0) delete_servers Q s.
Proof using.
  intros I Hq HQ. unfold delete_servers. wp_simpl.
  apply wp_sim_os; [apply calm_destroy|done|done|]. intros ? o1 H1. wp_simpl.
  apply wp_sim_os; [apply calm_destroy|by apply sim_inv_os|done|]. intros [] o2 H2.
  apply HQ. unfold sim_answers in *. simpl in *. lia.
Qed.

(** What start does with one result of acceptConnections. *)
Lemma wp_accepted rv h a e s0 s :
  sim_inv s → same_media s0 s → 0 ≤ e ≤ 5 →
  wp (excused s0) (accepted rv h a e)
    (λ e' s', sim_inv s' ∧ same_control s s' ∧ 0 ≤ e' ≤ 5) s.
Proof using.
  intros I Hq He. assert (Hrefl : ∀ x, same_control x x) by (intros x; by repeat split).
  destruct rv; simpl; wp_simpl; [by split|..|by split; [|split; [apply Hrefl|lia]]|].
  - assert (Hair : ∀ s1, sim_inv s1 → same_control s s1 →
      wp (excused s0) (whenb (negb (a =? -1)) (add_air a);; mret 0)
        (λ e' s', sim_inv s' ∧ same_control s s' ∧ 0 ≤ e' ≤ 5) s1).
    { intros s1 I1 H1. wp_simpl. destruct (negb _); wp_simpl; [|split; [done|split; [done|lia]]].
      eapply wp_mono; [apply wp_add_air; [done|]|].
      - eapply same_media_trans; [done|by apply same_control_media].
      - intros ? s2 (I2 & H2 & _). split; [done|]. split; [by eapply same_control_trans|lia]. }
    destruct (negb (h =? -1)); [|by apply Hair].
    eapply wp_mono; [by apply wp_add_han|]. intros ? s1 (I1 & H1 & _). by apply Hair.
  - destruct (Z.ltb_spec 5 (e + 1)); wp_simpl; [|split; [done|split; [apply Hrefl|lia]]].
    apply wp_delete_servers; [done..|]. intros o _. wp_simpl. by apply excused_os.
Qed.

Lemma wp_accept_round e s :
  sim_inv s → 0 ≤ e ≤ 5 →
  wp (excused s) (accept_round e)
    (λ '(_, e') s', sim_inv s' ∧ same_control s s' ∧ 0 ≤ e' ≤ 5) s.
Proof using.
  intros I He. unfold accept_round. wp_simpl.
  apply wp_sim_os; [apply calm_acceptConnections|done|apply same_media_refl|].
  intros [[rv h] a] o Ho. wp_simpl.
  eapply wp_mono; [apply wp_accepted; [by apply sim_inv_os|done|done]|].
  intros e' s' (I' & H & He'). wp_simpl.
  split; [done|]. split; [|done]. by eapply same_control_trans; [apply same_control_os|].
Qed.

(** A look at the signals takes an answer. *)
Lemma wp_deliver_signals s0 s :
  sim_inv s → same_media s0 s →
  wp (excused s0) deliver_signals
    (λ _ s', sim_inv s' ∧ (sim_answers s' < sim_answers s)%nat) s.
Proof using.
  intros I Hq. unfold deliver_signals, stop_simulator. wp_simpl. unfold sim_os at 1. rewrite wp_zoom.
  rewrite wp_ask. unfold sim_answers. destruct (os_script (ns_os s)) as [|b sc]; [by apply excused_os|].
  simpl. destruct (negb _); wp_simpl; [|split; [by apply sim_inv_os|simpl; lia]].
  apply wp_sim_os; [apply calm_unblock|by apply sim_inv_stop, sim_inv_os|done|]. intros ? o Ho.
  split; [by apply sim_inv_os, sim_inv_stop, sim_inv_os|].
  unfold sim_answers in *. simpl in *. lia.
Qed.

(** The faults of the whole loop. *)
Definition loop_fault (f : fault) (s' : simulator) : Prop :=
  benign f ∧ (throws f = true → sim_inv s').

Lemma wp_loop_fault {A} (m : M simulator A) Q s0 s :
  wp (excused s0) m Q s → wp loop_fault m Q s.
Proof using.
  intros H. eapply wp_mono_E; [exact H|]. intros f s' [Hb Ht]. split; [done|].
  intros E. by apply Ht.
Qed.

Lemma wp_accept_loop fuel e s :
  sim_inv s → 0 ≤ e ≤ 5 → (sim_answers s < fuel)%nat →
  wp loop_fault (accept_loop fuel e) (λ _ s', sim_inv s') s.
Proof using.
  revert e s. induction fuel as [|fuel IH]; intros e s I He Hf; [lia|]. simpl. wp_simpl.
  eapply wp_mono; [by eapply wp_loop_fault, wp_accept_round|].
  intros [rv e'] s1 (I1 & H1 & He'). wp_simpl.
  eapply wp_mono; [eapply wp_loop_fault, wp_deliver_signals; [done|apply same_media_refl]|].
  intros ? s2 (I2 & H2). wp_simpl. destruct (negb _ && _); wp_simpl; [|done].
  apply IH; [done|done|]. destruct H1 as (_ & _ & _ & _ & Ha & _). lia.
Qed.

Lemma wp_open_servers s :
  sim_inv s → wp (excused s) open_servers (λ _ s', sim_inv s' ∧ same_media s s') s.
Proof using.
  intros I. unfold open_servers. wp_simpl.
  apply wp_sim_os; [apply calm_make|done|done|]. intros han o1 H1. wp_simpl.
  apply wp_sim_os; [apply calm_make|by destruct I as []|done|]. intros air o2 H2. wp_simpl.
  apply wp_sim_os; [apply calm_open_server|by destruct I as []|done|]. intros ? o3 H3. wp_simpl.
  apply wp_sim_os; [apply calm_open_server|by destruct I as []|done|]. intros ? o4 H4. by destruct I as [].
Qed.

Lemma wp_start s : sim_inv s → wp loop_fault start (λ _ s', sim_inv s') s.
Proof using.
  intros I. unfold start. wp_simpl. eapply wp_mono; [by eapply wp_loop_fault, wp_open_servers|].
  intros ? s4 [I4 _]. wp_simpl.
  eapply wp_mono; [apply (wp_accept_loop (S (sim_answers s4)) 0 s4 I4); lia|].
  intros ? s5 I5. wp_simpl. eapply wp_loop_fault, wp_delete_servers; [done|apply same_media_refl|].
  intros o Ho. by apply sim_inv_os.
Qed.
End Accepting.

(** C8: the acceptor's thread is safe and comes to an end: whatever connects and
    whatever the system answers, start returns with the invariant of both media
    and with all ids different, or fails with a fault that is no bad access to an
    object, no deadlock and no endless loop; and when it throws, the simulator that
    main then deletes satisfies the invariant too. *)
Theorem start_safe `{AL : Allocator} (s : simulator) :
  sim_inv s →
  wp (λ f s', benign f ∧ (throws f = true → sim_inv s')) start (λ _ s', sim_inv s') s.
Proof. apply wp_start. Qed.

(** *** A simulator *)

(** The heap hands out addresses above those in use. *)
Definition above (used : list Z) : Z := foldr Z.max 0 used + 4096.

Lemma above_fresh used : above used ∉ used ∧ above used ≠ 0.
Proof.
  assert (H : 0 ≤ foldr Z.max 0 used ∧ ∀ x, x ∈ used → x ≤ foldr Z.max 0 used).
  { induction used as [|y l [H0 IH]]; simpl; [split; [lia|intros x []%not_elem_of_nil]|].
    split; [lia|]. intros x [->|Hx]%elem_of_cons; [lia|]. specialize (IH x Hx). lia. }
  destruct H as [H0 H]. unfold above. split; [|lia]. intros Hin%H. lia.
Qed.

#[local] Instance above_alloc : Allocator :=
  {| alloc _ := above; alloc_fresh _ u := proj1 (above_fresh u); alloc_not_NULL _ u := proj2 (above_fresh u) |}.

(** An active node on the powerline, none on the wireless medium; servers on 3 and
    4, the pipe on 5 and 6; the answers of the three threads. *)
Definition sim_with (sc plc wl : list answer) : simulator :=
  Sim (os_of sc) false false 3 4 true (SocketUnblocker.Pipes 5 6)
    (active_world plc) (Handles 0 "PLC" 7 8 HANADU_MCAST_TX_PORT)
    (empty_world wl) (Handles 0 "AIR" 9 10 WIRELESS_MCAST_TX_PORT) 2.
Definition sim_of (sc : list answer) : simulator := sim_with sc [] [].

Lemma sim_inv_with sc plc wl : sim_inv (sim_with sc plc wl).
Proof.
  split; [apply Inv_active|apply Inv_empty|done| |].
  - intros p. cbn. rewrite lookup_singleton_is_Some.
    intros [->|[]%not_elem_of_nil]; cbn; lia.
  - intros p. cbn. rewrite lookup_empty. intros [[? [=]]|[]%not_elem_of_nil].
Qed.
Lemma sim_inv_of sc : sim_inv (sim_of sc).
Proof. apply sim_inv_with. Qed.

(** Two connections, then the signal to stop. *)
Definition two_clients : list answer :=
  [ans 3 []; ans 4 []] ++ replicate 16 (ans 0 []) ++
  [Answer 2 0 [] (Timespec 0 0) [] [3; 4]; ans 7 []; ans 8 []; ans 0 []; ans 0 []; ans 18 [];
   ans 0 []; ans 0 []; ans 0 []; ans 0 []; ans 0 []; ans 18 []; ans 0 []; ans 0 []; ans 0 [];
   ans 1 []; ans 1 []].

Lemma start_safe_witness :
  let s' := (start (H := above_alloc) (sim_of two_clients)).2 in
  (start (H := above_alloc) (sim_of two_clients)).1 = Ok tt ∧
  w_nodes (ns_plcMedium s') = <[2%nat := joined 12288 7]> {[1%nat := active_node 1]} ∧
  w_nodes (ns_wlMedium s') = {[3%nat := joined 16384 8]} ∧
  wp (λ f s', benign f ∧ (throws f = true → sim_inv s')) (start (H := above_alloc))
    (λ _ s', sim_inv s') (sim_of two_clients).
Proof.
  split; [vm_compute; reflexivity|split; [vm_compute; reflexivity|split; [vm_compute; reflexivity|]]].
  exact (start_safe _ (sim_inv_of two_clients)).
Defined.

(** A successful round of the acceptor makes one node of each client it was
    given: the Hanadu client joins the powerline medium, then the wireless client
    the wireless one, each under a fresh heap key and an address of its own, in
    the registration list, and errCount is reset; without a client a medium is
    left as it is. *)
Theorem accepted_joins `{AL : Allocator} (h a e : Z) (s : simulator) :
  sim_inv s → 0 ≤ e ≤ 5 →
  wp (λ f s', benign f ∧ (throws f = true → sim_inv s')) (accepted ACCEPT_OK h a e) (λ e' s', e' = 0 ∧ sim_inv s' ∧
    let n := ns_next_node s in
    (if h =? -1 then ns_plcMedium s' = ns_plcMedium s
     else ∃ x, joins n x h (ns_plcMedium s) (ns_plcMedium s')) ∧
    (if a =? -1 then ns_wlMedium s' = ns_wlMedium s
     else ∃ y, joins (if h =? -1 then n else S n) y a (ns_wlMedium s) (ns_wlMedium s'))) s.
Proof.
  intros I He. simpl.
  assert (Hair : ∀ s1, sim_inv s1 →
    wp loop_fault (whenb (negb (a =? -1)) (add_air a);; mret 0)
      (λ e' s', e' = 0 ∧ sim_inv s' ∧ ns_plcMedium s' = ns_plcMedium s1 ∧
         if a =? -1 then ns_wlMedium s' = ns_wlMedium s1
         else ∃ y, joins (ns_next_node s1) y a (ns_wlMedium s1) (ns_wlMedium s')) s1).
  { intros s1 I1. wp_simpl. destruct (a =? -1); simpl; wp_simpl; [done|].
    eapply wp_mono; [eapply wp_loop_fault, wp_add_air; [done|apply same_media_refl]|].
    intros ? s2 (I2 & _ & _ & Hplc & HJ).
    wp_simpl. split_and!; try done; eauto. }
  wp_simpl. destruct (h =? -1); simpl.
  - eapply wp_mono; [by apply Hair|]. intros e' s' (He' & I' & Hp & Hw). split_and!; done.
  - eapply wp_mono; [eapply wp_loop_fault, wp_add_han; [done|apply same_media_refl]|].
    intros ? s1 (I1 & _ & Hn & Hw & HJ).
    eapply wp_mono; [by apply Hair|]. intros e' s' (He' & I' & Hp & Hw'). rewrite Hn, Hw, Hp in *. eauto.
Qed.

Lemma accepted_joins_witness :
  let s := sim_of [ans 0 []; ans 0 []; ans 18 []; ans 0 []; ans 0 []; ans 0 []] in
  wp (λ f s', benign f ∧ (throws f = true → sim_inv s'))
    (accepted (H := above_alloc) ACCEPT_OK 7 (-1) 3) (λ e' s', e' = 0 ∧ sim_inv s' ∧
    (∃ x, joins 2 x 7 (ns_plcMedium s) (ns_plcMedium s')) ∧ ns_wlMedium s' = ns_wlMedium s) s.
Proof.
  refine (accepted_joins (AL := above_alloc) 7 (-1) 3 _ (sim_inv_of _) _). lia.
Defined.

(** ** Errors *)

(** A round in which select fails: the answer of select, and that of the look at
    the signals. *)
Definition failed_select (r : answer * answer) : Prop :=
  a_rv r.1 < 0 ∧ a_errno r.1 ≠ EINTR ∧ a_rv r.2 = 0.

Definition answers_of (l : list (answer * answer)) : list answer := l ≫= λ r, [r.1; r.2].

(** The select of the acceptor's three descriptors. *)
Definition accept_select (s : simulator) : sysev :=
  let han := ns_hanServer s in let air := ns_airServer s in
  let ufd := SocketUnblocker.UBP_READ (ns_unblocker s) in
  SysSelect (Z.max (Z.max han air) ufd + 1) [han; air; ufd].

(** [s] after taking its first answers, with [l] added to the trace. *)
Definition later (sc : list answer) (l : list sysev) (s : simulator) : simulator :=
  set_ns_os (Os sc (os_trace (ns_os s) ++ l)) s.

Lemma failed_accept_run han air ufd a sc tr :
  good_servers han air ufd → a_rv a < 0 → a_errno a ≠ EINTR →
  acceptConnections han air ufd (Os (a :: sc) tr)
  = (Ok (ACCEPT_ERROR, -1, -1),
     Os sc (tr ++ [SysSelect (Z.max (Z.max han air) ufd + 1) [han; air; ufd]])).
Proof.
  intros Hg Ha He. unfold acceptConnections.
  destruct (setupAcceptFdSet_run han air ufd (Os (a :: sc) tr) Hg) as (fdmax & Hset & Hmax & _ & ->).
  rewrite (bind_ok _ _ _ _ _ Hset). cbn beta iota zeta. rewrite (proj2 (Z.ltb_lt _ _) Hmax).
  unfold sys_select, mbind, M_bind, emit, ask, modify, mret, M_ret. cbn -[Z.add Z.max].
  rewrite (proj2 (Z.ltb_lt _ _) Ha), (proj2 (Z.eqb_neq _ _) He). done.
Qed.

Section Errors.
Context `{AL : Allocator}.

Lemma accept_round_failed a sc e s :
  good_servers (ns_hanServer s) (ns_airServer s) (SocketUnblocker.UBP_READ (ns_unblocker s)) →
  os_script (ns_os s) = a :: sc → a_rv a < 0 → a_errno a ≠ EINTR →
  accept_round e s =
  if 5 <? e + 1
  then (Fail (Throw "Fatal error in acceptConnections"),
        later sc [accept_select s; SysClose (ns_hanServer s); SysClose (ns_airServer s)] s)
  else (Ok (ACCEPT_ERROR, e + 1), later sc [accept_select s] s).
Proof using.
  intros Hg Hs Ha He. unfold accept_round.
  repeat erewrite bind_ok by reflexivity.
  rewrite (bind_ok _ _ s (ACCEPT_ERROR, -1, -1) (later sc [accept_select s] s)).
  2: { unfold sim_os, zoom. destruct (ns_os s) as [script tr] eqn:Eo. simpl in Hs. subst script.
       rewrite failed_accept_run by done. unfold later, accept_select. by rewrite Eo. }
  simpl. destruct (Z.ltb_spec 5 (e + 1)); [|done].
  destruct Hg as (H1 & H2 & _). unfold delete_servers, Socket.destroy, sim_os, zoom, whenb.
  unfold mbind, M_bind, gets. cbn.
  rewrite (proj2 (Z.eqb_neq (ns_hanServer s) (-1))) by lia. cbn.
  rewrite (proj2 (Z.eqb_neq (ns_airServer s) (-1))) by lia. cbn.
  unfold later. by rewrite <-!app_assoc.
Qed.

Lemma accept_loop_failed r fuel e sc s :
  good_servers (ns_hanServer s) (ns_airServer s) (SocketUnblocker.UBP_READ (ns_unblocker s)) →
  ns_stop s = false → failed_select r → os_script (ns_os s) = r.1 :: r.2 :: sc → e < 5 →
  accept_loop (S fuel) e s = accept_loop fuel (e + 1) (later sc [accept_select s] s).
Proof using.
  intros Hg Hst (H1 & H2 & H3) Hs He. simpl accept_loop.
  rewrite (bind_ok _ _ s (ACCEPT_ERROR, e + 1) (later (r.2 :: sc) [accept_select s] s)).
  2: { rewrite (accept_round_failed r.1 (r.2 :: sc)) by done. by destruct (Z.ltb_spec 5 (e + 1)); [lia|]. }
  rewrite (bind_ok _ _ _ tt (later sc [accept_select s] s)).
  2: { unfold deliver_signals, sim_os, zoom, mbind, M_bind. cbn. by rewrite H3. }
  rewrite (bind_ok _ _ _ false (later sc [accept_select s] s)) by (by unfold gets; rewrite <-Hst).
  done.
Qed.

Lemma accept_loop_errors l fuel e sc s :
  good_servers (ns_hanServer s) (ns_airServer s) (SocketUnblocker.UBP_READ (ns_unblocker s)) →
  ns_stop s = false → Forall failed_select l → os_script (ns_os s) = answers_of l ++ sc →
  e + length l ≤ 5 →
  accept_loop (length l + fuel) e s
  = accept_loop fuel (e + length l) (later sc (replicate (length l) (accept_select s)) s).
Proof using.
  revert e s. induction l as [|r l IH]; intros e s Hg Hst Hl Hs He.
  - simpl. rewrite Z.add_0_r. f_equal. unfold later. simpl in Hs. rewrite app_nil_r, <-Hs. by destruct s as [[] ? ? ? ? ? ? ? ? ? ? ?].
  - apply Forall_cons in Hl as [Hr Hl]. simpl in He.
    change (length (r :: l) + fuel)%nat with (S (length l + fuel)).
    rewrite (accept_loop_failed r _ _ (answers_of l ++ sc)) by (done || lia).
    rewrite IH by (done || (simpl; lia)).
    replace (e + 1 + length l) with (e + length (r :: l)) by (simpl; lia). f_equal.
    unfold later. simpl. by rewrite <-app_assoc.
Qed.
End Errors.

(** C35: the acceptor forgives five failures of select in a row and gives up at
    the sixth: after up to five of them the loop goes on with errCount at their
    number, nothing having happened but the calls of select; the sixth closes both
    servers and throws, and the media are as they were. *)
Theorem accept_errors_fatal `{AL : Allocator} (l : list (answer * answer)) (a : answer)
    (sc : list answer) (fuel : nat) (s : simulator) :
  good_servers (ns_hanServer s) (ns_airServer s) (SocketUnblocker.UBP_READ (ns_unblocker s)) →
  ns_stop s = false → Forall failed_select l →
  (os_script (ns_os s) = answers_of l ++ sc → (length l ≤ 5)%nat →
   accept_loop (length l + fuel) 0 s
   = accept_loop fuel (length l) (later sc (replicate (length l) (accept_select s)) s)) ∧
  (os_script (ns_os s) = answers_of l ++ a :: sc → length l = 5%nat →
   a_rv a < 0 → a_errno a ≠ EINTR →
   accept_loop (length l + S fuel) 0 s
   = (Fail (Throw "Fatal error in acceptConnections"),
      later sc (replicate 6 (accept_select s) ++
        [SysClose (ns_hanServer s); SysClose (ns_airServer s)]) s)).
Proof.
  intros Hg Hst Hl. split.
  - intros Hs Hlen. by apply (accept_loop_errors l fuel 0 sc s); [..|lia].
  - intros Hs Hlen Ha He. rewrite (accept_loop_errors l (S fuel) 0 (a :: sc) s) by (done || lia).
    simpl accept_loop. apply bind_fail. rewrite (accept_round_failed a sc) by done.
    rewrite Hlen. simpl. unfold later. simpl. by rewrite <-app_assoc.
Qed.

Lemma accept_errors_fatal_witness :
  let s := sim_of (answers_of (replicate 5 (ans (-1) [], ans 0 [])) ++ [ans (-1) []]) in
  accept_loop (H := above_alloc) 6 0 s
  = (Fail (Throw "Fatal error in acceptConnections"),
     later [] (replicate 6 (SysSelect 6 [3; 4; 5]) ++ [SysClose 3; SysClose 4]) s).
Proof.
  refine (proj2 (accept_errors_fatal (AL := above_alloc) (replicate 5 (ans (-1) [], ans 0 []))
    (ans (-1) []) [] 0 (sim_of _) _ _ _) _ _ _ _); try reflexivity.
  - unfold good_servers, FD_SETSIZE. simpl. lia.
  - by repeat constructor.
  - done.
Defined.

(** Both servers are ready and the accept of the second fails. *)
Lemma half_accept_run han air ufd c a1 a2 a3 sc tr :
  good_servers han air ufd → 0 ≤ a_rv a1 → han ∈ a_fds a1 → air ∈ a_fds a1 → ufd ∉ a_fds a1 →
  a_rv a2 = c → 0 ≤ c → a_rv a3 < 0 →
  acceptConnections han air ufd (Os (a1 :: a2 :: a3 :: sc) tr)
  = (if decide (c = 11) then Fail (AssertFail "*hanClient != EWOULDBLOCK")
     else Ok (ACCEPT_ERROR, c, -1),
     Os sc (tr ++ [SysSelect (Z.max (Z.max han air) ufd + 1) [han; air; ufd];
                   SysAccept han c; SysAccept air (-1)])).
Proof.
  intros Hg H1 Hh Ha Hu <- Hc H3. unfold acceptConnections.
  destruct (setupAcceptFdSet_run han air ufd (Os (a1 :: a2 :: a3 :: sc) tr) Hg)
    as (fdmax & Hset & Hmax & Hall & ->).
  rewrite (bind_ok _ _ _ _ _ Hset). cbn beta iota zeta. rewrite (proj2 (Z.ltb_lt _ _) Hmax).
  set (sel := SysSelect _ _).
  rewrite (bind_ok _ _ _ (2, a_errno a1, [han; air]) (Os (a2 :: a3 :: sc) (tr ++ [sel]))).
  2: { unfold sys_select, mbind, M_bind, emit, ask, modify, mret, M_ret. cbn -[Z.add Z.max].
       rewrite (proj2 (Z.ltb_ge _ _) H1).
       apply Forall_cons in Hall as [? Hall]. apply Forall_cons in Hall as [? _].
       rewrite (decide_True (P := _ ∧ _)) by done. rewrite (decide_True (P := _ ∧ _)) by done.
       rewrite (decide_False (P := _ ∧ _)) by (by intros [? _]). done. }
  cbn beta iota zeta. simpl (_ =? _).
  destruct Hg as (_ & _ & Hr & Hne & Hne1 & Hne2).
  unfold accept_han, accept_air, accept_unblock. rewrite (bool_decide_true (han ∈ _)) by set_solver.
  rewrite (bool_decide_true (air ∈ _)) by set_solver.
  rewrite (bool_decide_false (ufd ∈ _)) by set_solver.
  unfold sys_accept, mbind, M_bind, emit, ask, modify, mret, M_ret. cbn -[Z.max].
  rewrite (Z.max_r (-1) (a_rv a2)) by lia. rewrite (proj2 (Z.ltb_ge _ _) Hc). cbn -[Z.max].
  rewrite (Z.max_l (-1) (a_rv a3)) by lia. cbn. unfold EWOULDBLOCK, EAGAIN.
  destruct (Z.eqb_spec (a_rv a2) 11); case_decide; try done; cbn; by rewrite <-!app_assoc.
Qed.

(** A connection is lost when the other server's accept fails: with both
    servers ready, the Hanadu client accepted and the wireless accept failed, the
    round is counted as an error, the client's descriptor is neither closed nor
    made a node, and both media are as they were; when that descriptor is 11, the
    assertion meant for the wireless client stops the simulator instead. *)
Theorem failed_accept_leaks `{AL : Allocator} (e c : Z) (a1 a2 a3 : answer) (sc : list answer)
    (s : simulator) :
  let han := ns_hanServer s in let air := ns_airServer s in
  let ufd := SocketUnblocker.UBP_READ (ns_unblocker s) in
  good_servers han air ufd → e < 5 →
  os_script (ns_os s) = a1 :: a2 :: a3 :: sc →
  0 ≤ a_rv a1 → han ∈ a_fds a1 → air ∈ a_fds a1 → ufd ∉ a_fds a1 →
  a_rv a2 = c → 0 ≤ c → a_rv a3 < 0 →
  accept_round e s =
  (if decide (c = 11) then Fail (AssertFail "*hanClient != EWOULDBLOCK")
   else Ok (ACCEPT_ERROR, e + 1),
   later sc [accept_select s; SysAccept han c; SysAccept air (-1)] s).
Proof.
  intros han air ufd Hg He Hs H1 Hh Ha Hu H2 Hc H3. unfold accept_round.
  repeat erewrite bind_ok by reflexivity.
  pose proof (half_accept_run han air ufd c a1 a2 a3 sc (os_trace (ns_os s)) Hg H1 Hh Ha Hu H2 Hc H3) as E.
  unfold mbind at 1, M_bind. unfold sim_os, zoom. destruct (ns_os s) as [script tr] eqn:Eo.
  simpl in Hs, E. subst script han air ufd. unfold SocketUnblocker.getReadPipe. rewrite E.
  unfold later, accept_select. rewrite Eo. case_decide; [done|]. simpl.
  destruct (Z.ltb_spec 5 (e + 1)); [lia|done].
Qed.

Lemma failed_accept_leaks_witness :
  let s := sim_of [Answer 2 0 [] (Timespec 0 0) [] [3; 4]; ans 7 []; ans (-1) []] in
  accept_round (H := above_alloc) 0 s
  = (Ok (ACCEPT_ERROR, 1), later [] [SysSelect 6 [3; 4; 5]; SysAccept 3 7; SysAccept 4 (-1)] s).
Proof.
  apply (failed_accept_leaks (AL := above_alloc) 0 7 (Answer 2 0 [] (Timespec 0 0) [] [3; 4])
    (ans 7 []) (ans (-1) []) []); try done; try set_solver.
Defined.
