(* ===== verification/Interleaving.v ===== *)
(** The thread of a medium in pieces: each piece keeps the invariant; a medium that
    is told to stop does, unless it overwrites the order; and the pieces the thread
    is cut into are the thread. *)

From Stdlib Require Import ZArith Lia.
From stdpp Require Import base tactics list gmap numbers option strings relations.
From S2P Require Import Prelude Bytes TimeUtils Checksum Interface Os SocketIO State Spec.
From S2P Require Import DeviceNode NodeStates PhysicalMedium Acceptor Threads Invariant Preserve.
From S2P Require Import Follow Fuel MediumSafe Total Examples Registration Safety Accepting.

(** ** What the thread of a medium leaves to the others

    It makes no node and changes no id; what is on the Tx list was on it or was a
    node. *)
Definition settled : world_rel := λ w w',
  (∀ p nd', w_nodes w' !! p = Some nd' →
     ∃ nd, w_nodes w !! p = Some nd ∧ dn_socket nd' = dn_socket nd) ∧
  (∀ p, p ∈ pm_txList (w_medium w') → p ∈ pm_txList (w_medium w) ∨ live w p).

Lemma settled_same w w' :
  w_nodes w' = w_nodes w → pm_txList (w_medium w') = pm_txList (w_medium w) → settled w w'.
Proof. intros Hn Ht. split; rewrite ?Hn, ?Ht; eauto. Qed.

#[export] Instance settled_rel : WorldRel settled any_fault.
Proof.
  apply WorldRel_quiet; try (intros; by apply settled_same).
  - intros w1 w2 w3 [N1 T1] [N2 T2]. split.
    + intros p nd3 H3. destruct (N2 _ _ H3) as (nd2 & H2 & E2).
      destruct (N1 _ _ H2) as (nd1 & H1 & E1). exists nd1. split; [done|congruence].
    + intros p Hp. destruct (T2 p Hp) as [Hp'|[nd Hnd]]; [auto|].
      right. destruct (N1 _ _ Hnd) as (nd1 & H1 & _). by eexists.
  - intros w p nd f Hf Hp. split; [|by left]. simpl. intros q nd'.
    rewrite lookup_insert_Some. intros [[<- <-]|[_ Hq]]; eauto.
  - intros w p. split; [|by left]. simpl. intros q nd' [_ Hq]%lookup_delete_Some. eauto.
  - intros w f Hf. by apply settled_same; [|apply Hf].
Qed.
#[export] Instance settled_blind : FrameBlind settled.
Proof.
  apply FrameBlind_quiet; [intros; by apply settled_same|].
  intros w f Hf. by apply settled_same; [|apply Hf].
Qed.
#[export] Instance settled_tx : TxRel settled.
Proof.
  split.
  - intros w p Hp. split; [eauto|]. simpl. intros q [Hq| ->%list_elem_of_singleton]%elem_of_app; auto.
  - intros w l Hl. split; [eauto|]. simpl. auto.
Qed.
#[export] Instance any_fault_unfuelled : Unfuelled any_fault.
Proof. done. Qed.
#[export] Hint Resolve settled_rel settled_tx settled_blind any_fault_unfuelled : follow.

(** ** One piece of a medium's thread *)

Section Thread.
Context `{HO : HashOrder} {C : CollisionCheck} `{CO : !CollisionCheckOk C} `{FC : !FollowsCheck C}.

(** Before it waits no CCA request is waiting for an answer, unless the medium is
    stopping. *)
Definition medium_inv (pc : thread_pc) (w : world) : Prop :=
  match pc with
  | PcIdleLook | PcIdleWork | PcTxLook | PcTxWork | PcLast | PcExit => True
  | PcLook | PcCond => pm_state (w_medium w) = STOPPING ∨ pm_ccaList (w_medium w) = []
  | _ => pm_ccaList (w_medium w) = []
  end.

Lemma follows_thread_step pc : follows settled any_fault (thread_step pc).
Proof using FC.
  destruct pc; simpl; node_ops; os_ops; follow.
Qed.

Lemma wp_tx_work_pc w :
  Inv w → ewp (thread_step PcTxWork) (λ pc w', keeps w w' ∧ pc = PcWhile ∧
    pm_ccaList (w_medium w') = []) w.
Proof using CO.
  intros I. apply caused_excused with w. pose proof (wp_tx_work w I) as Hw. simpl.
  unfold wp, mbind, M_bind, mret, M_ret in *.
  destruct (processCcaList w) as [[[]|f] w1]; [|done].
  destruct (txCollisionCheck w1) as [[[]|f] w2]; [|done].
  destruct (processTxList w2) as [[[]|f] w3]; [|done].
  destruct Hw as (K & _ & Hc). done.
Qed.

Lemma wp_thread_step pc w :
  Inv w → medium_inv pc w →
  ewp (thread_step pc) (λ pc' w', Inv w' ∧ medium_inv pc' w') w.
Proof using CO.
  intros I Hc.
  assert (Hk : ∀ w1, Inv w1 → ewp processCcaList (λ _ w', Inv w' ∧ pm_ccaList (w_medium w') = []) w1).
  { intros w1 I1. apply ewp_bwp. eapply wp_mono; [by apply wp_processCcaList|].
    intros ? w2 (K & Hc2 & _). by split; [apply K|]. }
  destruct (decide (pc = PcTxWork)) as [->|Hne].
  { eapply wp_mono; [by apply wp_tx_work_pc|]. intros pc w' (K & -> & Hc'). by split; [apply K|]. }
  destruct pc; simpl in *; unfold isIdle, stopping; wgo.
  - eapply ewp_lift_frame; [apply os_ok_clock_gettime|]. intros [rv t] o _. wgo.
    destruct (rv =? -1); wgo; [by left|]. by split.
  - by case_bool_decide.
  - apply ewp_bwp. eapply wp_mono; [by apply wp_interval|]. intros ? w1 [ps (I1 & _)]. by wgo.
  - by case_bool_decide.
  - case_bool_decide; wgo; (eapply wp_mono; [by apply Hk|]); intros ? w1 [I1 Hc1]; by wgo.
  - destruct (pm_txList (w_medium w)); (split; [done|]); simpl; auto.
  - apply ewp_bwp. eapply wp_mono; [by apply wp_interval|]. intros ? w1 [ps (I1 & _)]. by wgo.
  - case_bool_decide; (split; [done|]); simpl; auto.
  - done.
  - case_bool_decide; (split; [done|]); simpl; [by left|]. by destruct Hc.
  - apply ewp_bwp. eapply wp_mono; [by apply wp_checkNodeRegistrationTimeout|].
    intros ? w1 (I1 & _ & Hc1 & _). wgo. split; [done|by right].
  - case_bool_decide; (split; [done|]); simpl; [done|]. by destruct Hc.
  - done.
  - done.
Qed.

(** ** Stopping *)

(** The pieces that write the state without looking at it. *)
Definition forgets (pc : thread_pc) (w : world) : bool :=
  match pc with
  | PcStart | PcTimeouts => true
  | PcIdleWork => bool_decide (pm_txList (w_medium w) ≠ [])
  | _ => false
  end.

(** The order to stop has reached the thread. *)
Definition heard (pc : thread_pc) (w : world) : Prop :=
  pc = PcLast ∨ pc = PcExit ∨ pm_state (w_medium w) = STOPPING ∧ forgets pc w = false.

(** The pieces left, at most. *)
Definition pieces_left (pc : thread_pc) : nat :=
  match pc with
  | PcExit => 0
  | PcLast => 1
  | PcCond | PcIdleLook => 2
  | PcLook | PcIdleWait => 3
  | PcTxLook => 4
  | PcTxWait => 5
  | PcWhile => 6
  | _ => 7
  end.

Lemma wp_interval_stopping ms w :
  Inv w → pm_ccaList (w_medium w) = [] → pm_state (w_medium w) = STOPPING →
  ewp (interval ms) (λ _ w', Inv w' ∧ pm_state (w_medium w') = STOPPING) w.
Proof using.
  intros I Hc Hs. apply ewp_bwp. eapply wp_mono; [by apply wp_interval|].
  intros ? w1 [ps (I1 & _ & Hs1 & _)]. split; [done|]. by destruct Hs1 as [-> | ->].
Qed.

Lemma wp_heard_step pc w :
  Inv w → medium_inv pc w → heard pc w → pc ≠ PcExit →
  ewp (thread_step pc) (λ pc' w', heard pc' w' ∧ (pieces_left pc' < pieces_left pc)%nat) w.
Proof using CO.
  intros I Hc [-> |[->|[Hs Hf]]] Hne; [|done|].
  { simpl. wgo. split; [by right; left|simpl; lia]. }
  destruct (decide (pc = PcTxWork)) as [->|Htx].
  { eapply wp_mono; [by apply wp_tx_work_pc|]. intros pc w' (K & -> & Hc').
    split; [|simpl; lia]. right; right. split; [|done]. by destruct K as (_ & _ & -> & _). }
  assert (Hstay : ∀ pc' w', pm_state (w_medium w') = STOPPING → forgets pc' w' = false →
    heard pc' w') by (by right; right).
  destruct pc; simpl in *; try done; unfold isIdle, stopping; wgo; rewrite ?Hs;
    rewrite ?bool_decide_true by done; try (split; [auto|simpl; lia]).
  - eapply wp_mono; [by apply wp_interval_stopping|]. intros ? w1 [_ Hs1]. wgo.
    split; [auto|simpl; lia].
  - apply bool_decide_eq_false in Hf. rewrite bool_decide_false by done. wgo.
    apply ewp_bwp. eapply wp_mono; [by apply wp_processCcaList|].
    intros ? w1 (K & _ & _). wgo. split; [|simpl; lia]. apply Hstay; [|done].
    destruct K as (_ & _ & -> & _). done.
  - destruct (pm_txList (w_medium w)); (split; [auto|simpl; lia]).
  - eapply wp_mono; [by apply wp_interval_stopping|]. intros ? w1 [_ Hs1]. wgo.
    split; [auto|simpl; lia].
  - by right; left.
Qed.

Lemma wp_heard_steps n pc w :
  Inv w → medium_inv pc w → heard pc w → (pieces_left pc ≤ n)%nat →
  ewp (thread_steps n pc) (λ pc' _, pc' = PcExit) w.
Proof using CO.
  revert pc w. induction n as [|n IH]; intros pc w I Hc Hh Hn; simpl; wgo.
  { destruct pc; simpl in Hn; try lia; done. }
  destruct (decide (pc = PcExit)) as [->|Hne].
  { simpl. wgo. apply IH; [done..|simpl; lia]. }
  eapply wp_mono; [eapply wp_conj; [by apply wp_thread_step|by apply wp_heard_step]|].
  intros pc' w' [[I' Hc'] [Hh' Hlt]]. apply IH; [done..|lia].
Qed.
End Thread.

(** The invariant looks at the state and at the CCA list. *)
Lemma medium_inv_quiet pc w w' : quiet w w' → medium_inv pc w → medium_inv pc w'.
Proof. intros (Hc & _ & Hs). unfold medium_inv. by rewrite Hc, Hs. Qed.
Lemma medium_inv_stop pc w : medium_inv pc w → medium_inv pc (on_medium (set_pm_state STOPPING) w).
Proof. destruct pc; simpl; auto. Qed.
Lemma forgets_quiet pc w w' : quiet w w' → forgets pc w' = forgets pc w.
Proof. intros (_ & Ht & _). unfold forgets. by rewrite Ht. Qed.

(** ** The pieces make the thread *)

Section Pieces.
Context `{HO : HashOrder} {C : CollisionCheck}.

(** Some number of pieces from [pc] end in [r]. *)
Definition reaches (pc : thread_pc) (w : world) (r : res thread_pc) (w' : world) : Prop :=
  ∃ n, thread_steps n pc w = (r, w').

Lemma reaches_refl pc w : reaches pc w (Ok pc) w.
Proof using. by exists 0%nat. Qed.
Lemma thread_steps_add n m pc w pc1 w1 r w' :
  thread_steps n pc w = (Ok pc1, w1) → thread_steps m pc1 w1 = (r, w') →
  thread_steps (n + m) pc w = (r, w').
Proof using.
  revert pc w. induction n as [|n IH]; intros pc w; simpl; [by intros [= -> ->]|].
  unfold mbind, M_bind. destruct (thread_step pc w) as [[pc2|f] w2]; [apply IH|done].
Qed.
Lemma reaches_trans pc w pc1 w1 r w' :
  reaches pc w (Ok pc1) w1 → reaches pc1 w1 r w' → reaches pc w r w'.
Proof using. intros [n Hn] [m Hm]. exists (n + m)%nat. by eapply thread_steps_add. Qed.

(** [m], begun at [pc], is some of the pieces; its result says which is next. *)
Definition in_pieces {A} (pc : thread_pc) (next : A → thread_pc) (m : M world A) : Prop :=
  ∀ w, wp (λ f w', f = NoFuel ∨ reaches pc w (Fail f) w') m
          (λ a w', reaches pc w (Ok (next a)) w') w.

Lemma one_piece {A} pc (next : A → thread_pc) (m : M world A) :
  (∀ w, thread_step pc w = (m ≫= λ a, mret (next a)) w) → in_pieces pc next m.
Proof using.
  intros Hm w. unfold wp. specialize (Hm w). unfold mbind, M_bind in Hm.
  destruct (m w) as [[a|f] w']; [|right]; exists 1%nat; simpl;
    unfold mbind, M_bind; by rewrite Hm.
Qed.
Lemma no_piece {A} pc (next : A → thread_pc) (a : A) : next a = pc → in_pieces pc next (mret a).
Proof using. intros <- w. wp_simpl. apply reaches_refl. Qed.
Lemma pieces_bind {A B} pc (next : A → thread_pc) (next' : B → thread_pc)
    (m : M world A) (k : A → M world B) :
  in_pieces pc next m → (∀ a, in_pieces (next a) next' (k a)) → in_pieces pc next' (m ≫= k).
Proof using.
  intros Hm Hk w. wp_simpl. eapply wp_mono; [apply Hm|]. intros a w1 H1. cbn beta in H1.
  eapply wp_mono_E; [eapply wp_mono; [apply Hk|]|].
  - intros b w2 H2. by eapply reaches_trans.
  - intros f w2 [->|H2]; [by left|]. right. by eapply reaches_trans.
Qed.

(** The same computation, bound together differently. *)
Ltac rebind := intros ?; unfold thread_step, failw, upd_medium, modify, mbind, M_bind, mret, M_ret;
  repeat case_match; simplify_eq; done.

Lemma tx_round_pieces :
  in_pieces PcTxWait (λ go : bool, if go then PcWhile else PcLook) tx_round.
Proof using.
  unfold tx_round. eapply pieces_bind; [by apply (one_piece PcTxWait (λ _, PcTxLook))|intros ?].
  eapply pieces_bind; [by apply (one_piece PcTxLook (λ stop : bool, if stop then PcLook else PcTxWork))|].
  intros [|]; [by apply no_piece|]. apply one_piece. rebind.
Qed.

Lemma tx_loop_pieces fuel : in_pieces PcWhile (λ _, PcLook) (tx_loop fuel).
Proof using.
  induction fuel as [|fuel IH]; simpl; [intros w; by left|].
  eapply pieces_bind; [by apply (one_piece PcWhile (λ l, if l is [] then PcLook else PcTxWait))|].
  intros [|p l]; [by apply no_piece|]. eapply pieces_bind; [apply tx_round_pieces|].
  intros [|]; [exact IH|by apply no_piece].
Qed.

Lemma idle_block_pieces :
  in_pieces PcIdleWait (λ go : bool, if go then PcWhile else PcLast) idle_block.
Proof using.
  unfold idle_block. eapply pieces_bind; [by apply (one_piece PcIdleWait (λ _, PcIdleLook))|intros ?].
  eapply pieces_bind; [by apply (one_piece PcIdleLook (λ stop : bool, if stop then PcLast else PcIdleWork))|].
  intros [|]; [by apply no_piece|]. apply one_piece. rebind.
Qed.

Lemma run_body_pieces : in_pieces PcTop (λ go : bool, if go then PcCond else PcLast) run_body.
Proof using.
  unfold run_body.
  eapply pieces_bind; [by apply (one_piece PcTop (λ idle : bool, if idle then PcIdleWait else PcWhile))|].
  intros idle. eapply (pieces_bind _ (λ go : bool, if go then PcWhile else PcLast)).
  { destruct idle; [apply idle_block_pieces|by apply no_piece]. }
  intros [|]; [|by apply no_piece].
  eapply pieces_bind; [intros w; apply tx_loop_pieces|intros ?].
  eapply pieces_bind; [by apply (one_piece PcLook (λ stop : bool, if stop then PcCond else PcTimeouts))|].
  intros stop. eapply (pieces_bind _ (λ _, PcCond)); [|intros ?; by apply no_piece].
  destruct stop; [by apply no_piece|]. apply one_piece. rebind.
Qed.

Lemma run_loop_pieces fuel : in_pieces PcTop (λ _, PcLast) (run_loop fuel).
Proof using.
  induction fuel as [|fuel IH]; simpl; [intros w; by left|].
  eapply pieces_bind; [apply run_body_pieces|]. intros [|]; [|by apply no_piece].
  eapply pieces_bind; [by apply (one_piece PcCond (λ stop : bool, if stop then PcLast else PcTop))|].
  intros [|]; [by apply no_piece|exact IH].
Qed.

Lemma run_pieces : in_pieces PcStart (λ _, PcExit) run.
Proof using.
  intros w.
  assert (H : in_pieces PcStart (λ _, PcExit)
    ((upd_medium (set_pm_state IDLE);; '(rv, t) ← lift_os clock_gettime;
      if rv =? -1 then failw (Throw "clock_gettime: unrecoverable error")
      else upd_medium (set_pm_curTime t));;
     (λ w, run_loop (S (length (os_script (w_os w)))) w);;
     upd_medium (set_pm_state STOPPED))).
  { eapply (pieces_bind _ (λ _, PcTop)); [apply one_piece; rebind|intros ?].
    eapply pieces_bind; [intros w1; apply run_loop_pieces|intros ?]. apply one_piece. rebind. }
  specialize (H w). unfold run, wp, upd_medium, modify, mbind, M_bind in *.
  destruct (lift_os clock_gettime (on_medium (set_pm_state IDLE) w)) as [[[rv t]|f] w1];
    [|exact H]. by destruct (rv =? -1).
Qed.
End Pieces.

(** ** Theorems *)



(** A medium waits once, and reads a registration timer that has five seconds to
    go. *)
Definition medium_script : list answer :=
  [ans 0 []; ans_events 0 []; ans_time 0 (Timespec 0 0); ans_time 0 (Timespec 5 0)].

(** C11: a medium that is told to stop does: wherever its thread is, except where
    [forgets] says so, it has ended after seven pieces, or it has failed or waits
    for the system. *)
Theorem stop_ends_thread `{HO : HashOrder} {C : CollisionCheck} `{CO : !CollisionCheckOk C}
    (pc : thread_pc) (w : world) :
  Inv w → medium_inv pc w → forgets pc w = false →
  wp (λ f w', benign f ∨ f = Undef UseAfterFree ∧ dangling w')
    (PhysicalMedium.stop;; thread_steps 7 pc) (λ pc' _, pc' = PcExit) w.
Proof.
  intros [I M] Hc Hf. unfold PhysicalMedium.stop. wp_simpl.
  apply wp_heard_steps; [by split|by apply medium_inv_stop| |destruct pc; simpl; lia].
  right; right. split; [done|]. by destruct pc.
Qed.

Lemma stop_ends_thread_witness :
  let w := tx_world medium_script in
  ((PhysicalMedium.stop;; thread_steps (H := map_order) (H0 := powerline) 7 PcTop) w).1 = Ok PcExit ∧
  wp (λ f w', benign f ∨ f = Undef UseAfterFree ∧ dangling w')
    (PhysicalMedium.stop;; thread_steps (H := map_order) (H0 := powerline) 7 PcTop)
    (λ pc' _, pc' = PcExit) w.
Proof.
  split; [vm_compute; reflexivity|].
  apply (stop_ends_thread (HO := map_order) (C := powerline) PcTop); [apply Inv_tx|reflexivity..].
Defined.

(** C37: where the thread writes the state without looking at it, an order to stop
    is lost: as run begins, as a transmission begins after a wait, and before the
    look at the registration timers, the thread goes on as if there had been none. *)
Theorem stop_forgotten `{HO : HashOrder} {C : CollisionCheck} (pc : thread_pc) (w : world) :
  forgets pc w = true →
  (PhysicalMedium.stop;; thread_step pc) w = thread_step pc w.
Proof.
  destruct pc; try done; intros Hf.
  simpl in *. unfold PhysicalMedium.stop, get_medium, gets, upd_medium, modify, mbind, M_bind, whenb.
  cbn [w_medium on_medium set_pm_state pm_txList]. by rewrite Hf.
Qed.

Lemma stop_forgotten_witness :
  pm_state (w_medium (thread_step (H := map_order) (H0 := powerline) PcTimeouts
    (on_medium (set_pm_state STOPPING) (active_world []))).2) = IDLE ∧
  (PhysicalMedium.stop;; thread_step (H := map_order) (H0 := powerline) PcTimeouts) (active_world []) =
    thread_step (H := map_order) (H0 := powerline) PcTimeouts (active_world []).
Proof.
  split; [vm_compute; reflexivity|].
  apply (stop_forgotten (HO := map_order) (C := powerline) PcTimeouts). reflexivity.
Defined.
