(* ===== verification/Process.v ===== *)
(** The process: main, the acceptor, the two media's threads and the signals
    together.  From the first line of main to exit, whatever the interleaving, the
    media keep their invariants and nothing but two known uses of deleted objects
    goes wrong; and a signal brings the process to its end. *)

From Stdlib Require Import ZArith Lia.
From stdpp Require Import base tactics list gmap numbers option strings.
From S2P Require Import Prelude Bytes TimeUtils Checksum Interface Os SocketIO State Spec.
From S2P Require Import DeviceNode NodeStates PhysicalMedium Acceptor Main Threads.
From S2P Require Import Invariant Preserve Follow Fuel MediumSafe Total Examples.
From S2P Require Import Registration Safety Accepting Interleaving.

(** ** Making the simulator *)

(** A medium as its constructor leaves it. *)
Definition new_medium (m : medium) : Prop :=
  ∃ t, m = Medium STOPPED t ∅ ∅ false [] [] 0 0 0.

Lemma Inv_born w m : new_medium m → Inv (born w m).
Proof. intros [t ->]. split; [apply InvS_empty|done]. Qed.
Lemma keys_below_born n w m : new_medium m → keys_below n (born w m).
Proof.
  intros [t ->] p. cbn. rewrite lookup_empty. intros [[? [=]]|[]%not_elem_of_nil].
Qed.

Section Making.
Context `{AL : Allocator} `{HO : HashOrder}.

Lemma wp_ask_sim {P : fault → Prop} {A} (m : M os A) (Q : A → simulator → Prop) s :
  asks P m → (∀ a o, Q a (set_ns_os o s)) → wp (λ f _, P f) (sim_os m) Q s.
Proof using. intros Hm HQ. unfold sim_os. rewrite wp_zoom. eapply wp_mono; [apply Hm|]. auto. Qed.

Lemma mute_getopt_loop fuel debug o :
  (length (os_script o) < fuel)%nat →
  wp (λ f _, silent f) (getopt_loop fuel debug)
    (λ _ o', (length (os_script o') ≤ length (os_script o))%nat) o.
Proof using.
  revert debug o. induction fuel as [|fuel IH]; intros debug o Hf; [lia|].
  simpl. unfold getopt. wp_simpl. destruct (os_script o) as [|a sc] eqn:Ho; [done|]. wp_simpl.
  destruct (a_rv a =? -1); wp_simpl; [simpl; lia|].
  destruct (a_rv a =? 120); wp_simpl; [|simpl; lia].
  eapply wp_mono; [apply IH; simpl in *; lia|]. simpl. intros ? ? ?. lia.
Qed.

Lemma mute_prepare : mute prepare.
Proof using.
  apply asks_bind; [intros o; apply mute_getopt_loop; lia|]. intros opt.
  unfold prctl, install_handlers, install_handler, sigprocmask_unblock, signal. asks.
Qed.

Lemma calm_openPipes : calm SocketUnblocker.openPipes.
Proof using.
  unfold SocketUnblocker.openPipes, SocketUnblocker.pipe_flag, sys_pipe, fcntl_get, fcntl_setfl,
    fcntl_setfd. asks.
Qed.

Lemma wp_getUnblocker (Q : SocketUnblocker.pipes → simulator → Prop) s :
  (∀ p o b, Q p (set_ns_os o (if b : bool then set_ns_unblocker p s else s))) →
  wp (λ f _, benign f) getUnblocker Q s.
Proof using.
  intros HQ. unfold getUnblocker. wp_simpl. destruct (ns_made s) eqn:Hm; wp_simpl.
  - specialize (HQ (ns_unblocker s) (ns_os s) false). by destruct s.
  - apply wp_ask_sim; [apply calm_openPipes|]. intros p o. wp_simpl. apply (HQ p o true).
Qed.

Lemma wp_make_medium p clk name port (Q : handles * medium → simulator → Prop) s :
  (∀ h m o, new_medium m → Q (h, m) (set_ns_os o s)) →
  wp (λ f _, benign f) (sim_os (PhysicalMedium_pimpl p clk name port)) Q s.
Proof using.
  intros HQ. unfold sim_os. rewrite wp_zoom.
  assert (H : wp (λ f _, benign f) (PhysicalMedium_pimpl p clk name port)
    (λ r _, new_medium r.2) (ns_os s)).
  { unfold PhysicalMedium_pimpl, epoll_create1, epoll_ctl_add, timer_create, sys_socket,
      sys_setsockopt, pcap_open_dead, pcap_dump_open.
    repeat (wp_simpl; cbn [os_script]; repeat case_match; try done). by eexists. }
  eapply wp_mono; [exact H|]. intros [h m] o Hn. by apply HQ.
Qed.

(** Both media are new; nothing of what was in memory before matters. *)
Lemma wp_make_NetworkSimulator debug s :
  wp (λ f _, benign f) (make_NetworkSimulator debug)
    (λ _ s', sim_inv s' ∧ pm_ccaList (w_medium (ns_plcMedium s')) = [] ∧
       pm_ccaList (w_medium (ns_wlMedium s')) = []) s.
Proof using.
  unfold make_NetworkSimulator, NetworkSimulator_pimpl, make_PowerlineMedium, make_WirelessMedium.
  wp_simpl. apply wp_ask_sim; [unfold clock_getres; asks|]. intros res o. wp_simpl.
  apply wp_getUnblocker. intros p1 o1 b1. wp_simpl. apply wp_make_medium. intros h1 m1 o2 H1. wp_simpl.
  apply wp_getUnblocker. intros p2 o3 b2. wp_simpl. apply wp_make_medium. intros h2 m2 o4 H2. wp_simpl.
  destruct (_ =? -1); wp_simpl; [done|].
  split; [|destruct b1, b2, H1 as [t1 ->], H2 as [t2 ->]; done].
  destruct b1, b2; (split; cbn; [by apply Inv_born|by apply Inv_born| |by apply keys_below_born
    |by apply keys_below_born]); intros p q np nq; by rewrite lookup_empty.
Qed.
End Making.

(** ** The invariant of the process *)

Section System.
Context `{AL : Allocator} `{HO : HashOrder}.

(** A thread that has not been created finds the medium as run does. *)
Definition thread_inv (pc : option thread_pc) (w : world) : Prop :=
  medium_inv (default PcStart pc) w.

(** The simulator is made: both media and their threads are well formed. *)
Definition made (s : system) : Prop :=
  sim_inv (sy_sim s) ∧ thread_inv (sy_plc s) (ns_plcMedium (sy_sim s)) ∧
  thread_inv (sy_wl s) (ns_wlMedium (sy_sim s)).

(** Where the main thread can be then, and what [sim] points to. *)
Definition during (s : system) : Prop :=
  match sy_main s with
  | MainPrepare | MainNew _ => False
  | MainStartPlc => sy_plc s = None ∧ sy_wl s = None ∧ sy_ptr s = SimNULL
  | MainStartWl | MainExit _ | MainEnd _ => sy_wl s = None ∧ sy_ptr s = SimNULL
  | MainAccept e | MainLook _ e => sy_ptr s = SimObject ∧ 0 ≤ e ≤ 5
  | _ => sy_ptr s = SimObject
  end.

(** The end, with or without a simulator. *)
Definition exiting (pc : main_pc) : Prop :=
  match pc with MainExit _ | MainEnd _ => True | _ => False end.

(** The simulator is deleted, its threads have ended and no node is left. *)
Definition gone (s : system) : Prop :=
  exiting (sy_main s) ∧ sy_plc s = Some PcExit ∧ sy_wl s = Some PcExit ∧ sy_ptr s = SimDeleted ∧
  w_nodes (ns_plcMedium (sy_sim s)) = ∅ ∧ w_nodes (ns_wlMedium (sy_sim s)) = ∅.

Inductive sys_inv (s : system) : Prop :=
  | inv_before :
      match sy_main s with MainPrepare | MainNew _ => True | pc => exiting pc end →
      sy_plc s = None → sy_wl s = None → sy_ptr s = SimNULL → sys_inv s
  | inv_during : made s → during s → sys_inv s
  | inv_after : gone s → sys_inv s.

(** What a medium's thread does keeps the invariant of the simulator. *)
Lemma sim_inv_plc s w :
  sim_inv s → Inv w → settled (ns_plcMedium s) w →
  sim_inv (set_ns_media w (ns_wlMedium s) s).
Proof using.
  intros [I1 I2 Hids K1 K2] I [Hn Ht]. split; simpl; try done.
  - intros p q np nq Hp Hq. destruct (Hn _ _ Hp) as (nd & Hnd & ->). by eapply Hids.
  - intros p [[nd Hp]|Hp]; apply K1.
    + destruct (Hn _ _ Hp) as (nd' & Hnd & _). left. by eexists.
    + destruct (Ht _ Hp); auto.
Qed.
Lemma sim_inv_wl s w :
  sim_inv s → Inv w → settled (ns_wlMedium s) w →
  sim_inv (set_ns_media (ns_plcMedium s) w s).
Proof using.
  intros [I1 I2 Hids K1 K2] I [Hn Ht]. split; simpl; try done.
  - intros p q np nq Hp Hq. destruct (Hn _ _ Hq) as (nd & Hnd & ->). by eapply Hids.
  - intros p [[nd Hp]|Hp]; apply K2.
    + destruct (Hn _ _ Hp) as (nd' & Hnd & _). left. by eexists.
    + destruct (Ht _ Hp); auto.
Qed.

Lemma thread_inv_quiet pc w w' : quiet w w' → thread_inv pc w → thread_inv pc w'.
Proof using. apply medium_inv_quiet. Qed.

(** [s'] is [s] but for its simulator, the lists of whose media are the same. *)
Definition steady (s s' : system) : Prop :=
  sy_main s' = sy_main s ∧ sy_plc s' = sy_plc s ∧ sy_wl s' = sy_wl s ∧ sy_ptr s' = sy_ptr s ∧
  same_media (sy_sim s) (sy_sim s').

Lemma steady_sim sim s : same_media (sy_sim s) sim → steady s (set_sy_sim sim s).
Proof using. intros H. unfold steady. by split_and!. Qed.

Lemma made_steady s s' : made s → sim_inv (sy_sim s') → steady s s' → made s'.
Proof using.
  intros (I & Tp & Tw) I' (_ & Ep & Ew & _ & [Qp Qw]). split; [done|]. rewrite Ep, Ew.
  split; by eapply thread_inv_quiet.
Qed.

(** *** Pieces of the main thread *)

(** Exceptions that main catches. *)
Lemma wp_caught E next (m : M system main_pc) (Q : main_pc → system → Prop) s :
  wp E (caught next m) Q s ↔
  wp (λ f s', match f with Throw _ => Q next s' | _ => E f s' end) m Q s.
Proof using. unfold wp, caught, try_catch. by destruct (m s) as [[a|[]] s']. Qed.

(** A call of the simulator within the try block. *)
Lemma wp_try_sim {A} (m : M simulator A) (k : A → M system main_pc) next
    (P : A → simulator → Prop) (Q : main_pc → system → Prop) s :
  sim_inv (sy_sim s) →
  wp (excused (sy_sim s)) m P (sy_sim s) →
  (∀ s', sim_inv (sy_sim s') → steady s s' → Q next s') →
  (∀ a sim, P a sim → wp (λ f _, silent f) (k a) Q (set_sy_sim sim s)) →
  wp (λ f _, silent f) (caught next (x ← in_sim m; k x)) Q s.
Proof using.
  intros I Hm Hnext Hk. rewrite wp_caught, wp_bind. unfold in_sim. rewrite wp_zoom.
  eapply wp_mono_E; [eapply wp_mono; [exact Hm|]|].
  - intros a sim HP. eapply wp_mono_E; [by apply Hk|]. intros f s' [Hb Ht]. by destruct f.
  - intros f sim [Hb Ht]. destruct f; try by split.
    destruct (Ht eq_refl) as [I' Hq]. apply Hnext; [done|by apply steady_sim].
Qed.

(** The pieces of start: a round of the acceptor. *)
Lemma wp_main_accept e s :
  sim_inv (sy_sim s) → 0 ≤ e ≤ 5 →
  wp (λ f _, silent f) (main_step (MainAccept e))
    (λ pc s', sim_inv (sy_sim s') ∧ steady s s' ∧
      (pc = MainStopPlc ∨ ∃ rv e', pc = MainLook rv e' ∧ 0 ≤ e' ≤ 5 ∧
         ns_stop (sy_sim s') = ns_stop (sy_sim s))) s.
Proof using.
  intros I He. simpl. eapply wp_try_sim; [done|by apply wp_accept_round|by auto|].
  intros [rv e'] sim (I' & Hs & He'). wp_simpl. split; [done|].
  split; [by apply steady_sim, same_control_media|]. right. exists rv, e'. split; [done|].
  split; [done|]. apply Hs.
Qed.

Lemma wp_main_open s :
  sim_inv (sy_sim s) →
  wp (λ f _, silent f) (main_step MainOpen)
    (λ pc s', sim_inv (sy_sim s') ∧ steady s s' ∧ (pc = MainStopPlc ∨ pc = MainAccept 0)) s.
Proof using.
  intros I. simpl. eapply wp_try_sim; [done|by apply wp_open_servers|by auto|].
  intros ? sim [I' Hq]. wp_simpl. split; [done|]. split; [by apply steady_sim|by right].
Qed.

(** The end of the acceptor. *)
Lemma wp_main_close s :
  sim_inv (sy_sim s) →
  wp (λ f _, silent f) (main_step MainClose)
    (λ pc s', sim_inv (sy_sim s') ∧ steady s s' ∧ pc = MainStopPlc) s.
Proof using.
  intros I. simpl. wp_simpl. unfold in_sim. rewrite wp_zoom. unfold delete_servers. wp_simpl.
  assert (Hd : ∀ fd, mute (Socket.destroy fd)).
  { intros fd. unfold Socket.destroy, sys_close, whenb. asks. }
  apply wp_ask_sim; [apply Hd|]. intros ? o1. wp_simpl. apply wp_ask_sim; [apply Hd|].
  intros ? o2. wp_simpl. split; [by apply sim_inv_os, sim_inv_os|by repeat split].
Qed.

(** An order to stop changes one field of one medium. *)
Definition plc_stopping (s : simulator) : simulator :=
  set_ns_media (on_medium (set_pm_state STOPPING) (ns_plcMedium s)) (ns_wlMedium s) s.
Definition wl_stopping (s : simulator) : simulator :=
  set_ns_media (ns_plcMedium s) (on_medium (set_pm_state STOPPING) (ns_wlMedium s)) s.

Lemma main_stop_plc_run s :
  main_step MainStopPlc s = (Ok MainStopWl, set_sy_sim (plc_stopping (sy_sim s)) s).
Proof using. by destruct s as [[? ? ? ? ? ? ? [] ? [] ? ?] ? ? ? ? ?]. Qed.
Lemma main_stop_wl_run s :
  main_step MainStopWl s = (Ok MainJoin, set_sy_sim (wl_stopping (sy_sim s)) s).
Proof using. by destruct s as [[? ? ? ? ? ? ? [] ? [] ? ?] ? ? ? ? ?]. Qed.

Lemma made_stop_plc s : made s → made (set_sy_sim (plc_stopping (sy_sim s)) s).
Proof using.
  intros ([[I1 M1] I2 Hids K1 K2] & Tp & Tw). split; [by split|].
  split; [apply (medium_inv_stop _ _ Tp)|exact Tw].
Qed.
Lemma made_stop_wl s : made s → made (set_sy_sim (wl_stopping (sy_sim s)) s).
Proof using.
  intros ([I1 [I2 M2] Hids K1 K2] & Tp & Tw). split; [by split|].
  split; [exact Tp|apply (medium_inv_stop _ _ Tw)].
Qed.

Lemma destroy_pimpl_run h w :
  Inv w → wp (λ _ _, False) (destroy_pimpl h) (λ _ w', w_nodes w' = ∅) w.
Proof using.
  intros I. unfold destroy_pimpl, sys_close, timer_delete, pcap_close. wp_simpl.
  rewrite wp_lift_os. wp_simpl. rewrite wp_lift_os. wp_simpl.
  match goal with |- wp _ destroy _ ?w1 =>
    destruct (destroy_run w1) as (w2 & E & N & _); [exact I|] end.
  unfold wp at 1. rewrite E. wp_simpl.
  destruct (negb _); wp_simpl; rewrite ?wp_lift_os; wp_simpl; rewrite ?wp_lift_os; by wp_simpl.
Qed.

Lemma wp_main_join s :
  made s → enabled Main s = true → sy_main s = MainJoin →
  wp (λ f _, silent f) (main_step MainJoin)
    (λ pc s', pc = MainExit EXIT_SUCCESS ∧ gone (set_sy_main pc s')) s.
Proof using.
  intros ([I1 I2 _ _ _] & _ & _) He Hm. unfold enabled in He. rewrite Hm in He.
  apply andb_true_iff in He as [Hp%bool_decide_eq_true Hw%bool_decide_eq_true].
  simpl. wp_simpl. unfold in_sim. rewrite wp_zoom. unfold destroy_simulator. wp_simpl.
  unfold waitForExit, pthread_join. apply wp_ask_sim; [asks|]. intros ? o1. wp_simpl.
  apply wp_ask_sim; [asks|]. intros ? o2. wp_simpl. unfold on_plc at 1. rewrite wp_zoom.
  eapply wp_mono_E; [eapply wp_mono; [by apply destroy_pimpl_run|]|done].
  intros ? w1 N1. wp_simpl. unfold on_wl. rewrite wp_zoom.
  eapply wp_mono_E; [eapply wp_mono; [by apply destroy_pimpl_run|]|done].
  intros ? w2 N2. wp_simpl. split; [done|]. by split_and!.
Qed.

Lemma mute_exit_destructors (Q : unit → simulator → Prop) s :
  (∀ o, Q tt (set_ns_os o s)) → wp (λ f _, silent f) exit_destructors Q s.
Proof using.
  intros HQ. unfold exit_destructors. wp_simpl. destruct (ns_made s); wp_simpl.
  - apply wp_ask_sim; [unfold SocketUnblocker.closePipes, sys_close; asks|]. intros ? o. apply HQ.
  - specialize (HQ (ns_os s)). by destruct s.
Qed.

(** *** Every step keeps the invariant *)

(** The main thread, before there is a simulator and at the end. *)
Lemma wp_main_before s :
  match sy_main s with MainPrepare | MainNew _ => True | pc => exiting pc end →
  sy_plc s = None → sy_wl s = None → sy_ptr s = SimNULL → (∀ c, sy_main s ≠ MainEnd c) →
  wp (λ f _, silent f) (main_step (sy_main s)) (λ pc s', sys_inv (set_sy_main pc s')) s.
Proof using.
  intros Hm Hp Hw Hn He. destruct (sy_main s) as [|debug| | | | | | | | | |code|code] eqn:Em; try done.
  - simpl. wp_simpl. unfold in_sim. rewrite wp_zoom. apply wp_ask_sim; [apply mute_prepare|].
    intros [[debug handled]|] o; wp_simpl; by apply inv_before.
  - simpl. rewrite wp_caught, wp_bind. unfold in_sim. rewrite wp_zoom.
    eapply wp_mono_E; [eapply wp_mono; [apply wp_make_NetworkSimulator|]|].
    + intros ? sim (I & Cp & Cw). wp_simpl. apply inv_during; [|done].
      split; [done|]. cbn. by rewrite Hp, Hw.
    + intros f sim Hf. destruct f; try by split. by apply inv_before.
  - simpl. wp_simpl. unfold in_sim. rewrite wp_zoom. apply mute_exit_destructors. intros o. wp_simpl.
    by apply inv_before.
  - by destruct (He code).
Qed.

Lemma wp_start_thread next (k : M system main_pc) (Q : main_pc → system → Prop) s :
  (∀ o, Q next (set_sy_sim (set_ns_os o (sy_sim s)) s)) →
  (∀ o, wp (λ f _, silent f) k Q (set_sy_sim (set_ns_os o (sy_sim s)) s)) →
  wp (λ f _, silent f) (caught next (in_sim (sim_os start_thread);; k)) Q s.
Proof using.
  intros Hn Hk. rewrite wp_caught, wp_bind. unfold in_sim, sim_os. rewrite !wp_zoom.
  assert (H : calm start_thread) by (unfold start_thread, pthread_create; asks).
  eapply wp_mono_E; [eapply wp_mono; [apply H|]|].
  - intros ? o _. eapply wp_mono_E; [apply Hk|]. intros f s' [Hb Ht]. by destruct f.
  - intros f o Hf. destruct f; try by split. apply Hn.
Qed.

Lemma wp_main_during s :
  made s → during s → enabled Main s = true →
  wp (λ f _, silent f) (main_step (sy_main s)) (λ pc s', sys_inv (set_sy_main pc s')) s.
Proof using.
  intros M D He. pose proof M as (I & Tp & Tw). unfold during in D.
  assert (Hst : ∀ pc s', sim_inv (sy_sim s') → steady s s' →
    during (set_sy_main pc s') → sys_inv (set_sy_main pc s')).
  { intros pc s' I' Hs D'. apply inv_during; [|done].
    apply (made_steady s s' M I' Hs). }
  assert (Hptr : ∀ s', steady s s' → sy_ptr s' = sy_ptr s) by (by intros s' (_ & _ & _ & ? & _)).
  destruct (sy_main s) as [|debug| | | |e|rv e| | | | |code|code] eqn:Em; try done.
  - destruct D as (Hp & Hw & Hn). apply wp_start_thread.
    + intros o. apply Hst; [by apply sim_inv_os|by apply steady_sim|done].
    + intros o. wp_simpl. apply inv_during; [|done]. split; [by apply sim_inv_os|].
      split; [|exact Tw]. rewrite Hp in Tp. exact Tp.
  - destruct D as (Hw & Hn). apply wp_start_thread.
    + intros o. apply Hst; [by apply sim_inv_os|by apply steady_sim|done].
    + intros o. wp_simpl. apply inv_during; [|done]. split; [by apply sim_inv_os|].
      split; [exact Tp|]. rewrite Hw in Tw. exact Tw.
  - eapply wp_mono; [by apply wp_main_open|]. intros pc s' (I' & Hs & Hpc).
    apply Hst; [done..|]. pose proof (Hptr _ Hs). destruct Hpc as [-> | ->]; cbn; [congruence|].
    split; [congruence|lia].
  - destruct D as [Dp De]. eapply wp_mono; [by apply wp_main_accept|]. intros pc s' (I' & Hs & Hpc).
    apply Hst; [done..|]. pose proof (Hptr _ Hs).
    destruct Hpc as [-> |(rv & e' & -> & He' & _)]; cbn; [congruence|]. split; [congruence|done].
  - destruct D as [Dp De]. simpl. wp_simpl. apply Hst; [done|by repeat split|]. by destruct (_ && _).
  - eapply wp_mono; [by apply wp_main_close|]. intros pc s' (I' & Hs & ->).
    apply Hst; [done..|]. cbn. rewrite (Hptr _ Hs). done.
  - unfold wp. rewrite main_stop_plc_run. apply inv_during; [|done]. apply (made_stop_plc s M).
  - unfold wp. rewrite main_stop_wl_run. apply inv_during; [|done]. apply (made_stop_wl s M).
  - eapply wp_mono; [by apply wp_main_join|]. intros pc s' [_ Hg]. by apply inv_after.
  - simpl. wp_simpl. unfold in_sim. rewrite wp_zoom. apply mute_exit_destructors. intros o. wp_simpl.
    apply inv_during; [|done]. split; [by apply sim_inv_os|done].
  - unfold enabled in He. by rewrite Em in He.
Qed.

(** What a step of the process may fail with. *)
Definition act_excused (a : actor) (f : fault) (s : system) : Prop :=
  match a with
  | Main => silent f
  | Plc => benign f ∨ f = Undef UseAfterFree ∧ dangling (ns_plcMedium (sy_sim s))
  | Wl => benign f ∨ f = Undef UseAfterFree ∧ dangling (ns_wlMedium (sy_sim s))
  | Signal _ => benign f ∨ f = Undef UseAfterFree ∧ sy_ptr s = SimDeleted
  end.

Lemma wp_thread_piece {C : CollisionCheck} `{CO : !CollisionCheckOk C} `{FC : !FollowsCheck C} pc w :
  Inv w → medium_inv pc w →
  ewp (thread_step pc) (λ pc' w', (Inv w' ∧ medium_inv pc' w') ∧ settled w w') w.
Proof using.
  intros I Hc. exact (wp_and _ _ _ _ _ _ (wp_thread_step pc w I Hc) (follows_thread_step pc w)).
Qed.

(** A piece of a medium's thread, when the order to stop has reached it and when it
    has not. *)
Lemma wp_thread_piece_heard {C : CollisionCheck} `{CO : !CollisionCheckOk C} `{FC : !FollowsCheck C}
    (told : bool) pc w :
  Inv w → medium_inv pc w → pc ≠ PcExit → (told = true → heard pc w) →
  ewp (thread_step pc) (λ pc' w', (Inv w' ∧ medium_inv pc' w') ∧ settled w w' ∧
    (told = true → heard pc' w' ∧ (pieces_left pc' < pieces_left pc)%nat)) w.
Proof using.
  intros I Hc Hne Ht. destruct told.
  - eapply wp_mono; [exact (wp_and _ _ _ _ _ _ (wp_thread_piece pc w I Hc)
      (wp_heard_step pc w I Hc (Ht eq_refl) Hne))|]. by intros pc' w' [[? ?] ?].
  - eapply wp_mono; [by apply wp_thread_piece|]. by intros pc' w' [? ?].
Qed.

Lemma enabled_Plc s :
  enabled Plc s = true → ∃ pc, sy_plc s = Some pc ∧ pc ≠ PcExit ∧ ∀ c, sy_main s ≠ MainEnd c.
Proof using.
  unfold enabled. intros He. assert (He' : match sy_plc s with None | Some PcExit => false | _ => true end = true)
    by (by destruct (sy_main s)).
  destruct (sy_plc s) as [pc|]; [|done]. exists pc. split; [done|]. split; [by intros ->|].
  intros c Hc. by rewrite Hc in He.
Qed.
Lemma enabled_Wl s :
  enabled Wl s = true → ∃ pc, sy_wl s = Some pc ∧ pc ≠ PcExit ∧ ∀ c, sy_main s ≠ MainEnd c.
Proof using.
  unfold enabled. intros He. assert (He' : match sy_wl s with None | Some PcExit => false | _ => true end = true)
    by (by destruct (sy_main s)).
  destruct (sy_wl s) as [pc|]; [|done]. exists pc. split; [done|]. split; [by intros ->|].
  intros c Hc. by rewrite Hc in He.
Qed.

(** A thread of a medium does its piece; [told]: see above. *)
Lemma wp_act_plc (told : bool) pc s :
  made s → sy_plc s = Some pc → pc ≠ PcExit →
  (told = true → heard pc (ns_plcMedium (sy_sim s))) →
  wp (act_excused Plc) (act Plc) (λ _ s', made s' ∧ ∃ pc' w,
    s' = set_sy_plc (Some pc') (set_sy_sim (set_ns_media w (ns_wlMedium (sy_sim s)) (sy_sim s)) s) ∧
    (told = true → heard pc' w ∧ (pieces_left pc' < pieces_left pc)%nat)) s.
Proof using.
  intros (I & Tp & Tw) Hpc Hne Ht. simpl. wp_simpl. rewrite Hpc in Tp |- *.
  unfold in_sim, of_plc. wp_simpl. rewrite !wp_zoom.
  eapply wp_mono_E; [eapply wp_mono; [by apply (wp_thread_piece_heard told); [apply I|..]|]|].
  - intros pc' w [[I' Hc'] [Hs Hh]]. wp_simpl. split; [|by exists pc', w].
    split; [by apply sim_inv_plc|]. by split.
  - intros f w [Hf|[-> Hd]]; [by left|by right].
Qed.
Lemma wp_act_wl (told : bool) pc s :
  made s → sy_wl s = Some pc → pc ≠ PcExit →
  (told = true → heard pc (ns_wlMedium (sy_sim s))) →
  wp (act_excused Wl) (act Wl) (λ _ s', made s' ∧ ∃ pc' w,
    s' = set_sy_wl (Some pc') (set_sy_sim (set_ns_media (ns_plcMedium (sy_sim s)) w (sy_sim s)) s) ∧
    (told = true → heard pc' w ∧ (pieces_left pc' < pieces_left pc)%nat)) s.
Proof using.
  intros (I & Tp & Tw) Hpc Hne Ht. simpl. wp_simpl. rewrite Hpc in Tw |- *.
  unfold in_sim, of_wl. wp_simpl. rewrite !wp_zoom.
  eapply wp_mono_E; [eapply wp_mono; [by apply (wp_thread_piece_heard told); [apply I|..]|]|].
  - intros pc' w [[I' Hc'] [Hs Hh]]. wp_simpl. split; [|by exists pc', w].
    split; [by apply sim_inv_wl|]. by split.
  - intros f w [Hf|[-> Hd]]; [by left|by right].
Qed.

(** The handler of a signal. *)
Lemma calm_signal signum b : calm (signal signum b).
Proof using. unfold signal. asks. Qed.

Lemma wp_signal_handler ptr signum (Q : unit → simulator → Prop) s :
  (∀ o b, (bool_decide (signum ∈ [SIGINT; SIGTERM]) && bool_decide (ptr = SimObject) = b) →
     Q tt (set_ns_os o (set_ns_stop (b || ns_stop s) s))) →
  wp (λ f _, benign f ∨ f = Undef UseAfterFree ∧ ptr = SimDeleted) (signal_handler ptr signum) Q s.
Proof using.
  intros HQ. unfold signal_handler. rewrite wp_bind, wp_whenb.
  assert (Hend : ∀ s1, (∀ o, Q tt (set_ns_os o s1)) →
    wp (λ f _, benign f ∨ f = Undef UseAfterFree ∧ ptr = SimDeleted)
      (sim_os (signal signum true);; mret tt) Q s1).
  { intros s1 H1. wp_simpl. eapply wp_mono_E; [apply (wp_ask_sim (P := benign)); [apply calm_signal|]|by left].
    intros ? o. by wp_simpl. }
  assert (Hsame : ∀ o, set_ns_os o (set_ns_stop (false || ns_stop s) s) = set_ns_os o s)
    by (by destruct s).
  destruct (bool_decide (signum ∈ _)) eqn:Hsig;
    [|apply Hend; intros o; rewrite <-Hsame; by apply HQ].
  destruct ptr.
  - rewrite wp_ret. apply Hend. intros o. rewrite <-Hsame. by apply HQ.
  - unfold stop_simulator. rewrite wp_bind, wp_modify, wp_bind, wp_gets. eapply wp_mono_E; [apply (wp_ask_sim (P := benign)); [apply calm_unblock|]|by left].
    intros ? o1. apply Hend. intros o. by apply (HQ o true).
  - by right.
Qed.

Lemma wp_act_signal signum s :
  wp (λ f s', (benign f ∨ f = Undef UseAfterFree ∧ sy_ptr s = SimDeleted) ∧ sy_ptr s' = sy_ptr s)
    (act (Signal signum)) (λ _ s', ∃ o b,
    (bool_decide (signum ∈ [SIGINT; SIGTERM]) && bool_decide (sy_ptr s = SimObject) = b) ∧
    s' = set_sy_sim (set_ns_os o (set_ns_stop (b || ns_stop (sy_sim s)) (sy_sim s))) s) s.
Proof using.
  simpl. wp_simpl. unfold in_sim. rewrite wp_zoom.
  eapply wp_mono_E; [apply wp_signal_handler|by auto]. intros o b Hb. by exists o, b.
Qed.

Lemma wp_act a s :
  sys_inv s → enabled a s = true → wp (act_excused a) (act a) (λ _ s', sys_inv s') s.
Proof using.
  intros V He. destruct a as [| | |signum].
  - simpl. wp_simpl. eapply wp_mono with (Q := λ pc s', sys_inv (set_sy_main pc s')).
    2: { intros pc s' Hs. by wp_simpl. }
    assert (Hend : ∀ c, sy_main s ≠ MainEnd c) by (intros c Hc; unfold enabled in He; by rewrite Hc in He).
    destruct V as [Hm Hp Hw Hn|M D|(Hm & Hp & Hw & Hn & N1 & N2)].
    + by apply wp_main_before.
    + by apply wp_main_during.
    + destruct (sy_main s) as [| | | | | | | | | | |code|code] eqn:Em; try done; [|by destruct (Hend code)].
      simpl. wp_simpl. unfold in_sim. rewrite wp_zoom. apply mute_exit_destructors. intros o. wp_simpl.
      by apply inv_after.
  - apply enabled_Plc in He as (pc & Hpc & Hne & _).
    destruct V as [Hm Hp Hw Hn|M D|(Hm & Hp & Hw & Hn & N1 & N2)]; [congruence| |congruence].
    eapply wp_mono; [by apply (wp_act_plc false pc)|]. intros ? s' (M' & pc' & w & -> & _).
    apply inv_during; [done|]. unfold during in *. cbn. destruct (sy_main s); try done.
    by destruct D as (Hp & _ & _); congruence.
  - apply enabled_Wl in He as (pc & Hpc & Hne & _).
    destruct V as [Hm Hp Hw Hn|M D|(Hm & Hp & Hw & Hn & N1 & N2)]; [congruence| |congruence].
    eapply wp_mono; [by apply (wp_act_wl false pc)|]. intros ? s' (M' & pc' & w & -> & _).
    apply inv_during; [done|]. unfold during in *. cbn. destruct (sy_main s); try done; destruct_and?; congruence.
  - eapply wp_mono_E; [eapply wp_mono; [apply wp_act_signal|]|].
    2: { intros f s' [[Hf|[-> Hd]] E]; [by left|]. right. by rewrite E. }
    intros ? s' (o & b & _ & ->). destruct V as [Hm Hp Hw Hn|(I & Tp & Tw) D|G].
    + by apply inv_before.
    + apply inv_during; [|done]. split; [by apply sim_inv_os, sim_inv_stop|done].
    + by apply inv_after.
Qed.

(** The process as it is started: main is at its first line, there is no other
    thread, and nothing is known of the memory the simulator will be in. *)
Definition initial (s : system) : Prop :=
  sy_main s = MainPrepare ∧ sy_plc s = None ∧ sy_wl s = None ∧ sy_ptr s = SimNULL.

Lemma reachable_inv s0 s : initial s0 → reachable s0 s → sys_inv s.
Proof using.
  intros (Hm & Hp & Hw & Hn) Hr. induction Hr as [|s a s' Hr IH He Ha].
  - apply inv_before; by rewrite ?Hm.
  - pose proof (wp_act a s IH He) as W. unfold wp in W. by rewrite Ha in W.
Qed.

(** A run of a schedule reaches what it leaves. *)
Lemma schedule_reachable l s0 s s' :
  reachable s0 s → schedule l s = (Ok tt, s') → reachable s0 s'.
Proof using.
  revert s. induction l as [|a l IH]; intros s Hr; simpl; [by intros [= <-]|].
  unfold mbind, M_bind, gets. destruct (enabled a s) eqn:He; [|by apply IH].
  destruct (act a s) as [[[]|f] s1] eqn:Ha; [|done]. apply IH. by eapply reach_act.
Qed.

(** ** The way to the end *)

(** The faults of the threads once the simulator is being deleted. *)
Definition closing_fault (f : fault) (s : system) : Prop :=
  benign f ∨ f = Undef UseAfterFree ∧
    (dangling (ns_plcMedium (sy_sim s)) ∨ dangling (ns_wlMedium (sy_sim s))).

(** The thread will not overwrite an order to stop, and has not missed one. *)
Definition ready (pc : option thread_pc) (w : world) : Prop :=
  ∃ p, pc = Some p ∧ forgets p w = false.
Definition told (pc : option thread_pc) (w : world) : Prop :=
  ∃ p, pc = Some p ∧ heard p w.

Lemma ready_quiet pc w w' : quiet w w' → ready pc w → ready pc w'.
Proof using. intros Q (p & Hp & Hf). exists p. by rewrite (forgets_quiet _ _ _ Q). Qed.
Lemma told_stop pc w : ready pc w → told pc (on_medium (set_pm_state STOPPING) w).
Proof using. intros (p & Hp & Hf). exists p. split; [done|]. right; right. by destruct p. Qed.

(** The main thread's way from a round of the acceptor to the end, and how far it
    is. *)
Definition closing (s : system) : Prop :=
  let P := ns_plcMedium (sy_sim s) in let W := ns_wlMedium (sy_sim s) in
  match sy_main s with
  | MainAccept e | MainLook _ e =>
      made s ∧ sy_ptr s = SimObject ∧ ready (sy_plc s) P ∧ ready (sy_wl s) W ∧ 0 ≤ e ≤ 5 ∧
      ns_stop (sy_sim s) = true
  | MainClose | MainStopPlc => made s ∧ sy_ptr s = SimObject ∧ ready (sy_plc s) P ∧ ready (sy_wl s) W
  | MainStopWl => made s ∧ sy_ptr s = SimObject ∧ told (sy_plc s) P ∧ ready (sy_wl s) W
  | MainJoin => made s ∧ sy_ptr s = SimObject ∧ told (sy_plc s) P ∧ told (sy_wl s) W
  | MainExit c | MainEnd c => gone s ∧ c = EXIT_SUCCESS
  | _ => False
  end.
Definition main_left (pc : main_pc) : nat :=
  match pc with
  | MainAccept _ => 7 | MainLook _ _ => 6 | MainClose => 5 | MainStopPlc => 4
  | MainStopWl => 3 | MainJoin => 2 | MainExit _ => 1 | _ => 0
  end.

Lemma wp_closing_main s :
  closing s → enabled Main s = true →
  wp closing_fault (act Main)
    (λ _ s', closing s' ∧ (main_left (sy_main s') < main_left (sy_main s))%nat) s.
Proof using.
  intros Hc He. simpl. wp_simpl. unfold closing in Hc.
  assert (Hs : ∀ f s', silent f → closing_fault f s') by (intros f s' [? _]; by left).
  assert (Hst : ∀ s', made s → sim_inv (sy_sim s') → steady s s' → sy_ptr s = SimObject →
    ready (sy_plc s) (ns_plcMedium (sy_sim s)) → ready (sy_wl s) (ns_wlMedium (sy_sim s)) →
    made s' ∧ sy_ptr s' = SimObject ∧ ready (sy_plc s') (ns_plcMedium (sy_sim s')) ∧
      ready (sy_wl s') (ns_wlMedium (sy_sim s'))).
  { intros s' M I' H D Rp Rw. pose proof H as (_ & Ep & Ew & En & [Qp Qw]).
    rewrite Ep, Ew, En. split_and!; [by eapply made_steady|done|by eapply ready_quiet..]. }
  destruct (sy_main s) as [| | | | |e|rv e| | | | |code|code] eqn:Em; try done.
  - destruct Hc as (M & D & Rp & Rw & De & Hstop).
    eapply wp_mono_E; [eapply wp_mono; [apply wp_main_accept; [apply M|done]|]|by auto].
    intros pc s' (I' & H & Hpc). wp_simpl. pose proof (Hst s' M I' H D Rp Rw).
    destruct Hpc as [-> |(rv & e' & -> & He' & Hns)]; cbn; (split; [|lia]); [done|].
    unfold closing. cbn. rewrite Hns. destruct_and?. by split_and!.
  - destruct Hc as (M & D & Rp & Rw & De & Hstop). cbn [main_step]. wp_simpl. rewrite Hstop.
    simpl. split; [by split_and!|lia].
  - destruct Hc as (M & D & Rp & Rw).
    eapply wp_mono_E; [eapply wp_mono; [apply wp_main_close, M|]|by auto].
    intros pc s' (I' & H & ->). wp_simpl. split; [|simpl; lia]. apply (Hst s' M I' H D Rp Rw).
  - destruct Hc as (M & D & Rp & Rw). unfold wp at 1. rewrite main_stop_plc_run. wp_simpl.
    split; [|simpl; lia]. split; [apply (made_stop_plc s M)|]. split; [done|].
    split; [by apply told_stop|done].
  - destruct Hc as (M & D & Rp & Rw). unfold wp at 1. rewrite main_stop_wl_run. wp_simpl.
    split; [|simpl; lia]. split; [apply (made_stop_wl s M)|]. split; [done|].
    split; [done|by apply told_stop].
  - destruct Hc as (M & D & Rp & Rw).
    eapply wp_mono_E; [eapply wp_mono; [by apply wp_main_join|]|by auto].
    intros pc s' [-> G]. wp_simpl. split; [by split|simpl; lia].
  - destruct Hc as [(_ & Hp & Hw & Hn & N1 & N2) ->]. cbn [main_step]. wp_simpl. unfold in_sim.
    rewrite wp_zoom. eapply wp_mono_E; [apply mute_exit_destructors|by auto]. intros o. wp_simpl.
    split; [|simpl; lia]. by split.
  - unfold enabled in He. by rewrite Em in He.
Qed.

(** Once it waits for the threads, or is done. *)
Definition waiting (s : system) : Prop := closing s ∧ (main_left (sy_main s) ≤ 2)%nat.

Lemma waiting_cases s :
  waiting s → (sy_main s = MainJoin ∧ made s ∧ sy_ptr s = SimObject ∧
    told (sy_plc s) (ns_plcMedium (sy_sim s)) ∧ told (sy_wl s) (ns_wlMedium (sy_sim s))) ∨ gone s.
Proof using.
  intros [Hc Hl]. unfold closing in Hc. destruct (sy_main s); simpl in Hl; try lia; try done; [by left|..];
    by right; destruct Hc.
Qed.

Lemma wp_schedule_cons a l (E : fault → system → Prop) Q s :
  wp E (schedule (a :: l)) Q s ↔
  if enabled a s then wp E (act a) (λ _, wp E (schedule l) Q) s else wp E (schedule l) Q s.
Proof using. simpl. wp_simpl. by destruct (enabled a s); wp_simpl. Qed.

(** A part of a schedule, and the rest. *)
Lemma wp_schedule_app l1 l2 (E : fault → system → Prop) Q s :
  wp E (schedule l1) (λ _, wp E (schedule l2) Q) s → wp E (schedule (l1 ++ l2)) Q s.
Proof using.
  revert s. induction l1 as [|a l1 IH]; intros s H; [exact H|]. simpl app.
  rewrite wp_schedule_cons in *. destruct (enabled a s); [|by apply IH].
  eapply wp_mono; [exact H|]. intros ? s1. apply IH.
Qed.

Lemma wp_closing_mains n s :
  closing s → (main_left (sy_main s) ≤ 2 + n)%nat →
  wp closing_fault (schedule (replicate n Main)) (λ _, waiting) s.
Proof using.
  revert s. induction n as [|n IH]; intros s Hc Hn; [by split; [|lia]|].
  simpl replicate. rewrite wp_schedule_cons. destruct (enabled Main s) eqn:He.
  - eapply wp_mono; [by apply wp_closing_main|]. intros ? s1 [Hc1 Hl]. apply IH; [done|lia].
  - apply IH; [done|]. unfold enabled in He. unfold closing in Hc.
    destruct (sy_main s); try done; simpl in *; lia.
Qed.

(** The threads come to their ends, one after the other. *)
Lemma wp_closing_plc n s :
  waiting s → (∀ p, sy_plc s = Some p → (pieces_left p ≤ n)%nat) →
  wp closing_fault (schedule (replicate n Plc)) (λ _ s', waiting s' ∧ sy_plc s' = Some PcExit) s.
Proof using.
  revert s. induction n as [|n IH]; intros s Hw Hn.
  { split; [done|]. destruct (waiting_cases s Hw) as [(_ & _ & _ & (p & Hp & _) & _)|G]; [|apply G].
    specialize (Hn p Hp). rewrite Hp. destruct p; simpl in Hn; try lia. done. }
  simpl replicate. rewrite wp_schedule_cons. destruct (enabled Plc s) eqn:He.
  - apply enabled_Plc in He as (pc & Hpc & Hne & _).
    destruct (waiting_cases s Hw) as [(Hm & M & D & (p & Hp & Hh) & Tw)|(_ & Hp & _)]; [|congruence].
    assert (p = pc) as -> by congruence.
    eapply wp_mono_E; [eapply wp_mono; [by apply (wp_act_plc true pc)|]|].
    2: { intros f s1 [Hf|[-> Hd]]; [by left|by right; split; [|left]]. }
    intros ? s1 (M1 & pc' & w & -> & Hh'). destruct (Hh' eq_refl) as [Hh1 Hlt]. apply IH.
    + split; [|simpl; by rewrite Hm]. unfold closing. cbn. rewrite Hm. split; [done|].
      split; [done|]. split; [by exists pc'|done].
    + cbn. intros p' [= <-]. specialize (Hn pc Hpc). lia.
  - apply IH; [done|]. intros p Hp. destruct (waiting_cases s Hw) as [(Hm & _)|(_ & Hp' & _)].
    + unfold enabled in He. rewrite Hm, Hp in He. destruct p; try done. simpl. lia.
    + assert (p = PcExit) as -> by congruence. simpl. lia.
Qed.
Lemma wp_closing_wl n s :
  waiting s → sy_plc s = Some PcExit → (∀ p, sy_wl s = Some p → (pieces_left p ≤ n)%nat) →
  wp closing_fault (schedule (replicate n Wl))
    (λ _ s', waiting s' ∧ sy_plc s' = Some PcExit ∧ sy_wl s' = Some PcExit) s.
Proof using.
  revert s. induction n as [|n IH]; intros s Hw Hplc Hn.
  { split; [done|]. split; [done|].
    destruct (waiting_cases s Hw) as [(_ & _ & _ & _ & (p & Hp & _))|G]; [|apply G].
    specialize (Hn p Hp). rewrite Hp. destruct p; simpl in Hn; try lia. done. }
  simpl replicate. rewrite wp_schedule_cons. destruct (enabled Wl s) eqn:He.
  - apply enabled_Wl in He as (pc & Hpc & Hne & _).
    destruct (waiting_cases s Hw) as [(Hm & M & D & Tp & (p & Hp & Hh))|(_ & _ & Hp & _)]; [|congruence].
    assert (p = pc) as -> by congruence.
    eapply wp_mono_E; [eapply wp_mono; [by apply (wp_act_wl true pc)|]|].
    2: { intros f s1 [Hf|[-> Hd]]; [by left|by right; split; [|right]]. }
    intros ? s1 (M1 & pc' & w & -> & Hh'). destruct (Hh' eq_refl) as [Hh1 Hlt]. apply IH; [|done|].
    + split; [|simpl; by rewrite Hm]. unfold closing. cbn. rewrite Hm. split; [done|].
      split; [done|]. split; [done|by exists pc'].
    + cbn. intros p' [= <-]. specialize (Hn pc Hpc). lia.
  - apply IH; [done|done|]. intros p Hp. destruct (waiting_cases s Hw) as [(Hm & _)|(_ & _ & Hp' & _)].
    + unfold enabled in He. rewrite Hm, Hp in He. destruct p; try done. simpl. lia.
    + assert (p = PcExit) as -> by congruence. simpl. lia.
Qed.

Lemma wp_closing_end s :
  waiting s → sy_plc s = Some PcExit → sy_wl s = Some PcExit →
  wp closing_fault (schedule [Main; Main]) (λ _ s', sy_main s' = MainEnd EXIT_SUCCESS ∧ gone s') s.
Proof using.
  intros [Hc Hl] Hp Hw.
  assert (Hend : ∀ s1, closing s1 → main_left (sy_main s1) = 0%nat →
    sy_main s1 = MainEnd EXIT_SUCCESS ∧ gone s1).
  { intros s1 Hc1 H1. unfold closing in Hc1. destruct (sy_main s1); try done. by destruct Hc1 as [G ->]. }
  assert (Hlast : ∀ s1, closing s1 → (main_left (sy_main s1) ≤ 1)%nat →
    wp closing_fault (schedule [Main]) (λ _ s', sy_main s' = MainEnd EXIT_SUCCESS ∧ gone s') s1).
  { intros s1 Hc1 H1. rewrite wp_schedule_cons. destruct (enabled Main s1) eqn:He.
    - eapply wp_mono; [by apply wp_closing_main|]. intros ? s2 [Hc2 H2]. apply Hend; [done|lia].
    - apply Hend; [done|]. unfold enabled in He. destruct (sy_main s1); try done; simpl in *; lia. }
  rewrite wp_schedule_cons. destruct (enabled Main s) eqn:He.
  - eapply wp_mono; [by apply wp_closing_main|]. intros ? s1 [Hc1 H1]. apply Hlast; [done|lia].
  - apply Hlast; [done|]. unfold enabled in He. rewrite Hp, Hw in He.
    destruct (sy_main s); try done; simpl in *; lia.
Qed.
End System.

(** ** Theorems *)

(** C3: the process is safe from the first line of main to its end, whatever the
    interleaving of the threads, the signals, the clients and the system do: once
    the threads run, both media satisfy their invariants and all ids are different;
    main throws nothing that it does not catch and has no bad access; a piece of a
    medium's thread fails with no bad access, deadlock or endless loop, except for
    the use of a node that was deleted while its Tx list still pointed to it; the
    signal handler has none, except for the use of the simulator after main has
    deleted it; and when it is deleted, the threads have ended and no node is
    left. *)
Theorem process_safe `{AL : Allocator} `{HO : HashOrder} (s0 s : system) :
  initial s0 → reachable s0 s →
  (sy_plc s ≠ None → sy_ptr s ≠ SimDeleted → sim_inv (sy_sim s)) ∧
  (∀ a f s', enabled a s = true → act a s = (Fail f, s') →
     match a with
     | Main => benign f ∧ throws f = false
     | Plc => benign f ∨ f = Undef UseAfterFree ∧ dangling (ns_plcMedium (sy_sim s'))
     | Wl => benign f ∨ f = Undef UseAfterFree ∧ dangling (ns_wlMedium (sy_sim s'))
     | Signal _ => benign f ∨ f = Undef UseAfterFree ∧ sy_ptr s' = SimDeleted
     end) ∧
  (sy_ptr s = SimDeleted → sy_plc s = Some PcExit ∧ sy_wl s = Some PcExit ∧
     w_nodes (ns_plcMedium (sy_sim s)) = ∅ ∧ w_nodes (ns_wlMedium (sy_sim s)) = ∅).
Proof.
  intros Hi Hr. pose proof (reachable_inv _ _ Hi Hr) as V. split_and!.
  - intros Hp Hn. by destruct V as [_ ? _ _|[I _] _|(_ & _ & _ & ? & _)].
  - intros a f s' He Ha. pose proof (wp_act a s V He) as W. unfold wp in W. rewrite Ha in W.
    by destruct a.
  - intros Hn. destruct V as [_ _ _ ?|[I _] D|(_ & ? & ? & _ & ? & ?)]; [congruence| |done].
    unfold during in D. destruct (sy_main s); try done; destruct_and?; congruence.
Qed.

(** No option; handlers for all three signals; a clock of a nanosecond; the
    unblocker's pipe on 5 and 6; two media, two threads, two servers; a client of
    the Hanadu server; a signal, which the acceptor sees through the pipe.  Of the
    memory of the simulator only the unblocker's flag is known. *)
Definition main_script : list answer :=
  [ans (-1) []] ++ replicate 5 (ans 0 []) ++
  [ans_time 0 (Timespec 0 1); ans 0 []; ans 0 []; Answer 0 0 [] (Timespec 0 0) [] [5; 6]] ++
  replicate 8 (ans 0 []) ++
  [ans 0 []; ans 7 []; ans 0 []; ans 0 []; ans 8 []; ans 0 []; ans 1 []; ans 1 []] ++
  [ans 0 []; ans 9 []; ans 0 []; ans 0 []; ans 10 []; ans 0 []; ans 1 []; ans 1 []] ++
  [ans 0 []; ans 0 []; ans 3 []; ans 4 []] ++ replicate 14 (ans 0 []) ++
  [Answer 1 0 [] (Timespec 0 0) [] [3]; ans 17 []; ans 0 []; ans 0 []; ans 18 []; ans 0 [];
   ans 0 []; ans 0 []; ans 1 []; ans 0 []; Answer 1 0 [] (Timespec 0 0) [] [5]; ans 1 []].
Definition thread_script : list answer := ans_time 0 (Timespec 10 0) :: medium_script.
Definition memory : simulator :=
  Sim (os_of main_script) true true 0 0 false (SocketUnblocker.Pipes 0 0)
    (active_world thread_script) (Handles 0 "" 0 0 0)
    (active_world thread_script) (Handles 0 "" 0 0 0) 0.
Definition process : system := Sys memory MainPrepare None None SimNULL [].

(** The start of the process, up to the acceptance of a client; a signal, and the
    pieces that are left then. *)
Definition to_signal : list actor :=
  [Main; Main; Main; Plc; Main; Main; Plc; Wl; Main; Wl; Main].
Definition from_signal : list actor :=
  replicate 5 Main ++ replicate 7 Plc ++ replicate 7 Wl ++ [Main; Main].

#[local] Notation run_of l s := (schedule (H := above_alloc) (H0 := map_order) l s).
Definition accepting : system := (run_of to_signal process).2.

Lemma process_safe_witness :
  let s' := (run_of (Signal SIGTERM :: from_signal) accepting).2 in
  sy_main s' = MainEnd EXIT_SUCCESS ∧ sy_plc s' = Some PcExit ∧ sy_wl s' = Some PcExit ∧
  w_nodes (ns_plcMedium (sy_sim s')) = ∅ ∧ w_nodes (ns_wlMedium (sy_sim s')) = ∅.
Proof.
  cbv zeta. split; [vm_compute; reflexivity|].
  apply (process_safe (AL := above_alloc) (HO := map_order) process _).
  - by repeat split.
  - apply (schedule_reachable (Signal SIGTERM :: from_signal) process accepting).
    + apply (schedule_reachable to_signal process process); [apply reach_init|].
      vm_compute. reflexivity.
    + vm_compute. reflexivity.
  - vm_compute. reflexivity.
Defined.



(** C38: what a signal does depends on where main is: until the assignment to [sim]
    it is lost, the simulator is started as if it had not come; from then on it
    sets the stop flag; and after the delete, which leaves [sim] as it was, the
    handler calls stop of the deleted simulator. *)
Theorem signal_windows `{AL : Allocator} `{HO : HashOrder} (s0 s : system) (signum : Z) :
  initial s0 → reachable s0 s → signum ∈ [SIGINT; SIGTERM] →
  let lost := wp (λ f _, benign f) (act (Signal signum))
    (λ _ s', ∃ o, s' = set_sy_sim (set_ns_os o (sy_sim s)) s) s in
  match sy_main s with
  | MainPrepare | MainNew _ | MainStartPlc | MainStartWl => lost
  | MainExit _ =>
      match sy_wl s with
      | None => lost
      | Some _ => act (Signal signum) s = (Fail (Undef UseAfterFree), s)
      end
  | MainEnd _ => enabled (Signal signum) s = false
  | _ => wp (λ f _, benign f) (act (Signal signum))
      (λ _ s', ∃ o, s' = set_sy_sim (set_ns_os o (set_ns_stop true (sy_sim s))) s) s
  end.
Proof.
  intros Hi Hr Hsig lost. pose proof (reachable_inv _ _ Hi Hr) as V.
  assert (Hlost : sy_ptr s = SimNULL → lost).
  { intros Hn. eapply wp_mono_E; [eapply wp_mono; [apply wp_act_signal|]|].
    - intros ? s' (o & b & Hb & ->). rewrite Hn, andb_false_r in Hb. subst b. by exists o; destruct s as [[]].
    - intros f s' [[Hf|[_ Hd]] _]; [done|congruence]. }
  assert (Hstop : sy_ptr s = SimObject → wp (λ f _, benign f) (act (Signal signum))
      (λ _ s', ∃ o, s' = set_sy_sim (set_ns_os o (set_ns_stop true (sy_sim s))) s) s).
  { intros Hn. eapply wp_mono_E; [eapply wp_mono; [apply wp_act_signal|]|].
    - intros ? s' (o & b & Hb & ->). rewrite !bool_decide_true in Hb by done. subst b. by exists o.
    - intros f s' [[Hf|[_ Hd]] _]; [done|congruence]. }
  assert (Hgone : sy_ptr s = SimDeleted → act (Signal signum) s = (Fail (Undef UseAfterFree), s)).
  { intros Hn. destruct s as [sim pc plc wl ptr handled]. cbn in Hn. subst ptr.
    unfold act, mbind, M_bind, gets, in_sim, zoom, signal_handler. cbn [sy_ptr sy_sim].
    rewrite bool_decide_true by done. by destruct sim. }
  destruct V as [Hm _ Hw Hn|M D|(Hm & Hp & Hw & Hn & N1 & N2)].
  - destruct (sy_main s) eqn:Em; try done; try (by apply Hlost); [by rewrite Hw; apply Hlost|].
    unfold enabled. by rewrite Em.
  - unfold during in D. destruct (sy_main s) eqn:Em; try (by destruct_and?; auto).
    + destruct D as [Hw Hn]. rewrite Hw. by apply Hlost.
    + unfold enabled. by rewrite Em.
  - destruct (sy_main s) eqn:Em; try done; [by rewrite Hw; auto|]. unfold enabled. by rewrite Em.
Qed.

(** From the signal to the end of main, but for exit. *)
Definition to_exit : list actor :=
  Signal SIGTERM :: replicate 5 Main ++ replicate 7 Plc ++ replicate 7 Wl ++ [Main].

(** A signal while the media are made, one while clients are accepted, and one
    before the process ends. *)
Lemma signal_windows_witness :
  (sy_main (run_of [Main] process).2, sy_ptr (run_of [Main] process).2) = (MainNew false, SimNULL) ∧
  sy_main accepting = MainAccept 0 ∧
  let s := (run_of to_exit accepting).2 in
  sy_main s = MainExit EXIT_SUCCESS ∧ enabled (Signal SIGINT) s = true ∧
  act (H := above_alloc) (H0 := map_order) (Signal SIGINT) s = (Fail (Undef UseAfterFree), s).
Proof.
  split; [vm_compute; reflexivity|]. split; [vm_compute; reflexivity|].
  cbv zeta. split; [vm_compute; reflexivity|]. split; [vm_compute; reflexivity|].
  apply (signal_windows (AL := above_alloc) (HO := map_order) process
    (run_of to_exit accepting).2 SIGINT).
  - by repeat split.
  - apply (schedule_reachable to_exit process accepting).
    + apply (schedule_reachable to_signal process process); [apply reach_init|].
      vm_compute. reflexivity.
    + vm_compute. reflexivity.
  - left.
Defined.
